(* ===== verification/_CoqProject ===== *)
-Q . S2P
Prelude.v
GoStrings.v
Encoding.v
Sha256.v
Json.v
Url.v
Storage.v
Http.v
Time.v
Backends.v
Reference.v
AesGcm.v
KeyService.v
KeyRest.v
Fakes.v
GcpKms.v
Vault.v
Pkcs11.v
Gcs.v
Rustfs.v
SigSpec.v
Signers.v
Token.v
Config.v
KeyServices.v
KeyWitnesses.v
Api.v
Testutil.v
Server.v
Startup.v
System.v
Witnesses.v
Concurrent.v
ConcurrentMirror.v
MirroredRequests.v
KeyConcurrent.v
Main.v
Lifecycle.v
