(* ===== verification/Prelude.v ===== *)
(** * ortholog-artifact-store: a verification library

    The program is an HTTP store for immutable artifacts addressed by the hash
    of their bytes (CIDs), with pluggable object-store backends, optional signed
    upload tokens, and key services that encrypt artifacts and manage their
    keys.  This library models its Go sources as executable definitions and
    proves what makes them correct.

    ** Parts of the program and where they are modelled

    - api/push.go, fetch.go, exists.go, pin.go, delete.go, resolve.go,
      health.go, helpers.go, wire.go: the handlers, in Api.v, one definition
      per [ServeHTTP] ([push_ServeHTTP], ...).  A handler is a computation
      [M S (option Response)] on the state [S] of its backend; it returns the
      response ([None] when nothing was written) and the log records emitted.
    - api/token.go: the Ed25519 upload-token verifier, in Token.v.
    - api/server.go: [NewMux] and the routing, cleaning, 404 and 405 behaviour
      of net/http it relies on, in Server.v.
    - backends/backend.go, mirrored.go: the backend interface
      [BackendProvider S], the in-memory backend and the mirror, in Storage.v
      and Backends.v; the reference instances, in Reference.v.
    - backends/gcs.go, rustfs.go: the object-store backends over an HTTP client,
      in Gcs.v and Rustfs.v.
    - internal/testutil/httpfakes.go: the fake servers those backends are tested
      against, in Fakes.v; cidvectors.go and hash.go in Sha256.v, with
      [ComputeCID] in Reference.v and [DeterministicBytes] in Testutil.v;
      notsupported_backend.go in Backends.v; slogcapture.go and goleak.go in
      Testutil.v.
    - internal/signers: AWS and GCS V4 signing, in Signers.v; the published
      algorithm they are compared with, in SigSpec.v.
    - config/config.go: [Load] and its validation, in Config.v.
    - cmd/artifact-store: token.go and the helpers of main.go in Startup.v,
      keyservice.go in KeyServices.v, the start-up sequence of [main] in
      Main.v; serving, signals, [Shutdown] and exit in Lifecycle.v.
    - Requests in progress at the same time, as net/http serves them:
      Concurrent.v; operations of a mirrored store in progress at the same time:
      ConcurrentMirror.v; requests served over such a store: MirroredRequests.v;
      operations of one key service in progress at the same time:
      KeyConcurrent.v.
    - keyservice/internals.go and the code the services share: KeyService.v,
      on AesGcm.v (AES-256-GCM); their REST calls: KeyRest.v; vault.go and
      vault_api.go: Vault.v; gcpkms*.go and the fakes of gcpkms_test.go:
      GcpKms.v; pkcs11*.go: Pkcs11.v.
    - The Go standard library as far as it is used: strings, strconv, sort
      (GoStrings.v), base64 and hex (Encoding.v), crypto/sha256 and hmac
      (Sha256.v), encoding/json (Json.v), net/url (Url.v), time (Time.v),
      net/http bodies, clients and header names (Http.v).

    The handlers call a backend through [BackendProvider]; the mirror wraps two
    of them; GCS, RustFS, Vault and GCP KMS call an HTTP [Client] whose network
    is the state of the computation; PKCS#11 calls a record of token operations
    ([Ctx]).  A key service is an [ArtifactKeyService] on a remote world and a
    process ([Proc]) whose memory holds the buffers it allocates, so that wiping
    a buffer is a statement about that memory.

    ** Concurrency

    The handlers share the backend and the logger and nothing else, so the
    unit of interleaving is one backend call.  What a request does between
    calls is not written down a second time: [replay] runs [NewMux] itself over
    a scripted backend that gives the answers received so far, and shows the
    next operation asked for, or the response.  [pstep] interleaves any number
    of such processes; [request_alone] shows that one process alone is the
    handler.  The same construction over [MirroredStore] makes a mirrored
    operation two steps, the primary's and the mirror's ([mirror_alone]), and
    over [NewMux] on top of it, a request over a mirrored store a sequence of
    calls on either side ([mirrored_alone]); over [rotate_with] it makes a
    rotation three critical sections of the key service ([rotate_alone]).  The
    life of the process is an event-labelled step function ([lstep]): the
    program counters of [main] and of the signal goroutine, the state of the
    server and of the watchdog, and the requests in flight with the records
    their handlers have still to write; writing a late record, cancelling the
    context and ending the process are steps of their own.

    ** Representation

    A Go [string] is a Standard Library [string] of bytes, a [[]byte] a [list
    byte], an [int64] or [time.Duration] a [Z] with [wrap64] where the source
    can overflow, a map a [gmap].  Errors are values ([Result], [option error])
    with the wrapping that [errors.Is] sees.  Effects are the monad [M S]: a
    state change and the log records written, in order.  Defers are run where
    the function returns.

    ** Parameters

    The SDK's CIDs, its in-memory store and its ECIES envelope ([SDK],
    [SDKMemory], [ArtifactSDK]), Ed25519 verification, secp256k1 points, RSA,
    PEM blocks, the file system, the random source, the network and the HSM are
    parameters, with named classes for the documented behaviour a theorem needs
    ([SDKLaws], [ArtifactSDKLaws], [HonestGCS], [HonestTransit], [HonestKV],
    [HonestToken]).  [HonestTransit] is Vault's Transit engine, whose keys are
    deleted only once [deletion_allowed] is configured; [HonestToken] is a
    PKCS#11 token with the login state its sessions share and searches that
    hand out each match once; [VaultState] and [TokenState] are what can be
    observed of either.  Reference.v, Witnesses.v and KeyWitnesses.v instantiate
    all of them by concrete functions and apply the theorems there.

    ** What the theorems show

    - The service (System.v): over a backend that implements a map from CID
      strings to bytes ([Refines]), any request sequence is answered as the
      abstract map service answers it; every 200 download hashes to its CID;
      uploads can be downloaded until deleted; every push is refused with one
      audit record, or stored with all checks passed, or meets the sentinel-kid
      case.
    - Concurrent requests (Concurrent.v): over a backend whose operations are
      atomic and implement a map, every run is linearizable to the abstract map
      service: one order of its requests, which respects real time over the
      whole history of the run ([linearizes]), explains all answers and the
      final map; downloads verify in every interleaving over any sound backend.
      Main.v shows the linearizability of the server that [main] configures
      from its environment.
    - Concurrent mirroring (ConcurrentMirror.v): agreeing pushes leave the two
      sides equal in every interleaving, an overlapping push and delete need
      not.  Requests over a mirrored store (MirroredRequests.v): downloads verify
      in every interleaving of the calls on the two sides.
    - The life of the process (Lifecycle.v): each accepted request is answered,
      in flight or dropped, and each exit code has its own causes and records;
      after [Shutdown] is called the process ends, but requests in flight can be
      dropped, since [main] does not wait.
    - Upload tokens (Token.v, Api.v, Main.v): acceptance is characterised
      exactly, with its rejections, audit reasons and key rotation; policy
      "required" is enforced by every process that starts under it.
    - Backends (Backends.v, Gcs.v, Rustfs.v): the mirror's behaviour on every
      failure, and the refinement of the map by GCS and RustFS over the fakes.
    - Key services (KeyService.v, GcpKms.v, Vault.v, Pkcs11.v, KeyServices.v):
      each service implements the keyring contract [KeyContract], so that what
      it encrypts it decrypts ([services_round_trip]), and rotation and deletion
      erase; key buffers are wiped on every network and token, with the two
      exceptions [keys_wiped] states; outages are reported as such; a failed
      Vault write is rolled back.  Two rotations of one artifact
      that overlap can both succeed (KeyConcurrent.v).
    - Signing (Signers.v): signed requests and presigned URLs carry the
      signature of the published algorithm (SigSpec.v, checked on the published
      worked examples) over the canonical request with path and query as they
      stand in the URL; exactly when those are in canonical form is that the
      canonical request, and for the key of an artifact, which has a colon, it
      is not.
    - Configuration and start-up (Config.v, Startup.v, KeyServices.v, Main.v):
      loaded configurations are well formed, operator keys round-trip, building
      a verifier fails closed, the selected key service is constructed.
    - Bounds: the body limit and its overflow at the largest int64, the range
      of the expiry parameter.

    ** Fuel

    The JSON parser ([parse] in Json.v) recurses on the fuel [parse_fuel], twice
    the length of its input plus two; [parse_value_fuel] shows that more fuel
    never changes the result.  SHA-256 absorbs one block per step with as many
    steps as there are words.  [runVerifyOnPushWatchdog] takes the number of ticks before
    cancellation.  [drive] in Concurrent.v takes a number of backend calls; two
    are enough for every request and every mirrored operation ([request_alone],
    [mirror_alone]), three for every request over a mirrored store and every
    rotation ([mirrored_alone], [rotate_alone]), and no other theorem uses it.
    Everything else is structurally recursive.

    ** Not modelled

    Sockets and connections below the level of accepted requests; the race of
    a request with the clock (a request sees one reading of it); atomicity
    within one call of an object store, which is the store's own; the
    interleaving of REST calls within one operation of the Vault and GCP key
    services, whose mutex guards only a cache nobody reads (KeyConcurrent.v
    interleaves whole operations and the sections of rotations); the retrying
    transport of the HTTP client; interface_guards.go (compile-time assertions); doc.go and
    json_helper.go of the key services; [goleak.Find], the generator behind
    math/rand's seeded source (its integers are a parameter of
    [DeterministicBytes]) and the test suites under tests/.  Error texts produced
    inside the Go runtime are parameters ([Diag]).

    This file holds the shared data, effects, tactics and generic lemmas. *)

From Stdlib Require Export ZArith Lia.
From Stdlib Require Export Strings.Byte.
From stdpp Require Export base tactics list gmap strings pretty.

#[export] Set Default Goal Selector "!".

Declare Scope go_scope.
Delimit Scope go_scope with go.

(** ** Byte slices *)

(** A Go [[]byte].  A Go [string] is the Standard Library's [string], whose
    characters are the bytes of the Go string. *)
Abbreviation bytes := (list Byte.byte).

(** [[]byte(s)] and [string(b)]. *)
Definition to_bytes (s : string) : bytes := String.list_byte_of_string s.
Definition of_bytes (b : bytes) : string := String.string_of_list_byte b.

#[export] Instance byte_eq_dec : EqDecision Byte.byte := Byte.byte_eq_dec.

Lemma of_to_bytes s : of_bytes (to_bytes s) = s.
Proof. apply String.string_of_list_byte_of_string. Qed.

Lemma to_of_bytes b : to_bytes (of_bytes b) = b.
Proof. apply String.list_byte_of_string_of_list_byte. Qed.

(** The byte with a given value, modulo 256 (Go's [byte(n)] conversion). *)
Definition byte_of_N (n : N) : Byte.byte :=
  match Byte.of_N (n mod 256) with Some b => b | None => x00 end.

Lemma to_N_lt b : (Byte.to_N b < 256)%N.
Proof. pose proof (Byte.to_N_bounded b). lia. Qed.

Lemma to_N_byte_of_N n : Byte.to_N (byte_of_N n) = (n mod 256)%N.
Proof.
  unfold byte_of_N. destruct (Byte.of_N (n mod 256)) as [b|] eqn:E.
  - by apply Byte.to_of_N in E.
  - apply Byte.of_N_None_iff in E.
    pose proof (N.mod_upper_bound n 256). lia.
Qed.

Lemma byte_of_to_N b : byte_of_N (Byte.to_N b) = b.
Proof.
  apply (inj Some). rewrite <- !Byte.of_to_N.
  rewrite to_N_byte_of_N, N.mod_small by apply to_N_lt.
  done.
Qed.

Lemma to_N_inj a b : Byte.to_N a = Byte.to_N b → a = b.
Proof. intros H. by rewrite <- (byte_of_to_N a), H, byte_of_to_N. Qed.

(** ** Machine integers *)

Definition min_int64 : Z := - 2 ^ 63.
Definition max_int64 : Z := 2 ^ 63 - 1.

(** Go's [int64] arithmetic wraps around in two's complement. *)
Definition wrap64 (z : Z) : Z := (z + 2 ^ 63) mod 2 ^ 64 - 2 ^ 63.

Definition in_int64 (z : Z) : Prop := (min_int64 ≤ z ≤ max_int64)%Z.
#[export] Instance in_int64_dec z : Decision (in_int64 z).
Proof. unfold in_int64. apply _. Defined.

Lemma wrap64_range z : in_int64 (wrap64 z).
Proof.
  unfold in_int64, min_int64, max_int64, wrap64.
  pose proof (Z.mod_pos_bound (z + 2 ^ 63) (2 ^ 64)). lia.
Qed.

Lemma wrap64_id z : in_int64 z → wrap64 z = z.
Proof.
  unfold in_int64, min_int64, max_int64, wrap64. intros H.
  rewrite Z.mod_small by lia. lia.
Qed.

(** ** Errors *)

(** The sentinel errors the program compares against with [errors.Is]. *)
Inductive sentinel :=
  (* ortholog-sdk/storage *)
  | ErrContentNotFound | ErrNotSupported
  (* api/token.go *)
  | ErrTokenMalformed | ErrTokenBadSignature | ErrTokenExpired
  | ErrTokenCIDMismatch | ErrTokenSizeMismatch | ErrTokenPayloadInvalid
  | ErrTokenUnknownKid
  (* ortholog-sdk/lifecycle/artifact *)
  | ErrKeyNotFound | ErrServiceUnavailable | ErrInvalidRecipientKey
  | ErrCiphertextMismatch
  (* keyservice/*_api.go *)
  | ErrVaultNotFound | ErrGCPNotFound | ErrPKCS11NotFound.

#[export] Instance sentinel_eq_dec : EqDecision sentinel.
Proof. solve_decision. Defined.

(** A Go [error] value: its text, and the sentinels on its [Unwrap] chain. *)
Record error := MkError { Error : string; chain : list sentinel }.

#[export] Instance error_eq_dec : EqDecision error.
Proof. solve_decision. Defined.

(** [errors.New(msg)] and [fmt.Errorf] with no [%w] verb. *)
Definition errors_New (msg : string) : error := MkError msg [].

(** [errors.Is(err, target)]. *)
Definition errors_Is (e : error) (t : sentinel) : bool := bool_decide (t ∈ chain e).

(** [fmt.Errorf(pre + "%w" + post, e)]. *)
Definition wrapf (pre : string) (e : error) (post : string) : error :=
  MkError (pre +:+ Error e +:+ post) (chain e).

Lemma errors_Is_wrapf pre e post t :
  errors_Is (wrapf pre e post) t = errors_Is e t.
Proof. done. Qed.

Lemma errors_Is_New msg t : errors_Is (errors_New msg) t = false.
Proof. done. Qed.

(** The [(T, error)] convention. *)
Inductive Result (A : Type) :=
  | Ok (a : A)
  | Err (e : error).
Arguments Ok {A} _.
Arguments Err {A} _.

#[export] Instance Result_eq_dec {A} `{EqDecision A} : EqDecision (Result A).
Proof. solve_decision. Defined.

#[export] Instance Result_ret : MRet Result := λ A a, Ok a.
#[export] Instance Result_bind : MBind Result := λ A B f m,
  match m with Ok a => f a | Err e => Err e end.

#[export] Instance Ok_inj {A} : Inj (=) (=) (@Ok A).
Proof. by intros ?? [=]. Qed.
#[export] Instance Err_inj {A} : Inj (=) (=) (@Err A).
Proof. by intros ?? [=]. Qed.

Definition is_Ok {A} (r : Result A) : bool :=
  match r with Ok _ => true | Err _ => false end.

(** [fmt.Errorf(pre + "%w", err)] on the error side of a result. *)
Definition map_err {A} (f : error → error) (r : Result A) : Result A :=
  match r with Ok a => Ok a | Err e => Err (f e) end.

Lemma bind_Ok {A B} (m : Result A) (f : A → Result B) b :
  (m ≫= f) = Ok b ↔ ∃ a, m = Ok a ∧ f a = Ok b.
Proof.
  unfold mbind, Result_bind. destruct m as [a|e]; [|split; [done|by intros (? & [=] & _)]].
  split; [by exists a|]. by intros (a' & [= ->] & ?).
Qed.

(** ** Structured logging (log/slog) *)

Inductive Level := LevelInfo | LevelWarn | LevelError.

#[export] Instance Level_eq_dec : EqDecision Level.
Proof. solve_decision. Defined.

(** Attribute values the program logs. *)
Inductive attr :=
  | AStr (s : string)
  | AInt (z : Z)
  | ABool (b : bool)
  | AStrs (l : list string).

#[export] Instance attr_eq_dec : EqDecision attr.
Proof. solve_decision. Defined.

Record LogRecord := MkLog {
  log_level : Level;
  log_msg : string;
  log_attrs : list (string * attr) }.

#[export] Instance LogRecord_eq_dec : EqDecision LogRecord.
Proof. solve_decision. Defined.

(** The value logged under a key. *)
Fixpoint assoc {A} (k : string) (l : list (string * A)) : option A :=
  match l with
  | [] => None
  | (k', v) :: l => if String.eqb k k' then Some v else assoc k l
  end.

Definition log_attr (k : string) (r : LogRecord) : option attr :=
  assoc k (log_attrs r).

(** ** Effects *)

(** A computation that changes a state of type [S] and writes log records:
    the state is whatever the code at hand mutates (a remote object store, an
    HSM, a cache), the records are what the shared [*slog.Logger] receives,
    in order. *)
Definition M (S A : Type) : Type := S → A * S * list LogRecord.

#[export] Instance M_ret {S} : MRet (M S) := λ A a s, (a, s, []).
#[export] Instance M_bind {S} : MBind (M S) := λ A B f m s,
  match m s with
  | (a, s', l) => match f a s' with (b, s'', l') => (b, s'', l ++ l') end
  end.

#[export] Instance M_fmap {S} : FMap (M S) := λ A B f m s,
  match m s with (a, s', l) => (f a, s', l) end.

(** [logger.Warn(...)], [logger.Info(...)]. *)
Definition log {S} (r : LogRecord) : M S () := λ s, ((), s, [r]).

Definition warn {S} (msg : string) (attrs : list (string * attr)) : M S () :=
  log (MkLog LevelWarn msg attrs).
Definition info {S} (msg : string) (attrs : list (string * attr)) : M S () :=
  log (MkLog LevelInfo msg attrs).

(** Result, final state and log of a run. *)
Definition run_val {S A} (m : M S A) (s : S) : A := (m s).1.1.
Definition run_state {S A} (m : M S A) (s : S) : S := (m s).1.2.
Definition run_log {S A} (m : M S A) (s : S) : list LogRecord := (m s).2.

(** Run a computation on one half of a pair of states. *)
Definition on_fst {S T A} (m : M S A) : M (S * T) A := λ '(s, t),
  match m s with (a, s', l) => (a, (s', t), l) end.
Definition on_snd {S T A} (m : M T A) : M (S * T) A := λ '(s, t),
  match m t with (a, t', l) => (a, (s, t'), l) end.

Lemma M_bind_eq {S A B} (m : M S A) (f : A → M S B) s :
  (m ≫= f) s =
    let '(a, s', l) := m s in
    let '(b, s'', l') := f a s' in (b, s'', l ++ l').
Proof. reflexivity. Qed.

Lemma M_bind_ret_l {S A B} (a : A) (f : A → M S B) s : (mret a ≫= f) s = f a s.
Proof. rewrite M_bind_eq. unfold mret, M_ret. by destruct (f a s) as [[b s'] l]. Qed.

Lemma M_bind_assoc {S A B C} (m : M S A) (f : A → M S B) (g : B → M S C) s :
  ((m ≫= f) ≫= g) s = (m ≫= λ a, f a ≫= g) s.
Proof.
  rewrite !M_bind_eq. destruct (m s) as [[a s1] l1]. rewrite M_bind_eq.
  destruct (f a s1) as [[b s2] l2]. destruct (g b s2) as [[c s3] l3].
  by rewrite (base.assoc (++)).
Qed.

Lemma run_state_bind {S A B} (m : M S A) (f : A → M S B) s :
  run_state (m ≫= f) s = run_state (f (run_val m s)) (run_state m s).
Proof.
  unfold run_state, run_val. rewrite M_bind_eq.
  destruct (m s) as [[a s1] l1]. cbn [fst snd]. by destruct (f a s1) as [[b s2] l2].
Qed.

Lemma run_val_bind {S A B} (m : M S A) (f : A → M S B) s :
  run_val (m ≫= f) s = run_val (f (run_val m s)) (run_state m s).
Proof.
  unfold run_state, run_val. rewrite M_bind_eq.
  destruct (m s) as [[a s1] l1]. cbn [fst snd]. by destruct (f a s1) as [[b s2] l2].
Qed.

Lemma run_log_bind {S A B} (m : M S A) (f : A → M S B) s :
  run_log (m ≫= f) s = run_log m s ++ run_log (f (run_val m s)) (run_state m s).
Proof.
  unfold run_state, run_val, run_log. rewrite M_bind_eq.
  destruct (m s) as [[a s1] l1]. cbn [fst snd]. by destruct (f a s1) as [[b s2] l2].
Qed.

Lemma run_val_fmap {S A B} (f : A → B) (m : M S A) s : run_val (f <$> m) s = f (run_val m s).
Proof. unfold run_val, fmap, M_fmap. by destruct (m s) as [[]]. Qed.
Lemma run_state_fmap {S A B} (f : A → B) (m : M S A) s : run_state (f <$> m) s = run_state m s.
Proof. unfold run_state, fmap, M_fmap. by destruct (m s) as [[]]. Qed.
Lemma run_log_fmap {S A B} (f : A → B) (m : M S A) s : run_log (f <$> m) s = run_log m s.
Proof. unfold run_log, fmap, M_fmap. by destruct (m s) as [[]]. Qed.
Lemma run_val_ret {S A} (a : A) (s : S) : run_val (mret a) s = a.
Proof. done. Qed.
Lemma run_state_ret {S A} (a : A) (s : S) : run_state (mret a : M S A) s = s.
Proof. done. Qed.
Lemma run_log_ret {S A} (a : A) (s : S) : run_log (mret a : M S A) s = [].
Proof. done. Qed.
Lemma run_state_log {S} r (s : S) : run_state (log r) s = s.
Proof. done. Qed.
Lemma run_log_log {S} r (s : S) : run_log (log r) s = [r].
Proof. done. Qed.
Lemma run_state_warn {S} msg attrs (s : S) : run_state (warn msg attrs) s = s.
Proof. done. Qed.
Lemma run_log_warn {S} msg attrs (s : S) :
  run_log (warn msg attrs) s = [MkLog LevelWarn msg attrs].
Proof. done. Qed.
Lemma run_state_info {S} msg attrs (s : S) : run_state (info msg attrs) s = s.
Proof. done. Qed.
Lemma run_log_info {S} msg attrs (s : S) :
  run_log (info msg attrs) s = [MkLog LevelInfo msg attrs].
Proof. done. Qed.
Lemma run_val_on_fst {S T A} (m : M S A) (s : S) (t : T) :
  run_val (on_fst m) (s, t) = run_val m s.
Proof. unfold run_val, on_fst. by destruct (m s) as [[]]. Qed.
Lemma run_state_on_fst {S T A} (m : M S A) (s : S) (t : T) :
  run_state (on_fst m) (s, t) = (run_state m s, t).
Proof. unfold run_state, on_fst. by destruct (m s) as [[]]. Qed.
Lemma run_log_on_fst {S T A} (m : M S A) (s : S) (t : T) :
  run_log (on_fst m) (s, t) = run_log m s.
Proof. unfold run_log, on_fst. by destruct (m s) as [[]]. Qed.
Lemma run_val_on_snd {S T A} (m : M T A) (s : S) (t : T) :
  run_val (on_snd m) (s, t) = run_val m t.
Proof. unfold run_val, on_snd. by destruct (m t) as [[]]. Qed.
Lemma run_state_on_snd {S T A} (m : M T A) (s : S) (t : T) :
  run_state (on_snd m) (s, t) = (s, run_state m t).
Proof. unfold run_state, on_snd. by destruct (m t) as [[]]. Qed.
Lemma run_log_on_snd {S T A} (m : M T A) (s : S) (t : T) :
  run_log (on_snd m) (s, t) = run_log m t.
Proof. unfold run_log, on_snd. by destruct (m t) as [[]]. Qed.

(** Symbolic execution of effectful code. *)
Create Rewrite HintDb run.
#[export] Hint Rewrite @run_val_bind @run_state_bind @run_log_bind @run_val_fmap
  @run_state_fmap @run_log_fmap @run_val_ret
  @run_state_ret @run_log_ret @run_state_log @run_log_log @run_state_warn
  @run_log_warn @run_state_info @run_log_info @run_val_on_fst
  @run_state_on_fst @run_log_on_fst @run_val_on_snd @run_state_on_snd @run_log_on_snd : run.

Ltac run := autorewrite with run; cbn [fst snd].
Tactic Notation "run" "in" hyp(H) := autorewrite with run in H; cbn [fst snd] in H.

(** A computation is its value, final state and log. *)
Lemma run_eta {S A} (m : M S A) s : m s = (run_val m s, run_state m s, run_log m s).
Proof. unfold run_val, run_state, run_log. by destruct (m s) as [[]]. Qed.
