(* ===== verification/GoStrings.v ===== *)
(** * The parts of Go's [strings], [strconv] and [sort] the program calls

    Byte-indexed operations on Go strings ([IndexByte], slicing, prefixes,
    [Split], [TrimSpace]) and number/boolean parsing and printing, with the
    lemmas the token parser, the configuration loader and the handlers use. *)

From Stdlib Require Import Ascii.
From stdpp Require Import sorting.
From S2P Require Import Prelude.

Open Scope Z_scope.

(** Go's [len] on strings and on byte slices. *)
Definition len (s : string) : Z := Z.of_nat (String.length s).
Definition blen (b : bytes) : Z := Z.of_nat (length b).

(** ** Slicing *)

(** [s[:n]] and [s[n:]] for [n] in range; out of range the code never goes. *)
Fixpoint str_take (n : nat) (s : string) {struct n} : string :=
  match n, s with
  | S n, String c s => String c (str_take n s)
  | _, _ => ""
  end.

Fixpoint str_drop (n : nat) (s : string) {struct n} : string :=
  match n, s with
  | O, _ => s
  | S n, String _ s => str_drop n s
  | S _, EmptyString => ""
  end.

Lemma str_app_nil_l s : "" +:+ s = s.
Proof. done. Qed.

Lemma str_app_cons c s t : String c s +:+ t = String c (s +:+ t).
Proof. done. Qed.

Lemma str_app_nil_r s : s +:+ "" = s.
Proof. induction s as [|c s IH]; [done|]. by rewrite str_app_cons, IH. Qed.

Lemma str_app_assoc s t u : (s +:+ t) +:+ u = s +:+ (t +:+ u).
Proof. induction s as [|c s IH]; [done|]. by rewrite !str_app_cons, IH. Qed.

Lemma str_length_app s t :
  String.length (s +:+ t) = (String.length s + String.length t)%nat.
Proof. induction s as [|c s IH]; [done|]. rewrite str_app_cons. simpl. by rewrite IH. Qed.

Lemma str_take_app s t : str_take (String.length s) (s +:+ t) = s.
Proof. induction s as [|c s IH]; [by destruct t|]. rewrite str_app_cons. simpl. by rewrite IH. Qed.

Lemma str_drop_app s t : str_drop (String.length s) (s +:+ t) = t.
Proof. induction s as [|c s IH]; [done|]. rewrite str_app_cons. apply IH. Qed.

Lemma str_take_drop n s : str_take n s +:+ str_drop n s = s.
Proof.
  revert s. induction n as [|n IH]; intros [|c s]; [done..|]. simpl.
  by rewrite str_app_cons, IH.
Qed.

Lemma str_length_take n s : (n ≤ String.length s)%nat → String.length (str_take n s) = n.
Proof.
  revert s. induction n as [|n IH]; intros [|c s] H; simpl in *; [lia..|].
  rewrite IH; lia.
Qed.

Create Rewrite HintDb go_str.
#[export] Hint Rewrite str_app_nil_l str_app_nil_r str_app_assoc str_length_app
  str_take_app str_drop_app : go_str.

(** ** Searching *)

(** [strings.IndexByte]: the index of the first occurrence, or -1. *)
Fixpoint IndexByte (s : string) (c : ascii) : Z :=
  match s with
  | EmptyString => -1
  | String d s =>
      if Ascii.eqb d c then 0
      else let i := IndexByte s c in if i <? 0 then -1 else i + 1
  end.

(** Whether a byte occurs in a string. *)
Fixpoint str_has (c : ascii) (s : string) : bool :=
  match s with
  | EmptyString => false
  | String d s => Ascii.eqb d c || str_has c s
  end.

Lemma IndexByte_range s c : -1 ≤ IndexByte s c < len s.
Proof.
  unfold len.
  induction s as [|d s IH]; simpl; [lia|].
  destruct (Ascii.eqb d c); [lia|]. destruct (Z.ltb_spec (IndexByte s c) 0); lia.
Qed.

Lemma IndexByte_none s c : IndexByte s c < 0 ↔ str_has c s = false.
Proof.
  induction s as [|d s IH]; simpl; [split; [done|lia]|].
  destruct (Ascii.eqb d c); simpl; [split; [lia|done]|].
  destruct (Z.ltb_spec (IndexByte s c) 0) as [H|H].
  - split; [by intros _; apply IH|lia].
  - split; [lia|]. intros ?%IH. lia.
Qed.

Lemma IndexByte_app p c q :
  str_has c p = false → IndexByte (p +:+ String c q) c = len p.
Proof.
  unfold len.
  induction p as [|d p IH]; intros H.
  { rewrite str_app_nil_l. simpl. by rewrite Ascii.eqb_refl. }
  rewrite str_app_cons. simpl in *. apply orb_false_iff in H as [-> H].
  rewrite IH by done. destruct (Z.ltb_spec (Z.of_nat (String.length p)) 0); lia.
Qed.

(** The first occurrence splits the string around it. *)
Lemma IndexByte_split s c i :
  IndexByte s c = i → 0 ≤ i →
  s = str_take (Z.to_nat i) s +:+ String c (str_drop (Z.to_nat i + 1) s) ∧
  str_has c (str_take (Z.to_nat i) s) = false.
Proof.
  revert i. induction s as [|d s IH]; intros i Hi H0; simpl in Hi; [lia|].
  destruct (Ascii.eqb_spec d c) as [->|Hne]; [subst i; done|].
  destruct (Z.ltb_spec (IndexByte s c) 0) as [Hn|Hp]; [lia|].
  destruct (IH _ eq_refl Hp) as [Hs Hh].
  assert (Z.to_nat i = S (Z.to_nat (IndexByte s c))) as -> by lia.
  simpl. rewrite str_app_cons, <- Hs, Hh. split; [done|].
  by apply Ascii.eqb_neq in Hne as ->.
Qed.

Lemma str_has_app c s t : str_has c (s +:+ t) = str_has c s || str_has c t.
Proof. induction s as [|d s IH]; [done|]. rewrite str_app_cons. simpl. by rewrite IH, orb_assoc. Qed.

(** [strings.HasPrefix] and [strings.TrimPrefix]. *)
Fixpoint HasPrefix (s p : string) {struct p} : bool :=
  match p, s with
  | EmptyString, _ => true
  | String c p, String d s => Ascii.eqb c d && HasPrefix s p
  | String _ _, EmptyString => false
  end.

Definition TrimPrefix (s p : string) : string :=
  if HasPrefix s p then str_drop (String.length p) s else s.

(** [strings.HasSuffix] and [strings.TrimSuffix]. *)
Definition HasSuffix (s p : string) : bool :=
  (String.length p <=? String.length s)%nat &&
  String.eqb (str_drop (String.length s - String.length p) s) p.

Definition TrimSuffix (s p : string) : string :=
  if HasSuffix s p then str_take (String.length s - String.length p) s else s.

(** [strings.Contains]. *)
Fixpoint Contains (s sub : string) : bool :=
  HasPrefix s sub || match s with EmptyString => false | String _ s => Contains s sub end.

Lemma HasPrefix_app p q : HasPrefix (p +:+ q) p = true.
Proof. induction p as [|c p IH]; [by destruct q|]. rewrite str_app_cons. simpl. by rewrite Ascii.eqb_refl, IH. Qed.

Lemma HasPrefix_spec s p : HasPrefix s p = true ↔ ∃ q, s = p +:+ q.
Proof.
  split; [|intros [q ->]; apply HasPrefix_app].
  revert s. induction p as [|c p IH]; intros s H; [by exists s|].
  destruct s as [|d s]; [done|]. simpl in H.
  apply andb_true_iff in H as [->%Ascii.eqb_eq H].
  destruct (IH s H) as [q ->]. by exists q.
Qed.

Lemma TrimPrefix_app p q : TrimPrefix (p +:+ q) p = q.
Proof. unfold TrimPrefix. by rewrite HasPrefix_app, str_drop_app. Qed.

Lemma HasSuffix_app p q : HasSuffix (p +:+ q) q = true.
Proof.
  unfold HasSuffix. rewrite str_length_app, Nat.add_sub, str_drop_app.
  rewrite String.eqb_refl, andb_true_r. apply Nat.leb_le. lia.
Qed.

Lemma TrimSuffix_app p q : TrimSuffix (p +:+ q) q = p.
Proof.
  unfold TrimSuffix. rewrite HasSuffix_app, str_length_app, Nat.add_sub.
  apply str_take_app.
Qed.

(** Split around the first occurrence of a separator ([strings.SplitN(s, sep, 2)]
    when there is one). *)
Fixpoint cut (s sep : string) : option (string * string) :=
  if HasPrefix s sep then Some ("", str_drop (String.length sep) s)
  else match s with
       | EmptyString => None
       | String a s => '(x, y) ← cut s sep; Some (String a x, y)
       end.

Lemma cut_app x c sep y :
  str_has c x = false → cut (x +:+ String c sep +:+ y) (String c sep) = Some (x, y).
Proof.
  induction x as [|d x IH]; intros Hx.
  - rewrite str_app_nil_l. pose proof (HasPrefix_app (String c sep) y) as Hp.
    pose proof (str_drop_app (String c sep) y) as Hd. rewrite str_app_cons in *.
    cbn [cut] in *. by rewrite Hp, Hd.
  - cbn in Hx. apply orb_false_iff in Hx as [Hd Hx]. rewrite str_app_cons. cbn [cut HasPrefix].
    rewrite Ascii.eqb_sym in Hd. rewrite Hd. cbn [andb]. by rewrite IH.
Qed.

Lemma cut_free s c sep : str_has c s = false → cut s (String c sep) = None.
Proof.
  induction s as [|d s IH]; [done|]. cbn. intros [Hd Hs]%orb_false_iff.
  rewrite Ascii.eqb_sym in Hd. by rewrite Hd, IH.
Qed.

Lemma Contains_app x sub y : Contains (x +:+ sub +:+ y) sub = true.
Proof.
  induction x as [|d x IH].
  - rewrite str_app_nil_l. pose proof (HasPrefix_app sub y) as Hp.
    destruct (sub +:+ y); cbn [Contains]; by rewrite Hp.
  - rewrite str_app_cons. cbn [Contains]. by rewrite IH, orb_true_r.
Qed.

Lemma Contains_free s c sub : str_has c s = false → Contains s (String c sub) = false.
Proof.
  induction s as [|d s IH]; [done|]. cbn. intros [Hd Hs]%orb_false_iff.
  rewrite Ascii.eqb_sym in Hd. by rewrite Hd, IH.
Qed.

(** ** Splitting and trimming *)

(** [strings.Split(s, sep)] for a one-byte separator. *)
Fixpoint Split (s : string) (c : ascii) : list string :=
  match s with
  | EmptyString => [""]
  | String d s =>
      if Ascii.eqb d c then "" :: Split s c
      else match Split s c with
           | [] => [String d ""]
           | w :: ws => String d w :: ws
           end
  end.

(** [strings.Join(l, sep)]. *)
Fixpoint Join (sep : string) (l : list string) : string :=
  match l with
  | [] => ""
  | [w] => w
  | w :: ws => w +:+ sep +:+ Join sep ws
  end.

Lemma Split_not_nil s c : Split s c ≠ [].
Proof. destruct s as [|d s]; simpl; [done|]. destruct (Ascii.eqb d c); [done|]. by destruct (Split s c). Qed.

(** Splitting and joining are inverse. *)
Lemma Join_Split s c : Join (String c "") (Split s c) = s.
Proof.
  induction s as [|d s IH]; [done|]. simpl.
  pose proof (Split_not_nil s c) as Hn.
  destruct (Ascii.eqb_spec d c) as [->|_].
  - destruct (Split s c) as [|w ws]; [done|]. simpl in *. by rewrite IH.
  - destruct (Split s c) as [|w [|w' ws]]; simpl in *; [done|by subst|].
    by rewrite str_app_cons, IH.
Qed.

Lemma Split_no_sep s c w : w ∈ Split s c → str_has c w = false.
Proof.
  revert w. induction s as [|d s IH]; intros w; simpl.
  - by intros ->%list_elem_of_singleton.
  - destruct (Ascii.eqb d c) eqn:E.
    + intros [->|?]%elem_of_cons; [done|by apply IH].
    + destruct (Split s c) as [|w' ws] eqn:Es.
      * intros ->%list_elem_of_singleton. simpl. by rewrite E.
      * intros [->|H]%elem_of_cons.
        -- simpl. rewrite E. apply IH. by left.
        -- apply IH. by right.
Qed.

Lemma Split_single s c : str_has c s = false → Split s c = [s].
Proof.
  induction s as [|d s IH]; [done|]. simpl. intros [-> H]%orb_false_iff. by rewrite IH.
Qed.

Lemma Split_app a c b : str_has c a = false → Split (a +:+ String c b) c = a :: Split b c.
Proof.
  induction a as [|d a IH]; intros H.
  - rewrite str_app_nil_l. simpl. by rewrite Ascii.eqb_refl.
  - rewrite str_app_cons. simpl in *. apply orb_false_iff in H as [-> H]. by rewrite IH.
Qed.

Lemma str_drop_app_add n p e : str_drop (String.length p + n) (p +:+ e) = str_drop n e.
Proof. induction p as [|d p IH]; [done|]. rewrite str_app_cons. simpl. apply IH. Qed.

Lemma str_has_drop c n s : str_has c s = false → str_has c (str_drop n s) = false.
Proof.
  revert n. induction s as [|d s IH]; intros [|n]; try done. simpl.
  intros [_ H]%orb_false_iff. by apply IH.
Qed.

(** A text whose last part is non-empty and free of a character does not end in it. *)
Lemma HasSuffix_free p e c :
  e ≠ "" → str_has c e = false → HasSuffix (p +:+ e) (String c "") = false.
Proof.
  intros He Hc. unfold HasSuffix. apply andb_false_iff. right.
  rewrite str_length_app. cbn [String.length].
  assert (1 ≤ String.length e)%nat by (destruct e; [done|cbn; lia]).
  replace (String.length p + String.length e - 1)%nat
    with (String.length p + (String.length e - 1))%nat by lia.
  rewrite str_drop_app_add. destruct (String.eqb_spec (str_drop (String.length e - 1) e) (String c ""))
    as [E|]; [|done].
  pose proof (str_has_drop c (String.length e - 1) e Hc) as Hd. rewrite E in Hd. cbn in Hd.
  by rewrite Ascii.eqb_refl in Hd.
Qed.

(** [unicode.IsSpace] on the UTF-8 encodings of the White_Space runes:
    one-byte (ASCII), two-byte (U+0085, U+00A0) and three-byte ones. *)
Definition space1 (a : ascii) : bool :=
  let n := nat_of_ascii a in ((9 <=? n) && (n <=? 13) || (n =? 32))%nat.
Definition space2 (a b : ascii) : bool :=
  let n := nat_of_ascii b in
  ((nat_of_ascii a =? 194) && ((n =? 133) || (n =? 160)))%nat.
Definition space3 (a b c : ascii) : bool :=
  let x := nat_of_ascii a in let y := nat_of_ascii b in let z := nat_of_ascii c in
  ((x =? 225) && (y =? 154) && (z =? 128)
   || (x =? 226) && (y =? 128) && ((128 <=? z) && (z <=? 138)
        || (z =? 168) || (z =? 169) || (z =? 175))
   || (x =? 226) && (y =? 129) && (z =? 159)
   || (x =? 227) && (y =? 128) && (z =? 128))%nat.

Fixpoint trim_left (p2 : ascii → ascii → bool) (p3 : ascii → ascii → ascii → bool)
    (s : string) : string :=
  match s with
  | EmptyString => ""
  | String a s1 =>
      if space1 a then trim_left p2 p3 s1 else
      match s1 with
      | EmptyString => s
      | String b s2 =>
          if p2 a b then trim_left p2 p3 s2 else
          match s2 with
          | EmptyString => s
          | String c s3 => if p3 a b c then trim_left p2 p3 s3 else s
          end
      end
  end.

(** [strings.TrimSpace]. *)
Definition TrimSpace (s : string) : string :=
  let l := trim_left space2 space3 s in
  String.rev (trim_left (λ a b, space2 b a) (λ a b c, space3 c b a) (String.rev l)).

(** [strings.TrimRight(s, cutset)] for a cutset given as a predicate. *)
Fixpoint drop_while (p : ascii → bool) (s : string) : string :=
  match s with
  | EmptyString => ""
  | String a s' => if p a then drop_while p s' else s
  end.
Definition TrimRight (p : ascii → bool) (s : string) : string :=
  String.rev (drop_while p (String.rev s)).

(** Every character satisfies a predicate. *)
Fixpoint all_chars (p : ascii → bool) (s : string) : bool :=
  match s with
  | EmptyString => true
  | String a s => p a && all_chars p s
  end.

Lemma all_chars_app p s t : all_chars p (s +:+ t) = all_chars p s && all_chars p t.
Proof. induction s as [|a s IH]; [done|]. rewrite str_app_cons. simpl. by rewrite IH, andb_assoc. Qed.

Lemma all_chars_free p c s : p c = false → all_chars p s = true → str_has c s = false.
Proof.
  intros Hc. induction s as [|a s IH]; [done|]. simpl. intros [Ha Hs]%andb_true_iff.
  rewrite IH by done. destruct (Ascii.eqb_spec a c) as [->|_]; [congruence|done].
Qed.

Lemma all_chars_rev_app p s t : all_chars p (String.rev_app s t) = all_chars p s && all_chars p t.
Proof.
  revert t. induction s as [|a s IH]; intros t; [done|]. simpl. rewrite IH. simpl.
  by destruct (p a), (all_chars p s).
Qed.

(** Trimming only drops characters. *)
Lemma all_chars_trim_left p p2 p3 n s : (String.length s ≤ n)%nat →
  all_chars p s = true → all_chars p (trim_left p2 p3 s) = true.
Proof.
  revert s. induction n as [|n IH]; intros [|a s] Hn Hs; try done; [cbn in Hn; lia|].
  pose proof Hs as [_ Hs1]%andb_true_iff. cbn [trim_left String.length] in *.
  destruct (space1 a); [apply IH; [lia|done]|].
  destruct s as [|b s]; [done|]. pose proof Hs1 as [_ Hs2]%andb_true_iff. cbn [String.length] in *.
  destruct (p2 a b); [apply IH; [lia|done]|].
  destruct s as [|c s]; [done|]. pose proof Hs2 as [_ Hs3]%andb_true_iff. cbn [String.length] in *.
  destruct (p3 a b c); [apply IH; [lia|done]|done].
Qed.

Lemma all_chars_TrimSpace p s : all_chars p s = true → all_chars p (TrimSpace s) = true.
Proof.
  intros Hs. unfold TrimSpace, String.rev. rewrite all_chars_rev_app, andb_true_r.
  eapply all_chars_trim_left; [reflexivity|]. rewrite all_chars_rev_app, andb_true_r.
  by eapply all_chars_trim_left.
Qed.

Lemma str_has_all_chars c s : str_has c s = negb (all_chars (λ a, negb (Ascii.eqb a c)) s).
Proof. induction s as [|a s IH]; [done|]. cbn. by rewrite IH, negb_andb, negb_involutive. Qed.

Lemma str_has_TrimSpace c s : str_has c s = false → str_has c (TrimSpace s) = false.
Proof.
  rewrite !str_has_all_chars, !negb_false_iff. apply all_chars_TrimSpace.
Qed.

Lemma rev_app_rev_app s t u :
  String.rev_app (String.rev_app s t) u = String.rev_app t (s +:+ u).
Proof.
  revert t u. induction s as [|a s IH]; intros t u; [done|]. simpl. rewrite IH.
  by rewrite str_app_cons.
Qed.

Lemma str_rev_involutive s : String.rev (String.rev s) = s.
Proof. unfold String.rev. rewrite rev_app_rev_app. simpl. apply str_app_nil_r. Qed.

(** Printable ASCII other than the space: no part of any White_Space rune. *)
Definition visible (a : ascii) : bool :=
  let n := nat_of_ascii a in ((33 <=? n) && (n <=? 126))%nat.

Lemma visible_not_space a b c : visible a = true →
  space1 a = false ∧ space2 a b = false ∧ space3 a b c = false ∧
  space2 b a = false ∧ space3 c b a = false.
Proof.
  unfold visible, space1, space2, space3. intros [H1%Nat.leb_le H2%Nat.leb_le]%andb_true_iff.
  set (n := nat_of_ascii a) in *.
  destruct (Nat.leb_spec 9 n), (Nat.leb_spec n 13), (Nat.eqb_spec n 32); try lia;
  destruct (Nat.eqb_spec n 194), (Nat.eqb_spec n 133), (Nat.eqb_spec n 160); try lia;
  destruct (Nat.eqb_spec n 225), (Nat.eqb_spec n 226), (Nat.eqb_spec n 227); try lia;
  destruct (Nat.eqb_spec n 128), (Nat.leb_spec 128 n), (Nat.eqb_spec n 168); try lia;
  destruct (Nat.eqb_spec n 169), (Nat.eqb_spec n 175), (Nat.eqb_spec n 159); try lia;
  rewrite ?andb_false_r, ?orb_false_r; done.
Qed.

Lemma trim_left_visible p2 p3 a s :
  (∀ b, p2 a b = false) → (∀ b c, p3 a b c = false) → space1 a = false →
  trim_left p2 p3 (String a s) = String a s.
Proof.
  intros H2 H3 H1. cbn [trim_left]. rewrite H1. destruct s as [|b [|c s]]; [done|..]; rewrite H2.
  - done.
  - by rewrite H3.
Qed.

(** Text without white space is its own trimming. *)
Lemma TrimSpace_visible s : all_chars visible s = true → TrimSpace s = s.
Proof.
  intros Hs. unfold TrimSpace.
  assert (∀ p2 p3 u, (∀ a b c, visible a = true → p2 a b = false ∧ p3 a b c = false) →
    all_chars visible u = true → trim_left p2 p3 u = u) as Ht.
  { intros p2 p3 [|a u] Hp Hu; [done|]. simpl in Hu. apply andb_true_iff in Hu as [Ha _].
    apply trim_left_visible.
    - intros b. by apply (Hp a b b).
    - intros b c. by apply (Hp a b c).
    - by apply (visible_not_space a a a). }
  rewrite (Ht space2 space3 s); [|by intros a b c (? & ? & ? & ? & ?)%(visible_not_space a b c)|done].
  rewrite Ht; [by rewrite str_rev_involutive
    |by intros a b c (? & ? & ? & ? & ?)%(visible_not_space a b c)|].
  unfold String.rev. by rewrite all_chars_rev_app, Hs.
Qed.

(** Joining and splitting are inverse on parts free of the separator. *)
Lemma Split_Join c l : l ≠ [] → Forall (λ w, str_has c w = false) l →
  Split (Join (String c "") l) c = l.
Proof.
  intros Hne Hl. induction l as [|w l IH]; [done|]. inversion Hl as [|? ? Hw Hl']; subst.
  destruct l as [|w' l]; [by apply Split_single|].
  change (Join (String c "") (w :: w' :: l)) with (w +:+ String c "" +:+ Join (String c "") (w' :: l)).
  rewrite str_app_cons, str_app_nil_l, Split_app by done. by rewrite IH.
Qed.

Example TrimSpace_ex1 : TrimSpace "  op-2026 	" = "op-2026".
Proof. reflexivity. Qed.
Example TrimSpace_ex2 :
  TrimSpace (of_bytes [xc2; xa0] +:+ "k" +:+ of_bytes [xe2; x80; xa8; x20]) = "k".
Proof. reflexivity. Qed.
Example TrimRight_ex : TrimRight (Ascii.eqb "/") "http://h:1//" = "http://h:1".
Proof. reflexivity. Qed.

(** ** [strconv] *)

Definition digit_val (c : ascii) : option Z :=
  let n := Z.of_nat (nat_of_ascii c) in
  if (48 <=? n) && (n <=? 57) then Some (n - 48) else None.

Fixpoint digits_val (acc : Z) (s : string) : option Z :=
  match s with
  | EmptyString => Some acc
  | String c s => d ← digit_val c; digits_val (acc * 10 + d) s
  end.

(** [strconv.ParseInt(s, 10, 64)]: [None] stands for [ErrSyntax] and
    [ErrRange], which no caller tells apart. *)
Definition ParseInt (s : string) : option Z :=
  match s with
  | EmptyString => None
  | String c r =>
      let '(neg, body) :=
        if Ascii.eqb c "-" then (true, r)
        else if Ascii.eqb c "+" then (false, r) else (false, s) in
      if String.eqb body "" then None else
      n ← digits_val 0 body;
      let v := if (neg : bool) then - n else n in
      if decide (in_int64 v) then Some v else None
  end.

(** [strconv.ParseBool]. *)
Definition ParseBool (s : string) : option bool :=
  if existsb (String.eqb s) ["1"; "t"; "T"; "true"; "TRUE"; "True"] then Some true
  else if existsb (String.eqb s) ["0"; "f"; "F"; "false"; "FALSE"; "False"] then Some false
  else None.

(** [strconv.Itoa], [fmt]'s [%d]. *)
Definition Itoa (z : Z) : string := pretty z.

Lemma ParseInt_range s v : ParseInt s = Some v → in_int64 v.
Proof.
  destruct s as [|c r]; [done|]. cbn -[in_int64 digits_val].
  destruct (if Ascii.eqb c "-" then _ else _) as [neg body].
  destruct (String.eqb body ""); [done|].
  destruct (digits_val 0 body) as [n|]; [|done]. cbn -[in_int64].
  case_decide; naive_solver.
Qed.

Lemma digits_val_pretty_N_go (x : N) (s : string) acc :
  (0 < x)%N → acc = 0 →
  digits_val acc (pretty_N_go x s) = digits_val (Z.of_N x) s.
Proof.
  intros Hx ->. revert s Hx.
  induction (N.lt_wf_0 x) as [x _ IH]; intros s Hx.
  rewrite pretty_N_go_step by done.
  assert (Hd : digit_val (pretty_N_char (x `mod` 10)) = Some (Z.of_N (x mod 10))).
  { assert (x mod 10 < 10)%N by (apply N.mod_upper_bound; lia).
    assert (∃ k, (x mod 10)%N = k ∧ (k < 10)%N) as (k & -> & Hk) by eauto.
    assert (k = 0 ∨ k = 1 ∨ k = 2 ∨ k = 3 ∨ k = 4 ∨ k = 5 ∨ k = 6 ∨ k = 7
      ∨ k = 8 ∨ k = 9)%N as Hc by lia.
    by repeat destruct Hc as [->|Hc]; [..|subst]. }
  assert (Hs : digits_val (Z.of_N (x / 10)) (String (pretty_N_char (x mod 10)) s)
               = digits_val (Z.of_N x) s).
  { cbn [digits_val]. rewrite Hd. cbn. f_equal.
    pose proof (N.div_mod x 10). lia. }
  destruct (decide (x / 10 = 0)%N) as [H0|H0].
  - rewrite <- Hs, H0. by rewrite pretty_N_go_0.
  - rewrite <- Hs. apply IH; [apply N.div_lt; lia|].
    destruct (x / 10)%N; [done|lia].
Qed.

(** Printing an [int64] and parsing it back is the identity. *)
Lemma ParseInt_Itoa z : in_int64 z → ParseInt (Itoa z) = Some z.
Proof.
  intros Hz.
  assert (Hpos : ∀ p, digits_val 0 (pretty (N.pos p)) = Some (Z.pos p)).
  { intros p. unfold pretty, pretty_N. rewrite decide_False by done.
    by rewrite digits_val_pretty_N_go. }
  assert (Hc : ∀ p, ∃ c r, pretty (N.pos p) = String c r ∧
    Ascii.eqb c "-" = false ∧ Ascii.eqb c "+" = false).
  { intros p. specialize (Hpos p).
    destruct (pretty (N.pos p)) as [|c r]; [done|]. exists c, r.
    cbn [digits_val] in Hpos. destruct (digit_val c) eqn:E; [|done].
    split; [done|]. split; apply Ascii.eqb_neq; intros ->; done. }
  destruct z as [|p|p]; [done| |].
  - destruct (Hc p) as (c & r & Hp & Hm & Hpl). specialize (Hpos p).
    change (Itoa (Z.pos p)) with (pretty (N.pos p)). rewrite Hp in *.
    unfold ParseInt. rewrite Hm, Hpl. cbn [String.eqb]. rewrite Hpos.
    cbn -[in_int64]. by rewrite decide_True.
  - destruct (Hc p) as (c & r & Hp & _). specialize (Hpos p).
    change (Itoa (Z.neg p)) with (String "-" (pretty (N.pos p))). rewrite Hp in *.
    unfold ParseInt. rewrite Ascii.eqb_refl. cbn [String.eqb]. rewrite Hpos.
    cbn -[in_int64]. by rewrite decide_True.
Qed.

Lemma str_has_Join c sep l :
  str_has c sep = false → Forall (λ w, str_has c w = false) l → str_has c (Join sep l) = false.
Proof.
  intros Hs. induction 1 as [|w l Hw Hl IH]; [done|]. destruct l as [|w' l]; [done|].
  change (Join sep (w :: w' :: l)) with (w +:+ sep +:+ Join sep (w' :: l)).
  by rewrite !str_has_app, Hw, Hs, IH.
Qed.

(** ** Sorting *)

(** [sort.Strings]. *)
Definition sort_strings (l : list string) : list string := merge_sort String.le l.

Lemma sort_strings_perm l : sort_strings l ≡ₚ l.
Proof. apply merge_sort_Permutation. Qed.

Lemma sort_strings_sorted l : Sorted String.le (sort_strings l).
Proof. apply Sorted_merge_sort. apply _. Qed.

Lemma sort_strings_unique l l' : l ≡ₚ l' → sort_strings l = sort_strings l'.
Proof.
  intros Hp. apply (Sorted_unique String.le); [apply sort_strings_sorted..|]. by rewrite !sort_strings_perm.
Qed.
