(* ===== verification/Encoding.v ===== *)
(** * [encoding/hex] and [encoding/base64]

    The codecs behind the upload token, the operator keys, the CID-derived
    object names and the key-service wire bodies, with their round trips. *)

From Stdlib Require Import Ascii.
From S2P Require Import Prelude GoStrings.

Open Scope N_scope.

(** ** Base64 alphabets *)

(** The four [base64.Encoding] values Go predeclares; the program uses
    [StdEncoding], [URLEncoding] and [RawURLEncoding]. *)
Record b64 := B64 { b64_url : bool; b64_pad : bool }.

Definition StdEncoding := B64 false true.
Definition URLEncoding := B64 true true.
Definition RawURLEncoding := B64 true false.

Definition enc_char (url : bool) (n : N) : Byte.byte :=
  if n <? 26 then byte_of_N (65 + n)
  else if n <? 52 then byte_of_N (97 + (n - 26))
  else if n <? 62 then byte_of_N (48 + (n - 52))
  else if n =? 62 then (if url then "-"%byte else "+"%byte)
  else (if url then "_"%byte else "/"%byte).

Definition dec_char (url : bool) (b : Byte.byte) : option N :=
  let n := Byte.to_N b in
  if (65 <=? n) && (n <=? 90) then Some (n - 65)
  else if (97 <=? n) && (n <=? 122) then Some (n - 97 + 26)
  else if (48 <=? n) && (n <=? 57) then Some (n - 48 + 52)
  else if bool_decide (b = if url then "-"%byte else "+"%byte) then Some 62
  else if bool_decide (b = if url then "_"%byte else "/"%byte) then Some 63
  else None.

Definition pad_byte : Byte.byte := "="%byte.

(** ** Encoding *)

Fixpoint b64_encode (e : b64) (l : bytes) : bytes :=
  let ch n := enc_char (b64_url e) n in
  match l with
  | [] => []
  | [a] =>
      let x := Byte.to_N a in
      [ch (x / 4); ch (x mod 4 * 16)] ++ (if b64_pad e then [pad_byte; pad_byte] else [])
  | [a; b] =>
      let x := Byte.to_N a in let y := Byte.to_N b in
      [ch (x / 4); ch (x mod 4 * 16 + y / 16); ch (y mod 16 * 4)]
        ++ (if b64_pad e then [pad_byte] else [])
  | a :: b :: c :: rest =>
      let x := Byte.to_N a in let y := Byte.to_N b in let z := Byte.to_N c in
      ch (x / 4) :: ch (x mod 4 * 16 + y / 16) :: ch (y mod 16 * 4 + z / 64)
        :: ch (z mod 64) :: b64_encode e rest
  end.

(** [enc.EncodeToString]. *)
Definition EncodeToString (e : b64) (l : bytes) : string := of_bytes (b64_encode e l).

(** ** Decoding *)

(** The bytes of one quantum of two, three or four 6-bit groups.  Decoding is
    not strict: left-over bits are dropped, whatever their value. *)
Definition quantum1 (a b : N) : Byte.byte := byte_of_N (a * 4 + b / 16).
Definition quantum2 (b c : N) : Byte.byte := byte_of_N (b mod 16 * 16 + c / 4).
Definition quantum3 (c d : N) : Byte.byte := byte_of_N (c mod 4 * 64 + d).

(** The decoder on input already free of [\r] and [\n], which Go's decoder
    skips wherever they occur.  Padding is accepted only where the alphabet
    has it and only at the end of the input. *)
Fixpoint b64_quanta (e : b64) (l : bytes) : option bytes :=
  let dc b := dec_char (b64_url e) b in
  match l with
  | [] => Some []
  | a :: b :: c :: d :: rest =>
      x ← dc a; y ← dc b;
      match dc c, dc d with
      | Some z, Some w =>
          r ← b64_quanta e rest;
          Some (quantum1 x y :: quantum2 y z :: quantum3 z w :: r)
      | Some z, None =>
          if b64_pad e && bool_decide (d = pad_byte) && bool_decide (rest = [])
          then Some [quantum1 x y; quantum2 y z] else None
      | None, _ =>
          if b64_pad e && bool_decide (c = pad_byte) && bool_decide (d = pad_byte)
             && bool_decide (rest = [])
          then Some [quantum1 x y] else None
      end
  | [a; b; c] =>
      if b64_pad e then None else
      x ← dc a; y ← dc b; z ← dc c; Some [quantum1 x y; quantum2 y z]
  | [a; b] =>
      if b64_pad e then None else
      x ← dc a; y ← dc b; Some [quantum1 x y]
  | [_] => None
  end.

Definition not_newline (b : Byte.byte) : Prop := b ≠ x0a ∧ b ≠ x0d.
#[export] Instance not_newline_dec b : Decision (not_newline b).
Proof. unfold not_newline. apply _. Defined.

(** [enc.DecodeString]; [None] is [CorruptInputError]. *)
Definition DecodeString (e : b64) (s : string) : option bytes :=
  b64_quanta e (filter not_newline (to_bytes s)).

(** ** Round trip *)

Lemma dec_enc_char url n : n < 64 → dec_char url (enc_char url n) = Some n.
Proof.
  intros Hn.
  assert (H : forallb (λ k, bool_decide (dec_char url (enc_char url k) = Some k))
                (N.of_nat <$> seq 0 64) = true) by (destruct url; vm_compute; reflexivity).
  rewrite forallb_forall in H. apply (bool_decide_eq_true_1 _), H.
  apply list_elem_of_In, list_elem_of_fmap. exists (N.to_nat n).
  rewrite N2Nat.id. split; [done|]. apply elem_of_seq. lia.
Qed.

(** No character of the alphabet is a newline, the padding or the token's
    separator. *)
Lemma enc_char_plain url n :
  n < 64 → not_newline (enc_char url n) ∧ enc_char url n ≠ "."%byte.
Proof.
  intros Hn.
  assert (Hd := dec_enc_char url n Hn). unfold not_newline.
  split; [split|]; intros E; rewrite E in Hd; by destruct url.
Qed.

#[local] Ltac Zify.zify_post_hook ::= Z.to_euclidean_division_equations.

Lemma quantum1_spec a b :
  let x := Byte.to_N a in quantum1 (x / 4) (x mod 4 * 16 + Byte.to_N b / 16) = a.
Proof.
  cbn. pose proof (to_N_lt a). pose proof (to_N_lt b).
  unfold quantum1. trans (byte_of_N (Byte.to_N a)); [f_equal; lia|apply byte_of_to_N].
Qed.

Lemma quantum1_last a :
  let x := Byte.to_N a in quantum1 (x / 4) (x mod 4 * 16) = a.
Proof.
  cbn. pose proof (to_N_lt a).
  unfold quantum1. trans (byte_of_N (Byte.to_N a)); [f_equal; lia|apply byte_of_to_N].
Qed.

Lemma quantum2_spec x b c : x < 256 →
  let y := Byte.to_N b in
  quantum2 (x mod 4 * 16 + y / 16) (y mod 16 * 4 + Byte.to_N c / 64) = b.
Proof.
  cbn. intros Hx. pose proof (to_N_lt b). pose proof (to_N_lt c).
  unfold quantum2. trans (byte_of_N (Byte.to_N b)); [f_equal; lia|apply byte_of_to_N].
Qed.

Lemma quantum2_last x b : x < 256 →
  let y := Byte.to_N b in quantum2 (x mod 4 * 16 + y / 16) (y mod 16 * 4) = b.
Proof.
  cbn. intros Hx. pose proof (to_N_lt b).
  unfold quantum2. trans (byte_of_N (Byte.to_N b)); [f_equal; lia|apply byte_of_to_N].
Qed.

Lemma quantum3_spec y c : y < 256 →
  let z := Byte.to_N c in quantum3 (y mod 16 * 4 + z / 64) (z mod 64) = c.
Proof.
  cbn. intros Hy. pose proof (to_N_lt c).
  unfold quantum3. trans (byte_of_N (Byte.to_N c)); [f_equal; lia|apply byte_of_to_N].
Qed.

(** Induction in steps of three, following the encoder. *)
Lemma bytes_ind3 (P : bytes → Prop) :
  P [] → (∀ a, P [a]) → (∀ a b, P [a; b]) →
  (∀ a b c l, P l → P (a :: b :: c :: l)) → ∀ l, P l.
Proof.
  intros H0 H1 H2 H3. fix IH 1. intros [|a [|b [|c l]]]; [done|done|done|].
  apply H3, IH.
Qed.

Ltac solve_sextet :=
  repeat match goal with
  | b : Byte.byte |- _ => lazymatch goal with
      | _ : Byte.to_N b < 256 |- _ => fail
      | _ => pose proof (to_N_lt b) end
  end; lia.

Ltac solve_enc := left; eexists; split; [|done]; solve_sextet.

(** Every encoded character is an alphabet character or padding. *)
Lemma b64_encode_chars e l :
  Forall (λ b, (∃ n, n < 64 ∧ b = enc_char (b64_url e) n) ∨ b = pad_byte) (b64_encode e l).
Proof.
  induction l as [|a|a b|a b c l IH] using bytes_ind3; cbn [b64_encode].
  - constructor.
  - cbn [app]. repeat (apply Forall_cons_2; [solve_enc|]).
    destruct (b64_pad e); repeat constructor; by right.
  - cbn [app]. repeat (apply Forall_cons_2; [solve_enc|]).
    destruct (b64_pad e); repeat constructor; by right.
  - repeat (apply Forall_cons_2; [solve_enc|]). done.
Qed.

Lemma b64_quanta_encode e l : b64_quanta e (b64_encode e l) = Some l.
Proof.
  induction l as [|a|a b|a b c l IH] using bytes_ind3; cbn [b64_encode].
  - done.
  - destruct e as [u [|]]; cbn [b64_pad b64_url app b64_quanta];
      rewrite !dec_enc_char by solve_sextet; cbn -[quantum1 dec_char].
    + assert (dec_char u pad_byte = None) as -> by by destruct u.
      cbn -[quantum1]. by rewrite quantum1_last.
    + by rewrite quantum1_last.
  - pose proof (to_N_lt a).
    destruct e as [u [|]]; cbn [b64_pad b64_url app b64_quanta];
      rewrite !dec_enc_char by solve_sextet; cbn -[quantum1 quantum2 dec_char].
    + assert (dec_char u pad_byte = None) as -> by by destruct u.
      cbn -[quantum1 quantum2]. by rewrite quantum1_spec, quantum2_last.
    + by rewrite quantum1_spec, quantum2_last.
  - pose proof (to_N_lt a). pose proof (to_N_lt b). cbn [b64_quanta].
    rewrite !dec_enc_char by solve_sextet. cbn -[b64_quanta quantum1 quantum2 quantum3].
    rewrite IH. cbn -[quantum1 quantum2 quantum3].
    by rewrite quantum1_spec, quantum2_spec, quantum3_spec.
Qed.

Lemma filter_all {A} (P : A → Prop) `{∀ x, Decision (P x)} l :
  Forall P l → filter P l = l.
Proof. induction 1 as [|x l Hx Hl IH]; [done|]. by rewrite filter_cons_True, IH. Qed.

(** Decoding inverts encoding, for every predeclared encoding. *)
Lemma DecodeString_EncodeToString e l : DecodeString e (EncodeToString e l) = Some l.
Proof.
  unfold DecodeString, EncodeToString. rewrite to_of_bytes, filter_all.
  - apply b64_quanta_encode.
  - eapply Forall_impl; [apply b64_encode_chars|]. cbn.
    intros b [(n & Hn & ->)| ->]; [by apply enc_char_plain|done].
Qed.

Example b64_ex1 : EncodeToString StdEncoding (to_bytes "hello!!") = "aGVsbG8hIQ==".
Proof. reflexivity. Qed.
Example b64_ex2 : DecodeString RawURLEncoding "aGVsbG8hIQ" = Some (to_bytes "hello!!").
Proof. reflexivity. Qed.
Example b64_ex3 : DecodeString RawURLEncoding "aGVsbG8hIQ==" = None.
Proof. reflexivity. Qed.
Example b64_ex4 : DecodeString URLEncoding "_w==" = Some [xff].
Proof. reflexivity. Qed.

(** The characters of a string, seen as bytes. *)
Lemma str_has_of_bytes c (l : bytes) :
  Forall (λ b, b ≠ byte_of_ascii c) l → str_has c (of_bytes l) = false.
Proof.
  induction 1 as [|b l Hb _ IH]; [done|]. cbn [of_bytes String.string_of_list_byte].
  change (str_has c (String (ascii_of_byte b) (of_bytes l)) = false).
  cbn [str_has]. rewrite IH, orb_false_r. apply Ascii.eqb_neq. intros <-.
  apply Hb. by rewrite byte_of_ascii_of_byte.
Qed.

(** Encoded text holds no ['.'], the separator of the upload token. *)
Lemma EncodeToString_no_dot e l : str_has "." (EncodeToString e l) = false.
Proof.
  apply str_has_of_bytes. eapply Forall_impl; [apply b64_encode_chars|]. cbn.
  intros b [(n & Hn & ->)| ->]; [by apply enc_char_plain|done].
Qed.

Lemma to_bytes_length s : length (to_bytes s) = String.length s.
Proof.
  unfold to_bytes, String.list_byte_of_string. rewrite List.length_map.
  induction s as [|c s IH]; [done|]. cbn. by rewrite IH.
Qed.

Lemma of_bytes_length b : String.length (of_bytes b) = length b.
Proof. by rewrite <- to_bytes_length, to_of_bytes. Qed.

Lemma EncodeToString_nonempty e l : l ≠ [] → EncodeToString e l ≠ "".
Proof.
  intros Hl H. apply (f_equal to_bytes) in H. unfold EncodeToString in H.
  rewrite to_of_bytes in H. by destruct l as [|a [|b [|c l]]].
Qed.

(** ** Hexadecimal *)

Definition hex_digit (n : N) : Byte.byte :=
  if n <? 10 then byte_of_N (48 + n) else byte_of_N (97 + (n - 10)).

Definition hex_val (b : Byte.byte) : option N :=
  let n := Byte.to_N b in
  if (48 <=? n) && (n <=? 57) then Some (n - 48)
  else if (97 <=? n) && (n <=? 102) then Some (n - 97 + 10)
  else if (65 <=? n) && (n <=? 70) then Some (n - 65 + 10)
  else None.

Definition hex_encode (l : bytes) : bytes :=
  l ≫= λ b, [hex_digit (Byte.to_N b / 16); hex_digit (Byte.to_N b mod 16)].

Fixpoint hex_decode (l : bytes) : option bytes :=
  match l with
  | [] => Some []
  | [_] => None
  | h :: l :: rest =>
      x ← hex_val h; y ← hex_val l; r ← hex_decode rest;
      Some (byte_of_N (x * 16 + y) :: r)
  end.

(** [hex.EncodeToString] and [hex.DecodeString]. *)
Definition hex_EncodeToString (l : bytes) : string := of_bytes (hex_encode l).
Definition hex_DecodeString (s : string) : option bytes := hex_decode (to_bytes s).

Lemma hex_val_digit n : n < 16 → hex_val (hex_digit n) = Some n.
Proof.
  intros Hn.
  assert (H : forallb (λ k, bool_decide (hex_val (hex_digit k) = Some k))
                (N.of_nat <$> seq 0 16) = true) by (vm_compute; reflexivity).
  rewrite forallb_forall in H. apply (bool_decide_eq_true_1 _), H.
  apply list_elem_of_In, list_elem_of_fmap. exists (N.to_nat n).
  rewrite N2Nat.id. split; [done|]. apply elem_of_seq. lia.
Qed.

Lemma hex_encode_cons b l :
  hex_encode (b :: l) =
    hex_digit (Byte.to_N b / 16) :: hex_digit (Byte.to_N b mod 16) :: hex_encode l.
Proof. done. Qed.

Lemma hex_decode_encode l : hex_decode (hex_encode l) = Some l.
Proof.
  induction l as [|b l IH]; [done|]. rewrite hex_encode_cons.
  cbn [hex_decode]. pose proof (to_N_lt b).
  rewrite !hex_val_digit by lia. cbn -[byte_of_N]. rewrite IH. cbn -[byte_of_N].
  do 2 f_equal. trans (byte_of_N (Byte.to_N b)); [f_equal; lia|apply byte_of_to_N].
Qed.

Lemma hex_DecodeString_EncodeToString l :
  hex_DecodeString (hex_EncodeToString l) = Some l.
Proof. unfold hex_DecodeString, hex_EncodeToString. by rewrite to_of_bytes, hex_decode_encode. Qed.

#[export] Instance hex_EncodeToString_inj : Inj (=) (=) hex_EncodeToString.
Proof.
  intros a b H. apply (f_equal hex_DecodeString) in H.
  rewrite !hex_DecodeString_EncodeToString in H. naive_solver.
Qed.

Lemma hex_EncodeToString_length l :
  String.length (hex_EncodeToString l) = (2 * length l)%nat.
Proof.
  unfold hex_EncodeToString. rewrite of_bytes_length.
  induction l as [|b l IH]; [done|]. rewrite hex_encode_cons. cbn. lia.
Qed.

(** Hex text holds hexadecimal digits only. *)
Definition hex_alphabet : string := "0123456789abcdef".

Lemma hex_digit_in n : (n < 16)%N → str_has (ascii_of_byte (hex_digit n)) hex_alphabet = true.
Proof.
  intros Hn. assert (n = 0 ∨ n = 1 ∨ n = 2 ∨ n = 3 ∨ n = 4 ∨ n = 5 ∨ n = 6 ∨ n = 7 ∨ n = 8 ∨ n = 9
    ∨ n = 10 ∨ n = 11 ∨ n = 12 ∨ n = 13 ∨ n = 14 ∨ n = 15)%N as Hc by lia.
  repeat destruct Hc as [->|Hc]; try reflexivity. by subst.
Qed.

Lemma hex_EncodeToString_chars p l :
  (∀ a, str_has a hex_alphabet = true → p a = true) → all_chars p (hex_EncodeToString l) = true.
Proof.
  intros Hp. unfold hex_EncodeToString. induction l as [|b l IH]; [done|].
  rewrite hex_encode_cons. pose proof (to_N_lt b).
  change (p (ascii_of_byte (hex_digit (Byte.to_N b / 16))) &&
    (p (ascii_of_byte (hex_digit (Byte.to_N b mod 16))) && all_chars p (of_bytes (hex_encode l))) = true).
  rewrite IH, !Hp; [done|apply hex_digit_in, N.mod_upper_bound; lia|].
  apply hex_digit_in, N.Div0.div_lt_upper_bound. lia.
Qed.

Lemma hex_alphabet_ind (P : ascii → Prop) :
  P "0"%char → P "1"%char → P "2"%char → P "3"%char → P "4"%char → P "5"%char → P "6"%char →
  P "7"%char → P "8"%char → P "9"%char → P "a"%char → P "b"%char → P "c"%char → P "d"%char →
  P "e"%char → P "f"%char → ∀ a, str_has a hex_alphabet = true → P a.
Proof.
  intros. cbn [str_has hex_alphabet] in *.
  repeat match goal with
  | H : _ || _ = true |- _ => apply orb_true_iff in H as [<-%Ascii.eqb_eq|H]; [done|]
  end. done.
Qed.

Lemma hex_EncodeToString_free c l :
  str_has c hex_alphabet = false → str_has c (hex_EncodeToString l) = false.
Proof.
  intros Hc. apply (all_chars_free (λ a, str_has a hex_alphabet)); [done|].
  by apply hex_EncodeToString_chars.
Qed.

Lemma hex_decode_length l b : hex_decode l = Some b → length l = (2 * length b)%nat.
Proof.
  revert l. induction b as [|z b IH]; intros [|x [|y l]]; cbn; try done;
    destruct (hex_val x), (hex_val y); cbn; try done;
    destruct (hex_decode l) as [r|] eqn:E; cbn; try done.
  intros [= _ <-]. rewrite (IH l) by done. lia.
Qed.
