(* ===== verification/Sha256.v ===== *)
(** * crypto/sha256 and crypto/hmac

    The Go standard library functions the signers, the content-hash fixtures
    and the reference CID instance use: SHA-256 on byte strings and the
    HMAC built on it. *)

From S2P Require Import Prelude GoStrings Encoding.

Open Scope N_scope.

Definition mask32 : N := 0xffffffff.
Definition add32 (a b : N) : N := N.land (a + b) mask32.
Definition rotr (n x : N) : N :=
  N.lor (N.shiftr x n) (N.land (N.shiftl x (32 - n)) mask32).

(** The message schedule's and the rounds' mixing functions. *)
Definition ssig0 x := N.lxor (N.lxor (rotr 7 x) (rotr 18 x)) (N.shiftr x 3).
Definition ssig1 x := N.lxor (N.lxor (rotr 17 x) (rotr 19 x)) (N.shiftr x 10).
Definition bsig0 x := N.lxor (N.lxor (rotr 2 x) (rotr 13 x)) (rotr 22 x).
Definition bsig1 x := N.lxor (N.lxor (rotr 6 x) (rotr 11 x)) (rotr 25 x).
Definition ch e f g := N.lxor (N.land e f) (N.land (N.lxor e mask32) g).
Definition maj a b c := N.lxor (N.lxor (N.land a b) (N.land a c)) (N.land b c).

(** The largest [r < 2^n] with [f r <= x], for increasing [f]. *)
Fixpoint root_bits (f : N → N) (x : N) (n : nat) (r : N) : N :=
  match n with
  | O => r
  | S n => let r' := r + 2 ^ N.of_nat n in root_bits f x n (if f r' <=? x then r' else r)
  end.

(** The first 32 bits of the fractional part of a square or cube root. *)
Definition sqrt_frac (p : N) : N :=
  N.land (root_bits (λ r, r * r) (p * 2 ^ 64) 40 0) mask32.
Definition cbrt_frac (p : N) : N :=
  N.land (root_bits (λ r, r * r * r) (p * 2 ^ 96) 40 0) mask32.

Definition is_prime (n : N) : bool :=
  forallb (λ d, negb (n mod N.of_nat d =? 0)) (seq 2 (N.to_nat n - 2)).
Definition primes_below (n : nat) : list N :=
  filter (λ p, is_prime p = true) (N.of_nat <$> seq 2 (n - 2)).

(** The 64 round constants: the cube roots of the primes up to 311. *)
Definition K : list N := Eval vm_compute in cbrt_frac <$> primes_below 312.

(** The eight working words. *)
Record hstate := HState { hA : N; hB : N; hC : N; hD : N; hE : N; hF : N; hG : N; hH : N }.

(** The initial state: the square roots of the first eight primes. *)
Definition iv : hstate := Eval vm_compute in
  HState (sqrt_frac 2) (sqrt_frac 3) (sqrt_frac 5) (sqrt_frac 7)
         (sqrt_frac 11) (sqrt_frac 13) (sqrt_frac 17) (sqrt_frac 19).

Definition round (s : hstate) (kw : N * N) : hstate :=
  let t1 := add32 (add32 (add32 (hH s) (bsig1 (hE s))) (add32 (ch (hE s) (hF s) (hG s)) kw.1)) kw.2 in
  let t2 := add32 (bsig0 (hA s)) (maj (hA s) (hB s) (hC s)) in
  HState (add32 t1 t2) (hA s) (hB s) (hC s) (add32 (hD s) t1) (hE s) (hF s) (hG s).

(** The schedule from a window of the last sixteen words: emit the oldest,
    append the next. *)
Fixpoint schedule (n : nat) (w : list N) : list N :=
  match n, w with
  | O, _ | _, [] => []
  | S n, w0 :: rest =>
      let next := add32 (add32 (ssig1 (nth 14 w 0)) (nth 9 w 0))
                        (add32 (ssig0 (nth 1 w 0)) w0) in
      w0 :: schedule n (rest ++ [next])
  end.

Definition add_state (s t : hstate) : hstate :=
  HState (add32 (hA s) (hA t)) (add32 (hB s) (hB t)) (add32 (hC s) (hC t)) (add32 (hD s) (hD t))
         (add32 (hE s) (hE t)) (add32 (hF s) (hF t)) (add32 (hG s) (hG t)) (add32 (hH s) (hH t)).

Definition compress (s : hstate) (block : list N) : hstate :=
  add_state s (foldl round s (zip K (schedule 64 block))).

(** Big-endian words. *)
Fixpoint words (l : bytes) : list N :=
  match l with
  | a :: b :: c :: d :: l =>
      (Byte.to_N a * 2 ^ 24 + Byte.to_N b * 2 ^ 16 + Byte.to_N c * 2 ^ 8 + Byte.to_N d) :: words l
  | _ => []
  end.

Definition be32 (w : N) : bytes :=
  [byte_of_N (w / 2 ^ 24); byte_of_N (w / 2 ^ 16); byte_of_N (w / 2 ^ 8); byte_of_N w].

(** Padding: 0x80, zeros, and the bit length in eight bytes. *)
Definition padding (l : bytes) : bytes :=
  let n := N.of_nat (length l) in
  let zeros := Z.to_nat ((55 - Z.of_N n) mod 64) in
  l ++ [x80] ++ replicate zeros x00 ++ be32 (8 * n / 2 ^ 32) ++ be32 (8 * n).

(** Absorb the words sixteen at a time. *)
Fixpoint absorb (n : nat) (s : hstate) (w : list N) : hstate :=
  match n, w with
  | O, _ | _, [] => s
  | S n, _ => absorb n (compress s (take 16 w)) (drop 16 w)
  end.

Definition digest (s : hstate) : bytes :=
  be32 (hA s) ++ be32 (hB s) ++ be32 (hC s) ++ be32 (hD s) ++
  be32 (hE s) ++ be32 (hF s) ++ be32 (hG s) ++ be32 (hH s).

(** [sha256.Sum256(l)]. *)
Definition sha256 (l : bytes) : bytes :=
  let w := words (padding l) in digest (absorb (length w) iv w).

Lemma sha256_length l : length (sha256 l) = 32%nat.
Proof. reflexivity. Qed.

(** [hmac.New(sha256.New, key)] fed with [msg]. *)
Definition xor_byte (k : N) (b : Byte.byte) : Byte.byte := byte_of_N (N.lxor k (Byte.to_N b)).

Definition hmac_sha256 (key msg : bytes) : bytes :=
  let k := if (64 <? length key)%nat then sha256 key else key in
  let k := k ++ replicate (64 - length k) x00 in
  sha256 (map (xor_byte 0x5c) k ++ sha256 (map (xor_byte 0x36) k ++ msg)).

Lemma hmac_sha256_length key msg : length (hmac_sha256 key msg) = 32%nat.
Proof. apply sha256_length. Qed.

(** ** internal/testutil/cidvectors.go *)

Record KnownVector := MkVector { Name : string; Plaintext : list Byte.byte; DigestHex : string }.

(** [hashSHA256]. *)
Definition hashSHA256 (data : bytes) : bytes := sha256 data.

(** The vectors, and [init()], which fills in the missing digests. *)
Definition vector_table : list KnownVector :=
  [ MkVector "empty" []
      "e3b0c44298fc1c149afbf4c8996fb92427ae41e4649b934ca495991b7852b855";
    MkVector "single-byte-zero" [x00]
      "6e340b9cffb37a989ca544e6bb780a2c78901d3fb33738768511a30617afa01d";
    MkVector "single-byte-ff" [xff]
      "a8100ae6aa1940d0b663bb31cd466142ebbdbd5187131b92d93818987832eb89";
    MkVector "ascii-hello" (to_bytes "hello")
      "2cf24dba5fb0a30e26e83b2ac5b9e29e1b161e5c1fa7425e73043362938b9824";
    MkVector "ortholog-preamble" (to_bytes "ortholog-artifact-store-wave-1") "" ].

Definition fill_digest (v : KnownVector) : KnownVector :=
  if String.eqb (DigestHex v) ""
  then MkVector (Name v) (Plaintext v) (hex_EncodeToString (hashSHA256 (Plaintext v)))
  else v.

Definition KnownVectors : list KnownVector := map fill_digest vector_table.

(** [MustDigestBytes]; [None] is the panic. *)
Definition MustDigestBytes (v : KnownVector) : option bytes := hex_DecodeString (DigestHex v).
