(* ===== verification/Json.v ===== *)
(** * [encoding/json]

    The JSON text grammar ([checkValid] and the scanner), string unquoting,
    the lookup of struct fields in a decoded object, and the text the encoder
    writes for strings, integers and string-keyed maps.

    Values nest to any depth, so the parser is given fuel: [parse_fuel s] is
    enough for every input [s] (lemma [parse_value_fuel]). *)

From Stdlib Require Import Ascii.
From S2P Require Import Prelude GoStrings.

(** ** Values *)

(** A number keeps its literal text: the decoder reads it per target type. *)
#[warnings="-register-all"]
Inductive json :=
  | JNull
  | JBool (b : bool)
  | JNum (lit : string)
  | JStr (s : string)
  | JArr (l : list json)
  | JObj (l : list (string * json)).

(** ** UTF-8 *)

Definition code (a : ascii) : N := N_of_ascii a.
Definition chr (n : N) : ascii := ascii_of_N (n mod 256).
Definition in_range (lo hi n : N) : bool := ((lo <=? n) && (n <=? hi))%N.
Definition cont (a : ascii) : bool := in_range 128 191 (code a).

(** Valid two-, three- and four-byte encodings ([utf8.DecodeRune]). *)
Definition utf8_2 (a b : ascii) : bool := in_range 194 223 (code a) && cont b.
Definition utf8_3 (a b c : ascii) : bool :=
  let x := code a in
  ((x =? 224)%N && in_range 160 191 (code b)
   || (in_range 225 236 x || in_range 238 239 x) && cont b
   || (x =? 237)%N && in_range 128 159 (code b)) && cont c.
Definition utf8_4 (a b c d : ascii) : bool :=
  let x := code a in
  ((x =? 240)%N && in_range 144 191 (code b)
   || in_range 241 243 x && cont b
   || (x =? 244)%N && in_range 128 143 (code b)) && cont c && cont d.

(** [utf8.EncodeRune] of a rune that is not a surrogate. *)
Definition encode_rune (r : N) : string :=
  (if r <? 128 then String (chr r) ""
   else if r <? 2048 then String (chr (192 + r / 64)) (String (chr (128 + r mod 64)) "")
   else if r <? 65536 then
     String (chr (224 + r / 4096)) (String (chr (128 + r / 64 mod 64))
       (String (chr (128 + r mod 64)) ""))
   else
     String (chr (240 + r / 262144)) (String (chr (128 + r / 4096 mod 64))
       (String (chr (128 + r / 64 mod 64)) (String (chr (128 + r mod 64)) ""))))%N.

(** U+FFFD, [unicode.ReplacementChar]. *)
Definition replacement : string := encode_rune 65533.

(** ** String literals *)

(** The double quote. *)
Definition dquote : ascii := "034".

Definition hex4_digit (a : ascii) : option N :=
  let n := code a in
  if in_range 48 57 n then Some (n - 48)%N
  else if in_range 97 102 n then Some (n - 87)%N
  else if in_range 65 70 n then Some (n - 55)%N
  else None.

Definition hex4 (a b c d : ascii) : option N :=
  x ← hex4_digit a; y ← hex4_digit b; z ← hex4_digit c; w ← hex4_digit d;
  Some (((x * 16 + y) * 16 + z) * 16 + w)%N.

Definition simple_escape (a : ascii) : option ascii :=
  match a with
  | "034"%char => Some dquote
  | "\"%char => Some "\"%char
  | "/"%char => Some "/"%char
  | "b"%char => Some "008"%char
  | "f"%char => Some "012"%char
  | "n"%char => Some "010"%char
  | "r"%char => Some "013"%char
  | "t"%char => Some "009"%char
  | _ => None
  end.

(** Prepend to the text of a decoded literal. *)
Definition emit (t : string) (r : option (string * string)) : option (string * string) :=
  match r with Some (u, rest) => Some (t +:+ u, rest) | None => None end.

Definition is_surrogate (r : N) : bool := in_range 55296 57343 r.

(** The rest of a string literal, after its opening quote: the decoded text
    and the input after the closing quote.  Bytes that are not valid UTF-8
    become U+FFFD one at a time, as does a surrogate that is not the first
    half of a pair. *)
Fixpoint parse_str (s : string) : option (string * string) :=
  match s with
  | EmptyString => None
  | String a s1 =>
      if Ascii.eqb a dquote then Some ("", s1)
      else if Ascii.eqb a "\" then
        match s1 with
        | EmptyString => None
        | String e s2 =>
            match simple_escape e with
            | Some x => emit (String x "") (parse_str s2)
            | None =>
                if Ascii.eqb e "u" then
                  match s2 with
                  | String h1 (String h2 (String h3 (String h4 s6))) =>
                      match hex4 h1 h2 h3 h4 with
                      | None => None
                      | Some r =>
                          if is_surrogate r then
                            match s6 with
                            | String b (String u (String k1 (String k2 (String k3 (String k4 s12))))) =>
                                match hex4 k1 k2 k3 k4 with
                                | Some r2 =>
                                    if Ascii.eqb b "\" && Ascii.eqb u "u"
                                       && in_range 55296 56319 r && in_range 56320 57343 r2
                                    then emit (encode_rune (65536 + (r - 55296) * 1024
                                                            + (r2 - 56320))) (parse_str s12)
                                    else emit replacement (parse_str s6)
                                | None => emit replacement (parse_str s6)
                                end
                            | _ => emit replacement (parse_str s6)
                            end
                          else emit (encode_rune r) (parse_str s6)
                      end
                  | _ => None
                  end
                else None
            end
        end
      else if (code a <? 32)%N then None
      else if (code a <? 128)%N then emit (String a "") (parse_str s1)
      else
        match s1 with
        | EmptyString => None
        | String b s2 =>
            if utf8_2 a b then emit (String a (String b "")) (parse_str s2) else
            match s2 with
            | EmptyString => emit replacement (parse_str s1)
            | String c s3 =>
                if utf8_3 a b c then emit (String a (String b (String c ""))) (parse_str s3) else
                match s3 with
                | EmptyString => emit replacement (parse_str s1)
                | String d s4 =>
                    if utf8_4 a b c d
                    then emit (String a (String b (String c (String d "")))) (parse_str s4)
                    else emit replacement (parse_str s1)
                end
            end
        end
  end.

(** ** Number literals *)

Definition is_digit (a : ascii) : bool := in_range 48 57 (code a).

(** The longest prefix of digits, and what follows. *)
Fixpoint span_digits (s : string) : string * string :=
  match s with
  | String a s' =>
      if is_digit a then let '(d, r) := span_digits s' in (String a d, r) else ("", s)
  | EmptyString => ("", "")
  end.

(** [0] or a non-zero digit and more digits. *)
Definition parse_int_part (s : string) : option (string * string) :=
  match s with
  | String a s' =>
      if Ascii.eqb a "0" then Some ("0", s')
      else if is_digit a then Some (span_digits s) else None
  | EmptyString => None
  end.

Definition parse_frac (s : string) : option (string * string) :=
  match s with
  | String a s' =>
      if Ascii.eqb a "." then
        let '(d, r) := span_digits s' in
        if String.eqb d "" then None else Some (String a d, r)
      else Some ("", s)
  | EmptyString => Some ("", "")
  end.

Definition parse_exp (s : string) : option (string * string) :=
  match s with
  | String a s' =>
      if Ascii.eqb a "e" || Ascii.eqb a "E" then
        let '(sg, s'') :=
          match s' with
          | String b t => if Ascii.eqb b "+" || Ascii.eqb b "-" then (String b "", t) else ("", s')
          | EmptyString => ("", s')
          end in
        let '(d, r) := span_digits s'' in
        if String.eqb d "" then None else Some (String a (sg +:+ d), r)
      else Some ("", s)
  | EmptyString => Some ("", "")
  end.

Definition parse_num (s : string) : option (string * string) :=
  let '(sg, s0) :=
    match s with
    | String a t => if Ascii.eqb a "-" then ("-", t) else ("", s)
    | EmptyString => ("", s)
    end in
  '(i, s1) ← parse_int_part s0; '(f, s2) ← parse_frac s1; '(e, s3) ← parse_exp s2;
  Some (sg +:+ i +:+ f +:+ e, s3).

(** ** Values *)

Definition is_ws (a : ascii) : bool :=
  let n := code a in ((n =? 32) || (n =? 9) || (n =? 10) || (n =? 13))%N.

Fixpoint skip_ws (s : string) : string :=
  match s with
  | String a s' => if is_ws a then skip_ws s' else s
  | EmptyString => ""
  end.

(** [maxNestingDepth] of the scanner. *)
Definition max_depth : N := 10000.

(** One value, the elements of an array after ['['] or [','], and the members
    of an object after ['{'] or [',']. *)
Fixpoint parse_value (n : nat) (depth : N) (s : string) : option (json * string) :=
  match n with
  | O => None
  | S n =>
      match skip_ws s with
      | EmptyString => None
      | String a r as s' =>
          if Ascii.eqb a "{" then
            if (max_depth <? depth + 1)%N then None else
            match skip_ws r with
            | String b r' as r'' =>
                if Ascii.eqb b "}" then Some (JObj [], r')
                else '(l, t) ← parse_members n (depth + 1) r''; Some (JObj l, t)
            | EmptyString => None
            end
          else if Ascii.eqb a "[" then
            if (max_depth <? depth + 1)%N then None else
            match skip_ws r with
            | String b r' as r'' =>
                if Ascii.eqb b "]" then Some (JArr [], r')
                else '(l, t) ← parse_elems n (depth + 1) r''; Some (JArr l, t)
            | EmptyString => None
            end
          else if Ascii.eqb a dquote then
            '(u, t) ← parse_str r; Some (JStr u, t)
          else if HasPrefix s' "true" then Some (JBool true, str_drop 4 s')
          else if HasPrefix s' "false" then Some (JBool false, str_drop 5 s')
          else if HasPrefix s' "null" then Some (JNull, str_drop 4 s')
          else '(d, t) ← parse_num s'; Some (JNum d, t)
      end
  end
with parse_elems (n : nat) (depth : N) (s : string) : option (list json * string) :=
  match n with
  | O => None
  | S n =>
      '(v, r) ← parse_value n depth s;
      match skip_ws r with
      | EmptyString => None
      | String b r' =>
          if Ascii.eqb b "," then '(l, t) ← parse_elems n depth r'; Some (v :: l, t)
          else if Ascii.eqb b "]" then Some ([v], r') else None
      end
  end
with parse_members (n : nat) (depth : N) (s : string) : option (list (string * json) * string) :=
  match n with
  | O => None
  | S n =>
      match skip_ws s with
      | EmptyString => None
      | String q s1 =>
          if Ascii.eqb q dquote then
            '(k, s2) ← parse_str s1;
            match skip_ws s2 with
            | EmptyString => None
            | String c s3 =>
                if Ascii.eqb c ":" then
                  '(v, r) ← parse_value n depth s3;
                  match skip_ws r with
                  | EmptyString => None
                  | String b r' =>
                      if Ascii.eqb b "," then
                        '(l, t) ← parse_members n depth r'; Some ((k, v) :: l, t)
                      else if Ascii.eqb b "}" then Some ([(k, v)], r') else None
                  end
                else None
            end
          else None
      end
  end.

(** Fuel that no input exhausts. *)
Definition parse_fuel (s : string) : nat := 2 * String.length s + 2.

(** The document of [json.Unmarshal]: one value and white space around it. *)
Definition parse (s : string) : option json :=
  '(v, r) ← parse_value (parse_fuel s) 0 s;
  if String.eqb (skip_ws r) "" then Some v else None.

(** The first value of a stream, as [json.NewDecoder(r).Decode] reads it. *)
Definition parse_first (s : string) : option json :=
  fst <$> parse_value (parse_fuel s) 0 s.

Definition quote (s : string) : string := String dquote (s +:+ String dquote "").

Example parse_ex1 :
  parse ("{" +:+ quote "cid" +:+ ": " +:+ quote "sha256:ab" +:+ ", " +:+ quote "size" +:+ ":12,"
    +:+ quote "x" +:+ ":[1, -2.5e3, null, {}]} ") =
  Some (JObj [("cid", JStr "sha256:ab"); ("size", JNum "12");
              ("x", JArr [JNum "1"; JNum "-2.5e3"; JNull; JObj []])]).
Proof. vm_compute. reflexivity. Qed.
Example parse_ex2 : parse "{} {}" = None ∧ parse "01" = None ∧ parse "" = None
  ∧ parse "[1,]" = None ∧ parse_first "{} {}" = Some (JObj []).
Proof. vm_compute. done. Qed.
Example parse_ex3 : parse (quote "\u0041\ud83d\ude00\n") =
  Some (JStr ("A" +:+ encode_rune 128512 +:+ String "010" "")).
Proof. vm_compute. reflexivity. Qed.

(** ** The fuel is enough *)

Lemma emit_Some t r u rest :
  emit t r = Some (u, rest) → ∃ u', r = Some (u', rest) ∧ u = t +:+ u'.
Proof. destruct r as [[u' rest']|]; naive_solver. Qed.

Lemma skip_ws_length s : (String.length (skip_ws s) ≤ String.length s)%nat.
Proof. induction s as [|a s IH]; simpl; [lia|]. destruct (is_ws a); simpl; lia. Qed.

Lemma span_digits_length s d r :
  span_digits s = (d, r) → (String.length r ≤ String.length s)%nat.
Proof.
  revert d. induction s as [|a s IH]; simpl; intros d H; [by simplify_eq|].
  destruct (is_digit a); [|by simplify_eq].
  destruct (span_digits s) as [d' r']. simplify_eq. specialize (IH d' eq_refl). lia.
Qed.

Lemma parse_str_length n s u r :
  (String.length s ≤ n)%nat → parse_str s = Some (u, r) →
  (String.length r < String.length s)%nat.
Proof.
  revert s u. induction n as [|n IH]; intros [|a s] u Hn; [done|simpl in Hn; lia|done|].
  simpl in Hn. cbn [parse_str]. intros H.
  assert (Hrec : ∀ t s' u', emit t (parse_str s') = Some (u', r) →
    (String.length s' ≤ String.length s → String.length r < S (String.length s))%nat).
  { intros t s' u' (u'' & E & _)%emit_Some Hl. apply IH in E; lia. }
  repeat case_match; simplify_eq; try done; cbn [String.length] in *;
    try (eapply Hrec; [eassumption|cbn [String.length]; lia]); lia.
Qed.

Lemma parse_num_length s d r :
  parse_num s = Some (d, r) → (String.length r < String.length s)%nat.
Proof.
  assert (Hi : ∀ s d r, parse_int_part s = Some (d, r) →
    (String.length r < String.length s)%nat).
  { intros [|a s'] d' r'; [done|]. cbn [parse_int_part].
    case_match; [intros; simplify_eq; simpl; lia|]. destruct (is_digit a) eqn:E; [|done].
    intros [= Hs]. cbn [span_digits] in Hs. rewrite E in Hs.
    destruct (span_digits s') as [d1 r1] eqn:Es. simplify_eq.
    apply span_digits_length in Es. simpl. lia. }
  assert (Hf : ∀ s d r, parse_frac s = Some (d, r) →
    (String.length r ≤ String.length s)%nat).
  { intros [|a s'] d' r' H; cbn in H; [by simplify_eq|]. repeat case_match; simplify_eq; [|lia].
    match goal with E : span_digits _ = _ |- _ => apply span_digits_length in E end.
    simpl; lia. }
  assert (He : ∀ s d r, parse_exp s = Some (d, r) →
    (String.length r ≤ String.length s)%nat).
  { intros [|a s'] d' r' H; cbn in H; [by simplify_eq|]. repeat case_match; simplify_eq; [..|lia];
    match goal with E : span_digits _ = _ |- _ => apply span_digits_length in E end;
    simpl in *; lia. }
  unfold parse_num.
  destruct (match s with String a t => _ | _ => _ end) as [sg s0] eqn:E0.
  assert (String.length s0 ≤ String.length s)%nat.
  { destruct s as [|a t]; [by simplify_eq|]. case_match; simplify_eq; simpl; lia. }
  destruct (parse_int_part s0) as [[i s1]|] eqn:E1; [|done]. cbn.
  destruct (parse_frac s1) as [[f s2]|] eqn:E2; [|done]. cbn.
  destruct (parse_exp s2) as [[e s3]|] eqn:E3; [|done]. cbn.
  intros [= _ <-]. apply Hi in E1. apply Hf in E2. apply He in E3. lia.
Qed.

(** Every parser consumes input. *)
Lemma parse_lengths n :
  (∀ d s v r, parse_value n d s = Some (v, r) → String.length r < String.length s)%nat ∧
  (∀ d s v r, parse_elems n d s = Some (v, r) → String.length r < String.length s)%nat ∧
  (∀ d s v r, parse_members n d s = Some (v, r) → String.length r < String.length s)%nat.
Proof.
  induction n as [|n (IHv & IHe & IHm)]; [done|].
  split_and!; intros d s v r; cbn [parse_value parse_elems parse_members].
  - pose proof (skip_ws_length s) as Hs. destruct (skip_ws s) as [|a s1]; [done|].
    pose proof (skip_ws_length s1) as Hs1. cbn [String.length] in Hs.
    case_match.
    { case_match; [done|]. destruct (skip_ws s1) as [|b s2]; [done|].
      cbn [String.length] in Hs1. case_match; [intros; simplify_eq; lia|].
      destruct (parse_members _ _ _) as [[l t]|] eqn:E; [|done]. cbn.
      intros; simplify_eq. apply IHm in E. cbn [String.length] in E. lia. }
    case_match.
    { case_match; [done|]. destruct (skip_ws s1) as [|b s2]; [done|].
      cbn [String.length] in Hs1. case_match; [intros; simplify_eq; lia|].
      destruct (parse_elems _ _ _) as [[l t]|] eqn:E; [|done]. cbn.
      intros; simplify_eq. apply IHe in E. cbn [String.length] in E. lia. }
    case_match.
    { destruct (parse_str s1) as [[u t]|] eqn:E; [|done]. cbn. intros; simplify_eq.
      eapply parse_str_length in E; [|done]. lia. }
    assert (Hd : ∀ k, (String.length (str_drop (S k) (String a s1)) < String.length s)%nat).
    { intros k. cbn [str_drop].
      assert (String.length (str_drop k s1) ≤ String.length s1)%nat; [|lia].
      rewrite <- (str_take_drop k s1) at 2. rewrite str_length_app. lia. }
    do 3 (case_match; [intros; simplify_eq; apply Hd|]).
    destruct (parse_num _) as [[u t]|] eqn:E; [|done]. cbn. intros; simplify_eq.
    apply parse_num_length in E. cbn [String.length] in E. lia.
  - destruct (parse_value n d s) as [[w t]|] eqn:E; [|done]. cbn. apply IHv in E.
    pose proof (skip_ws_length t). destruct (skip_ws t) as [|b t1]; [done|].
    cbn [String.length] in *. case_match.
    + destruct (parse_elems n d t1) as [[l t2]|] eqn:E2; [|done]. cbn.
      intros; simplify_eq. apply IHe in E2. lia.
    + case_match; [|done]. intros; simplify_eq. lia.
  - pose proof (skip_ws_length s). destruct (skip_ws s) as [|q s1]; [done|].
    cbn [String.length] in *. case_match; [|done].
    destruct (parse_str s1) as [[k s2]|] eqn:E; [|done]. cbn.
    eapply parse_str_length in E; [|done].
    pose proof (skip_ws_length s2). destruct (skip_ws s2) as [|c s3]; [done|].
    cbn [String.length] in *. case_match; [|done].
    destruct (parse_value n d s3) as [[w t]|] eqn:E2; [|done]. cbn. apply IHv in E2.
    pose proof (skip_ws_length t). destruct (skip_ws t) as [|b t1]; [done|].
    cbn [String.length] in *. case_match.
    + destruct (parse_members n d t1) as [[l t2]|] eqn:E3; [|done]. cbn.
      intros; simplify_eq. apply IHm in E3. lia.
    + case_match; [|done]. intros; simplify_eq. lia.
Qed.

(** Beyond the bound, the amount of fuel does not matter. *)
Lemma parse_fuel_indep n :
  (∀ m d s, 2 * String.length s + 1 ≤ n → 2 * String.length s + 1 ≤ m →
    parse_value n d s = parse_value m d s)%nat ∧
  (∀ m d s, 2 * String.length s + 2 ≤ n → 2 * String.length s + 2 ≤ m →
    parse_elems n d s = parse_elems m d s)%nat ∧
  (∀ m d s, 2 * String.length s + 2 ≤ n → 2 * String.length s + 2 ≤ m →
    parse_members n d s = parse_members m d s)%nat.
Proof.
  induction n as [|n (IHv & IHe & IHm)].
  { split_and!; intros; lia. }
  split_and!; intros [|m] d s Hn Hm; try lia;
    cbn [parse_value parse_elems parse_members].
  - pose proof (skip_ws_length s) as Hs. destruct (skip_ws s) as [|a s1]; [done|].
    pose proof (skip_ws_length s1) as Hs1. cbn [String.length] in Hs.
    case_match.
    { case_match; [done|]. destruct (skip_ws s1) as [|b s2]; [done|].
      case_match; [done|]. by rewrite (IHm m) by lia. }
    case_match; [|done].
    case_match; [done|]. destruct (skip_ws s1) as [|b s2]; [done|].
    case_match; [done|]. by rewrite (IHe m) by lia.
  - rewrite (IHv m) by lia. destruct (parse_value m d s) as [[w t]|] eqn:E; [|done]. cbn.
    apply parse_lengths in E. pose proof (skip_ws_length t).
    destruct (skip_ws t) as [|b t1]; [done|]. cbn [String.length] in *.
    case_match; [|done]. by rewrite (IHe m) by lia.
  - pose proof (skip_ws_length s). destruct (skip_ws s) as [|q s1]; [done|].
    cbn [String.length] in *. case_match; [|done].
    destruct (parse_str s1) as [[k s2]|] eqn:E; [|done]. cbn.
    eapply parse_str_length in E; [|done].
    pose proof (skip_ws_length s2). destruct (skip_ws s2) as [|c s3]; [done|].
    cbn [String.length] in *. case_match; [|done]. rewrite (IHv m) by lia.
    destruct (parse_value m d s3) as [[w t]|] eqn:E2; [|done]. cbn.
    apply parse_lengths in E2. pose proof (skip_ws_length t).
    destruct (skip_ws t) as [|b t1]; [done|]. cbn [String.length] in *.
    case_match; [|done]. by rewrite (IHm m) by lia.
Qed.

Lemma parse_value_fuel n s d :
  (parse_fuel s ≤ n)%nat → parse_value n d s = parse_value (parse_fuel s) d s.
Proof. unfold parse_fuel. intros. apply parse_fuel_indep; lia. Qed.

(** ** Encoding *)

Definition hex_char (n : N) : ascii := chr (if n <? 10 then 48 + n else 87 + n)%N.

(** How the encoder writes one ASCII byte (HTML escaping is on). *)
Definition escape1 (a : ascii) : string :=
  if Ascii.eqb a dquote || Ascii.eqb a "\" then String "\" (String a "")
  else if Ascii.eqb a "008" then "\b"
  else if Ascii.eqb a "012" then "\f"
  else if Ascii.eqb a "010" then "\n"
  else if Ascii.eqb a "013" then "\r"
  else if Ascii.eqb a "009" then "\t"
  else if (code a <? 32)%N || Ascii.eqb a "<" || Ascii.eqb a ">" || Ascii.eqb a "&"
  then "\u00" +:+ String (hex_char (code a / 16)) (String (hex_char (code a mod 16)) "")
  else String a "".

(** U+2028 and U+2029. *)
Definition is_line_sep (a b c : ascii) : bool :=
  ((code a =? 226) && (code b =? 128) && ((code c =? 168) || (code c =? 169)))%N.

(** The text between the quotes of an encoded string. *)
Fixpoint escape (s : string) : string :=
  match s with
  | EmptyString => ""
  | String a s1 =>
      if (code a <? 128)%N then escape1 a +:+ escape s1 else
      match s1 with
      | EmptyString => "\ufffd"
      | String b s2 =>
          if utf8_2 a b then String a (String b "") +:+ escape s2 else
          match s2 with
          | EmptyString => "\ufffd" +:+ escape s1
          | String c s3 =>
              if utf8_3 a b c then
                (if is_line_sep a b c then "\u202" +:+ String (hex_char (code c mod 16)) ""
                 else String a (String b (String c ""))) +:+ escape s3
              else
              match s3 with
              | EmptyString => "\ufffd" +:+ escape s1
              | String d s4 =>
                  if utf8_4 a b c d
                  then String a (String b (String c (String d ""))) +:+ escape s4
                  else "\ufffd" +:+ escape s1
              end
          end
      end
  end.

(** What survives a trip through JSON: each byte that is not part of a valid
    UTF-8 sequence is replaced by U+FFFD. *)
Fixpoint to_valid_utf8 (s : string) : string :=
  match s with
  | EmptyString => ""
  | String a s1 =>
      if (code a <? 128)%N then String a (to_valid_utf8 s1) else
      match s1 with
      | EmptyString => replacement
      | String b s2 =>
          if utf8_2 a b then String a (String b (to_valid_utf8 s2)) else
          match s2 with
          | EmptyString => replacement +:+ to_valid_utf8 s1
          | String c s3 =>
              if utf8_3 a b c then String a (String b (String c (to_valid_utf8 s3))) else
              match s3 with
              | EmptyString => replacement +:+ to_valid_utf8 s1
              | String d s4 =>
                  if utf8_4 a b c d
                  then String a (String b (String c (String d (to_valid_utf8 s4))))
                  else replacement +:+ to_valid_utf8 s1
              end
          end
      end
  end.

(** A quoted JSON string. *)
Definition json_string (s : string) : string := String dquote (escape s +:+ String dquote "").

Fixpoint render (j : json) : string :=
  match j with
  | JNull => "null"
  | JBool true => "true"
  | JBool false => "false"
  | JNum lit => lit
  | JStr s => json_string s
  | JArr l => "[" +:+ Join "," (map render l) +:+ "]"
  | JObj l =>
      "{" +:+ Join "," (map (λ kv, json_string kv.1 +:+ ":" +:+ render kv.2) l) +:+ "}"
  end.

(** [json.NewEncoder(w).Encode(v)] ends the document with a newline. *)
Definition Encode (j : json) : string := render j +:+ String "010" "".

(** ** Reading back what was written *)

Lemma emit_app t u r : emit t (emit u r) = emit (t +:+ u) r.
Proof. destruct r as [[v rest]|]; [|done]. cbn [emit]. by rewrite str_app_assoc. Qed.

Lemma emit_nil r : emit "" r = r.
Proof. by destruct r as [[v rest]|]. Qed.

Lemma parse_str_escape1 a t :
  (code a <? 128)%N = true → parse_str (escape1 a +:+ t) = emit (String a "") (parse_str t).
Proof. destruct a as [[][][][][][][][]]; intros H; first [discriminate H|reflexivity]. Qed.

Lemma high_byte a : (code a <? 128)%N = false →
  Ascii.eqb a dquote = false ∧ Ascii.eqb a "\" = false ∧ (code a <? 32)%N = false.
Proof. destruct a as [[][][][][][][][]]; intros H; first [discriminate H|done]. Qed.

Lemma code_inj a b : code a = code b → a = b.
Proof. unfold code. intros H. by rewrite <- (ascii_N_embedding a), H, ascii_N_embedding. Qed.

Lemma parse_str_2 a b t : (code a <? 128)%N = false → utf8_2 a b = true →
  parse_str (String a (String b t)) = emit (String a (String b "")) (parse_str t).
Proof. intros H1 H2. destruct (high_byte a H1) as (E1 & E2 & E3). cbn [parse_str]. by rewrite E1, E2, E3, H1, H2. Qed.

Lemma parse_str_3 a b c t :
  (code a <? 128)%N = false → utf8_2 a b = false → utf8_3 a b c = true →
  parse_str (String a (String b (String c t))) =
    emit (String a (String b (String c ""))) (parse_str t).
Proof.
  intros H1 H2 H3. destruct (high_byte a H1) as (E1 & E2 & E3). cbn [parse_str].
  by rewrite E1, E2, E3, H1, H2, H3.
Qed.

Lemma parse_str_4 a b c d t :
  (code a <? 128)%N = false → utf8_2 a b = false → utf8_3 a b c = false →
  utf8_4 a b c d = true →
  parse_str (String a (String b (String c (String d t)))) =
    emit (String a (String b (String c (String d "")))) (parse_str t).
Proof.
  intros H1 H2 H3 H4. destruct (high_byte a H1) as (E1 & E2 & E3). cbn [parse_str].
  by rewrite E1, E2, E3, H1, H2, H3, H4.
Qed.

Lemma parse_str_fffd t : parse_str ("\ufffd" +:+ t) = emit replacement (parse_str t).
Proof. reflexivity. Qed.

Lemma parse_str_line_sep a b c t : is_line_sep a b c = true →
  parse_str (("\u202" +:+ String (hex_char (code c mod 16)) "") +:+ t) =
    emit (String a (String b (String c ""))) (parse_str t).
Proof.
  unfold is_line_sep. intros [[Ha%N.eqb_eq Hb%N.eqb_eq]%andb_true_iff Hc]%andb_true_iff.
  apply (code_inj a "226") in Ha as ->. apply (code_inj b "128") in Hb as ->.
  apply orb_true_iff in Hc as [Hc|Hc]; apply N.eqb_eq in Hc.
  - by apply (code_inj c "168") in Hc as ->.
  - by apply (code_inj c "169") in Hc as ->.
Qed.

(** Unquoting an encoded string gives it back, up to UTF-8 repair. *)
Lemma parse_str_escape_bound n s t : (String.length s ≤ n)%nat →
  parse_str (escape s +:+ t) = emit (to_valid_utf8 s) (parse_str t).
Proof.
  revert s. induction n as [|n IH]; intros [|a s1] Hn;
    [by rewrite emit_nil|simpl in Hn; lia|by rewrite emit_nil|].
  cbn [String.length] in Hn. cbn [escape to_valid_utf8].
  destruct (code a <? 128)%N eqn:H1.
  { rewrite str_app_assoc, parse_str_escape1, IH by (done || lia). apply emit_app. }
  destruct s1 as [|b s2].
  { apply parse_str_fffd. }
  cbn [String.length] in Hn. destruct (utf8_2 a b) eqn:H2.
  { rewrite str_app_assoc, !str_app_cons, str_app_nil_l, parse_str_2, IH by (done || lia).
    apply emit_app. }
  assert (Hbad : parse_str (("\ufffd" +:+ escape (String b s2)) +:+ t) =
    emit (replacement +:+ to_valid_utf8 (String b s2)) (parse_str t)).
  { rewrite str_app_assoc, parse_str_fffd, IH by (cbn [String.length]; lia). apply emit_app. }
  destruct s2 as [|c s3]; [exact Hbad|]. cbn [String.length] in Hn.
  destruct (utf8_3 a b c) eqn:H3.
  { destruct (is_line_sep a b c) eqn:Hl.
    - rewrite (str_app_assoc _ (escape s3)).
      rewrite (parse_str_line_sep a b c), IH by (done || lia). apply emit_app.
    - rewrite str_app_assoc, !str_app_cons, str_app_nil_l, parse_str_3, IH by (done || lia).
      apply emit_app. }
  destruct s3 as [|d s4]; [exact Hbad|]. cbn [String.length] in Hn.
  destruct (utf8_4 a b c d) eqn:H4; [|exact Hbad].
  rewrite str_app_assoc, !str_app_cons, str_app_nil_l, parse_str_4, IH by (done || lia).
  apply emit_app.
Qed.

Lemma parse_str_escape s t :
  parse_str (escape s +:+ String dquote t) = Some (to_valid_utf8 s, t).
Proof.
  rewrite (parse_str_escape_bound (String.length s)) by done. cbn [parse_str].
  rewrite Ascii.eqb_refl. cbn [emit]. by rewrite str_app_nil_r.
Qed.

(** Induction over values, through the lists inside them. *)
Lemma json_nested_ind (P : json → Prop) :
  P JNull → (∀ b, P (JBool b)) → (∀ d, P (JNum d)) → (∀ s, P (JStr s)) →
  (∀ l, Forall P l → P (JArr l)) → (∀ l, Forall (λ kv, P kv.2) l → P (JObj l)) →
  ∀ j, P j.
Proof.
  intros Hn Hb Hd Hs Ha Ho. fix IH 1. intros [|b|d|s|l|l]; [done|done|done|done| |].
  - apply Ha. induction l as [|v l IHl]; constructor; [apply IH|exact IHl].
  - apply Ho. induction l as [|[k v] l IHl]; constructor; [apply IH|exact IHl].
Qed.

(** Strings of a value repaired to valid UTF-8. *)
Fixpoint json_utf8 (j : json) : json :=
  match j with
  | JStr s => JStr (to_valid_utf8 s)
  | JArr l => JArr (map json_utf8 l)
  | JObj l => JObj (map (λ kv, (to_valid_utf8 kv.1, json_utf8 kv.2)) l)
  | _ => j
  end.

(** What may follow a number: no character that would continue it. *)
Definition num_end (s : string) : bool :=
  match s with
  | EmptyString => true
  | String a _ => negb (is_digit a || Ascii.eqb a "." || Ascii.eqb a "e" || Ascii.eqb a "E")
  end.

(** A number literal the encoder may write. *)
Definition num_ok (lit : string) : Prop :=
  match lit with
  | String a _ => is_digit a || Ascii.eqb a "-" = true
  | EmptyString => False
  end ∧ ∀ rest, num_end rest = true → parse_num (lit +:+ rest) = Some (lit, rest).

Fixpoint json_wf (j : json) : Prop :=
  match j with
  | JNum lit => num_ok lit
  | JArr l => foldr (λ v acc, json_wf v ∧ acc) True l
  | JObj l => foldr (λ kv acc, json_wf kv.2 ∧ acc) True l
  | _ => True
  end.

(** Nesting depth, and fuel that parses a value. *)
Fixpoint json_depth (j : json) : N :=
  match j with
  | JArr l => 1 + foldr (λ v acc, N.max (json_depth v) acc) 0 l
  | JObj l => 1 + foldr (λ kv acc, N.max (json_depth kv.2) acc) 0 l
  | _ => 0
  end%N.

Fixpoint json_fuel (j : json) : nat :=
  match j with
  | JArr l => S (foldr (λ v acc, S (Nat.max (json_fuel v) acc)) 0%nat l)
  | JObj l => S (foldr (λ kv acc, S (Nat.max (json_fuel kv.2) acc)) 0%nat l)
  | _ => 1%nat
  end.

Lemma skip_ws_head a s : is_ws a = false → skip_ws (String a s) = String a s.
Proof. intros H. cbn [skip_ws]. by rewrite H. Qed.

(** How a rendered value starts. *)
Lemma render_head j : json_wf j → ∃ a s, render j = String a s ∧
  is_ws a = false ∧ Ascii.eqb a "]" = false ∧ Ascii.eqb a "}" = false.
Proof.
  destruct j as [|[]|[|a s]|s|l|l]; cbn [json_wf render]; intros H; try by eexists _, _.
  - by destruct H.
  - destruct H as [H _]. exists a, s. split; [done|].
    destruct a as [[][][][][][][][]]; first [discriminate H|done].
Qed.

Lemma parse_value_num n d lit rest :
  num_ok lit → num_end rest = true →
  parse_value (S n) d (lit +:+ rest) = Some (JNum lit, rest).
Proof.
  intros [Hh Hp] He. specialize (Hp rest He). destruct lit as [|a s]; [done|].
  rewrite str_app_cons in *. cbn [parse_value].
  assert (is_ws a = false ∧ Ascii.eqb a "{" = false ∧ Ascii.eqb a "[" = false
    ∧ Ascii.eqb a dquote = false ∧ Ascii.eqb "t" a = false ∧ Ascii.eqb "f" a = false
    ∧ Ascii.eqb "n" a = false) as (W & E1 & E2 & E3 & E4 & E5 & E6).
  { destruct a as [[][][][][][][][]]; first [discriminate Hh|done]. }
  rewrite skip_ws_head, E1, E2, E3 by done. cbn [HasPrefix].
  rewrite E4, E5, E6. cbn [andb]. by rewrite Hp.
Qed.

Lemma parse_value_str n d s rest :
  parse_value (S n) d (json_string s +:+ rest) = Some (JStr (to_valid_utf8 s), rest).
Proof.
  unfold json_string. rewrite str_app_cons, str_app_assoc, str_app_cons, str_app_nil_l.
  cbn [parse_value]. rewrite skip_ws_head by done.
  change (Ascii.eqb dquote "{") with false. change (Ascii.eqb dquote "[") with false.
  rewrite Ascii.eqb_refl. cbv iota. by rewrite parse_str_escape.
Qed.

Definition Renders (j : json) : Prop := ∀ n d rest,
  json_wf j → (json_fuel j ≤ n)%nat → (d + json_depth j ≤ max_depth)%N →
  num_end rest = true → parse_value n d (render j +:+ rest) = Some (json_utf8 j, rest).

Lemma parse_elems_comma n d s v r :
  parse_value n d s = Some (v, String "," r) →
  parse_elems (S n) d s = '(l, t) ← parse_elems n d r; Some (v :: l, t).
Proof. intros H. cbn [parse_elems]. rewrite H. reflexivity. Qed.

Lemma parse_elems_last n d s v r :
  parse_value n d s = Some (v, String "]" r) → parse_elems (S n) d s = Some ([v], r).
Proof. intros H. cbn [parse_elems]. rewrite H. reflexivity. Qed.

Lemma parse_elems_render l v n d rest :
  Forall Renders (v :: l) → json_wf (JArr (v :: l)) →
  (json_fuel (JArr (v :: l)) ≤ S n)%nat → (d + json_depth (JArr (v :: l)) ≤ max_depth + 1)%N →
  parse_elems n d (Join "," (map render (v :: l)) +:+ String "]" rest) =
    Some (map json_utf8 (v :: l), rest).
Proof.
  revert v n. induction l as [|w l IH]; intros v n HR Hw Hf Hd;
    apply Forall_cons in HR as [HR HRl]; destruct Hw as [Hv Hw];
    cbn [json_fuel json_depth foldr] in Hf, Hd; (destruct n as [|n]; [lia|]).
  - apply parse_elems_last, HR; done || lia.
  - change (Join "," (map render (v :: w :: l)))
      with (render v +:+ String "," (Join "," (map render (w :: l)))).
    rewrite str_app_assoc, str_app_cons.
    erewrite parse_elems_comma by (apply HR; done || lia).
    rewrite IH; [done|done|exact Hw| |]; cbn [json_fuel json_depth foldr]; lia.
Qed.

Definition member (kv : string * json) : string := json_string kv.1 +:+ ":" +:+ render kv.2.

Lemma parse_members_value n d k s v r :
  parse_value n d s = Some (v, r) →
  parse_members (S n) d (json_string k +:+ ":" +:+ s) =
    match skip_ws r with
    | EmptyString => None
    | String b r' =>
        if Ascii.eqb b "," then
          '(l, t) ← parse_members n d r'; Some ((to_valid_utf8 k, v) :: l, t)
        else if Ascii.eqb b "}" then Some ([(to_valid_utf8 k, v)], r') else None
    end.
Proof.
  intros H. unfold json_string. rewrite str_app_cons, str_app_assoc, str_app_cons, str_app_nil_l.
  cbn [parse_members]. rewrite skip_ws_head by done. rewrite Ascii.eqb_refl. cbv iota.
  rewrite parse_str_escape. cbn -[parse_value parse_members skip_ws].
  change (skip_ws (":" +:+ s)) with (String ":" s). cbv iota.
  rewrite Ascii.eqb_refl. cbv iota. by rewrite H.
Qed.

Lemma parse_members_render l kv n d rest :
  Forall (λ kv, Renders kv.2) (kv :: l) → json_wf (JObj (kv :: l)) →
  (json_fuel (JObj (kv :: l)) ≤ S n)%nat → (d + json_depth (JObj (kv :: l)) ≤ max_depth + 1)%N →
  parse_members n d (Join "," (map member (kv :: l)) +:+ String "}" rest) =
    Some (map (λ kv, (to_valid_utf8 kv.1, json_utf8 kv.2)) (kv :: l), rest).
Proof.
  revert kv n. induction l as [|kw l IH]; intros [k v] n HR Hw Hf Hd;
    apply Forall_cons in HR as [HR HRl]; destruct Hw as [Hv Hw];
    cbn [json_fuel json_depth foldr snd fst] in *; (destruct n as [|n]; [lia|]).
  - cbn [map Join]. unfold member at 1. cbn [fst snd]. rewrite !str_app_assoc.
    erewrite parse_members_value by (apply HR; done || lia). reflexivity.
  - change (Join "," (map member ((k, v) :: kw :: l)))
      with (member (k, v) +:+ String "," (Join "," (map member (kw :: l)))).
    unfold member at 1. cbn [fst snd]. rewrite !str_app_assoc, (str_app_cons ",").
    erewrite parse_members_value by (apply HR; done || lia).
    rewrite skip_ws_head by done. rewrite Ascii.eqb_refl. cbv iota.
    rewrite IH; [done|done|exact Hw| |]; cbn [json_fuel json_depth foldr]; lia.
Qed.

Lemma parse_value_render j : Renders j.
Proof.
  induction j as [|b|lit|s|l IH|l IH] using json_nested_ind;
    intros [|n] d rest Hw Hf Hd He; cbn [json_fuel] in Hf; try lia.
  - reflexivity.
  - by destruct b.
  - by apply parse_value_num.
  - apply parse_value_str.
  - destruct l as [|v l].
    + cbn [json_depth foldr] in Hd. change (render (JArr [])) with "[]".
      change (("[]" +:+ rest)) with (String "[" (String "]" rest)).
      cbn [parse_value]. rewrite skip_ws_head by done. cbv iota beta.
      change (Ascii.eqb "[" "{") with false. rewrite Ascii.eqb_refl. cbv iota.
      destruct (N.ltb_spec max_depth (d + 1)); [lia|]. reflexivity.
    + change (render (JArr (v :: l)))
        with (String "[" (Join "," (map render (v :: l)) +:+ "]")).
      rewrite str_app_cons, str_app_assoc. change ("]" +:+ rest) with (String "]" rest).
      cbn [parse_value]. rewrite skip_ws_head by done.
      change (Ascii.eqb "[" "{") with false. rewrite Ascii.eqb_refl. cbv iota.
      cbn [json_depth] in Hd. destruct (N.ltb_spec max_depth (d + 1)); [lia|].
      destruct (render_head v (proj1 Hw)) as (a & t & Ha & W & E & _).
      assert (∃ t', Join "," (map render (v :: l)) +:+ String "]" rest = String a t') as [t' Ht].
      { cbn [map Join]. rewrite Ha. destruct l; rewrite ?str_app_cons; eauto. }
      rewrite Ht. rewrite skip_ws_head by done. rewrite E. rewrite <- Ht.
      rewrite parse_elems_render; [done|done|exact Hw|cbn [json_fuel]; lia|cbn [json_depth]; lia].
  - destruct l as [|kv l].
    + cbn [json_depth foldr] in Hd. change (render (JObj [])) with "{}".
      change (("{}" +:+ rest)) with (String "{" (String "}" rest)).
      cbn [parse_value]. rewrite skip_ws_head by done. rewrite Ascii.eqb_refl. cbv iota.
      destruct (N.ltb_spec max_depth (d + 1)); [lia|]. reflexivity.
    + change (render (JObj (kv :: l)))
        with (String "{" (Join "," (map member (kv :: l)) +:+ "}")).
      rewrite str_app_cons, str_app_assoc. change ("}" +:+ rest) with (String "}" rest).
      cbn [parse_value]. rewrite skip_ws_head by done. rewrite Ascii.eqb_refl. cbv iota.
      cbn [json_depth] in Hd. destruct (N.ltb_spec max_depth (d + 1)); [lia|].
      assert (∃ t', Join "," (map member (kv :: l)) +:+ String "}" rest = String dquote t')
        as [t' Ht].
      { cbn [map Join]. unfold member at 1, json_string at 1.
        destruct l; rewrite ?str_app_cons; eauto. }
      rewrite Ht. rewrite skip_ws_head by done.
      change (Ascii.eqb dquote "}") with false. cbv iota. rewrite <- Ht.
      rewrite parse_members_render; [done|done|exact Hw|cbn [json_fuel]; lia|cbn [json_depth]; lia].
Qed.

(** Round trip: a document the encoder writes is read back as the value
    written, strings repaired to valid UTF-8. *)
Lemma parse_Encode j :
  json_wf j → (json_depth j ≤ max_depth)%N → parse (Encode j) = Some (json_utf8 j).
Proof.
  intros Hw Hd. unfold parse, Encode.
  set (s := render j +:+ _). rewrite <- (parse_value_fuel (parse_fuel s + json_fuel j)) by lia.
  unfold s. rewrite parse_value_render by (done || lia). reflexivity.
Qed.

Lemma parse_first_Encode j :
  json_wf j → (json_depth j ≤ max_depth)%N → parse_first (Encode j) = Some (json_utf8 j).
Proof.
  intros Hw Hd. unfold parse_first, Encode.
  set (s := render j +:+ _). rewrite <- (parse_value_fuel (parse_fuel s + json_fuel j)) by lia.
  unfold s. rewrite parse_value_render by (done || lia). reflexivity.
Qed.

Lemma parse_render j :
  json_wf j → (json_depth j ≤ max_depth)%N → parse (render j) = Some (json_utf8 j).
Proof.
  intros Hw Hd. unfold parse. rewrite <- (str_app_nil_r (render j)).
  set (s := render j +:+ _). rewrite <- (parse_value_fuel (parse_fuel s + json_fuel j)) by lia.
  unfold s. rewrite parse_value_render by (done || lia). reflexivity.
Qed.

(** ASCII text is its own repair. *)
Fixpoint is_ascii (s : string) : bool :=
  match s with
  | EmptyString => true
  | String a s => (code a <? 128)%N && is_ascii s
  end.

Lemma to_valid_utf8_ascii s : is_ascii s = true → to_valid_utf8 s = s.
Proof.
  induction s as [|a s IH]; [done|]. cbn [is_ascii to_valid_utf8].
  intros [-> H]%andb_true_iff. by rewrite IH.
Qed.

Lemma is_ascii_app s t : is_ascii (s +:+ t) = is_ascii s && is_ascii t.
Proof. induction s as [|a s IH]; [done|]. rewrite str_app_cons. cbn. by rewrite IH, andb_assoc. Qed.

(** ** Integers as JSON numbers *)

Fixpoint all_digits (s : string) : bool :=
  match s with
  | EmptyString => true
  | String a s => is_digit a && all_digits s
  end.

Lemma span_digits_app d rest :
  all_digits d = true → num_end rest = true → span_digits (d +:+ rest) = (d, rest).
Proof.
  intros Hd He. induction d as [|a d IH].
  - rewrite str_app_nil_l. destruct rest as [|b rest]; [done|].
    cbn [num_end span_digits] in *. by destruct (is_digit b).
  - rewrite str_app_cons. cbn [all_digits] in Hd. apply andb_true_iff in Hd as [Ha Hd].
    cbn [span_digits]. by rewrite Ha, IH.
Qed.

Lemma parse_num_tail rest :
  num_end rest = true → parse_frac rest = Some ("", rest) ∧ parse_exp rest = Some ("", rest).
Proof.
  destruct rest as [|a rest]; [done|]. cbn [num_end parse_frac parse_exp].
  destruct (is_digit a), (Ascii.eqb a "."), (Ascii.eqb a "e"), (Ascii.eqb a "E"); done.
Qed.

(** The digits of a positive number: non-empty, no leading zero. *)
Lemma pretty_N_go_digits (x : N) (s : string) :
  (0 < x)%N → all_digits s = true →
  ∃ a r, pretty_N_go x s = String a r ∧ is_digit a = true ∧ Ascii.eqb a "0" = false
    ∧ Ascii.eqb a "-" = false ∧ all_digits r = true.
Proof.
  revert s. induction (N.lt_wf_0 x) as [x _ IH]; intros s Hx Hs.
  rewrite pretty_N_go_step by done.
  assert (Hm : (x mod 10 < 10)%N) by (apply N.mod_upper_bound; lia).
  assert (Hc : ∀ k, (k < 10)%N → is_digit (pretty_N_char k) = true
    ∧ Ascii.eqb (pretty_N_char k) "-" = false
    ∧ (k ≠ 0%N → Ascii.eqb (pretty_N_char k) "0" = false)).
  { intros k Hk. assert (k = 0 ∨ k = 1 ∨ k = 2 ∨ k = 3 ∨ k = 4 ∨ k = 5 ∨ k = 6 ∨ k = 7
      ∨ k = 8 ∨ k = 9)%N as Hc by lia.
    by repeat destruct Hc as [->|Hc]; [..|subst]. }
  destruct (Hc (x mod 10)%N Hm) as (H1 & H2 & H3).
  destruct (decide (x / 10 = 0)%N) as [H0|H0].
  - rewrite H0, pretty_N_go_0. eexists _, _. split; [done|]. split; [done|].
    split; [|done]. apply H3. pose proof (N.div_mod x 10). lia.
  - apply IH; [apply N.div_lt; lia|destruct (x / 10)%N; [done|lia]|].
    cbn [all_digits]. by rewrite H1.
Qed.

Lemma num_ok_digits a r :
  is_digit a = true → Ascii.eqb a "0" = false → Ascii.eqb a "-" = false →
  all_digits r = true → num_ok (String a r).
Proof.
  intros Ha H0 Hm Hr. split; [by rewrite Ha|]. intros rest He.
  destruct (parse_num_tail rest He) as [Hf Hx].
  unfold parse_num. rewrite str_app_cons, Hm. cbn [parse_int_part]. rewrite H0, Ha.
  rewrite <- str_app_cons, span_digits_app by (try done; cbn [all_digits]; by rewrite Ha).
  cbn -[parse_frac parse_exp]. rewrite Hf. cbn -[parse_exp]. rewrite Hx. cbn.
  by rewrite !str_app_nil_r.
Qed.

(** [strconv]'s decimal text is a JSON number. *)
Lemma num_ok_Itoa z : num_ok (Itoa z).
Proof.
  destruct z as [|p|p].
  - split; [done|]. intros rest He. destruct (parse_num_tail rest He) as [Hf Hx].
    change (Itoa 0 +:+ rest) with (String "0" rest).
    unfold parse_num. change (Ascii.eqb "0" "-") with false. cbv iota. cbn [parse_int_part].
    rewrite Ascii.eqb_refl. cbn -[parse_frac parse_exp]. rewrite Hf. cbn -[parse_exp]. by rewrite Hx.
  - change (Itoa (Z.pos p)) with (pretty_N_go (N.pos p) "").
    destruct (pretty_N_go_digits (N.pos p) "") as (a & r & -> & ? & ? & ? & ?); [done..|].
    by apply num_ok_digits.
  - change (Itoa (Z.neg p)) with (String "-" (pretty_N_go (N.pos p) "")).
    destruct (pretty_N_go_digits (N.pos p) "") as (a & r & -> & Ha & H0 & Hm & Hr); [done..|].
    split; [done|]. intros rest He.
    destruct (num_ok_digits a r Ha H0 Hm Hr) as [_ Hn]. specialize (Hn rest He).
    unfold parse_num in *. rewrite !str_app_cons in *. rewrite Hm in Hn.
    rewrite Ascii.eqb_refl.
    destruct (parse_int_part (String a (r +:+ rest))) as [[i s1]|]; [|done]. cbn in *.
    destruct (parse_frac s1) as [[f s2]|]; [|done]. cbn in *.
    destruct (parse_exp s2) as [[e s3]|]; [|done]. cbn in *.
    injection Hn as <- <-. done.
Qed.

(** ** Decoding into a struct *)

(** [foldName]: ASCII letters to upper case, and the two non-ASCII runes that
    fold to an ASCII letter (U+017F to S, U+212A to K). *)
Fixpoint fold_name (s : string) : string :=
  match s with
  | EmptyString => ""
  | String a s1 =>
      if in_range 97 122 (code a) then String (chr (code a - 32)) (fold_name s1) else
      match s1 with
      | EmptyString => s
      | String b s2 =>
          if ((code a =? 197) && (code b =? 191))%N then String "S" (fold_name s2) else
          match s2 with
          | EmptyString => String a (fold_name s1)
          | String c s3 =>
              if ((code a =? 226) && (code b =? 132) && (code c =? 170))%N
              then String "K" (fold_name s3) else String a (fold_name s1)
          end
      end
  end.

(** Which struct field a member sets: the exact name, else the folded one. *)
Definition field_match (name key : string) : bool :=
  String.eqb key name || String.eqb (fold_name key) (fold_name name).

(** Storing a value in a [string] or an [int64] field: [null] leaves it as it
    is, a value of another type is an [UnmarshalTypeError]. *)
Definition store_string (j : json) (cur : string) : option string :=
  match j with JStr s => Some s | JNull => Some cur | _ => None end.
Definition store_int64 (j : json) (cur : Z) : option Z :=
  match j with JNum lit => ParseInt lit | JNull => Some cur | _ => None end.

Section Unmarshal.
Context {A : Type}.

(** A struct type: its JSON field names, and how each is stored. *)
Variable fields : list (string * (json → A → option A)).

Fixpoint store_field (fs : list (string * (json → A → option A)))
    (k : string) (v : json) (a : A) : option A :=
  match fs with
  | [] => Some a
  | (name, store) :: fs => if field_match name k then store v a else store_field fs k v a
  end.

Fixpoint store_members (l : list (string * json)) (a : A) : option A :=
  match l with
  | [] => Some a
  | (k, v) :: l => a' ← store_field fields k v a; store_members l a'
  end.

Definition store_struct (j : json) (zero : A) : option A :=
  match j with
  | JNull => Some zero
  | JObj l => store_members l zero
  | _ => None
  end.

(** [json.Unmarshal(data, &zero)]; [None] is a non-nil error. *)
Definition Unmarshal (zero : A) (data : bytes) : option A :=
  j ← parse (of_bytes data); store_struct j zero.
End Unmarshal.
