(* ===== verification/Url.v ===== *)
(** * net/url: escaping, unescaping and query parsing *)

From Stdlib Require Import Ascii.
From S2P Require Import Prelude GoStrings Encoding Json.

Open Scope N_scope.

(** ** Escaping *)

Inductive mode := encodePathSegment | encodeQueryComponent.

(** RFC 3986 unreserved characters: never escaped. *)
Definition unreserved (a : ascii) : bool :=
  in_range 97 122 (code a) || in_range 65 90 (code a) || in_range 48 57 (code a)
  || Ascii.eqb a "-" || Ascii.eqb a "_" || Ascii.eqb a "." || Ascii.eqb a "~".

(** The reserved characters a path segment keeps: all but [/ ; , ?]. *)
Definition segment_char (a : ascii) : bool :=
  Ascii.eqb a "$" || Ascii.eqb a "&" || Ascii.eqb a "+" || Ascii.eqb a ":"
  || Ascii.eqb a "=" || Ascii.eqb a "@".

Definition shouldEscape (m : mode) (a : ascii) : bool :=
  negb (unreserved a ||
        match m with encodePathSegment => segment_char a | encodeQueryComponent => false end).

Definition upper_hex (n : N) : ascii := chr (if n <? 10 then 48 + n else 55 + n).

Definition escape_char (m : mode) (a : ascii) : string :=
  if shouldEscape m a then
    match m with
    | encodeQueryComponent =>
        if Ascii.eqb a " " then "+"
        else String "%" (String (upper_hex (code a / 16)) (String (upper_hex (code a mod 16)) ""))
    | encodePathSegment =>
        String "%" (String (upper_hex (code a / 16)) (String (upper_hex (code a mod 16)) ""))
    end
  else String a "".

Fixpoint url_escape (m : mode) (s : string) : string :=
  match s with
  | EmptyString => ""
  | String a s => escape_char m a +:+ url_escape m s
  end.

Definition PathEscape : string → string := url_escape encodePathSegment.
Definition QueryEscape : string → string := url_escape encodeQueryComponent.

(** ** Unescaping *)

Definition unhex (a : ascii) : option N :=
  if in_range 48 57 (code a) then Some (code a - 48)
  else if in_range 97 102 (code a) then Some (code a - 87)
  else if in_range 65 70 (code a) then Some (code a - 55)
  else None.

Fixpoint url_unescape (m : mode) (s : string) : option string :=
  match s with
  | EmptyString => Some ""
  | String a s1 =>
      if Ascii.eqb a "%" then
        match s1 with
        | String x (String y s2) =>
            hx ← unhex x; hy ← unhex y; rest ← url_unescape m s2;
            Some (String (chr (hx * 16 + hy)) rest)
        | _ => None
        end
      else
        rest ← url_unescape m s1;
        match m with
        | encodeQueryComponent => Some (String (if Ascii.eqb a "+" then " "%char else a) rest)
        | encodePathSegment => Some (String a rest)
        end
  end.

Definition PathUnescape : string → option string := url_unescape encodePathSegment.
Definition QueryUnescape : string → option string := url_unescape encodeQueryComponent.

Lemma unescape_char m a s :
  url_unescape m (escape_char m a +:+ s) = (λ t, String a t) <$> url_unescape m s.
Proof.
  destruct a as [[] [] [] [] [] [] [] []], m;
    (match goal with |- context [escape_char ?m ?a] =>
       let e := eval vm_compute in (escape_char m a) in change (escape_char m a) with e end);
    rewrite ?str_app_cons, str_app_nil_l; cbn [url_unescape];
    destruct (url_unescape _ s); reflexivity.
Qed.

Lemma unescape_escape m s : url_unescape m (url_escape m s) = Some s.
Proof.
  induction s as [|a s IH]; [done|]. cbn [url_escape]. by rewrite unescape_char, IH.
Qed.

Lemma PathUnescape_Escape s : PathUnescape (PathEscape s) = Some s.
Proof. apply unescape_escape. Qed.
Lemma QueryUnescape_Escape s : QueryUnescape (QueryEscape s) = Some s.
Proof. apply unescape_escape. Qed.

#[export] Instance url_escape_inj m : Inj (=) (=) (url_escape m).
Proof.
  intros s t E. apply (f_equal (url_unescape m)) in E. rewrite !unescape_escape in E.
  by injection E.
Qed.

(** Characters an escaped text never contains. *)
Definition escaped_away (m : mode) (c : ascii) : bool :=
  match m with
  | encodePathSegment => Ascii.eqb c "/" || Ascii.eqb c "?" || Ascii.eqb c ";" || Ascii.eqb c "#"
  | encodeQueryComponent =>
      Ascii.eqb c "/" || Ascii.eqb c "?" || Ascii.eqb c ";" || Ascii.eqb c "#"
      || Ascii.eqb c "&" || Ascii.eqb c "="
  end.

Lemma escape_char_free m c a : escaped_away m c = true → str_has c (escape_char m a) = false.
Proof.
  intros Hc. assert (c ∈ ["/"; "?"; ";"; "#"; "&"; "="]%char) as Hin.
  { unfold escaped_away in Hc. destruct m;
      repeat (apply orb_true_iff in Hc as [Hc|Hc]); apply Ascii.eqb_eq in Hc as ->; set_solver. }
  destruct a as [[] [] [] [] [] [] [] []], m;
    (match goal with |- context [escape_char ?m ?a] =>
       let e := eval vm_compute in (escape_char m a) in change (escape_char m a) with e end);
    repeat (apply elem_of_cons in Hin as [->|Hin]; [reflexivity || discriminate Hc|]);
    by apply elem_of_nil in Hin.
Qed.

Lemma url_escape_free m c s : escaped_away m c = true → str_has c (url_escape m s) = false.
Proof.
  intros Hc. induction s as [|a s IH]; [done|]. cbn [url_escape].
  by rewrite str_has_app, IH, orb_false_r, escape_char_free.
Qed.

Lemma PathEscape_free c s : escaped_away encodePathSegment c = true → str_has c (PathEscape s) = false.
Proof. apply url_escape_free. Qed.
Lemma QueryEscape_free c s :
  escaped_away encodeQueryComponent c = true → str_has c (QueryEscape s) = false.
Proof. apply url_escape_free. Qed.

Lemma url_escape_no_slash m s : str_has "/" (url_escape m s) = false.
Proof. apply url_escape_free. by destruct m. Qed.

(** Unescaping works piece by piece. *)
Lemma unescape_app_bound n m s t u : (String.length s ≤ n)%nat →
  url_unescape m s = Some u → url_unescape m (s +:+ t) = (λ v, u +:+ v) <$> url_unescape m t.
Proof.
  revert s u. induction n as [|n IH]; intros s u Hn.
  { destruct s; [|cbn in Hn; lia]. intros [= <-]. rewrite str_app_nil_l.
    by destruct (url_unescape m t). }
  destruct s as [|a s]; [intros [= <-]; rewrite str_app_nil_l; by destruct (url_unescape m t)|].
  rewrite str_app_cons. cbn [url_unescape String.length] in *.
  destruct (Ascii.eqb a "%").
  - destruct s as [|x [|y s]]; [done..|]. rewrite !str_app_cons. cbn [String.length] in *.
    destruct (unhex x) as [hx|]; [|done]. destruct (unhex y) as [hy|]; [|done]. cbn [mbind option_bind].
    destruct (url_unescape m s) as [v|] eqn:E; [|done]. cbn. intros [= <-].
    rewrite (IH s v) by (done || lia). by destruct (url_unescape m t).
  - destruct (url_unescape m s) as [v|] eqn:E; [|done]. cbn. intros Hu.
    rewrite (IH s v) by (done || lia).
    destruct (url_unescape m t); destruct m; by injection Hu as <-.
Qed.

Lemma unescape_app m s t u :
  url_unescape m s = Some u → url_unescape m (s +:+ t) = (λ v, u +:+ v) <$> url_unescape m t.
Proof. by apply (unescape_app_bound (String.length s)). Qed.

(** Unreserved text is its own escape. *)
Fixpoint plain (s : string) : bool :=
  match s with
  | EmptyString => true
  | String a s => unreserved a && plain s
  end.

Lemma plain_unescape m s : plain s = true → url_unescape m s = Some s.
Proof.
  induction s as [|a s IH]; [done|]. cbn [plain url_unescape].
  intros [Ha Hs]%andb_true_iff. rewrite IH by done.
  destruct (Ascii.eqb_spec a "%") as [->|_]; [done|].
  destruct m; [done|]. cbn. by destruct (Ascii.eqb_spec a "+") as [->|_].
Qed.

Lemma plain_escape m s : plain s = true → url_escape m s = s.
Proof.
  induction s as [|a s IH]; [done|]. cbn [plain url_escape]. intros [Ha Hs]%andb_true_iff.
  rewrite IH by done. unfold escape_char, shouldEscape. by rewrite Ha.
Qed.

Lemma no_percent_unescape s : str_has "%" s = false → PathUnescape s = Some s.
Proof.
  unfold PathUnescape. induction s as [|a s IH]; [done|]. cbn [str_has url_unescape].
  intros [-> Hs]%orb_false_iff. by rewrite IH.
Qed.

Lemma plain_free c s : unreserved c = false → plain s = true → str_has c s = false.
Proof.
  intros Hc. induction s as [|a s IH]; [done|]. cbn. intros [Ha Hs]%andb_true_iff.
  rewrite IH by done. destruct (Ascii.eqb_spec a c) as [->|_]; [congruence|done].
Qed.

(** ** Paths *)

(** The characters [escape(_, encodePath)] keeps. *)
Definition path_char (a : ascii) : bool :=
  unreserved a || segment_char a || Ascii.eqb a "/" || Ascii.eqb a ";" || Ascii.eqb a ",".

Fixpoint escape_path (s : string) : string :=
  match s with
  | EmptyString => ""
  | String a s => (if path_char a then String a "" else escape_char encodePathSegment a) +:+ escape_path s
  end.

(** [validEncoded]: the raw path may be used as it is. *)
Definition valid_path_char (a : ascii) : bool :=
  path_char a || str_has a "!'()*[]%".

(** [URL.EscapedPath] of a URL parsed from the path [raw]. *)
Definition url_EscapedPath (path raw : string) : string :=
  if all_chars valid_path_char raw then raw else escape_path path.

(** Characters [url.Parse] takes into the path or the query: no control
    characters, which it refuses, and no [#], where the fragment starts. *)
Definition url_char (a : ascii) : bool :=
  negb ((code a <? 32) || (code a =? 127) || Ascii.eqb a "#").
Definition url_text (s : string) : bool := all_chars url_char s.

Lemma url_text_app s t : url_text (s +:+ t) = url_text s && url_text t.
Proof. apply all_chars_app. Qed.

Lemma url_text_no_fragment s : url_text s = true → str_has "#" s = false.
Proof. by apply all_chars_free. Qed.

Lemma plain_url_text s : plain s = true → url_text s = true.
Proof.
  induction s as [|a s IH]; [done|]. cbn. intros [Ha Hs]%andb_true_iff.
  fold (url_text s). rewrite IH, andb_true_r by done.
  destruct a as [[] [] [] [] [] [] [] []]; done.
Qed.

Lemma escape_char_url_text m a : url_text (escape_char m a) = true.
Proof. destruct a as [[] [] [] [] [] [] [] []], m; reflexivity. Qed.

Lemma url_escape_url_text m s : url_text (url_escape m s) = true.
Proof.
  induction s as [|a s IH]; [done|]. cbn [url_escape]. by rewrite url_text_app, escape_char_url_text.
Qed.

Lemma PathEscape_url_text s : url_text (PathEscape s) = true.
Proof. apply url_escape_url_text. Qed.
Lemma QueryEscape_url_text s : url_text (QueryEscape s) = true.
Proof. apply url_escape_url_text. Qed.

Lemma hex_url_text l : url_text (hex_EncodeToString l) = true.
Proof.
  apply hex_EncodeToString_chars. intros a. by destruct a as [[] [] [] [] [] [] [] []].
Qed.

Lemma hex_plain l : plain (hex_EncodeToString l) = true.
Proof.
  assert (∀ s, all_chars unreserved s = true → plain s = true) as Hp.
  { induction s as [|a s IH]; [done|]. cbn. intros [-> Hs]%andb_true_iff. by apply IH. }
  apply Hp, hex_EncodeToString_chars. intros a. by destruct a as [[] [] [] [] [] [] [] []].
Qed.

(** ** Query strings *)

(** One [key=value] setting; a setting that does not decode, or that contains a
    semicolon, is skipped (the parse error is discarded by [URL.Query]). *)
Definition parse_setting (s : string) : option (string * string) :=
  if str_has ";" s then None
  else if String.eqb s "" then None
  else
    let i := IndexByte s "=" in
    let '(k, v) := if (i <? 0)%Z then (s, "")
                   else (str_take (Z.to_nat i) s, str_drop (Z.to_nat i + 1) s) in
    k' ← QueryUnescape k; v' ← QueryUnescape v; Some (k', v').

(** [r.URL.Query()], in order of appearance. *)
Definition Query (rawQuery : string) : list (string * string) :=
  omap parse_setting (Split rawQuery "&").

(** [Values.Get]: the first value of a key, or the empty string. *)
Definition Get (k : string) (l : list (string * string)) : string := default "" (assoc k l).

(** A query of one setting in unreserved text. *)
Lemma Query_plain k v : plain k = true → plain v = true → Query (k +:+ String "=" v) = [(k, v)].
Proof.
  intros Hk Hv. unfold Query.
  assert (∀ c, unreserved c = false → Ascii.eqb "=" c = false → str_has c (k +:+ String "=" v) = false)
    as Hfree.
  { intros c Hc He. rewrite str_has_app. cbn [str_has]. rewrite !plain_free, He by done. done. }
  rewrite Split_single by by apply Hfree. cbn [omap list_omap]. unfold parse_setting.
  rewrite Hfree by done.
  destruct (String.eqb_spec (k +:+ String "=" v) "") as [E|_]; [by destruct k|].
  rewrite IndexByte_app by by apply plain_free.
  destruct (len k <? 0)%Z eqn:E; [apply Z.ltb_lt in E; unfold len in E; lia|].
  unfold len. rewrite Nat2Z.id, str_take_app. rewrite Nat.add_comm.
  change (1 + String.length k)%nat with (1 + String.length k)%nat.
  replace (str_drop (1 + String.length k) (k +:+ String "=" v)) with v.
  - unfold QueryUnescape. by rewrite !plain_unescape.
  - change (String "=" v) with (String "=" "" +:+ v). rewrite <- str_app_assoc.
    replace (1 + String.length k)%nat with (String.length (k +:+ String "=" ""))
      by (rewrite str_length_app; cbn; lia).
    by rewrite str_drop_app.
Qed.
