(* ===== verification/Storage.v ===== *)
(** * What the program takes from ortholog-sdk, and the backend contract

    The SDK is not part of the repository: its CID functions, its Ed25519
    primitive and its in-memory store are parameters here, gathered in type
    classes, with the behaviour the repository documents (and its conformance
    suite pins) as class laws.  [BackendProvider] is the interface of
    backends/backend.go.  Two contracts are stated for it: [Sound], what a
    backend may return whatever goes wrong in it, and [Refines], that a backend
    with no faults implements a map from CID strings to bytes. *)

From S2P Require Import Prelude GoStrings.

Open Scope Z_scope.

(** ** Time *)

(** [time.Time] as nanoseconds since the Unix epoch, [time.Duration] as the
    [int64] number of nanoseconds. *)
Definition Second : Z := 1000000000.

(** [t.Unix()]. *)
Definition Unix (t : Z) : Z := t / Second.

(** ** Content identifiers *)

Record CID := MkCID { Algorithm : N; Digest : bytes }.

#[export] Instance CID_eq_dec : EqDecision CID.
Proof. solve_decision. Defined.

Record RetrievalCredential := MkCred {
  Method : string; URL : string; Expiry : option Z }.

(** The SDK's functions. *)
Class SDK := {
  ParseCID : string → Result CID;
  CID_String : CID → string;
  CID_Verify : CID → bytes → bool;
  ComputeWith : bytes → N → CID;
  Compute : bytes → CID;
  (* crypto/signatures.VerifyEd25519(pubkey, message, signature) *)
  VerifyEd25519 : bytes → bytes → bytes → option error;
  (* storage.MethodSignedURL, storage.MethodDirect *)
  MethodSignedURL : string;
  MethodDirect : string;
  (* the texts of the SDK's sentinel errors *)
  sdk_text : sentinel → string }.

(** The error value of one of the SDK's sentinels. *)
Definition sdk_err `{SDK} (t : sentinel) : error := MkError (sdk_text t) [t].

Lemma errors_Is_sdk_err `{SDK} t : errors_Is (sdk_err t) t = true.
Proof. apply bool_decide_eq_true. by left. Qed.

(** A CID that came in through [ParseCID]. *)
Definition parsed `{SDK} (c : CID) : Prop := ∃ s, ParseCID s = Ok c.

(** Documented behaviour of the SDK (tests/conformance/scenarios_cid_*.go). *)
Class SDKLaws `{SDK} := {
  (* ParseCID(cid.String()) == cid *)
  ParseCID_String c : parsed c → ParseCID (CID_String c) = Ok c;
  (* Verify rehashes under the CID's own algorithm and compares digests *)
  CID_Verify_spec c d :
    parsed c → CID_Verify c d = true ↔ ComputeWith d (Algorithm c) = c;
  (* what ComputeWith mints for a registered algorithm parses back *)
  ComputeWith_parsed c d : parsed c → parsed (ComputeWith d (Algorithm c)) }.

(** The string form identifies a parsed CID: it is a safe storage key. *)
Lemma CID_String_inj `{SDKLaws} c1 c2 :
  parsed c1 → parsed c2 → CID_String c1 = CID_String c2 → c1 = c2.
Proof.
  intros H1%ParseCID_String H2%ParseCID_String E. rewrite E, H2 in H1. by injection H1.
Qed.

(** Texts the Go runtime puts in error messages and that no code compares:
    [%q] quoting and the errors of [base64], [json] and [url.Parse].  Nothing
    is assumed of them. *)
Class Diag := {
  Quote : string → string;
  base64_err : string → string;
  json_err : bytes → string }.

(** ** The backend interface *)

(** backends.BackendProvider, for a backend whose own (or remote) state is an
    [S].  [Resolve] gets the reading of [time.Now()] it makes. *)
Record BackendProvider (S : Type) := {
  Push : CID → bytes → M S (option error);
  Fetch : CID → M S (Result bytes);
  Pin : CID → M S (option error);
  Exists : CID → M S (Result bool);
  Delete : CID → M S (option error);
  Resolve : Z → CID → Z → M S (Result RetrievalCredential);
  Healthy : M S (option error) }.
Arguments Push {S} _ _ _ _.
Arguments Fetch {S} _ _ _.
Arguments Pin {S} _ _ _.
Arguments Exists {S} _ _ _.
Arguments Delete {S} _ _ _.
Arguments Resolve {S} _ _ _ _ _.
Arguments Healthy {S} _ _.

(** ** Contract 1: whatever fails, only pushed bytes come back *)

(** [may s k x]: in state [s] a fetch under the key [k] might return [x].
    Operations may fail at any point and in any way, but only [Push c d] can
    add a pair, and then only [(c.String(), d)]. *)
Class Sound `{SDK} {S} (B : BackendProvider S) := {
  may : S → string → bytes → Prop;
  may_push c d s k x : may (run_state (Push B c d) s) k x →
    may s k x ∨ k = CID_String c ∧ x = d;
  may_fetch c s k x : may (run_state (Fetch B c) s) k x → may s k x;
  may_pin c s k x : may (run_state (Pin B c) s) k x → may s k x;
  may_exists c s k x : may (run_state (Exists B c) s) k x → may s k x;
  may_delete c s k x : may (run_state (Delete B c) s) k x → may s k x;
  may_resolve now c e s k x : may (run_state (Resolve B now c e) s) k x → may s k x;
  may_healthy s k x : may (run_state (Healthy B) s) k x → may s k x;
  fetch_may c s x : run_val (Fetch B c) s = Ok x → may s (CID_String c) x }.

Create HintDb sound.
#[export] Hint Resolve may_push may_fetch may_pin may_exists may_delete may_resolve
  may_healthy fetch_may : sound.

(** ** Contract 2: without faults, a backend is a map *)

(** The abstract content store: bytes by CID string. *)
Abbreviation content := (gmap string (list Byte.byte)).

(** What an operation returns, and the map it leaves, given the map before. *)
Record fetch_spec `{SDK} (m : content) (c : CID) (r : Result bytes) : Prop := {
  fetch_present d : m !! CID_String c = Some d → r = Ok d;
  fetch_absent : m !! CID_String c = None →
    ∃ e, r = Err e ∧ errors_Is e ErrContentNotFound = true }.

(** [Pin] and [Delete]: success on a stored object; on a missing one either
    success or the not-found sentinel. *)
Definition present_spec `{SDK} (m : content) (c : CID) (r : option error) : Prop :=
  match r with
  | None => True
  | Some e => m !! CID_String c = None ∧
      errors_Is e ErrContentNotFound = true ∧ errors_Is e ErrNotSupported = false
  end.

Class Refines `{SDK} {S} (B : BackendProvider S) (R : S → content → Prop) := {
  ref_push c d s m : R s m →
    run_val (Push B c d) s = None ∧
    R (run_state (Push B c d) s) (<[CID_String c := d]> m);
  ref_fetch c s m : R s m →
    fetch_spec m c (run_val (Fetch B c) s) ∧ R (run_state (Fetch B c) s) m;
  ref_exists c s m : R s m →
    run_val (Exists B c) s = Ok (bool_decide (is_Some (m !! CID_String c))) ∧
    R (run_state (Exists B c) s) m;
  ref_pin c s m : R s m →
    present_spec m c (run_val (Pin B c) s) ∧ R (run_state (Pin B c) s) m;
  ref_delete c s m : R s m →
    present_spec m c (run_val (Delete B c) s) ∧
    R (run_state (Delete B c) s) (delete (CID_String c) m);
  ref_resolve now c e s m : R s m → R (run_state (Resolve B now c e) s) m;
  ref_healthy s m : R s m →
    run_val (Healthy B) s = None ∧ R (run_state (Healthy B) s) m }.
