(* ===== verification/Http.v ===== *)
(** * net/http: bodies, status codes and the client side

    Bodies that may fail while they are read, the status codes the program
    uses, and the requests and responses an [*http.Client] exchanges.  The
    network behind the client is a parameter. *)

From Stdlib Require Import Ascii.
From S2P Require Import Prelude GoStrings Json.

Open Scope Z_scope.

(** A body: the bytes that arrive, then end of file or a read error. *)
Record Body := MkBody { body_data : list Byte.byte; body_err : option error }.

(** [io.ReadAll(io.LimitReader(body, n))]: at most [n] bytes (none when [n] is
    not positive), and the body's own error when it comes before the limit. *)
Definition ReadAll (n : Z) (b : Body) : bytes * option error :=
  if n <=? 0 then ([], None)
  else if n <=? blen (body_data b) then (take (Z.to_nat n) (body_data b), None)
  else (body_data b, body_err b).

(** [io.ReadAll(body)]. *)
Definition read_whole (b : Body) : Result bytes :=
  match body_err b with Some e => Err e | None => Ok (body_data b) end.

Definition StatusOK : Z := 200.
Definition StatusBadRequest : Z := 400.
Definition StatusUnauthorized : Z := 401.
Definition StatusNotFound : Z := 404.
Definition StatusRequestEntityTooLarge : Z := 413.
Definition StatusInternalServerError : Z := 500.
Definition StatusNotImplemented : Z := 501.
Definition StatusServiceUnavailable : Z := 503.
Definition StatusCreated : Z := 201.
Definition StatusNoContent : Z := 204.
Definition StatusForbidden : Z := 403.

(** ** The client *)

Record HttpReq := MkReq {
  h_Method : string; h_URL : string; h_Header : list (string * string);
  h_Body : list Byte.byte }.

Record HttpResp := MkResp { StatusCode : Z; h_RespBody : Body }.

(** [http.NewRequestWithContext] refuses a URL that does not parse, with an
    error; [client.Do] performs the exchange, on a network whose state is an
    [S], or fails. *)
Record Client (S : Type) := MkClient {
  url_err : string → option error;
  Do : HttpReq → M S (Result HttpResp) }.
Arguments url_err {S} _ _.
Arguments Do {S} _ _.

(** The first kilobyte of an error response, for the error text. *)
Definition snippet (r : HttpResp) : string := of_bytes (ReadAll 1024 (h_RespBody r)).1.

(** ** Header names *)

(** RFC 7230 token characters. *)
Definition token_char (a : ascii) : bool :=
  in_range 97 122 (code a) || in_range 65 90 (code a) || in_range 48 57 (code a)
  || str_has a "!#$%&'*+-.^_`|~".

(** [textproto.CanonicalMIMEHeaderKey]: on a token, the first letter and every
    letter after a hyphen in upper case and the others in lower case; any other
    text is left as it is. *)
Fixpoint canonical (upper : bool) (s : string) : string :=
  match s with
  | EmptyString => ""
  | String a s =>
      let a' := if upper && in_range 97 122 (code a) then chr (code a - 32)
                else if negb upper && in_range 65 90 (code a) then chr (code a + 32) else a in
      String a' (canonical (Ascii.eqb a "-") s)
  end.
Definition CanonicalHeaderKey (k : string) : string :=
  if all_chars token_char k then canonical true k else k.
