(* ===== verification/Time.v ===== *)
(** * time: RFC 3339 formatting and parsing

    The civil calendar, [t.UTC().Format(time.RFC3339)] and
    [time.Parse(time.RFC3339, s)], with the round trip between them. *)

From Stdlib Require Import Ascii.
From S2P Require Import Prelude GoStrings Json Storage.

Open Scope Z_scope.

(** ** Civil dates *)

(** Proleptic Gregorian dates as days since 1970-01-01; day 0 of the count is
    0001-01-01, so that every leap year ends its 4-, 100- or 400-year cycle. *)
Definition unix_epoch_days : Z := 719162.

Definition isLeap (y : Z) : bool :=
  (y mod 4 =? 0) && (negb (y mod 100 =? 0) || (y mod 400 =? 0)).

Definition daysIn (m y : Z) : Z :=
  if m =? 2 then if isLeap y then 29 else 28
  else if (m =? 4) || (m =? 6) || (m =? 9) || (m =? 11) then 30 else 31.

(** Days of the year before a month's first. *)
Definition days_before (leap : bool) (m : Z) : Z :=
  nth (Z.to_nat (m - 1)) [0; 31; 59; 90; 120; 151; 181; 212; 243; 273; 304; 334] 0
  + if leap && (2 <? m) then 1 else 0.

Definition days_from_civil (y m d : Z) : Z :=
  let y' := y - 1 in
  365 * y' + y' / 4 - y' / 100 + y' / 400 + days_before (isLeap y) m + (d - 1) - unix_epoch_days.

(** The month a day of the year falls in. *)
Definition month_of (leap : bool) (yday : Z) : Z :=
  Z.of_nat (length (filter (λ m, days_before leap m ≤ yday) [1; 2; 3; 4; 5; 6; 7; 8; 9; 10; 11; 12])).

(** Peel off 400-, 100-, 4- and 1-year cycles; the last century of an era and
    the last year of a 4-year cycle are a day longer. *)
Definition civil_from_days (z : Z) : Z * Z * Z :=
  let D := z + unix_epoch_days in
  let d := D mod 146097 in
  let c := d / 36524 - d / 36524 / 4 in
  let d1 := d - 36524 * c in
  let q := d1 / 1461 in
  let d2 := d1 - 1461 * q in
  let n := d2 / 365 - d2 / 365 / 4 in
  let yday := d2 - 365 * n in
  let y := 400 * (D / 146097) + 100 * c + 4 * q + n + 1 in
  let m := month_of (isLeap y) yday in
  (y, m, yday - days_before (isLeap y) m + 1).

(** ** Formatting *)

Definition digit (n : Z) : ascii := ascii_of_N (Z.to_N (48 + n)).
Definition pad2 (n : Z) : string := String (digit (n / 10)) (String (digit (n mod 10)) "").
Definition pad4 (n : Z) : string := pad2 (n / 100) +:+ pad2 (n mod 100).

(** [appendInt(b, year, 4)]. *)
Definition year_str (y : Z) : string :=
  let pad n := if n <? 10000 then pad4 n else Itoa n in
  if y <? 0 then "-" +:+ pad (- y) else pad y.

(** [t.UTC().Format(time.RFC3339)] of a time in nanoseconds. *)
Definition FormatRFC3339 (t : Z) : string :=
  let sec := Unix t in
  let '(y, m, d) := civil_from_days (sec / 86400) in
  let sod := sec mod 86400 in
  year_str y +:+ "-" +:+ pad2 m +:+ "-" +:+ pad2 d +:+ "T" +:+
  pad2 (sod / 3600) +:+ ":" +:+ pad2 (sod mod 3600 / 60) +:+ ":" +:+ pad2 (sod mod 60) +:+ "Z".

(** ** Parsing *)

(** One digit; two digits ([getnum] with [fixed]); one or two digits. *)
Definition get1 (s : string) : option (Z * string) :=
  match s with String a r => d ← digit_val a; Some (d, r) | EmptyString => None end.
Definition get2 (s : string) : option (Z * string) :=
  '(a, s) ← get1 s; '(b, s) ← get1 s; Some (a * 10 + b, s).
Definition get12 (s : string) : option (Z * string) :=
  match get2 s with Some r => Some r | None => get1 s end.
Definition lit (c : ascii) (s : string) : option string :=
  match s with String a r => if Ascii.eqb a c then Some r else None | EmptyString => None end.
Definition guard_range (lo hi n : Z) : option () :=
  if (lo <=? n) && (n <=? hi) then Some () else None.

(** The digits of a fraction, as nanoseconds: those after the ninth are dropped. *)
Fixpoint fraction (scale acc : Z) (s : string) : Z * string :=
  match s with
  | String a r => match digit_val a with
                  | Some d => fraction (scale / 10) (acc + d * scale) r
                  | None => (acc, s)
                  end
  | EmptyString => (acc, s)
  end.

(** A fraction the layout does not mention is still accepted. *)
Definition get_fraction (s : string) : Z * string :=
  match s with
  | String c (String a r) =>
      if (Ascii.eqb c "." || Ascii.eqb c ",") && bool_decide (is_Some (digit_val a))
      then fraction 100000000 0 (String a r) else (0, s)
  | _ => (0, s)
  end.

(** [Z], or a signed [hh:mm] offset, in seconds east of UTC. *)
Definition get_zone (s : string) : option (Z * string) :=
  match s with
  | String c r =>
      if Ascii.eqb c "Z" then Some (0, r)
      else
        '(hh, r) ← get2 r; r ← lit ":" r; '(mm, r) ← get2 r;
        _ ← guard_range 0 24 hh; _ ← guard_range 0 60 mm;
        let off := (hh * 60 + mm) * 60 in
        if Ascii.eqb c "+" then Some (off, r)
        else if Ascii.eqb c "-" then Some (- off, r) else None
  | EmptyString => None
  end.

(** [time.Parse(time.RFC3339, s)], in nanoseconds; [None] is an error. *)
Definition ParseRFC3339 (s : string) : option Z :=
  '(hi, s) ← get2 s; '(lo, s) ← get2 s; let y := hi * 100 + lo in
  s ← lit "-" s; '(m, s) ← get2 s; _ ← guard_range 1 12 m;
  s ← lit "-" s; '(d, s) ← get2 s;
  s ← lit "T" s; '(hh, s) ← get12 s; _ ← guard_range 0 23 hh;
  s ← lit ":" s; '(mm, s) ← get2 s; _ ← guard_range 0 59 mm;
  s ← lit ":" s; '(ss, s) ← get2 s; _ ← guard_range 0 59 ss;
  let '(ns, s) := get_fraction s in
  '(off, s) ← get_zone s;
  _ ← guard_range 1 (daysIn m y) d;
  if String.eqb s "" then
    Some ((days_from_civil y m d * 86400 + hh * 3600 + mm * 60 + ss - off) * Second + ns)
  else None.

(** ** Round trip *)

Fixpoint all_from (n : nat) (z : Z) (f : Z → bool) : bool :=
  match n with O => true | S n => f z && all_from n (z + 1) f end.

Lemma all_from_spec n z f i :
  all_from n z f = true → z ≤ i < z + Z.of_nat n → f i = true.
Proof.
  revert z. induction n as [|n IH]; intros z H Hi; [lia|]. cbn in H.
  apply andb_true_iff in H as [H0 H]. destruct (decide (i = z)) as [->|]; [done|].
  apply (IH (z + 1)); [done|lia].
Qed.

(** The length of a month, given only whether the year is a leap year. *)
Definition month_len (leap : bool) (m : Z) : Z := daysIn m (if leap then 4 else 1).

Lemma daysIn_leap m y : daysIn m y = month_len (isLeap y) m.
Proof. unfold month_len, daysIn. by destruct (m =? 2), (isLeap y). Qed.

Definition yday_ok (leap : bool) (yday : Z) : bool :=
  let m := month_of leap yday in
  let d := yday - days_before leap m + 1 in
  (1 <=? m) && (m <=? 12) && (1 <=? d) && (d <=? month_len leap m).

Lemma ydays_ok (leap : bool) :
  all_from (if leap then 366%nat else 365%nat) 0 (yday_ok leap) = true.
Proof. destruct leap; vm_compute; reflexivity. Qed.

#[local] Ltac Zify.zify_post_hook ::= Z.to_euclidean_division_equations.

(** What the four cycle lengths make of a day count. *)
Lemma cycles_spec d :
  0 ≤ d < 146097 →
  let c := d / 36524 - d / 36524 / 4 in
  let d1 := d - 36524 * c in
  let q := d1 / 1461 in
  let d2 := d1 - 1461 * q in
  let n := d2 / 365 - d2 / 365 / 4 in
  let yday := d2 - 365 * n in
  0 ≤ c ≤ 3 ∧ 0 ≤ q ≤ 24 ∧ 0 ≤ n ≤ 3 ∧ 0 ≤ yday ≤ 365 ∧
  (yday = 365 → n = 3 ∧ (q = 24 → c = 3)).
Proof.
  intros Hd c d1 q d2 n yday.
  assert (0 ≤ c ≤ 3 ∧ 0 ≤ d1 ∧ d1 ≤ 36524 ∧ (d1 = 36524 → c = 3)) as (Hc & H1 & H1' & H1'')
    by (unfold d1, c; lia).
  assert (0 ≤ q ≤ 24 ∧ 0 ≤ d2 < 1461 ∧ (q = 24 → d2 = 1460 → d1 = 36524)) as (Hq & H2 & H2')
    by (unfold d2, q; lia).
  assert (0 ≤ n ≤ 3 ∧ 0 ≤ yday ≤ 365 ∧ (yday = 365 → n = 3 ∧ d2 = 1460)) as (Hn & Hy & Hy')
    by (unfold yday, n; lia).
  clearbody c d1 q d2 n yday. lia.
Qed.

Lemma isLeap_cycles k c q n :
  0 ≤ c ≤ 3 → 0 ≤ q ≤ 24 → 0 ≤ n ≤ 3 →
  isLeap (400 * k + 100 * c + 4 * q + n + 1) = true ↔ n = 3 ∧ (q = 24 → c = 3).
Proof.
  intros Hc Hq Hn. unfold isLeap.
  rewrite andb_true_iff, orb_true_iff, negb_true_iff, !Z.eqb_eq, Z.eqb_neq. lia.
Qed.

Lemma civil_round_trip z :
  let '(y, m, d) := civil_from_days z in
  days_from_civil y m d = z ∧ 1 ≤ m ≤ 12 ∧ 1 ≤ d ≤ daysIn m y.
Proof.
  unfold civil_from_days. set (D := z + unix_epoch_days). set (e := D mod 146097).
  assert (0 ≤ e < 146097) as He by (unfold e; lia).
  pose proof (cycles_spec e He) as Hs. cbv zeta in Hs.
  set (c := e / 36524 - e / 36524 / 4) in *. set (d1 := e - 36524 * c) in *.
  set (q := d1 / 1461) in *. set (d2 := d1 - 1461 * q) in *.
  set (n := d2 / 365 - d2 / 365 / 4) in *. set (yday := d2 - 365 * n) in *.
  destruct Hs as (Hc & Hq & Hn & Hy & Hl).
  pose proof (isLeap_cycles (D / 146097) c q n Hc Hq Hn) as Hleap.
  assert (e = 36524 * c + 1461 * q + 365 * n + yday) as Ee by lia.
  assert (D = 146097 * (D / 146097) + e) as ED by (unfold e; lia).
  set (k := D / 146097) in *. clearbody c q n yday k e.
  set (y := 400 * k + 100 * c + 4 * q + n + 1) in *.
  pose proof (all_from_spec _ _ _ yday (ydays_ok (isLeap y))) as Hok.
  rewrite daysIn_leap. unfold yday_ok in Hok. repeat rewrite andb_true_iff in Hok.
  rewrite !Z.leb_le in Hok. unfold days_from_civil.
  assert ((y - 1) / 4 = 100 * k + 25 * c + q ∧ (y - 1) / 100 = 4 * k + c ∧ (y - 1) / 400 = k)
    as (-> & -> & ->) by (unfold y; lia).
  destruct Hok as [[[Hm1 Hm2] Hd1] Hd2]; [destruct (isLeap y); lia|].
  split_and!; lia.
Qed.

Lemma digit_val_digit n : 0 ≤ n < 10 → digit_val (digit n) = Some n.
Proof.
  intros Hn. assert (n = 0 ∨ n = 1 ∨ n = 2 ∨ n = 3 ∨ n = 4 ∨ n = 5 ∨ n = 6 ∨ n = 7 ∨ n = 8 ∨ n = 9)
    as Hc by lia. repeat destruct Hc as [->|Hc]; try reflexivity. by subst.
Qed.

Lemma get2_pad2 n s : 0 ≤ n < 100 → get2 (pad2 n +:+ s) = Some (n, s).
Proof.
  intros Hn. unfold get2, pad2. rewrite !str_app_cons, str_app_nil_l. cbn [get1].
  rewrite digit_val_digit by lia. cbn [mbind option_bind get1].
  rewrite digit_val_digit by lia. cbn [mbind option_bind]. do 2 f_equal. lia.
Qed.

Lemma get12_pad2 n s : 0 ≤ n < 100 → get12 (pad2 n +:+ s) = Some (n, s).
Proof. intros Hn. unfold get12. by rewrite get2_pad2. Qed.

Lemma lit_cons c s : lit c (String c "" +:+ s) = Some s.
Proof. rewrite str_app_cons, str_app_nil_l. cbn. by rewrite Ascii.eqb_refl. Qed.

Lemma guard_range_in lo hi n : lo ≤ n ≤ hi → guard_range lo hi n = Some ().
Proof.
  intros H. unfold guard_range. destruct (Z.leb_spec lo n), (Z.leb_spec n hi); done || lia.
Qed.

(** One successful step of the parser. *)
Ltac parse_step L := rewrite L by lia; cbn [mbind option_bind].

(** Formatting a time with a four-digit year and parsing it back gives the time
    truncated to the second. *)
Lemma ParseRFC3339_Format t :
  0 ≤ (civil_from_days (Unix t / 86400)).1.1 ≤ 9999 →
  ParseRFC3339 (FormatRFC3339 t) = Some (Unix t * Second).
Proof.
  unfold FormatRFC3339. pose proof (civil_round_trip (Unix t / 86400)) as Hc.
  destruct (civil_from_days (Unix t / 86400)) as [[y m] d]. cbn [fst]. intros Hy.
  destruct Hc as (Hz & Hm & Hd). set (sec := Unix t) in *.
  assert (year_str y = pad2 (y / 100) +:+ pad2 (y mod 100)) as ->.
  { unfold year_str, pad4. destruct (Z.ltb_spec y 0); [lia|]. destruct (Z.ltb_spec y 10000); [done|lia]. }
  assert (daysIn m y ≤ 31) by (unfold daysIn; repeat case_match; lia).
  rewrite !str_app_assoc. unfold ParseRFC3339.
  do 2 parse_step get2_pad2. replace (y / 100 * 100 + y mod 100) with y by lia.
  parse_step lit_cons. parse_step get2_pad2. parse_step guard_range_in.
  parse_step lit_cons. parse_step get2_pad2.
  parse_step lit_cons. parse_step get12_pad2. parse_step guard_range_in.
  parse_step lit_cons. parse_step get2_pad2. parse_step guard_range_in.
  parse_step lit_cons. parse_step get2_pad2. parse_step guard_range_in.
  change (get_fraction "Z") with (0, "Z"). cbv iota beta.
  change (get_zone "Z") with (Some (0, "")). cbn [mbind option_bind].
  parse_step guard_range_in. change (String.eqb "" "") with true. cbv iota.
  f_equal. rewrite Hz. unfold Second. lia.
Qed.

(** The year of a time, in UTC. *)
Definition utc_year (t : Z) : Z := (civil_from_days (Unix t / 86400)).1.1.

(** The fields of a time, in range. *)
Lemma civil_bounds t :
  let '(y, m, d) := civil_from_days (Unix t / 86400) in 1 ≤ m ≤ 12 ∧ 1 ≤ d ≤ 31.
Proof.
  pose proof (civil_round_trip (Unix t / 86400)) as Hc.
  destruct (civil_from_days (Unix t / 86400)) as [[y m] d]. destruct Hc as (_ & Hm & Hd).
  assert (daysIn m y ≤ 31) by (unfold daysIn; repeat case_match; lia). lia.
Qed.

Lemma clock_bounds t : let sod := Unix t mod 86400 in
  0 ≤ sod / 3600 < 24 ∧ 0 ≤ sod mod 3600 / 60 < 60 ∧ 0 ≤ sod mod 60 < 60.
Proof.
  intros sod. assert (0 ≤ sod < 86400) by (apply Z.mod_pos_bound; lia).
  pose proof (Z.mod_pos_bound sod 3600 ltac:(lia)). pose proof (Z.mod_pos_bound sod 60 ltac:(lia)).
  repeat split; try lia; (apply Z.div_pos || apply Z.div_lt_upper_bound); lia.
Qed.

Lemma digit_is_digit n : 0 ≤ n < 10 → is_digit (digit n) = true.
Proof.
  intros Hn. assert (Forall (λ n, is_digit (digit n) = true) (seqZ 0 10)) as Hall
    by (by repeat constructor).
  rewrite Forall_forall in Hall. apply Hall, elem_of_seqZ. lia.
Qed.

Lemma pad2_digits n : 0 ≤ n < 100 → all_chars is_digit (pad2 n) = true.
Proof.
  intros Hn. unfold pad2. cbn [all_chars].
  rewrite !digit_is_digit; [done|..]; [apply Z.mod_pos_bound; lia|].
  split; [apply Z.div_pos; lia|apply Z.div_lt_upper_bound; lia].
Qed.

Lemma year_digits y : 0 ≤ y ≤ 9999 → all_chars is_digit (year_str y) = true.
Proof.
  intros Hy. unfold year_str. destruct (Z.ltb_spec y 0), (Z.ltb_spec y 10000); try lia.
  unfold pad4. rewrite all_chars_app, !pad2_digits; [done|..]; [apply Z.mod_pos_bound; lia|].
  split; [apply Z.div_pos; lia|apply Z.div_lt_upper_bound; lia].
Qed.
