(* ===== verification/Backends.v ===== *)
(** * backends/backend.go and backends/mirrored.go

    The in-memory reference backend, which delegates to the SDK's store, and
    the mirroring decorator over two arbitrary backends. *)

From S2P Require Import Prelude GoStrings Storage.

(** ** The SDK's in-memory content store *)

(** storage.InMemoryContentStore and storage.InMemoryRetrievalProvider. *)
Class SDKMemory := {
  InMemoryContentStore : Type;
  NewInMemoryContentStore : InMemoryContentStore;
  mem_Push : CID → bytes → InMemoryContentStore → option error * InMemoryContentStore;
  mem_Fetch : CID → InMemoryContentStore → Result bytes;
  mem_Pin : CID → InMemoryContentStore → option error * InMemoryContentStore;
  mem_Exists : CID → InMemoryContentStore → Result bool;
  mem_Delete : CID → InMemoryContentStore → option error * InMemoryContentStore;
  mem_Resolve : CID → Z → Result RetrievalCredential }.

(** The reference store is a map (tests/conformance/scenarios_lifecycle.go and
    scenarios_errors.go). *)
Class SDKMemoryLaws `{SDK} `{SDKMemory} := {
  mem_contents : InMemoryContentStore → content;
  mem_new_empty : mem_contents NewInMemoryContentStore = ∅;
  mem_push c d s : (mem_Push c d s).1 = None ∧
    mem_contents (mem_Push c d s).2 = <[CID_String c := d]> (mem_contents s);
  mem_fetch c s : fetch_spec (mem_contents s) c (mem_Fetch c s);
  mem_pin c s : present_spec (mem_contents s) c (mem_Pin c s).1 ∧
    mem_contents (mem_Pin c s).2 = mem_contents s;
  mem_exists c s : mem_Exists c s = Ok (bool_decide (is_Some (mem_contents s !! CID_String c)));
  mem_delete c s : present_spec (mem_contents s) c (mem_Delete c s).1 ∧
    mem_contents (mem_Delete c s).2 = delete (CID_String c) (mem_contents s) }.

(** A call that may change the store, and one that only reads it. *)
Definition mutate {S A} (f : S → A * S) : M S A := λ s, let '(a, s') := f s in (a, s', []).
Definition query {S A} (f : S → A) : M S A := λ s, (f s, s, []).

Lemma run_val_mutate {S A} (f : S → A * S) s : run_val (mutate f) s = (f s).1.
Proof. unfold run_val, mutate. by destruct (f s). Qed.
Lemma run_state_mutate {S A} (f : S → A * S) s : run_state (mutate f) s = (f s).2.
Proof. unfold run_state, mutate. by destruct (f s). Qed.
Lemma run_log_mutate {S A} (f : S → A * S) s : run_log (mutate f) s = [].
Proof. unfold run_log, mutate. by destruct (f s). Qed.
Lemma run_val_query {S A} (f : S → A) s : run_val (query f) s = f s.
Proof. done. Qed.
Lemma run_state_query {S A} (f : S → A) s : run_state (query f) s = s.
Proof. done. Qed.
Lemma run_log_query {S A} (f : S → A) s : run_log (query f) s = [].
Proof. done. Qed.
#[export] Hint Rewrite @run_val_mutate @run_state_mutate @run_log_mutate @run_val_query
  @run_state_query @run_log_query : run.

(** ** InMemoryBackend *)

Definition NewInMemoryBackend `{SDKMemory} : InMemoryContentStore := NewInMemoryContentStore.

Definition InMemoryBackend `{SDKMemory} : BackendProvider InMemoryContentStore := {|
  Push c d := mutate (mem_Push c d);
  Fetch c := query (mem_Fetch c);
  Pin c := mutate (mem_Pin c);
  Exists c := query (mem_Exists c);
  Delete c := mutate (mem_Delete c);
  Resolve _ c e := query (λ _, mem_Resolve c e);
  Healthy := mret None |}.

(** internal/testutil/notsupported_backend.go: the same store, whose Delete is
    not supported. *)
Definition NotSupportedBackend `{SDK} `{SDKMemory} : BackendProvider InMemoryContentStore := {|
  Push c d := mutate (mem_Push c d);
  Fetch c := query (mem_Fetch c);
  Pin c := mutate (mem_Pin c);
  Exists c := query (mem_Exists c);
  Delete _ := mret (Some (sdk_err ErrNotSupported));
  Resolve _ c e := query (λ _, mem_Resolve c e);
  Healthy := mret None |}.

Section InMemory.
Context `{SDKMemoryLaws}.

(** The reference backend implements the map. *)
#[export] Instance InMemoryBackend_refines :
  Refines InMemoryBackend (λ s m, mem_contents s = m).
Proof.
  split; intros; subst; cbn; run; try done.
  - apply mem_push.
  - split; [apply mem_fetch|done].
  - split; [apply mem_exists|done].
  - apply mem_pin.
  - apply mem_delete.
Qed.

#[export] Program Instance InMemoryBackend_sound : Sound InMemoryBackend :=
  {| may s k x := mem_contents s !! k = Some x |}.
Next Obligation.
  intros c d s k x. cbn. run. destruct (mem_push c d s) as [_ ->].
  intros [[<- <-]|[_ ?]]%lookup_insert_Some; auto.
Qed.
Next Obligation. intros. cbn in *. by run in H2. Qed.
Next Obligation.
  intros c s k x. cbn. run. by destruct (mem_pin c s) as [_ ->].
Qed.
Next Obligation. intros. cbn in *. by run in H2. Qed.
Next Obligation.
  intros c s k x. cbn. run. destruct (mem_delete c s) as [_ ->].
  by intros [_ ?]%lookup_delete_Some.
Qed.
Next Obligation. intros. cbn in *. by run in H2. Qed.
Next Obligation. intros. cbn in *. by run in H2. Qed.
Next Obligation.
  intros c s x. cbn. run. intros Hx. destruct (mem_fetch c s) as [Hp Ha].
  destruct (mem_contents s !! CID_String c) as [d|] eqn:E.
  - rewrite (Hp d) in Hx by done. by injection Hx as ->.
  - destruct Ha as (e & He & _); [done|]. by rewrite He in Hx.
Qed.
End InMemory.

(** ** MirroredStore *)

Definition MirrorModeSync : string := "sync".

Section Mirrored.
Context `{SDK} {S T : Type}.
Variables (primary : BackendProvider S) (mirror : BackendProvider T).

(** The attributes of a mirroring log line: the CID and one error. *)
Definition cid_attrs (c : CID) (key : string) (e : error) : list (string * attr) :=
  [("cid", AStr (CID_String c)); (key, AStr (Error e))].

(** Log a mirror-side failure, if any. *)
Definition warn_mirror (msg : string) (c : CID) (r : option error) : M (S * T) () :=
  match r with
  | Some e => warn msg (cid_attrs c "error" e)
  | None => mret ()
  end.

Definition m_Push (c : CID) (d : bytes) : M (S * T) (option error) :=
  e ← on_fst (Push primary c d);
  match e with
  | Some e => mret (Some e)
  | None =>
      e' ← on_snd (Push mirror c d);
      _ ← warn_mirror "mirror push failed (non-fatal)" c e';
      mret None
  end.

Definition m_Fetch (c : CID) : M (S * T) (Result bytes) :=
  r ← on_fst (Fetch primary c);
  match r with
  | Ok d => mret (Ok d)
  | Err e =>
      _ ← info "primary fetch failed, trying mirror" (cid_attrs c "primary_error" e);
      on_snd (Fetch mirror c)
  end.

Definition m_Exists (c : CID) : M (S * T) (Result bool) :=
  r ← on_fst (Exists primary c);
  match r with
  | Ok true => mret (Ok true)
  | _ => on_snd (Exists mirror c)
  end.

Definition m_Pin (c : CID) : M (S * T) (option error) :=
  e ← on_fst (Pin primary c);
  e' ← on_snd (Pin mirror c);
  _ ← warn_mirror "mirror pin failed (non-fatal)" c e';
  mret e.

Definition m_Delete (c : CID) : M (S * T) (option error) :=
  e ← on_fst (Delete primary c);
  e' ← on_snd (Delete mirror c);
  _ ← warn_mirror "mirror delete failed (non-fatal)" c e';
  mret e.

Definition m_Resolve (now : Z) (c : CID) (expiry : Z) : M (S * T) (Result RetrievalCredential) :=
  on_fst (Resolve primary now c expiry).

Definition m_Healthy : M (S * T) (option error) :=
  e ← on_fst (Healthy primary);
  match e with
  | Some e => mret (Some e)
  | None => on_snd (Healthy mirror)
  end.

Definition MirroredStore : BackendProvider (S * T) := {|
  Push := m_Push; Fetch := m_Fetch; Pin := m_Pin; Exists := m_Exists;
  Delete := m_Delete; Resolve := m_Resolve; Healthy := m_Healthy |}.

(** The constructor: an unknown mode is logged and treated as sync. *)
Definition NewMirroredStore (mode : string) : BackendProvider (S * T) * list LogRecord :=
  (MirroredStore,
   if negb (String.eqb mode "") && negb (String.eqb mode MirrorModeSync)
   then [MkLog LevelWarn "mirror: unknown mode, defaulting to sync" [("mode", AStr mode)]]
   else []).

Lemma run_state_warn_mirror msg c r s : run_state (warn_mirror msg c r) s = s.
Proof. by destruct r. Qed.

(** Reached states of the mirror, operation by operation. *)
Lemma m_Push_state c d s t :
  run_state (m_Push c d) (s, t) =
    (run_state (Push primary c d) s,
     match run_val (Push primary c d) s with Some _ => t | None => run_state (Push mirror c d) t end).
Proof.
  unfold m_Push. run. destruct (run_val (Push primary c d) s); run; [done|].
  by rewrite run_state_warn_mirror.
Qed.

Lemma m_Push_val c d s t :
  run_val (m_Push c d) (s, t) = run_val (Push primary c d) s.
Proof. unfold m_Push. run. by destruct (run_val (Push primary c d) s); run. Qed.

Lemma m_Fetch_val c s t :
  run_val (m_Fetch c) (s, t) =
    match run_val (Fetch primary c) s with
    | Ok d => Ok d
    | Err _ => run_val (Fetch mirror c) t
    end.
Proof. unfold m_Fetch. run. by destruct (run_val (Fetch primary c) s); run. Qed.

Lemma m_Fetch_state c s t :
  run_state (m_Fetch c) (s, t) =
    (run_state (Fetch primary c) s,
     match run_val (Fetch primary c) s with Ok _ => t | Err _ => run_state (Fetch mirror c) t end).
Proof. unfold m_Fetch. run. by destruct (run_val (Fetch primary c) s); run. Qed.

Lemma m_Exists_val c s t :
  run_val (m_Exists c) (s, t) =
    match run_val (Exists primary c) s with
    | Ok true => Ok true
    | _ => run_val (Exists mirror c) t
    end.
Proof. unfold m_Exists. run. by destruct (run_val (Exists primary c) s) as [[]|]; run. Qed.

Lemma m_Exists_state c s t :
  run_state (m_Exists c) (s, t) =
    (run_state (Exists primary c) s,
     match run_val (Exists primary c) s with
     | Ok true => t
     | _ => run_state (Exists mirror c) t
     end).
Proof. unfold m_Exists. run. by destruct (run_val (Exists primary c) s) as [[]|]; run. Qed.

Lemma m_Pin_run c s t :
  run_val (m_Pin c) (s, t) = run_val (Pin primary c) s ∧
  run_state (m_Pin c) (s, t) = (run_state (Pin primary c) s, run_state (Pin mirror c) t).
Proof. unfold m_Pin. run. by rewrite run_state_warn_mirror. Qed.

Lemma m_Delete_run c s t :
  run_val (m_Delete c) (s, t) = run_val (Delete primary c) s ∧
  run_state (m_Delete c) (s, t) = (run_state (Delete primary c) s, run_state (Delete mirror c) t).
Proof. unfold m_Delete. run. by rewrite run_state_warn_mirror. Qed.

Lemma m_Healthy_run s t :
  run_val m_Healthy (s, t) =
    match run_val (Healthy primary) s with
    | Some e => Some e
    | None => run_val (Healthy mirror) t
    end ∧
  run_state m_Healthy (s, t) =
    (run_state (Healthy primary) s,
     match run_val (Healthy primary) s with Some _ => t | None => run_state (Healthy mirror) t end).
Proof. unfold m_Healthy. run. by destruct (run_val (Healthy primary) s); run. Qed.

Ltac mirror_ops := cbn [Push Fetch Pin Exists Delete Resolve Healthy MirroredStore fst snd].

(** Mirroring preserves the fault-tolerant contract. *)
#[export] Program Instance MirroredStore_sound `{!Sound primary} `{!Sound mirror} :
  Sound MirroredStore :=
  {| may st k x := may st.1 k x ∨ may st.2 k x |}.
Next Obligation.
  intros Sp Sm c d [s t] k x. mirror_ops. rewrite m_Push_state. cbn [fst snd].
  destruct (run_val (Push primary c d) s); intros [Hx|Hx]; eauto;
    apply may_push in Hx as [?|?]; auto.
Qed.
Next Obligation.
  intros Sp Sm c [s t] k x. mirror_ops. rewrite m_Fetch_state. cbn [fst snd].
  destruct (run_val (Fetch primary c) s); intros [?|?]; eauto using may_fetch.
Qed.
Next Obligation.
  intros Sp Sm c [s t] k x. mirror_ops. destruct (m_Pin_run c s t) as [_ ->]. cbn [fst snd].
  intros [?|?]; eauto using may_pin.
Qed.
Next Obligation.
  intros Sp Sm c [s t] k x. mirror_ops. rewrite m_Exists_state. cbn [fst snd].
  destruct (run_val (Exists primary c) s) as [[]|]; intros [?|?]; eauto using may_exists.
Qed.
Next Obligation.
  intros Sp Sm c [s t] k x. mirror_ops. destruct (m_Delete_run c s t) as [_ ->]. cbn [fst snd].
  intros [?|?]; eauto using may_delete.
Qed.
Next Obligation.
  intros Sp Sm now c e [s t] k x. mirror_ops. unfold m_Resolve. run. cbn [fst snd].
  intros [?|?]; eauto using may_resolve.
Qed.
Next Obligation.
  intros Sp Sm [s t] k x. mirror_ops. destruct (m_Healthy_run s t) as [_ ->]. cbn [fst snd].
  destruct (run_val (Healthy primary) s); intros [?|?]; eauto using may_healthy.
Qed.
Next Obligation.
  intros Sp Sm c [s t] x. mirror_ops. rewrite m_Fetch_val. cbn [fst snd].
  destruct (run_val (Fetch primary c) s) as [d|e] eqn:E.
  - intros [= ->]. left. by apply fetch_may.
  - intros Hx. right. by apply fetch_may.
Qed.

(** Two fault-free backends with the same contents mirror to a fault-free
    backend with those contents, and the two sides stay in step. *)
#[export] Instance MirroredStore_refines R1 R2
    `{!Refines primary R1} `{!Refines mirror R2} :
  Refines MirroredStore (λ '(s, t) m, R1 s m ∧ R2 t m).
Proof.
  split.
  - intros c d [s t] m [Hs Ht]. mirror_ops. rewrite m_Push_state, m_Push_val. cbn [fst snd].
    destruct (ref_push c d s m Hs) as [-> Hs']. destruct (ref_push c d t m Ht) as [_ Ht'].
    done.
  - intros c [s t] m [Hs Ht]. mirror_ops. rewrite m_Fetch_state, m_Fetch_val. cbn [fst snd].
    destruct (ref_fetch c s m Hs) as [Fs Hs']. destruct (ref_fetch c t m Ht) as [Ft Ht'].
    destruct (run_val (Fetch primary c) s) as [d|e] eqn:E; [done|]. done.
  - intros c [s t] m [Hs Ht]. mirror_ops. rewrite m_Exists_state, m_Exists_val. cbn [fst snd].
    destruct (ref_exists c s m Hs) as [-> Hs']. destruct (ref_exists c t m Ht) as [Et Ht'].
    destruct (bool_decide _) eqn:E; [done|]. by rewrite Et.
  - intros c [s t] m [Hs Ht]. mirror_ops. destruct (m_Pin_run c s t) as [-> ->]. cbn [fst snd].
    destruct (ref_pin c s m Hs). by destruct (ref_pin c t m Ht).
  - intros c [s t] m [Hs Ht]. mirror_ops. destruct (m_Delete_run c s t) as [-> ->]. cbn [fst snd].
    destruct (ref_delete c s m Hs). by destruct (ref_delete c t m Ht).
  - intros now c e [s t] m [Hs Ht]. mirror_ops. unfold m_Resolve. run. cbn [fst snd].
    split; [by apply ref_resolve|done].
  - intros [s t] m [Hs Ht]. mirror_ops. destruct (m_Healthy_run s t) as [-> ->]. cbn [fst snd].
    destruct (ref_healthy s m Hs) as [-> Hs']. by destruct (ref_healthy t m Ht) as [-> ?].
Qed.
End Mirrored.

(** ** Theorems about mirroring *)

Section MirrorClaims.
Context `{SDK} {S T : Type} (primary : BackendProvider S) (mirror : BackendProvider T).

(** A mirrored push succeeds exactly when the primary's does. When the primary
    fails, the mirror is not written and nothing is logged for it; when only the
    mirror fails, the push still succeeds and exactly one warning naming the CID
    is logged after whatever the two backends logged. *)
Theorem mirror_push_spec c d s t :
  run_val (m_Push primary mirror c d) (s, t) = run_val (Push primary c d) s ∧
  (∀ e, run_val (Push primary c d) s = Some e →
     run_state (m_Push primary mirror c d) (s, t) = (run_state (Push primary c d) s, t) ∧
     run_log (m_Push primary mirror c d) (s, t) = run_log (Push primary c d) s) ∧
  (run_val (Push primary c d) s = None →
     run_state (m_Push primary mirror c d) (s, t) =
       (run_state (Push primary c d) s, run_state (Push mirror c d) t) ∧
     ∀ e, run_val (Push mirror c d) t = Some e →
       run_log (m_Push primary mirror c d) (s, t) =
         run_log (Push primary c d) s ++ run_log (Push mirror c d) t ++
         [MkLog LevelWarn "mirror push failed (non-fatal)" (cid_attrs c "error" e)]).
Proof.
  rewrite m_Push_val, m_Push_state. split; [done|]. split.
  - intros e He. rewrite He. split; [done|]. unfold m_Push. run. rewrite He. run.
    by rewrite app_nil_r.
  - intros Hn. rewrite Hn. split; [done|]. intros e He. unfold m_Push. run. rewrite Hn. run.
    rewrite He. cbn [warn_mirror]. run. by rewrite app_nil_r.
Qed.

(** C22. Availability: once a push succeeded on both sides, the bytes are still
    served whatever happens to the primary afterwards: for any later primary
    state whose fetch fails, the mirrored fetch returns what the mirror holds,
    and while the primary answers, its answer is the one returned. *)
Theorem mirror_failover c d s t (R : T → content → Prop) `{!Refines mirror R} m :
  R t m → run_val (m_Push primary mirror c d) (s, t) = None →
  let t' := (run_state (m_Push primary mirror c d) (s, t)).2 in
  ∀ s', (∀ e, run_val (Fetch primary c) s' = Err e →
           run_val (m_Fetch primary mirror c) (s', t') = Ok d) ∧
        (∀ x, run_val (Fetch primary c) s' = Ok x →
           run_val (m_Fetch primary mirror c) (s', t') = Ok x).
Proof.
  rewrite m_Push_val, m_Push_state. intros HR Hn. rewrite Hn. cbn [snd].
  destruct (ref_push c d t m HR) as [_ HR'].
  intros s'. rewrite m_Fetch_val. split; [|by intros x ->]. intros e ->.
  destruct (ref_fetch c _ _ HR') as [[Hp _] _]. apply Hp. by rewrite lookup_insert_eq.
Qed.

(** C23. A mirrored delete reports the primary's result alone: if the mirror could
    not delete and left its copy, a delete that reported success is followed by
    fetches that still return the deleted bytes, and by Exists saying true. *)
Theorem mirror_delete_resurrects c d s t :
  run_val (Delete primary c) s = None →
  (∃ e, run_val (Fetch primary c) (run_state (Delete primary c) s) = Err e) →
  run_val (Exists primary c) (run_state (Delete primary c) s) = Ok false →
  run_val (Fetch mirror c) (run_state (Delete mirror c) t) = Ok d →
  run_val (Exists mirror c) (run_state (Delete mirror c) t) = Ok true →
  let st' := run_state (m_Delete primary mirror c) (s, t) in
  run_val (m_Delete primary mirror c) (s, t) = None ∧
  run_val (m_Fetch primary mirror c) st' = Ok d ∧
  run_val (m_Exists primary mirror c) st' = Ok true.
Proof.
  intros Hd [e Hf] He Hmf Hme. destruct (m_Delete_run primary mirror c s t) as [-> ->].
  cbv zeta. by rewrite m_Fetch_val, m_Exists_val, Hf, He, Hmf, Hme.
Qed.
End MirrorClaims.
