(* ===== verification/Reference.v ===== *)
(** * A concrete instance of the SDK parameters

    SHA-256 content identifiers of the form [sha256:<hex>], a keyed digest in
    the place of Ed25519, and a map in the place of the in-memory store.  The
    witnesses run the program on these instances; no theorem about the program
    depends on them. *)

From Stdlib Require Import Ascii.
From S2P Require Import Prelude GoStrings Encoding Sha256 Json Storage Backends.

(** The multihash code of SHA-256. *)
Definition AlgoSHA256 : N := 0x12.

Definition ref_ParseCID (s : string) : Result CID :=
  if HasPrefix s "sha256:" then
    match hex_DecodeString (TrimPrefix s "sha256:") with
    | Some d => if Nat.eqb (length d) 32 then Ok (MkCID AlgoSHA256 d)
                else Err (errors_New "storage/cid: digest length")
    | None => Err (errors_New "storage/cid: bad hex")
    end
  else Err (errors_New "storage/cid: unknown algorithm").

Definition ref_sdk_text (t : sentinel) : string :=
  match t with
  | ErrContentNotFound => "storage: content not found"
  | ErrNotSupported => "storage: operation not supported"
  | _ => "artifact: error"
  end.

#[export] Instance RefSDK : SDK := {|
  ParseCID := ref_ParseCID;
  CID_String c := "sha256:" +:+ hex_EncodeToString (Digest c);
  CID_Verify c d := bool_decide (sha256 d = Digest c);
  ComputeWith d a := MkCID a (sha256 d);
  Compute d := MkCID AlgoSHA256 (sha256 d);
  VerifyEd25519 pk msg sig :=
    if bool_decide (sig = hmac_sha256 pk msg) then None
    else Some (errors_New "signature verification failed");
  MethodSignedURL := "signed_url";
  MethodDirect := "direct";
  sdk_text := ref_sdk_text |}.

#[export] Instance RefDiag : Diag := {|
  Quote s := String dquote (s +:+ String dquote "");
  base64_err _ := "illegal base64 data";
  json_err _ := "invalid JSON" |}.

Lemma ref_parsed c : parsed c ↔ Algorithm c = AlgoSHA256 ∧ length (Digest c) = 32%nat.
Proof.
  split.
  - intros [s Hs]. cbn in Hs. unfold ref_ParseCID in Hs. repeat case_match; try done.
    injection Hs as <-. split; [done|]. by apply Nat.eqb_eq.
  - intros [Ha Hl]. exists (CID_String c). cbn. unfold ref_ParseCID.
    rewrite HasPrefix_app, TrimPrefix_app, hex_DecodeString_EncodeToString, Hl. cbn.
    destruct c. by cbn in *; subst.
Qed.

#[export] Instance RefSDKLaws : SDKLaws.
Proof.
  split.
  - intros c [Ha Hl]%ref_parsed. cbn. unfold ref_ParseCID.
    rewrite HasPrefix_app, TrimPrefix_app, hex_DecodeString_EncodeToString, Hl. cbn.
    destruct c. by cbn in *; subst.
  - intros c d [Ha Hl]%ref_parsed. cbn. rewrite bool_decide_eq_true.
    destruct c as [a g]. cbn in *. split; [by intros ->|by intros [= ->]].
  - intros c d [Ha Hl]%ref_parsed. apply ref_parsed. split; [done|]. apply sha256_length.
Qed.

(** [KnownVector.ComputeCID]. *)
Definition ComputeCID `{SDK} (v : KnownVector) : CID := Compute (Plaintext v).

(** The instance passes the repository's own vectors, and their CIDs parse back. *)
Lemma known_vectors_hold :
  Forall (λ v, MustDigestBytes v = Some (Digest (ComputeCID v)) ∧
    ParseCID (CID_String (ComputeCID v)) = Ok (ComputeCID v)) KnownVectors.
Proof. repeat constructor; vm_compute; reflexivity. Qed.

(** The in-memory store as a map. *)
#[export] Instance RefMemory : SDKMemory := {|
  InMemoryContentStore := content;
  NewInMemoryContentStore := ∅;
  mem_Push c d s := (None, <[CID_String c := d]> s);
  mem_Fetch c s := match s !! CID_String c with
                   | Some d => Ok d | None => Err (sdk_err ErrContentNotFound) end;
  mem_Pin c s := (match s !! CID_String c with
                  | Some _ => None | None => Some (sdk_err ErrContentNotFound) end, s);
  mem_Exists c s := Ok (bool_decide (is_Some (s !! CID_String c)));
  mem_Delete c s := (None, delete (CID_String c) s);
  mem_Resolve c _ := Ok (MkCred MethodDirect ("mem://" +:+ CID_String c) None) |}.

#[export] Program Instance RefMemoryLaws : SDKMemoryLaws := {| mem_contents := λ s, s |}.
Next Obligation. done. Qed.
Next Obligation. done. Qed.
Next Obligation.
  intros c s. split; cbn [mem_Fetch RefMemory]; [by intros d ->|].
  intros ->. eexists. split; [done|]. apply errors_Is_sdk_err.
Qed.
Next Obligation.
  intros c s. split; [|done]. cbn [mem_Pin RefMemory fst].
  unfold present_spec. repeat case_match; simplify_eq; try done.
Qed.
Next Obligation. done. Qed.
Next Obligation. done. Qed.

(** ** Witnesses for the mirroring theorems *)

Definition ex_data : bytes := [x68; x69].
Definition ex_cid : CID := MkCID AlgoSHA256 (replicate 32 x07).

Lemma mirror_failover_witness :
  run_val (m_Fetch InMemoryBackend InMemoryBackend ex_cid)
    (∅, (run_state (m_Push InMemoryBackend InMemoryBackend ex_cid ex_data) (∅, ∅)).2) = Ok ex_data.
Proof.
  apply (mirror_failover InMemoryBackend InMemoryBackend ex_cid ex_data ∅ ∅
    (λ s m, mem_contents s = m) ∅) with (e := sdk_err ErrContentNotFound).
  - reflexivity.
  - vm_compute. reflexivity.
  - vm_compute. reflexivity.
Defined.

(** A primary that deletes, over a mirror that cannot. *)
Lemma mirror_delete_resurrects_witness :
  let st : content * content := ({[CID_String ex_cid := ex_data]}, {[CID_String ex_cid := ex_data]}) in
  let st' := run_state (m_Delete InMemoryBackend NotSupportedBackend ex_cid) st in
  run_val (m_Delete InMemoryBackend NotSupportedBackend ex_cid) st = None ∧
  run_val (m_Fetch InMemoryBackend NotSupportedBackend ex_cid) st' = Ok ex_data ∧
  run_val (m_Exists InMemoryBackend NotSupportedBackend ex_cid) st' = Ok true.
Proof.
  apply (mirror_delete_resurrects InMemoryBackend NotSupportedBackend ex_cid ex_data).
  - reflexivity.
  - eexists. vm_compute. reflexivity.
  - vm_compute. reflexivity.
  - vm_compute. reflexivity.
  - vm_compute. reflexivity.
Defined.
