(* ===== verification/AesGcm.v ===== *)
(** * crypto/aes and crypto/cipher: AES-GCM

    The Go standard library's authenticated encryption, as keyservice/ uses
    it: 12-byte nonces, 16-byte tags, no additional data.  The block cipher
    works on 128-bit numbers, most significant byte first. *)

From S2P Require Import Prelude GoStrings Encoding.

Open Scope N_scope.

(** ** Big-endian blocks *)

Definition N_of_bytes (l : bytes) : N := foldl (λ acc b, acc * 256 + Byte.to_N b) 0 l.

(** The [n] low bytes of a number. *)
Fixpoint be_bytes (n : nat) (x : N) : bytes :=
  match n with
  | O => []
  | S n => byte_of_N (N.shiftr x (8 * N.of_nat n)) :: be_bytes n x
  end.

Lemma be_bytes_length n x : length (be_bytes n x) = n.
Proof. induction n; cbn; auto. Qed.

(** ** The AES block cipher *)

(** Multiplication in GF(2^8) modulo x^8 + x^4 + x^3 + x + 1. *)
Definition xtime (a : N) : N :=
  let d := N.shiftl a 1 in if N.testbit a 7 then N.land (N.lxor d 0x11b) 0xff else d.
Fixpoint gf_mul (n : nat) (a b : N) : N :=
  match n with
  | O => 0
  | S n => N.lxor (if N.testbit b 0 then a else 0) (gf_mul n (xtime a) (N.shiftr b 1))
  end.
Definition gmul : N → N → N := gf_mul 8.

(** The inverse is the 254th power; zero is its own. *)
Definition gf_inv (a : N) : N :=
  let a2 := gmul a a in let a4 := gmul a2 a2 in let a8 := gmul a4 a4 in
  let a16 := gmul a8 a8 in let a32 := gmul a16 a16 in let a64 := gmul a32 a32 in
  gmul (gmul (gmul a2 a4) (gmul a8 a16)) (gmul (gmul a32 a64) (gmul a64 a64)).

Definition rotl8 (n x : N) : N := N.land (N.lor (N.shiftl x n) (N.shiftr x (8 - n))) 0xff.
Definition sbox (a : N) : N :=
  let b := gf_inv a in
  N.lxor 0x63 (N.lxor b (N.lxor (rotl8 1 b) (N.lxor (rotl8 2 b) (N.lxor (rotl8 3 b) (rotl8 4 b))))).

(** The substitution table. *)
Definition sbox_table : list N := Eval vm_compute in sbox <$> (N.of_nat <$> seq 0 256).
Definition sub_byte (a : N) : N := nth (N.to_nat a) sbox_table 0.

Definition xor_list : list N → list N → list N := zip_with N.lxor.

(** Key expansion, by four-byte words: the words of the key, then each word
    from the previous one and the one [nk] before it. *)
Definition sub_word (w : list N) : list N := sub_byte <$> w.
Definition rot_word (w : list N) : list N := drop 1 w ++ take 1 w.

Fixpoint expand (n nk i : nat) (rcon : N) (w : list (list N)) : list (list N) :=
  match n with
  | O => []
  | S n =>
      let prev := default [] (last w) in
      let first := (i mod nk =? 0)%nat in
      let t := if first then xor_list (sub_word (rot_word prev)) [rcon; 0; 0; 0]
               else if (6 <? nk)%nat && (i mod nk =? 4)%nat then sub_word prev else prev in
      let next := xor_list (default [] (w !! (length w - nk)%nat)) t in
      next :: expand n nk (S i) (if first then xtime rcon else rcon) (w ++ [next])
  end.

Fixpoint chunks (n : nat) (k : nat) (l : list N) : list (list N) :=
  match n with O => [] | S n => take k l :: chunks n k (drop k l) end.

(** The round keys, each sixteen bytes. *)
Definition round_keys (key : bytes) : list (list N) :=
  let nk := (length key / 4)%nat in
  let w := chunks nk 4 (Byte.to_N <$> key) in
  let total := (4 * (nk + 7))%nat in
  chunks (nk + 7) 16 (mjoin (w ++ expand (total - nk) nk nk 1 w)).

(** Row [r] of the column-major state rotates left by [r]. *)
Definition shift_rows (s : list N) : list N :=
  (λ i, nth ((i + 4 * (i mod 4)) mod 16)%nat s 0) <$> seq 0 16.

Definition mix_column (c : list N) : list N :=
  match c with
  | [a; b; c; d] =>
      let x := N.lxor (N.lxor a b) (N.lxor c d) in
      [N.lxor a (N.lxor x (xtime (N.lxor a b))); N.lxor b (N.lxor x (xtime (N.lxor b c)));
       N.lxor c (N.lxor x (xtime (N.lxor c d))); N.lxor d (N.lxor x (xtime (N.lxor d a)))]
  | _ => c
  end.
Definition mix_columns (s : list N) : list N := mjoin (mix_column <$> chunks 4 4 s).

Fixpoint aes_rounds (s : list N) (ks : list (list N)) : list N :=
  match ks with
  | [] => s
  | [k] => xor_list (shift_rows (sub_byte <$> s)) k
  | k :: ks => aes_rounds (xor_list (mix_columns (shift_rows (sub_byte <$> s))) k) ks
  end.

(** [block.Encrypt] under an expanded key. *)
Definition encrypt_block (rk : list (list N)) (x : N) : N :=
  match rk with
  | [] => x
  | k :: ks =>
      let s := xor_list (Byte.to_N <$> be_bytes 16 x) k in
      foldl (λ acc b, acc * 256 + b) 0 (aes_rounds s ks)
  end.

Definition aes_block (key : bytes) (x : N) : N := encrypt_block (round_keys key) x.

(** FIPS 197, appendix C.3 and C.1. *)
Example aes256_vector :
  aes_block (byte_of_N <$> (N.of_nat <$> seq 0 32)) 0x00112233445566778899aabbccddeeff
  = 0x8ea2b7ca516745bfeafc49904b496089.
Proof. vm_compute. reflexivity. Qed.
Example aes128_vector :
  aes_block (byte_of_N <$> (N.of_nat <$> seq 0 16)) 0x00112233445566778899aabbccddeeff
  = 0x69c4e0d86a7b0430d8cdb78070b4c55a.
Proof. vm_compute. reflexivity. Qed.

(** ** GCM over a block cipher *)

Section GCM.
Variable E : N → N.

(** Multiplication in GF(2^128), bit-reflected. *)
Fixpoint ghash_mul (n : nat) (x v z : N) : N :=
  match n with
  | O => z
  | S n =>
      ghash_mul n x (if N.testbit v 0 then N.lxor (N.shiftr v 1) (N.shiftl 0xe1 120) else N.shiftr v 1)
        (if N.testbit x (N.of_nat n) then N.lxor z v else z)
  end.
Definition gmult (x y : N) : N := ghash_mul 128 x y 0.

(** The hash of a byte string, zero-padded to blocks, and its length. *)
Fixpoint blocks (n : nat) (l : bytes) : list N :=
  match n with
  | O => []
  | S n => N_of_bytes (take 16 l ++ replicate (16 - length l) x00) :: blocks n (drop 16 l)
  end.

Definition ghash (h : N) (c : bytes) : N :=
  let n := ((length c + 15) / 16)%nat in
  foldl (λ y x, gmult (N.lxor y x) h) 0 (blocks n c ++ [8 * N.of_nat (length c)]).

(** The counter block: the nonce and a 32-bit counter. *)
Definition counter (nonce : bytes) (i : nat) : N :=
  N.lor (N.shiftl (N_of_bytes nonce) 32) (N.of_nat i mod 2 ^ 32).

Definition keystream (nonce : bytes) (n : nat) : bytes :=
  mjoin ((λ i, be_bytes 16 (E (counter nonce (2 + i)))) <$> seq 0 ((n + 15) / 16)).

Definition xor_bytes (a b : bytes) : bytes :=
  zip_with (λ x y, byte_of_N (N.lxor (Byte.to_N x) (Byte.to_N y))) a b.

Definition gctr (nonce data : bytes) : bytes := xor_bytes data (keystream nonce (length data)).

Definition gcm_tag (nonce c : bytes) : bytes :=
  be_bytes 16 (N.lxor (ghash (E 0) c) (E (counter nonce 1))).

(** [aead.Seal(nil, nonce, plaintext, nil)]: ciphertext and tag. *)
Definition gcm_seal (nonce plaintext : bytes) : bytes :=
  let c := gctr nonce plaintext in c ++ gcm_tag nonce c.

(** [aead.Open(nil, nonce, ciphertext, nil)]; [None] is the authentication
    failure. *)
Definition gcm_open (nonce ciphertext : bytes) : option bytes :=
  let n := length ciphertext in
  if (n <? 16)%nat then None
  else
    let c := take (n - 16) ciphertext in
    if bool_decide (drop (n - 16) ciphertext = gcm_tag nonce c) then Some (gctr nonce c) else None.

Lemma keystream_length nonce n : (n ≤ length (keystream nonce n))%nat.
Proof.
  unfold keystream.
  assert (∀ m i, length (mjoin ((λ i, be_bytes 16 (E (counter nonce (2 + i)))) <$> seq i m))
                 = (16 * m)%nat) as ->.
  { induction m as [|m IH]; intros i; [done|]. cbn [seq fmap list_fmap mjoin list_join].
    rewrite length_app, be_bytes_length, IH. lia. }
  pose proof (Nat.div_mod_eq (n + 15) 16). pose proof (Nat.mod_upper_bound (n + 15) 16). lia.
Qed.

Lemma xor_byte_twice x y :
  byte_of_N (N.lxor (Byte.to_N (byte_of_N (N.lxor (Byte.to_N x) (Byte.to_N y)))) (Byte.to_N y)) = x.
Proof.
  assert (Hx : N.lxor (Byte.to_N x) (Byte.to_N y) < 256).
  { pose proof (to_N_lt x). pose proof (to_N_lt y).
    destruct (decide (N.lxor (Byte.to_N x) (Byte.to_N y) = 0)) as [->|Hn]; [done|].
    apply (N.log2_lt_pow2 _ 8); [lia|]. eapply N.le_lt_trans; [apply N.log2_lxor|].
    assert (∀ b, N.log2 (Byte.to_N b) < 8) as Hb by (by intros []).
    apply N.max_lub_lt; apply Hb. }
  rewrite to_N_byte_of_N, N.mod_small by done.
  rewrite N.lxor_assoc, N.lxor_nilpotent, N.lxor_0_r. apply byte_of_to_N.
Qed.

Lemma gctr_length nonce d : length (gctr nonce d) = length d.
Proof.
  unfold gctr, xor_bytes. rewrite length_zip_with.
  pose proof (keystream_length nonce (length d)). lia.
Qed.

(** Counter mode is its own inverse. *)
Lemma gctr_involutive nonce d : gctr nonce (gctr nonce d) = d.
Proof.
  unfold gctr at 1. rewrite gctr_length. unfold gctr, xor_bytes.
  pose proof (keystream_length nonce (length d)) as Hl.
  revert Hl. generalize (keystream nonce (length d)) as k. clear.
  induction d as [|x d IH]; intros [|y k] Hl; cbn in *; try done; [lia|].
  f_equal; [apply xor_byte_twice|apply IH; lia].
Qed.

Lemma gcm_seal_length nonce p : length (gcm_seal nonce p) = (length p + 16)%nat.
Proof.
  unfold gcm_seal, gcm_tag. cbn zeta. by rewrite length_app, gctr_length, be_bytes_length.
Qed.

Lemma gcm_open_seal nonce p : gcm_open nonce (gcm_seal nonce p) = Some p.
Proof.
  unfold gcm_open. rewrite gcm_seal_length.
  destruct (length p + 16 <? 16)%nat eqn:E1; [apply Nat.ltb_lt in E1; lia|].
  assert (length p + 16 - 16 = length (gctr nonce p))%nat as -> by (rewrite gctr_length; lia).
  unfold gcm_seal. cbn zeta. rewrite take_app_length, drop_app_length.
  rewrite bool_decide_true by done. by rewrite gctr_involutive.
Qed.

(** Only sealed texts open. *)
Lemma gcm_open_Some nonce c p : gcm_open nonce c = Some p → c = gcm_seal nonce p.
Proof.
  unfold gcm_open. destruct (length c <? 16)%nat; [done|]. case_bool_decide as Ht; [|done].
  intros [= <-]. unfold gcm_seal. cbn zeta. rewrite gctr_involutive, <- Ht.
  by rewrite take_drop.
Qed.
End GCM.

(** NIST SP 800-38D test case 14: one zero block under the zero key. *)
Example gcm_vector :
  gcm_seal (aes_block (replicate 32 x00)) (replicate 12 x00) (replicate 16 x00)
  = be_bytes 32 0xcea7403d4d606b6e074ec5d3baf39d18d0d1c8a799996bf0265b98b5d48ab919.
Proof. vm_compute. reflexivity. Qed.
