(* ===== verification/KeyService.v ===== *)
(** * keyservice/internals.go and the key-service contract

    The helpers the three key services share, the buffers they must wipe, the
    interface [artifact.ArtifactKeyService], and the abstract contract a
    service implements: a map from CID digests to key material.  The client
    theorems (round trip, rotation, erasure) are proved against the contract
    and hold for every service that discharges it. *)

From Stdlib Require Import Ascii.
From S2P Require Import Prelude GoStrings Encoding Storage AesGcm.

Open Scope Z_scope.

(** ** What the services take from outside the repository *)

(** crypto/artifact's sizes, secp256k1's and crypto/escrow's functions, and the
    process's source of randomness ([io.ReadFull(rand.Reader, buf)], by the
    length of [buf]). *)
Class ArtifactSDK (W : Type) := {
  KeySize : nat;
  NonceSize : nat;
  PublicKey : Type;
  ParsePubKey : bytes → Result PublicKey;
  EncryptForNode : bytes → PublicKey → M W (Result bytes);
  ReadFull : nat → M W (Result bytes) }.

(** AES-256-GCM with the standard nonce. *)
Class ArtifactSDKLaws W `{ArtifactSDK W} := {
  KeySize_32 : KeySize = 32%nat;
  NonceSize_12 : NonceSize = 12%nat }.

(** A world of two parts, the process's own sources [G] and a remote service
    [F]: randomness delivers the bytes asked for, and neither it nor ECIES
    touches the service. *)
Class QuietSDK {G F} `{ArtifactSDK (G * F)} := {
  quiet_rand n w : ∃ b, run_val (ReadFull n) w = Ok b ∧ length b = n;
  quiet_rand_state n w : (run_state (ReadFull n) w).2 = w.2;
  quiet_ecies km pk w : (run_state (EncryptForNode km pk) w).2 = w.2 }.

(** ** internals.go *)

(** [aes.NewCipher] and [cipher.NewGCM]. *)
Definition aes_NewCipher (key : bytes) : Result (N → N) :=
  let n := blen key in
  if (n =? 16) || (n =? 24) || (n =? 32) then Ok (aes_block key)
  else Err (errors_New ("crypto/aes: invalid key size " +:+ Itoa n)).

Definition gcm_NonceSize : Z := 12.

Definition nonce_err (nonce : bytes) : error :=
  errors_New ("keyservice: nonce length " +:+ Itoa (blen nonce) +:+ ", want " +:+ Itoa gcm_NonceSize).

Definition aesGCMSeal (key nonce plaintext : bytes) : Result bytes :=
  block ← aes_NewCipher key;
  if negb (blen nonce =? gcm_NonceSize) then Err (nonce_err nonce)
  else Ok (gcm_seal block nonce plaintext).

Definition aesGCMOpen (key nonce ciphertext : bytes) : Result bytes :=
  block ← aes_NewCipher key;
  if negb (blen nonce =? gcm_NonceSize) then Err (nonce_err nonce)
  else match gcm_open block nonce ciphertext with
       | Some pt => Ok pt
       | None => Err (errors_New "cipher: message authentication failed")
       end.

Fixpoint zeroize (b : bytes) : bytes :=
  match b with [] => [] | _ :: b => x00 :: zeroize b end.

Section PubKey.
Context `{ArtifactSDK W}.

Definition parseRecipientPubKey (data : bytes) : Result PublicKey :=
  if blen data =? 0 then Err (errors_New "empty public key bytes")
  else match ParsePubKey data with
       | Err e => Err (wrapf ("invalid secp256k1 public key (" +:+ Itoa (blen data) +:+ " bytes): ") e "")
       | Ok pub => Ok pub
       end.

(** The check that opens every [WrapForRecipient]. *)
Definition recipient `{SDK} (data : bytes) : Result PublicKey :=
  if blen data =? 0 then Err (sdk_err ErrInvalidRecipientKey)
  else map_err (λ e, wrapf "" (sdk_err ErrInvalidRecipientKey) (": " +:+ Error e))
         (parseRecipientPubKey data).
End PubKey.

(** ** Process state *)

(** What a service holds in process: its [pathCache], and the buffers that have
    held key material or a decrypted plaintext, in allocation order. *)
Record Proc := MkProc { pathCache : gset string; mem : list (list Byte.byte) }.

Definition new_proc : Proc := MkProc ∅ [].

Section Process.
Context {W : Type}.

(** Run on the world outside the process. *)
Definition remote {A} (m : M W A) : M (W * Proc) A := on_fst m.

Definition alloc (b : bytes) : M (W * Proc) nat := λ '(w, p),
  (length (mem p), (w, MkProc (pathCache p) (mem p ++ [b])), []).
Definition load (i : nat) : M (W * Proc) bytes := λ '(w, p),
  (default [] (mem p !! i), (w, p), []).
(** [zeroize(buf)]. *)
Definition wipe (i : nat) : M (W * Proc) () := λ '(w, p),
  ((), (w, MkProc (pathCache p) (alter zeroize i (mem p))), []).

Definition cache_add (k : string) : M (W * Proc) () := λ '(w, p),
  ((), (w, MkProc ({[k]} ∪ pathCache p) (mem p)), []).
Definition cache_delete (k : string) : M (W * Proc) () := λ '(w, p),
  ((), (w, MkProc (pathCache p ∖ {[k]}) (mem p)), []).
End Process.

(** ** The interface *)

(** artifact.ArtifactKeyService.  [Rotate] can return a new CID and an error
    together. *)
Record ArtifactKeyService (S : Type) := {
  GenerateAndEncrypt : bytes → M S (Result (CID * bytes));
  WrapForRecipient : CID → bytes → M S (Result bytes);
  Decrypt : CID → bytes → M S (Result bytes);
  Rotate : CID → bytes → M S (CID * bytes * option error);
  ks_Delete : CID → M S (option error) }.
Arguments GenerateAndEncrypt {S} _ _.
Arguments WrapForRecipient {S} _ _ _.
Arguments Decrypt {S} _ _ _.
Arguments Rotate {S} _ _ _.
Arguments ks_Delete {S} _ _.

(** [storage.CID{}, nil]. *)
Definition no_artifact : CID * bytes := (MkCID 0 [], []).

(** ** Code the envelope services share *)

Section Envelope.
Context `{SDK} `{ArtifactSDK W}.
Variable tag : string.

(** A fresh DEK and nonce, and the artifact sealed under them; the DEK's
    buffer, the nonce and the ciphertext. *)
Definition seal_fresh (plaintext : bytes) : M (W * Proc) (Result (nat * bytes * bytes)) :=
  r1 ← remote (ReadFull KeySize);
  match r1 with
  | Err e => mret (Err (wrapf (tag +:+ ": rand: ") e ""))
  | Ok key =>
      k ← alloc key;
      r2 ← remote (ReadFull NonceSize);
      match r2 with
      | Err e => mret (Err (wrapf (tag +:+ ": rand: ") e ""))
      | Ok nonce =>
          match aesGCMSeal key nonce plaintext with
          | Err e => wipe k;; mret (Err (wrapf (tag +:+ ": AES-GCM seal: ") e ""))
          | Ok ct => mret (Ok (k, nonce, ct))
          end
      end
  end.

(** The unwrapped material [key || nonce] opens the artifact. *)
Definition open_material (km ciphertext : bytes) : Result bytes :=
  let want := (KeySize + NonceSize)%nat in
  if negb (blen km =? Z.of_nat want) then
    Err (errors_New (tag +:+ ": unwrapped material length " +:+ Itoa (blen km) +:+ ", want "
                     +:+ Itoa (Z.of_nat want)))
  else map_err (λ e, wrapf "" (sdk_err ErrCiphertextMismatch) (": " +:+ Error e))
         (aesGCMOpen (take KeySize km) (drop KeySize km) ciphertext).

(** [Decrypt] from the unwrapped material, and [WrapForRecipient] from it:
    the buffer is wiped on return. *)
Definition decrypt_with (unwrap : M W (Result bytes)) (ciphertext : bytes)
    : M (W * Proc) (Result bytes) :=
  r ← remote unwrap;
  match r with
  | Err e => mret (Err e)
  | Ok km =>
      i ← alloc km; buf ← load i;
      let res := open_material buf ciphertext in
      wipe i;; mret res
  end.

Definition wrap_with (unwrap : M W (Result bytes)) (pub : PublicKey)
    : M (W * Proc) (Result bytes) :=
  r ← remote unwrap;
  match r with
  | Err e => mret (Err e)
  | Ok km =>
      i ← alloc km; buf ← load i;
      env ← remote (EncryptForNode buf pub);
      wipe i;;
      mret (map_err (λ e, wrapf (tag +:+ ": ECIES wrap: ") e "") env)
  end.

(** [Rotate], which the three services write alike. *)
Definition rotate_with (dec : CID → bytes → M (W * Proc) (Result bytes))
    (gen : bytes → M (W * Proc) (Result (CID * bytes)))
    (del : CID → M (W * Proc) (option error))
    (oldCID : CID) (oldCiphertext : bytes) : M (W * Proc) (CID * bytes * option error) :=
  r ← dec oldCID oldCiphertext;
  match r with
  | Err e => mret (no_artifact, Some e)
  | Ok pt =>
      i ← alloc pt; buf ← load i;
      g ← gen buf;
      wipe i;;
      match g with
      | Err e => mret (no_artifact, Some e)
      | Ok new =>
          d ← del oldCID;
          mret (new, (λ e, wrapf (tag +:+ ": post-rotate delete old: ") e "") <$> d)
      end
  end.
End Envelope.

(** ** Lemmas: the process operations *)

Section ProcessLemmas.
Context {W : Type}.
Implicit Types s : W * Proc.

Lemma run_val_remote {A} (m : M W A) s : run_val (remote m) s = run_val m s.1.
Proof. destruct s. apply run_val_on_fst. Qed.
Lemma run_state_remote {A} (m : M W A) s : run_state (remote m) s = (run_state m s.1, s.2).
Proof. destruct s. apply run_state_on_fst. Qed.
Lemma run_val_alloc b s : run_val (alloc b) s = length (mem s.2).
Proof. by destruct s. Qed.
Lemma run_state_alloc b s :
  run_state (alloc b) s = (s.1, MkProc (pathCache s.2) (mem s.2 ++ [b])).
Proof. by destruct s. Qed.
Lemma run_val_load i s : run_val (load i) s = default [] (mem s.2 !! i).
Proof. by destruct s. Qed.
Lemma run_state_load i s : run_state (load i) s = s.
Proof. by destruct s. Qed.
Lemma run_state_wipe i s :
  run_state (wipe i) s = (s.1, MkProc (pathCache s.2) (alter zeroize i (mem s.2))).
Proof. by destruct s. Qed.
Lemma run_state_cache_add k s :
  run_state (cache_add k) s = (s.1, MkProc ({[k]} ∪ pathCache s.2) (mem s.2)).
Proof. by destruct s. Qed.
Lemma run_state_cache_delete k s :
  run_state (cache_delete k) s = (s.1, MkProc (pathCache s.2 ∖ {[k]}) (mem s.2)).
Proof. by destruct s. Qed.
End ProcessLemmas.

#[export] Hint Rewrite @run_val_remote @run_state_remote @run_val_alloc @run_state_alloc
  @run_val_load @run_state_load @run_state_wipe @run_state_cache_add
  @run_state_cache_delete : run.

(** The buffer just allocated is the one read back. *)
Lemma lookup_alloc (l : list bytes) b : default [] ((l ++ [b]) !! length l) = b.
Proof. by rewrite lookup_app_r, Nat.sub_diag. Qed.
#[export] Hint Rewrite lookup_alloc : run.

(** Wiping another buffer does not touch it. *)
Lemma lookup_wiped (l : list bytes) a b :
  default [] (alter zeroize (length l) ((l ++ [a]) ++ [b]) !! length (l ++ [a])) = b.
Proof.
  rewrite list_lookup_alter_ne by (rewrite length_app; cbn; lia).
  by rewrite lookup_app_r, Nat.sub_diag.
Qed.

(** [run], through the process state. *)
Ltac prun := repeat progress (run; cbn [mem pathCache]).

(** ** Lemmas: the helpers *)

Definition zeroed (b : bytes) : Prop := Forall (λ x, x = x00) b.

Lemma zeroize_zeroed b : zeroed (zeroize b).
Proof. induction b; constructor; done. Qed.

Lemma aes_NewCipher_32 key : length key = 32%nat → aes_NewCipher key = Ok (aes_block key).
Proof. intros Hk. unfold aes_NewCipher, blen. by rewrite Hk. Qed.

Lemma aesGCMSeal_32 key nonce pt :
  length key = 32%nat → length nonce = 12%nat →
  aesGCMSeal key nonce pt = Ok (gcm_seal (aes_block key) nonce pt).
Proof.
  intros Hk Hn. unfold aesGCMSeal. rewrite aes_NewCipher_32 by done.
  cbn [mbind Result_bind]. unfold blen. by rewrite Hn.
Qed.

(** Open inverts Seal, and opens nothing else. *)
Lemma aesGCMOpen_spec key nonce ct pt :
  aesGCMOpen key nonce ct = Ok pt ↔ aesGCMSeal key nonce pt = Ok ct.
Proof.
  unfold aesGCMOpen, aesGCMSeal. destruct (aes_NewCipher key) as [block|e]; cbn [mbind Result_bind]; [|done].
  destruct (negb _); [done|]. split.
  - destruct (gcm_open block nonce ct) as [pt'|] eqn:E; [|done].
    intros [= ->]. by rewrite (gcm_open_Some _ _ _ _ E).
  - intros [= <-]. by rewrite gcm_open_seal.
Qed.

Lemma open_material_spec `{SDK} `{ArtifactSDK W} tag key nonce ct :
  length key = KeySize → length nonce = NonceSize →
  open_material tag (key ++ nonce) ct =
    map_err (λ e, wrapf "" (sdk_err ErrCiphertextMismatch) (": " +:+ Error e)) (aesGCMOpen key nonce ct).
Proof.
  intros Hk Hn. unfold open_material, blen. rewrite length_app, Hk, Hn, Z.eqb_refl.
  cbn [negb]. by rewrite <- Hk, take_app_length, drop_app_length.
Qed.

(** The DEK and the nonce the next two reads of randomness give. *)
Definition read_or_nil {W} (r : M W (Result bytes)) (w : W) : bytes :=
  match run_val r w with Ok b => b | Err _ => [] end.
Definition rand_draw `{ArtifactSDK W} (w : W) : bytes * bytes :=
  (read_or_nil (ReadFull KeySize) w,
   read_or_nil (ReadFull NonceSize) (run_state (ReadFull KeySize) w)).

(** A fresh key seals any plaintext; the buffer returned holds the key. *)
Lemma seal_fresh_quiet `{SDK} {G F} `{ArtifactSDK (G * F)} `{!ArtifactSDKLaws (G * F)} `{!QuietSDK}
    tag pt (s : (G * F) * Proc) :
  ∃ key nonce ct g, rand_draw s.1 = (key, nonce) ∧
    length key = 32%nat ∧ length nonce = 12%nat ∧ aesGCMSeal key nonce pt = Ok ct ∧
    run_val (seal_fresh tag pt) s = Ok (length (mem s.2), nonce, ct) ∧
    run_state (seal_fresh tag pt) s = ((g, s.1.2), MkProc (pathCache s.2) (mem s.2 ++ [key])).
Proof.
  destruct (quiet_rand KeySize s.1) as (key & Hk & Hkl).
  destruct (quiet_rand NonceSize (run_state (ReadFull KeySize) s.1)) as (nonce & Hn & Hnl).
  rewrite KeySize_32 in Hkl. rewrite NonceSize_12 in Hnl.
  exists key, nonce, (gcm_seal (aes_block key) nonce pt).
  exists (run_state (ReadFull NonceSize) (run_state (ReadFull KeySize) s.1)).1.
  pose proof (aesGCMSeal_32 key nonce pt Hkl Hnl) as Hs.
  assert ((run_state (ReadFull NonceSize) (run_state (ReadFull KeySize) s.1)).2 = s.1.2) as Hq
    by by rewrite !quiet_rand_state.
  unfold seal_fresh. split; [unfold rand_draw, read_or_nil; by rewrite Hk, Hn|].
  do 3 (split; [done|]).
  prun. rewrite Hk. prun. rewrite Hn, Hs. prun. split; [done|]. rewrite <- Hq.
  by destruct (run_state (ReadFull NonceSize) _).
Qed.

(** ** Lemmas: wiped buffers *)

(** Every buffer the operation allocated holds zeros when it returns, and the
    buffers that were there are as they were. *)
Definition wipes {W A} (op : M (W * Proc) A) : Prop := ∀ s, ∃ cells,
  mem (run_state op s).2 = mem s.2 ++ cells ∧ Forall zeroed cells.

Lemma alter_alloc (l cells : list bytes) b :
  alter zeroize (length l) ((l ++ [b]) ++ cells) = l ++ zeroize b :: cells.
Proof.
  rewrite <- (base.assoc (++)), alter_app_r_alt, Nat.sub_diag by done. done.
Qed.

Lemma wipes_bind {W A B} (op : M (W * Proc) A) (f : A → M (W * Proc) B) :
  wipes op → (∀ a, wipes (f a)) → wipes (op ≫= f).
Proof.
  intros H1 H2 s. run. destruct (H1 s) as (c1 & E1 & Z1).
  destruct (H2 (run_val op s) (run_state op s)) as (c2 & E2 & Z2).
  exists (c1 ++ c2). rewrite E2, E1, (base.assoc (++)). split; [done|]. by apply Forall_app.
Qed.

Lemma wipes_quiet {W A} (op : M (W * Proc) A) :
  (∀ s, mem (run_state op s).2 = mem s.2) → wipes op.
Proof. intros Hq s. exists []. rewrite app_nil_r. split; [apply Hq|constructor]. Qed.

Lemma wipes_ret {W A} (a : A) : wipes (mret a : M (W * Proc) A).
Proof. by apply wipes_quiet. Qed.
Lemma wipes_remote {W A} (op : M W A) : wipes (remote op).
Proof. apply wipes_quiet. intros s. by prun. Qed.
Lemma wipes_cache_add {W} k : wipes (cache_add (W:=W) k).
Proof. apply wipes_quiet. intros s. by prun. Qed.
Lemma wipes_cache_delete {W} k : wipes (cache_delete (W:=W) k).
Proof. apply wipes_quiet. intros s. by prun. Qed.

(** A buffer used and then wiped. *)
Lemma wipes_buffer {W A B} b (body : bytes → M (W * Proc) A) (k : A → M (W * Proc) B) :
  (∀ x, wipes (body x)) → (∀ x, wipes (k x)) →
  wipes (i ← alloc b; buf ← load i; x ← body buf; wipe i;; k x).
Proof.
  intros Hb Hk s. prun. set (s1 := (s.1, MkProc _ _)).
  destruct (Hb b s1) as (c1 & E1 & Z1). cbn [s1 snd mem] in E1. fold s1 in E1.
  set (s2 := run_state (body b) s1) in *. rewrite E1, alter_alloc.
  set (s3 := (s2.1, MkProc _ _)). destruct (Hk (run_val (body b) s1) s3) as (c2 & -> & Z2).
  exists (zeroize b :: c1 ++ c2). cbn [s3 snd mem]. rewrite <- (base.assoc (++)). split; [done|].
  constructor; [apply zeroize_zeroed|]. by apply Forall_app.
Qed.

Create HintDb wipes.
#[export] Hint Resolve wipes_bind wipes_ret wipes_remote wipes_cache_add wipes_cache_delete : wipes.

(** The same, for code that also wipes the older buffer [k]. *)
Definition wipes_at {W A} (k : nat) (op : M (W * Proc) A) : Prop := ∀ s,
  (k < length (mem s.2))%nat → ∃ cells,
  mem (run_state op s).2 = alter zeroize k (mem s.2) ++ cells ∧ Forall zeroed cells.

Lemma wipes_at_bind {W A B} k (op : M (W * Proc) A) (f : A → M (W * Proc) B) :
  wipes op → (∀ a, wipes_at k (f a)) → wipes_at k (op ≫= f).
Proof.
  intros H1 H2 s Hk. run. destruct (H1 s) as (c1 & E1 & Z1).
  destruct (H2 (run_val op s) (run_state op s)) as (c2 & E2 & Z2); [rewrite E1, length_app; lia|].
  exists (c1 ++ c2). rewrite E2, E1, alter_app_l, (base.assoc (++)) by done.
  split; [done|]. by apply Forall_app.
Qed.

Lemma wipes_at_wipe {W A} k (f : () → M (W * Proc) A) :
  (∀ u, wipes (f u)) → wipes_at k (wipe k ≫= f).
Proof. intros H1 s Hk. prun. apply (H1 _ (s.1, MkProc _ _)). Qed.

Lemma wipes_at_buffer {W A B} n b (body : bytes → M (W * Proc) A) (k : A → M (W * Proc) B) :
  (∀ x, wipes (body x)) → (∀ x, wipes_at n (k x)) →
  wipes_at n (i ← alloc b; buf ← load i; x ← body buf; wipe i;; k x).
Proof.
  intros Hb Hk s Hn. prun. set (s1 := (s.1, MkProc _ _)).
  destruct (Hb b s1) as (c1 & E1 & Z1). cbn [s1 snd mem] in E1. fold s1 in E1.
  set (s2 := run_state (body b) s1) in *. rewrite E1, alter_alloc.
  set (s3 := (s2.1, MkProc _ _)). destruct (Hk (run_val (body b) s1) s3) as (c2 & -> & Z2).
  { cbn [s3 snd mem]. rewrite length_app. lia. }
  exists (zeroize b :: c1 ++ c2). cbn [s3 snd mem].
  rewrite alter_app_l, <- (base.assoc (++)) by done. split; [done|].
  constructor; [apply zeroize_zeroed|]. by apply Forall_app.
Qed.

Section Wiped.
Context `{SDK} `{ArtifactSDK W}.
Variable tag : string.

(** What follows [seal_fresh] must wipe the DEK's buffer, and then the whole
    operation wipes: provided the second read of randomness does not fail. *)
Lemma seal_fresh_wipes {A} pt (k : Result (nat * bytes * bytes) → M (W * Proc) A) :
  (∀ w, is_Ok (run_val (ReadFull NonceSize) w) = true) →
  (∀ e, wipes (k (Err e))) → (∀ i nonce ct, wipes_at i (k (Ok (i, nonce, ct)))) →
  wipes (seal_fresh tag pt ≫= k).
Proof.
  intros Hr He Ho s. run. unfold seal_fresh. prun.
  destruct (run_val (ReadFull KeySize) s.1) as [key|e]; prun; [|apply (He _ (_, _))].
  set (w1 := run_state (ReadFull KeySize) s.1). specialize (Hr w1).
  destruct (run_val (ReadFull NonceSize) w1) as [nonce|e]; [|done]. prun.
  destruct (aesGCMSeal key nonce pt) as [ct|e]; prun.
  - edestruct (Ho (length (mem s.2)) nonce ct) as (cells & -> & Z);
      [cbn [snd mem]; rewrite length_app; cbn; lia|].
    cbn [snd mem]. rewrite <- (app_nil_r (mem s.2 ++ [key])), alter_alloc.
    exists (zeroize key :: cells). rewrite <- (base.assoc (++)). split; [done|].
    constructor; [apply zeroize_zeroed|done].
  - edestruct He as (cells & -> & Z). cbn [snd mem].
    rewrite <- (app_nil_r (mem s.2 ++ [key])), alter_alloc.
    exists (zeroize key :: cells). rewrite <- (base.assoc (++)). split; [done|].
    constructor; [apply zeroize_zeroed|done].
Qed.

Lemma decrypt_with_wipes unwrap ct : wipes (decrypt_with tag unwrap ct).
Proof.
  unfold decrypt_with. apply wipes_bind; [auto with wipes|]. intros [km|e]; [|auto with wipes].
  intros s. edestruct (wipes_buffer (W:=W) km (λ x, mret x) (λ x, mret (open_material tag x ct)))
    as (cells & E & Z); [intros; apply wipes_ret..|].
  exists cells. split; [|done]. rewrite <- E. by prun.
Qed.

Lemma wrap_with_wipes unwrap pub : wipes (wrap_with tag unwrap pub).
Proof.
  unfold wrap_with. apply wipes_bind; [auto with wipes|]. intros [km|e]; [|auto with wipes].
  apply wipes_buffer; auto with wipes.
Qed.

Lemma rotate_with_wipes dec gen del c ct :
  wipes (dec c ct) → (∀ pt, wipes (gen pt)) → wipes (del c) →
  wipes (rotate_with (W:=W) tag dec gen del c ct).
Proof.
  intros Hd Hg Hx. unfold rotate_with. apply wipes_bind; [done|]. intros [pt|e]; [|auto with wipes].
  apply wipes_buffer; [done|]. intros [new|e]; auto with wipes.
Qed.
End Wiped.

(** ** The contract *)

Definition key_id (c : CID) : string := hex_EncodeToString (Digest c).

(** Key material by CID digest. *)
Abbreviation keyring := (gmap string (list Byte.byte * list Byte.byte)).

Section Contract.
Context `{SDK} `{ArtifactSDK W}.

(** What [Decrypt] returns under a keyring. *)
Definition decrypt_spec (m : keyring) (c : CID) (ct : bytes) (r : Result bytes) : Prop :=
  match m !! key_id c with
  | None => ∃ e, r = Err e ∧ errors_Is e ErrKeyNotFound = true
  | Some (key, nonce) =>
      match aesGCMOpen key nonce ct with
      | Ok pt => r = Ok pt
      | Err _ => ∃ e, r = Err e ∧ errors_Is e ErrCiphertextMismatch = true
      end
  end.

(** What [WrapForRecipient] returns: the recipient's key is checked first. *)
Definition wrap_spec (R : W → keyring → Prop) (m : keyring) (c : CID) (pub : bytes)
    (r : Result bytes) : Prop :=
  match recipient pub with
  | Err _ => ∃ e, r = Err e ∧ errors_Is e ErrInvalidRecipientKey = true
  | Ok pk =>
      match m !! key_id c with
      | None => ∃ e, r = Err e ∧ errors_Is e ErrKeyNotFound = true
      | Some (key, nonce) =>
          ∃ w pre, R w m ∧ r = map_err (λ e, wrapf pre e "") (run_val (EncryptForNode (key ++ nonce) pk) w)
      end
  end.

(** What an envelope service's unwrapping step owes: the stored key material,
    or [ErrKeyNotFound]. *)
Definition unwraps (R : W → keyring → Prop) (unwrap : CID → M W (Result bytes)) : Prop :=
  ∀ c w m, R w m → R (run_state (unwrap c) w) m ∧
    match m !! key_id c with
    | Some (key, nonce) =>
        length key = KeySize ∧ length nonce = NonceSize ∧ run_val (unwrap c) w = Ok (key ++ nonce)
    | None => ∃ e, run_val (unwrap c) w = Err e ∧ errors_Is e ErrKeyNotFound = true
    end.

Lemma decrypt_with_spec R unwrap tag c ct s m :
  unwraps R unwrap → R s.1 m →
  decrypt_spec m c ct (run_val (decrypt_with tag (unwrap c) ct) s) ∧
  R (run_state (decrypt_with tag (unwrap c) ct) s).1 m.
Proof.
  intros Hu HR. destruct (Hu c s.1 m HR) as [HR' Hv]. unfold decrypt_with, decrypt_spec. prun.
  destruct (m !! key_id c) as [[key nonce]|].
  - destruct Hv as (Hk & Hn & ->). prun. split; [|exact HR'].
    rewrite open_material_spec by done. destruct (aesGCMOpen key nonce ct) as [pt|e]; [done|].
    eexists. split; [done|]. rewrite errors_Is_wrapf. apply errors_Is_sdk_err.
  - destruct Hv as (e & -> & He). prun. split; [eauto|exact HR'].
Qed.

Lemma wrap_spec_invalid R m c pub e : recipient pub = Err e → wrap_spec R m c pub (Err e).
Proof.
  intros Er. unfold wrap_spec. rewrite Er. exists e. split; [done|]. unfold recipient in Er.
  destruct (blen pub =? 0); [injection Er as <-; apply errors_Is_sdk_err|].
  destruct (parseRecipientPubKey pub); [done|]. injection Er as <-.
  rewrite errors_Is_wrapf. apply errors_Is_sdk_err.
Qed.

Lemma wrap_with_spec (R : W → keyring → Prop) unwrap tag c pub s m :
  (∀ km pk w m, R w m → R (run_state (EncryptForNode km pk) w) m) →
  unwraps R unwrap → R s.1 m →
  let op := match recipient pub with
            | Err e => mret (Err e)
            | Ok pk => wrap_with tag (unwrap c) pk
            end in
  wrap_spec R m c pub (run_val op s) ∧ R (run_state op s).1 m.
Proof.
  intros HE Hu HR op. subst op.
  destruct (recipient pub) as [pk|e] eqn:Er; [|prun; split; [by apply wrap_spec_invalid|exact HR]].
  unfold wrap_spec. rewrite Er.
  destruct (Hu c s.1 m HR) as [HR' Hv]. unfold wrap_with. prun.
  destruct (m !! key_id c) as [[key nonce]|].
  - destruct Hv as (_ & _ & ->). prun. split; [|by apply HE]. by eexists _, _.
  - destruct Hv as (e & -> & He). prun. split; [eauto|exact HR'].
Qed.

(** [R] relates the world to the keyring it holds, and [draw] gives the key and
    the nonce the next generation will use in a world. *)
Class KeyContract (ks : ArtifactKeyService (W * Proc)) (R : W → keyring → Prop)
    (draw : W → bytes * bytes) : Prop := {
  (* the drawn key seals the plaintext; unless the CID is taken, it is filed *)
  con_generate pt s m key nonce : R s.1 m → draw s.1 = (key, nonce) → ∃ ct,
    aesGCMSeal key nonce pt = Ok ct ∧
    (m !! key_id (Compute ct) = None →
      run_val (GenerateAndEncrypt ks pt) s = Ok (Compute ct, ct) ∧
      R (run_state (GenerateAndEncrypt ks pt) s).1 (<[key_id (Compute ct) := (key, nonce)]> m));
  con_decrypt c ct s m : R s.1 m →
    decrypt_spec m c ct (run_val (Decrypt ks c ct) s) ∧ R (run_state (Decrypt ks c ct) s).1 m;
  con_wrap c pub s m : R s.1 m →
    wrap_spec R m c pub (run_val (WrapForRecipient ks c pub) s) ∧
    R (run_state (WrapForRecipient ks c pub) s).1 m;
  con_delete c s m : R s.1 m →
    run_val (ks_Delete ks c) s = None ∧
    R (run_state (ks_Delete ks c) s).1 (delete (key_id c) m);
  con_rotate : ∃ tag, ∀ c ct,
    Rotate ks c ct = rotate_with tag (Decrypt ks) (GenerateAndEncrypt ks) (ks_Delete ks) c ct }.
End Contract.

(** ** Client theorems *)

Section Client.
Context `{SDK} `{ArtifactSDK W} (ks : ArtifactKeyService (W * Proc)) (R : W → keyring → Prop).
Context (draw : W → bytes * bytes) `{!KeyContract ks R draw}.

Lemma decrypt_present c ct s m key nonce pt :
  R s.1 m → m !! key_id c = Some (key, nonce) → aesGCMSeal key nonce pt = Ok ct →
  run_val (Decrypt ks c ct) s = Ok pt.
Proof.
  intros HR Hm Hs. destruct (con_decrypt (ks:=ks) (draw:=draw) c ct s m HR) as [Hd _].
  unfold decrypt_spec in Hd. apply aesGCMOpen_spec in Hs. by rewrite Hm, Hs in Hd.
Qed.

Lemma decrypt_absent c ct s m :
  R s.1 m → m !! key_id c = None →
  ∃ e, run_val (Decrypt ks c ct) s = Err e ∧ errors_Is e ErrKeyNotFound = true.
Proof.
  intros HR Hm. destruct (con_decrypt (ks:=ks) (draw:=draw) c ct s m HR) as [Hd _].
  unfold decrypt_spec in Hd. by rewrite Hm in Hd.
Qed.

(** A keyring that agrees on a CID decrypts it alike. *)
Lemma decrypt_frame c ct s m m' :
  R s.1 m' → m' !! key_id c = m !! key_id c → decrypt_spec m c ct (run_val (Decrypt ks c ct) s).
Proof.
  intros HR Hm. destruct (con_decrypt (ks:=ks) (draw:=draw) c ct s m' HR) as [Hd _].
  unfold decrypt_spec in *. by rewrite Hm in Hd.
Qed.

(** The states of a successful rotation. *)
Lemma rotate_run c ct s m key nonce pt key' nonce' :
  R s.1 m → m !! key_id c = Some (key, nonce) → aesGCMSeal key nonce pt = Ok ct →
  draw (run_state (Decrypt ks c ct) s).1 = (key', nonce') →
  ∃ ct', aesGCMSeal key' nonce' pt = Ok ct' ∧
    (m !! key_id (Compute ct') = None →
      run_val (Rotate ks c ct) s = (Compute ct', ct', None) ∧
      R (run_state (Rotate ks c ct) s).1
        (delete (key_id c) (<[key_id (Compute ct') := (key', nonce')]> m))).
Proof.
  intros HR Hm Hs Hdraw. pose proof (decrypt_present c ct s m _ _ _ HR Hm Hs) as Hd.
  destruct (con_decrypt (ks:=ks) (draw:=draw) c ct s m HR) as [_ HR1].
  set (s1 := run_state (Decrypt ks c ct) s) in *.
  set (s2 := (s1.1, MkProc (pathCache s1.2) (mem s1.2 ++ [pt]))).
  destruct (con_generate (ks:=ks) pt s2 m _ _ HR1 Hdraw) as (ct' & Hs' & Hg).
  exists ct'. split; [done|]. intros Hfresh. destruct (Hg Hfresh) as [Hv HR2].
  set (s3 := run_state (GenerateAndEncrypt ks pt) s2) in *.
  set (s4 := (s3.1, MkProc (pathCache s3.2) (alter zeroize (length (mem s1.2)) (mem s3.2)))).
  destruct (con_delete (ks:=ks) (draw:=draw) c s4 _ HR2) as [Hdel HR3].
  destruct (con_rotate (ks:=ks) (R:=R) (draw:=draw)) as [tag ->].
  unfold rotate_with. prun. fold s1. rewrite Hd. prun. fold s2. rewrite Hv. prun.
  fold s3. fold s4. rewrite Hdel. split; [done|exact HR3].
Qed.

(** Round trip of the key service: [GenerateAndEncrypt] seals the plaintext
    under the key and nonce drawn; if the service holds no key for the CID of
    that ciphertext, it returns the pair, [Decrypt] of the pair gives back the
    plaintext, and every other CID decrypts as before. *)
Lemma generate_then_decrypt pt s m key nonce :
  R s.1 m → draw s.1 = (key, nonce) →
  let s' := run_state (GenerateAndEncrypt ks pt) s in
  ∃ ct, aesGCMSeal key nonce pt = Ok ct ∧
    (m !! key_id (Compute ct) = None →
      run_val (GenerateAndEncrypt ks pt) s = Ok (Compute ct, ct) ∧
      run_val (Decrypt ks (Compute ct) ct) s' = Ok pt ∧
      ∀ c x, key_id c ≠ key_id (Compute ct) → decrypt_spec m c x (run_val (Decrypt ks c x) s')).
Proof.
  intros HR Hdraw s'. destruct (con_generate (ks:=ks) pt s m _ _ HR Hdraw) as (ct & Hs & Hg).
  exists ct. split; [done|]. intros Hfresh. destruct (Hg Hfresh) as [Hv HR'].
  split; [exact Hv|]. split.
  - eapply decrypt_present; [exact HR'|apply lookup_insert_eq|exact Hs].
  - intros c x Hc. eapply decrypt_frame; [exact HR'|]. by rewrite lookup_insert_ne.
Qed.

(** C26. Rotation is cryptographic erasure: when the old pair decrypts and the
    CID of the plaintext sealed under the newly drawn key is not taken,
    [Rotate] returns that new pair, which decrypts to the same plaintext; no
    ciphertext decrypts under the old CID any more (the error is
    [ErrKeyNotFound]), and other CIDs are untouched. *)
Theorem rotate_erases c ct s m key nonce pt key' nonce' :
  R s.1 m → m !! key_id c = Some (key, nonce) → aesGCMSeal key nonce pt = Ok ct →
  draw (run_state (Decrypt ks c ct) s).1 = (key', nonce') →
  let s' := run_state (Rotate ks c ct) s in
  ∃ ct', aesGCMSeal key' nonce' pt = Ok ct' ∧
    (m !! key_id (Compute ct') = None →
      run_val (Rotate ks c ct) s = (Compute ct', ct', None) ∧
      run_val (Decrypt ks (Compute ct') ct') s' = Ok pt ∧
      (∀ x, ∃ e, run_val (Decrypt ks c x) s' = Err e ∧ errors_Is e ErrKeyNotFound = true) ∧
      ∀ d x, key_id d ≠ key_id c → key_id d ≠ key_id (Compute ct') →
        decrypt_spec m d x (run_val (Decrypt ks d x) s')).
Proof.
  intros HR Hm Hs Hdraw s'.
  destruct (rotate_run c ct s m _ _ _ _ _ HR Hm Hs Hdraw) as (ct' & Hs' & Hg).
  exists ct'. split; [done|]. intros Hfresh. destruct (Hg Hfresh) as [Hv HR'].
  assert (key_id c ≠ key_id (Compute ct')) as Hne by (intros E; rewrite E in Hm; congruence).
  split; [exact Hv|]. repeat split.
  - eapply decrypt_present; [exact HR'| |exact Hs'].
    by rewrite lookup_delete_ne, lookup_insert_eq.
  - intros x. eapply decrypt_absent; [exact HR'|apply lookup_delete_eq].
  - intros d x Hd1 Hd2. eapply decrypt_frame; [exact HR'|].
    by rewrite lookup_delete_ne, lookup_insert_ne.
Qed.

(** Deletion: [Delete] always succeeds (also when repeated or on a CID
    never seen); afterwards no ciphertext decrypts under the CID and no
    recipient can be given its key, and other CIDs are untouched. *)
Theorem delete_erases c s m :
  R s.1 m →
  let s' := run_state (ks_Delete ks c) s in
  run_val (ks_Delete ks c) s = None ∧
  run_val (ks_Delete ks c) s' = None ∧
  (∀ x, ∃ e, run_val (Decrypt ks c x) s' = Err e ∧ errors_Is e ErrKeyNotFound = true) ∧
  (∀ pub, ∃ e, run_val (WrapForRecipient ks c pub) s' = Err e ∧
    (errors_Is e ErrKeyNotFound = true ∨ errors_Is e ErrInvalidRecipientKey = true)) ∧
  ∀ d x, key_id d ≠ key_id c → decrypt_spec m d x (run_val (Decrypt ks d x) s').
Proof.
  intros HR s'. destruct (con_delete (ks:=ks) (draw:=draw) c s m HR) as [Hv HR'].
  split; [exact Hv|]. split; [apply (con_delete (ks:=ks) (draw:=draw) c s' _ HR')|]. split; [|split].
  - intros x. eapply decrypt_absent; [exact HR'|apply lookup_delete_eq].
  - intros pub. destruct (con_wrap (ks:=ks) (draw:=draw) c pub s' _ HR') as [Hw _]. unfold wrap_spec in Hw.
    destruct (recipient pub); [rewrite lookup_delete_eq in Hw|]; naive_solver.
  - intros d x Hd. eapply decrypt_frame; [exact HR'|]. by rewrite lookup_delete_ne.
Qed.
End Client.
