(* ===== verification/KeyRest.v ===== *)
(** * keyservice/vault_api.go and gcpkms_api.go: the REST plumbing

    JSON requests, response decoding and the mapping of transport failures and
    HTTP statuses to errors, which the Vault and the Cloud KMS clients do
    alike. *)

From Stdlib Require Import Ascii.
From S2P Require Import Prelude GoStrings Encoding Json Storage Http.

Open Scope Z_scope.

(** ** Response bodies *)

(** [json.NewDecoder(body).Decode(&zero)].  The decoder stops at the end of the
    first value, so a read error after an object is not seen; a literal ends
    with the byte after it or the end of the input. *)
Definition Decode `{Diag} {A} (fields : list (string * (json → A → option A))) (zero : A) (b : Body)
    : Result A :=
  let s := of_bytes (body_data b) in
  let bad := Err (match body_err b with Some e => e | None => errors_New (json_err (body_data b)) end) in
  match parse_value (parse_fuel s) 0 s with
  | None => bad
  | Some (j, rest) =>
      let closed := match j with JObj _ | JArr _ | JStr _ => true | _ => negb (String.eqb rest "") end in
      match body_err b, closed with
      | Some e, false => Err e
      | _, _ => match store_struct fields j zero with
                | Some a => Ok a
                | None => Err (errors_New (json_err (body_data b)))
                end
      end
  end.

(** [base64.StdEncoding.DecodeString]. *)
Definition decode_base64 `{Diag} (s : string) : Result bytes :=
  match DecodeString StdEncoding s with
  | Some b => Ok b
  | None => Err (errors_New (base64_err s))
  end.

(** [resp.Body.Close()] before the body is read: later reads fail. *)
Definition closed (r : HttpResp) : HttpResp :=
  MkResp (StatusCode r) (MkBody [] (Some (errors_New "http: read on closed response body"))).

(** ** Requests *)

Section Rest.
Context `{SDK} {W : Type}.
Variables (client : Client W) (tag : string).

(** [do]: the JSON body if there is one, the service's headers, and transport
    failures wrapped as [ErrServiceUnavailable].  Marshalling the maps of
    strings and booleans the callers pass cannot fail. *)
Definition do_json (headers : list (string * string)) (method url : string) (body : option json)
    : M W (Result HttpResp) :=
  let raw := match body with Some j => to_bytes (render j) | None => [] end in
  let ctype := match body with Some _ => [("Content-Type", "application/json")] | None => [] end in
  match url_err client url with
  | Some e => mret (Err (wrapf (tag +:+ ": new request: ") e ""))
  | None =>
      resp ← Do client (MkReq method url (headers ++ ctype) raw);
      mret (map_err (λ e, wrapf "" (sdk_err ErrServiceUnavailable) (": " +:+ Error e)) resp)
  end.

(** [fmtVaultErr] and [fmtGCPErr]. *)
Definition fmt_api_err (op : string) (r : HttpResp) : error :=
  let body := TrimSpace (of_bytes (ReadAll 4096 (h_RespBody r)).1) in
  let text := op +:+ " HTTP " +:+ Itoa (StatusCode r) +:+ ": " +:+ body in
  if 500 <=? StatusCode r then wrapf "" (sdk_err ErrServiceUnavailable) (": " +:+ text)
  else errors_New (tag +:+ ": " +:+ text).
End Rest.

(** ** Lemmas *)

(** A response body the encoder wrote decodes to what was written. *)
Lemma Decode_Encode `{Diag} {A} (fields : list (string * (json → A → option A))) zero j :
  json_wf j → (json_depth j ≤ max_depth)%N →
  Decode fields zero (MkBody (to_bytes (Encode j)) None) =
    match store_struct fields (json_utf8 j) zero with
    | Some a => Ok a
    | None => Err (errors_New (json_err (to_bytes (Encode j))))
    end.
Proof.
  intros Hw Hd. unfold Decode. cbn [body_data body_err]. rewrite of_to_bytes.
  pose proof (parse_first_Encode j Hw Hd) as Hp. unfold parse_first in Hp.
  destruct (parse_value (parse_fuel (Encode j)) 0 (Encode j)) as [[j' rest]|]; [|done].
  by injection Hp as ->.
Qed.

(** A request body reaches the server's decoder as it was written. *)
Lemma Decode_render `{Diag} {A} (fields : list (string * (json → A → option A))) zero j :
  json_wf j → (json_depth j ≤ max_depth)%N →
  Decode fields zero (MkBody (to_bytes (render j)) None) =
    match store_struct fields (json_utf8 j) zero with
    | Some a => Ok a
    | None => Err (errors_New (json_err (to_bytes (render j))))
    end.
Proof.
  intros Hw Hd. unfold Decode. cbn [body_data body_err]. rewrite of_to_bytes.
  pose proof (parse_render j Hw Hd) as Hp. unfold parse in Hp.
  destruct (parse_value (parse_fuel (render j)) 0 (render j)) as [[j' rest]|]; [|done].
  cbn in Hp. destruct (String.eqb (skip_ws rest) ""); [|done]. by injection Hp as ->.
Qed.

Lemma decode_base64_EncodeToString `{Diag} b :
  decode_base64 (EncodeToString StdEncoding b) = Ok b.
Proof. unfold decode_base64. by rewrite DecodeString_EncodeToString. Qed.

(** Base64 text is ASCII. *)
Lemma enc_char_ascii url n : (n < 64)%N → (code (ascii_of_byte (enc_char url n)) <? 128)%N = true.
Proof.
  intros Hn.
  assert (H : forallb (λ k, (code (ascii_of_byte (enc_char url k)) <? 128)%N)
                (N.of_nat <$> seq 0 64) = true) by (destruct url; vm_compute; reflexivity).
  rewrite forallb_forall in H. apply H.
  apply list_elem_of_In, list_elem_of_fmap. exists (N.to_nat n).
  rewrite N2Nat.id. split; [done|]. apply elem_of_seq. lia.
Qed.

Lemma EncodeToString_ascii e l : is_ascii (EncodeToString e l) = true.
Proof.
  unfold EncodeToString. induction (b64_encode_chars e l) as [|b bs Hb _ IH]; [done|].
  change (((code (ascii_of_byte b) <? 128)%N && is_ascii (of_bytes bs)) = true). rewrite IH, andb_true_r.
  destruct Hb as [(n & Hn & ->)| ->]; [by apply enc_char_ascii|done].
Qed.

Lemma EncodeToString_utf8 e l : to_valid_utf8 (EncodeToString e l) = EncodeToString e l.
Proof. apply to_valid_utf8_ascii, EncodeToString_ascii. Qed.

Section RestLemmas.
Context `{SDK} {W : Type}.
Variables (client : Client W) (tag : string).

(** Transport failures and server errors are [ErrServiceUnavailable]. *)
Lemma do_json_down hdr method url body w e :
  url_err client url = None →
  run_val (Do client (MkReq method url
    (hdr ++ match body with Some _ => [("Content-Type", "application/json")] | None => [] end)
    match body with Some j => to_bytes (render j) | None => [] end)) w = Err e →
  ∃ e', run_val (do_json client tag hdr method url body) w = Err e'
    ∧ errors_Is e' ErrServiceUnavailable = true.
Proof.
  intros Hu Hd. unfold do_json. rewrite Hu. run. rewrite Hd. cbn [map_err].
  eexists. split; [done|]. rewrite errors_Is_wrapf. apply errors_Is_sdk_err.
Qed.

Lemma fmt_api_err_class op r :
  errors_Is (fmt_api_err tag op r) ErrServiceUnavailable = (500 <=? StatusCode r)
  ∧ errors_Is (fmt_api_err tag op r) ErrVaultNotFound = false
  ∧ errors_Is (fmt_api_err tag op r) ErrGCPNotFound = false.
Proof.
  unfold fmt_api_err. destruct (500 <=? StatusCode r); [|done].
  rewrite !errors_Is_wrapf. by rewrite errors_Is_sdk_err.
Qed.
End RestLemmas.
