(* ===== verification/Fakes.v ===== *)
(** * internal/testutil/httpfakes.go: the GCS and S3 fakes

    The two HTTP servers the backends are tested against, as state machines,
    and the loopback client that connects a backend to one.  They are concrete
    networks for the backend contracts: over them, with no status overrides,
    each backend implements the map. *)

From Stdlib Require Import Ascii.
From S2P Require Import Prelude GoStrings Json Url Storage Http.

Open Scope Z_scope.

(** ** Requests as a server sees them *)

Record ObservedRequest := MkObserved {
  o_Method : string; o_Path : string; o_RawPath : string; o_Query : string;
  o_Header : list (string * string); o_Body : list Byte.byte }.

(** A request to a server at [base]: [url.Parse] of the rest of the URL, less
    its fragment, gives the unescaped path, its [EscapedPath] and the query. *)
Definition parse_target (base url : string) : option (string * string * string) :=
  let rest := TrimPrefix url base in
  if HasPrefix url base && HasPrefix rest "/" && all_chars (λ a, url_char a || Ascii.eqb a "#") rest then
    let '(rest, frag) := match cut rest "#" with Some uf => uf | None => (rest, "") end in
    let '(raw, query) := match cut rest "?" with Some pq => pq | None => (rest, "") end in
    path ← PathUnescape raw; _ ← PathUnescape frag; Some (path, url_EscapedPath path raw, query)
  else None.

Lemma parse_target_text base rest :
  HasPrefix rest "/" = true → url_text rest = true →
  parse_target base (base +:+ rest) =
    let '(raw, query) := match cut rest "?" with Some pq => pq | None => (rest, "") end in
    path ← PathUnescape raw; Some (path, url_EscapedPath path raw, query).
Proof.
  intros Hs Ht. unfold parse_target. rewrite HasPrefix_app, TrimPrefix_app, Hs. cbn [andb].
  assert (all_chars (λ a, url_char a || Ascii.eqb a "#") rest = true) as ->.
  { clear Hs. induction rest as [|a rest IH]; [done|]. cbn in Ht |- *.
    apply andb_true_iff in Ht as [-> Ht]. by apply IH. }
  rewrite cut_free by by apply url_text_no_fragment.
  destruct (cut rest "?") as [[raw query]|]; [by destruct (PathUnescape raw)|by destruct (PathUnescape rest)].
Qed.

(** The two shapes of target the clients build. *)
Lemma parse_target_path base raw path :
  HasPrefix raw "/" = true → url_text raw = true → str_has "?" raw = false →
  PathUnescape raw = Some path →
  parse_target base (base +:+ raw) = Some (path, url_EscapedPath path raw, "").
Proof. intros Hs Ht Hq Hp. rewrite parse_target_text, cut_free by done. by rewrite Hp. Qed.

Lemma parse_target_path_query base raw path query :
  HasPrefix raw "/" = true → url_text raw = true → str_has "?" raw = false →
  url_text query = true → PathUnescape raw = Some path →
  parse_target base (base +:+ raw +:+ String "?" query) = Some (path, url_EscapedPath path raw, query).
Proof.
  intros Hs Ht Hq Hu Hp. change (String "?" query) with (String "?" "" +:+ query).
  rewrite parse_target_text.
  - rewrite cut_app by done. by rewrite Hp.
  - destruct raw; [done|]. by rewrite str_app_cons.
  - rewrite !url_text_app, Ht. by rewrite Hu.
Qed.

Definition respond (st : Z) (body : bytes) : HttpResp := MkResp st (MkBody body None).
Definition no_body (st : Z) : HttpResp := respond st [].

(** The client of an [httptest.Server] at [base]. *)
Definition loopback {F} (base : string) (handle : ObservedRequest → M F HttpResp) : Client F :=
  {| url_err url := match parse_target base url with
                    | Some _ => None
                    | None => Some (errors_New "unsupported URL")
                    end;
     Do req := match parse_target base (h_URL req) with
               | Some (path, raw, query) =>
                   Ok <$> handle (MkObserved (h_Method req) path raw query (h_Header req) (h_Body req))
               | None => mret (Err (errors_New "no such host"))
               end |}.

(** Status overrides: 0 keeps the default. *)
Record Overrides := MkOverrides {
  PushStatus : Z; FetchStatus : Z; ExistsStatus : Z; PinStatus : Z; DeleteStatus : Z;
  HealthyStatus : Z }.
Definition no_overrides : Overrides := MkOverrides 0 0 0 0 0 0.

(** The state of a fake: objects by [bucket/key], their metadata or tags, the
    requests it has seen, and the overrides. *)
Record Fake := MkFake {
  objects : gmap string (list Byte.byte);
  metadata : gmap string (gmap string string);
  requests : list ObservedRequest;
  overrides : Overrides }.

Definition new_fake : Fake := MkFake ∅ ∅ [] no_overrides.

Definition observe (r : ObservedRequest) (f : Fake) : Fake :=
  MkFake (objects f) (metadata f) (requests f ++ [r]) (overrides f).
Definition set_objects (o : gmap string bytes) (f : Fake) : Fake :=
  MkFake o (metadata f) (requests f) (overrides f).

(** Mark an object pinned. *)
Definition tag_pinned (key : string) (f : Fake) : Fake :=
  MkFake (objects f)
    (<[key := <["ortholog-pinned" := "true"]> (default ∅ (metadata f !! key))]> (metadata f))
    (requests f) (overrides f).

(** [Put], which preloads an object. *)
Definition Put (bucket object : string) (data : bytes) (f : Fake) : Fake :=
  set_objects (<[bucket +:+ "/" +:+ object := data]> (objects f)) f.

(** [Requests], a snapshot of what the fake has seen. *)
Definition Requests (f : Fake) : list ObservedRequest := requests f.

(** The S3 fake keeps the same state, with tags for metadata. *)
Definition S3Fake : Type := Fake.
Definition s3_Requests (f : S3Fake) : list ObservedRequest := requests f.
Definition s3_Put (bucket key : string) (data : bytes) (f : S3Fake) : S3Fake :=
  set_objects (<[bucket +:+ "/" +:+ key := data]> (objects f)) f.

(** The pinning endpoint, shared by the two fakes. *)
Definition pin_object (key : string) (f : Fake) : HttpResp * Fake :=
  match objects f !! key with
  | Some _ => (no_body StatusOK, tag_pinned key f)
  | None => (no_body StatusNotFound, f)
  end.

(** ** GCSFake *)

(** The object branch of [handle]: [/storage/v1/b/{bucket}/o/{name}]. *)
Definition gcs_object (r : ObservedRequest) (bucket object : string) (f : Fake) : HttpResp * Fake :=
  let key := bucket +:+ "/" +:+ object in
  let ov := overrides f in
  if String.eqb (o_Method r) "GET" then
    if String.eqb (Get "alt" (Query (o_Query r))) "media" then
      if negb (FetchStatus ov =? 0) then (no_body (FetchStatus ov), f)
      else match objects f !! key with
           | None => (no_body StatusNotFound, f)
           | Some data => (respond StatusOK data, f)
           end
    else if negb (ExistsStatus ov =? 0) then (no_body (ExistsStatus ov), f)
    else match objects f !! key with
         | None => (no_body StatusNotFound, f)
         | Some _ => (respond StatusOK (to_bytes (Encode (JObj [("name", JStr object)]))), f)
         end
  else if String.eqb (o_Method r) "PATCH" then
    if negb (PinStatus ov =? 0) then (no_body (PinStatus ov), f) else pin_object key f
  else if String.eqb (o_Method r) "DELETE" then
    if negb (DeleteStatus ov =? 0) then (no_body (DeleteStatus ov), f)
    else (no_body StatusOK, set_objects (delete key (objects f)) f)
  else (no_body StatusNotFound, f).

Definition upload_root : string := "/upload/storage/v1/b/".
Definition storage_root : string := "/storage/v1/b/".

(** [GCSFake.handle]. *)
Definition gcs_handle (r : ObservedRequest) (f : Fake) : HttpResp * Fake :=
  let f := observe r f in
  let ov := overrides f in
  let path := o_Path r in
  if String.eqb (o_Method r) "POST" && HasPrefix path upload_root then
    if negb (PushStatus ov =? 0) then (no_body (PushStatus ov), f)
    else
      let bucket := TrimSuffix (TrimPrefix path upload_root) "/o" in
      let object := Get "name" (Query (o_Query r)) in
      (respond StatusOK (to_bytes (Encode (JObj [("bucket", JStr bucket); ("name", JStr object)]))),
       set_objects (<[bucket +:+ "/" +:+ object := o_Body r]> (objects f)) f)
  else if String.eqb (o_Method r) "GET" && HasPrefix path storage_root
          && negb (Contains (TrimPrefix path storage_root) "/o") then
    if negb (HealthyStatus ov =? 0) then (no_body (HealthyStatus ov), f) else (no_body StatusOK, f)
  else if HasPrefix path storage_root && Contains path "/o/" then
    match cut (TrimPrefix path storage_root) "/o/" with
    | None => (no_body StatusBadRequest, f)
    | Some (bucket, object) => gcs_object r bucket object f
    end
  else (no_body StatusNotFound, f).

(** ** S3Fake *)

(** The object branch of [handle], by method. *)
Definition s3_object (r : ObservedRequest) (key : string) (f : Fake) : HttpResp * Fake :=
  let ov := overrides f in
  if String.eqb (o_Method r) "PUT" then
    if negb (PushStatus ov =? 0) then (no_body (PushStatus ov), f)
    else (no_body StatusOK, set_objects (<[key := o_Body r]> (objects f)) f)
  else if String.eqb (o_Method r) "GET" then
    if negb (FetchStatus ov =? 0) then (no_body (FetchStatus ov), f)
    else match objects f !! key with
         | None => (no_body StatusNotFound, f)
         | Some data => (respond StatusOK data, f)
         end
  else if String.eqb (o_Method r) "HEAD" then
    if negb (ExistsStatus ov =? 0) then (no_body (ExistsStatus ov), f)
    else match objects f !! key with
         | None => (no_body StatusNotFound, f)
         | Some _ => (no_body StatusOK, f)
         end
  else if String.eqb (o_Method r) "DELETE" then
    if negb (DeleteStatus ov =? 0) then (no_body (DeleteStatus ov), f)
    else (no_body StatusOK, set_objects (delete key (objects f)) f)
  else (no_body 405, f).

(** [S3Fake.handle]: path-style addressing, bucket-level health, the tagging
    subresource, then the object. *)
Definition s3_handle (r : ObservedRequest) (f : Fake) : HttpResp * Fake :=
  let f := observe r f in
  let path := TrimPrefix (o_Path r) "/" in
  if String.eqb path "" then (no_body StatusNotFound, f)
  else
    let '(bucket, key) := match cut path "/" with Some bk => bk | None => (path, "") end in
    if String.eqb key "" then
      (no_body (if negb (HealthyStatus (overrides f) =? 0) then HealthyStatus (overrides f)
                else StatusOK), f)
    else
      let fullKey := bucket +:+ "/" +:+ key in
      if negb (String.eqb (Get "tagging" (Query (o_Query r))) "")
         || HasSuffix (o_Query r) "tagging" then
        if negb (PinStatus (overrides f) =? 0) then (no_body (PinStatus (overrides f)), f)
        else pin_object fullKey f
      else s3_object r fullKey f.

(** The handlers as computations on the fake. *)
Definition fake_step (h : ObservedRequest → Fake → HttpResp * Fake) (r : ObservedRequest)
    : M Fake HttpResp := λ f, let '(resp, f') := h r f in (resp, f', []).
Definition gcs_fake (base : string) : Client Fake := loopback base (fake_step gcs_handle).
Definition s3_fake (base : string) : Client Fake := loopback base (fake_step s3_handle).

Lemma run_val_fake_step h r f : run_val (fake_step h r) f = (h r f).1.
Proof. unfold run_val, fake_step. by destruct (h r f). Qed.
Lemma run_state_fake_step h r f : run_state (fake_step h r) f = (h r f).2.
Proof. unfold run_state, fake_step. by destruct (h r f). Qed.
#[export] Hint Rewrite run_val_fake_step run_state_fake_step : run.
