(* ===== verification/GcpKms.v ===== *)
(** * keyservice/gcpkms*.go: Cloud KMS and Firestore

    Envelope encryption with one global KEK in Cloud KMS and the wrapped DEKs
    as Firestore documents, over an arbitrary HTTP client; then the two fake
    servers of gcpkms_test.go, over which the service discharges the
    key-service contract. *)

From Stdlib Require Import Ascii.
From S2P Require Import Prelude GoStrings Encoding Json Url Storage Http AesGcm KeyService KeyRest Fakes.

Open Scope Z_scope.

Record GCPKMSConfig := MkGCPKMS {
  KEKResourceName : string;
  FirestoreProjectID : string;
  FirestoreDatabase : string;
  FirestoreCollection : string;
  KMSEndpoint : string;
  FirestoreEndpoint : string }.

(** [errGCPNotFound]. *)
Definition errGCPNotFound : error :=
  MkError "keyservice/gcpkms: backend reports not-found (404)" [ErrGCPNotFound].

Definition or_default (s d : string) : string := if String.eqb s "" then d else s.

(** [NewGCPKMS]: the configuration the service keeps.  The HTTP client is the
    configured one or, without one, the client of the default credentials,
    whose construction [adc] may fail. *)
Definition NewGCPKMS {W} (cfg : GCPKMSConfig) (http : option (Client W)) (adc : Result (Client W))
    : Result (GCPKMSConfig * Client W) :=
  if String.eqb (KEKResourceName cfg) "" then
    Err (errors_New "keyservice/gcpkms: KEKResourceName is required")
  else if negb (HasPrefix (KEKResourceName cfg) "projects/") then
    Err (errors_New "keyservice/gcpkms: KEKResourceName must be in projects/.../cryptoKeys/<name> form")
  else if String.eqb (FirestoreProjectID cfg) "" then
    Err (errors_New "keyservice/gcpkms: FirestoreProjectID is required")
  else
    let slash := Ascii.eqb "/" in
    let cfg' := MkGCPKMS (KEKResourceName cfg) (FirestoreProjectID cfg)
      (or_default (FirestoreDatabase cfg) "(default)")
      (or_default (FirestoreCollection cfg) "ortholog-artifact-keys")
      (TrimRight slash (or_default (KMSEndpoint cfg) "https://cloudkms.googleapis.com"))
      (TrimRight slash (or_default (FirestoreEndpoint cfg) "https://firestore.googleapis.com")) in
    client ← match http with
             | Some c => Ok c
             | None => map_err (λ e, wrapf "keyservice/gcpkms: ADC token source: " e "") adc
             end;
    Ok (cfg', client).

Definition gcp_tag : string := "keyservice/gcpkms".

Section GCPKMS.
Context `{SDK} `{Diag} `{ArtifactSDK W}.
Variables (client : Client W) (cfg : GCPKMSConfig).

(** ** gcpkms_setup.go: paths *)

Definition firestoreParentPath : string :=
  "projects/" +:+ FirestoreProjectID cfg +:+ "/databases/" +:+ FirestoreDatabase cfg
  +:+ "/documents/" +:+ FirestoreCollection cfg.

Definition firestoreDocPath (c : CID) : string :=
  firestoreParentPath +:+ "/" +:+ hex_EncodeToString (Digest c).

Definition docID (c : CID) : string := hex_EncodeToString (Digest c).

(** ** gcpkms_api.go *)

Definition gcp_do (method url : string) (body : option json) : M W (Result HttpResp) :=
  do_json client gcp_tag [] method url body.

Definition fmtGCPErr (r : HttpResp) (op : string) : error := fmt_api_err gcp_tag op r.

(** The one field of an encrypt or a decrypt response. *)
Definition string_field (name : string) : list (string * (json → string → option string)) :=
  [(name, store_string)].

Definition kmsEncrypt (plaintext : bytes) : M W (Result bytes) :=
  let url := KMSEndpoint cfg +:+ "/v1/" +:+ KEKResourceName cfg +:+ ":encrypt" in
  r ← gcp_do "POST" url (Some (JObj [("plaintext", JStr (EncodeToString StdEncoding plaintext))]));
  mret match r with
       | Err e => Err e
       | Ok resp =>
           if negb (StatusCode resp =? StatusOK) then Err (fmtGCPErr resp "kms encrypt")
           else match Decode (string_field "ciphertext") "" (h_RespBody resp) with
                | Err e => Err (wrapf "keyservice/gcpkms: decode encrypt response: " e "")
                | Ok c =>
                    if String.eqb c "" then
                      Err (errors_New "keyservice/gcpkms: encrypt returned empty ciphertext")
                    else map_err (λ e, wrapf "keyservice/gcpkms: decode encrypt ciphertext base64: " e "")
                           (decode_base64 c)
                end
       end.

Definition kmsDecrypt (ciphertext : bytes) : M W (Result bytes) :=
  let url := KMSEndpoint cfg +:+ "/v1/" +:+ KEKResourceName cfg +:+ ":decrypt" in
  r ← gcp_do "POST" url (Some (JObj [("ciphertext", JStr (EncodeToString StdEncoding ciphertext))]));
  mret match r with
       | Err e => Err e
       | Ok resp =>
           if negb (StatusCode resp =? StatusOK) then Err (fmtGCPErr resp "kms decrypt")
           else match Decode (string_field "plaintext") "" (h_RespBody resp) with
                | Err e => Err (wrapf "keyservice/gcpkms: decode decrypt response: " e "")
                | Ok p => map_err (λ e, wrapf "keyservice/gcpkms: decode decrypt plaintext base64: " e "")
                            (decode_base64 p)
                end
       end.

(** The Firestore document of a wrapped DEK. *)
Definition wrapped_doc (wrapped : bytes) : json :=
  JObj [("fields", JObj [("wrapped",
    JObj [("bytesValue", JStr (EncodeToString StdEncoding wrapped))])])].
Definition wrapped_fields : list (string * (json → string → option string)) :=
  [("fields", store_struct [("wrapped", store_struct [("bytesValue", store_string)])])].

Definition firestoreCreateWrapped (doc : string) (wrapped : bytes) : M W (option error) :=
  let url := FirestoreEndpoint cfg +:+ "/v1/" +:+ firestoreParentPath +:+ "?documentId=" +:+ doc in
  r ← gcp_do "POST" url (Some (wrapped_doc wrapped));
  mret match r with
       | Err e => Some e
       | Ok resp =>
           if (StatusCode resp =? StatusOK) || (StatusCode resp =? StatusCreated) then None
           else if StatusCode resp =? 409 then
             Some (fmtGCPErr resp "firestore createDocument (duplicate)")
           else Some (fmtGCPErr resp "firestore createDocument")
       end.

Definition firestoreGetWrapped (doc : string) : M W (Result bytes) :=
  let url := FirestoreEndpoint cfg +:+ "/v1/" +:+ firestoreParentPath +:+ "/" +:+ doc in
  r ← gcp_do "GET" url None;
  mret match r with
       | Err e => Err e
       | Ok resp =>
           if StatusCode resp =? StatusNotFound then Err (sdk_err ErrKeyNotFound)
           else if negb (StatusCode resp =? StatusOK) then Err (fmtGCPErr resp "firestore getDocument")
           else match Decode wrapped_fields "" (h_RespBody resp) with
                | Err e => Err (wrapf "keyservice/gcpkms: decode firestore get: " e "")
                | Ok v =>
                    if String.eqb v "" then Err (sdk_err ErrKeyNotFound)
                    else map_err (λ e, wrapf "keyservice/gcpkms: decode wrapped bytes: " e "")
                           (decode_base64 v)
                end
       end.

Definition firestoreDeleteWrapped (doc : string) : M W (option error) :=
  let url := FirestoreEndpoint cfg +:+ "/v1/" +:+ firestoreParentPath +:+ "/" +:+ doc in
  r ← gcp_do "DELETE" url None;
  mret match r with
       | Err e => Some e
       | Ok resp =>
           if (StatusCode resp =? StatusOK) || (StatusCode resp =? StatusNoContent) then None
           else if StatusCode resp =? StatusNotFound then Some errGCPNotFound
           else Some (fmtGCPErr resp "firestore deleteDocument")
       end.

(** ** gcpkms.go *)

Definition gcp_GenerateAndEncrypt (plaintext : bytes) : M (W * Proc) (Result (CID * bytes)) :=
  r ← seal_fresh gcp_tag plaintext;
  match r with
  | Err e => mret (Err e)
  | Ok (k, nonce, ct) =>
      let cid := Compute ct in
      key ← load k;
      i ← alloc (key ++ nonce);
      km ← load i;
      w ← remote (kmsEncrypt km);
      wipe i;;
      match w with
      | Err e => wipe k;; mret (Err e)
      | Ok wrapped =>
          e ← remote (firestoreCreateWrapped (docID cid) wrapped);
          match e with
          | Some e => wipe k;; mret (Err e)
          | None => wipe k;; cache_add (CID_String cid);; mret (Ok (cid, ct))
          end
      end
  end.

(** The wrapped DEK from Firestore, unwrapped by KMS. *)
Definition gcp_unwrap (c : CID) : M W (Result bytes) :=
  r ← firestoreGetWrapped (docID c);
  match r with
  | Err e => mret (Err e)
  | Ok wrapped => kmsDecrypt wrapped
  end.

Definition gcp_WrapForRecipient (c : CID) (recipientPub : bytes) : M (W * Proc) (Result bytes) :=
  match recipient recipientPub with
  | Err e => mret (Err e)
  | Ok pub => wrap_with gcp_tag (gcp_unwrap c) pub
  end.

Definition gcp_Decrypt (c : CID) (ciphertext : bytes) : M (W * Proc) (Result bytes) :=
  decrypt_with gcp_tag (gcp_unwrap c) ciphertext.

Definition gcp_Delete (c : CID) : M (W * Proc) (option error) :=
  r ← remote (firestoreDeleteWrapped (docID c));
  match r with
  | Some e => if errors_Is e ErrGCPNotFound then cache_delete (CID_String c);; mret None
              else mret (Some e)
  | None => cache_delete (CID_String c);; mret None
  end.

Definition gcp_Rotate (oldCID : CID) (oldCiphertext : bytes) : M (W * Proc) (CID * bytes * option error) :=
  rotate_with gcp_tag gcp_Decrypt gcp_GenerateAndEncrypt gcp_Delete oldCID oldCiphertext.

Definition GCPKMS : ArtifactKeyService (W * Proc) := {|
  GenerateAndEncrypt := gcp_GenerateAndEncrypt;
  WrapForRecipient := gcp_WrapForRecipient;
  Decrypt := gcp_Decrypt;
  Rotate := gcp_Rotate;
  ks_Delete := gcp_Delete |}.
End GCPKMS.

(** ** On any network *)

Section AnyNetwork.
Context `{SDK} `{Diag} `{ArtifactSDK W}.
Variables (client : Client W) (cfg : GCPKMSConfig).

Lemma gcp_Generate_wipes pt :
  (∀ w, is_Ok (run_val (ReadFull NonceSize) w) = true) →
  wipes (gcp_GenerateAndEncrypt client cfg pt).
Proof.
  intros Hr. unfold gcp_GenerateAndEncrypt. apply seal_fresh_wipes; [done|auto with wipes|].
  intros k nonce ct. apply wipes_at_bind; [apply wipes_quiet; intros s; by prun|].
  intros key. apply wipes_at_buffer; [auto with wipes|].
  intros [wrapped|e]; [|apply wipes_at_wipe; auto with wipes].
  apply wipes_at_bind; [auto with wipes|].
  intros [e|]; apply wipes_at_wipe; auto with wipes.
Qed.

Lemma gcp_Delete_wipes c : wipes (gcp_Delete client cfg c).
Proof.
  unfold gcp_Delete. apply wipes_bind; [auto with wipes|].
  intros [e|]; [destruct (errors_Is e ErrGCPNotFound)|]; auto with wipes.
Qed.
End AnyNetwork.

(** ** gcpkms_test.go: the fake servers *)

(** [fakeKMS.key] and [fakeFirestore.docs]. *)
Record GCPFake := MkGCPFake { kek : list Byte.byte; docs : gmap string (list Byte.byte) }.

Definition newline : string := String "010" "".
Definition http_Error (msg : string) (st : Z) : HttpResp := respond st (to_bytes (msg +:+ newline)).
Definition http_NotFound : HttpResp := http_Error "404 page not found" StatusNotFound.

Section Fakes.
Context `{Diag} {G : Type} `{ArtifactSDK (G * GCPFake)}.

Definition service : M (G * GCPFake) GCPFake := λ w, (w.2, w, []).
Definition set_docs (d : gmap string bytes) : M (G * GCPFake) () := λ w,
  ((), (w.1, MkGCPFake (kek w.2) d), []).

(** [fakeKMS.encrypt]: the nonce goes in front of the ciphertext. *)
Definition fake_encrypt (pt : bytes) : M (G * GCPFake) (Result bytes) :=
  f ← service;
  match aes_NewCipher (kek f) with
  | Err e => mret (Err e)
  | Ok block =>
      n ← ReadFull (Z.to_nat gcm_NonceSize);
      mret (nonce ← n; Ok (nonce ++ gcm_seal block nonce pt))
  end.

Definition fake_decrypt (key ct : bytes) : Result bytes :=
  block ← aes_NewCipher key;
  if blen ct <? gcm_NonceSize then Err (errors_New "ciphertext too short")
  else
    let n := Z.to_nat gcm_NonceSize in
    match gcm_open block (take n ct) (drop n ct) with
    | Some pt => Ok pt
    | None => Err (errors_New "cipher: message authentication failed")
    end.

(** A decoded base64 field of a request body. *)
Definition body_base64 (fields : list (string * (json → string → option string)))
    (r : ObservedRequest) : Result bytes :=
  v ← Decode fields "" (MkBody (o_Body r) None); decode_base64 v.

Definition json_reply (name : string) (b : bytes) : HttpResp :=
  respond StatusOK (to_bytes (Encode (JObj [(name, JStr (EncodeToString StdEncoding b))]))).

(** [fakeKMS.ServeHTTP]. *)
Definition kms_handle (r : ObservedRequest) : M (G * GCPFake) HttpResp :=
  let post := String.eqb (o_Method r) "POST" in
  if post && HasSuffix (o_Path r) ":encrypt" then
    match body_base64 (string_field "plaintext") r with
    | Err e => mret (http_Error (Error e) StatusBadRequest)
    | Ok pt =>
        c ← fake_encrypt pt;
        mret match c with
             | Err e => http_Error (Error e) StatusInternalServerError
             | Ok ct => json_reply "ciphertext" ct
             end
    end
  else if post && HasSuffix (o_Path r) ":decrypt" then
    match body_base64 (string_field "ciphertext") r with
    | Err e => mret (http_Error (Error e) StatusBadRequest)
    | Ok ct =>
        f ← service;
        mret match fake_decrypt (kek f) ct with
             | Err e => http_Error (Error e) StatusBadRequest
             | Ok pt => json_reply "plaintext" pt
             end
    end
  else mret http_NotFound.

(** [fakeFirestore.ServeHTTP]. *)
Definition firestore_handle (r : ObservedRequest) : M (G * GCPFake) HttpResp :=
  let path := TrimPrefix (o_Path r) "/v1/" in
  f ← service;
  if String.eqb (o_Method r) "POST" then
    let doc := Get "documentId" (Query (o_Query r)) in
    if String.eqb doc "" then mret (http_Error "missing documentId" StatusBadRequest)
    else
      let fullName := path +:+ "/" +:+ doc in
      match docs f !! fullName with
      | Some _ => mret (http_Error "ALREADY_EXISTS" 409)
      | None =>
          match body_base64 wrapped_fields r with
          | Err e => mret (http_Error (Error e) StatusBadRequest)
          | Ok wrapped =>
              set_docs (<[fullName := wrapped]> (docs f));;
              mret (respond StatusOK (to_bytes "{}"))
          end
      end
  else if String.eqb (o_Method r) "GET" then
    mret match docs f !! path with
         | None => http_Error "NOT_FOUND" StatusNotFound
         | Some wrapped => respond StatusOK (to_bytes (Encode (wrapped_doc wrapped)))
         end
  else if String.eqb (o_Method r) "DELETE" then
    match docs f !! path with
    | None => mret (http_Error "NOT_FOUND" StatusNotFound)
    | Some _ => set_docs (delete path (docs f));; mret (no_body StatusOK)
    end
  else mret http_NotFound.

(** The client of two servers. *)
Definition two_hosts {F} (base1 base2 : string) (h1 h2 : ObservedRequest → M F HttpResp) : Client F :=
  let pick url := if HasPrefix url (base1 +:+ "/") then loopback base1 h1 else loopback base2 h2 in
  {| url_err url := url_err (pick url) url; Do req := Do (pick (h_URL req)) req |}.

(** [gcpkmsFakeBackend]. *)
Definition gcp_fakes (cfg : GCPKMSConfig) : Client (G * GCPFake) :=
  two_hosts (KMSEndpoint cfg) (FirestoreEndpoint cfg) kms_handle firestore_handle.
End Fakes.

(** ** The contract over the fakes *)

(** Text that is its own path. *)
Definition clean (s : string) : bool :=
  negb (str_has "%" s) && negb (str_has "?" s) && url_text s.

Lemma clean_app s t : clean (s +:+ t) = clean s && clean t.
Proof.
  unfold clean. rewrite !str_has_app, !negb_orb, url_text_app.
  destruct (str_has "%" s), (str_has "%" t), (str_has "?" s), (str_has "?" t), (url_text s), (url_text t);
    done.
Qed.

Lemma clean_hex l : clean (hex_EncodeToString l) = true.
Proof.
  unfold clean. by rewrite !hex_EncodeToString_free, hex_url_text.
Qed.

Lemma parse_target_clean base path :
  HasPrefix path "/" = true → clean path = true →
  parse_target base (base +:+ path) = Some (path, url_EscapedPath path path, "").
Proof.
  intros Hs [[H1%negb_true_iff H2%negb_true_iff]%andb_true_iff Ht]%andb_true_iff.
  apply parse_target_path; try done. by apply no_percent_unescape.
Qed.

Lemma parse_target_query base path query :
  HasPrefix path "/" = true → clean path = true → url_text query = true →
  parse_target base (base +:+ path +:+ String "?" query) = Some (path, url_EscapedPath path path, query).
Proof.
  intros Hs [[H1%negb_true_iff H2%negb_true_iff]%andb_true_iff Ht]%andb_true_iff Hu.
  apply parse_target_path_query; try done. by apply no_percent_unescape.
Qed.

(** Two suffixes of the same length. *)
Lemma HasSuffix_last x a b :
  String.length a = String.length b → a ≠ b → HasSuffix (x +:+ a) b = false.
Proof.
  intros Hl Hne. destruct (HasSuffix (x +:+ a) b) eqn:E; [|done].
  unfold HasSuffix in E. apply andb_true_iff in E as [_ E]. apply String.eqb_eq in E.
  rewrite str_length_app, <- Hl, Nat.add_sub, str_drop_app in E. done.
Qed.

Section Contract.
Context `{SDK} `{Diag} {G : Type} `{ArtifactSDK (G * GCPFake)}.
Context `{!ArtifactSDKLaws (G * GCPFake)} `{!QuietSDK}.
Variable cfg : GCPKMSConfig.

(** Resource names without escapes, and two distinct hosts. *)
Hypothesis kek_clean : clean (KEKResourceName cfg) = true.
Hypothesis parent_clean : clean (firestoreParentPath cfg) = true.
Hypothesis hosts : ∀ rest, HasPrefix (FirestoreEndpoint cfg +:+ "/" +:+ rest) (KMSEndpoint cfg +:+ "/") = false.

Let client : Client (G * GCPFake) := gcp_fakes cfg.

Lemma run_service (w : G * GCPFake) : run_val service w = w.2 ∧ run_state service w = w.
Proof. done. Qed.
Lemma run_state_set_docs d (w : G * GCPFake) :
  run_state (set_docs d) w = (w.1, MkGCPFake (kek w.2) d).
Proof. done. Qed.

Lemma gcp_do_kms rest method body w :
  clean rest = true →
  let r := MkObserved method ("/" +:+ rest) (url_EscapedPath ("/" +:+ rest) ("/" +:+ rest)) ""
    match body with Some _ => [("Content-Type", "application/json")] | None => [] end
    match body with Some j => to_bytes (render j) | None => [] end in
  run_val (gcp_do client method (KMSEndpoint cfg +:+ "/" +:+ rest) body) w = Ok (run_val (kms_handle r) w) ∧
  run_state (gcp_do client method (KMSEndpoint cfg +:+ "/" +:+ rest) body) w = run_state (kms_handle r) w.
Proof.
  intros Hc r. unfold gcp_do, do_json. cbn [client gcp_fakes two_hosts url_err Do h_URL].
  rewrite <- str_app_assoc, HasPrefix_app, str_app_assoc. unfold loopback. cbn [url_err Do h_URL].
  rewrite parse_target_clean by (done || by rewrite clean_app, Hc). run. done.
Qed.

Lemma gcp_do_firestore rest path query method body w :
  parse_target (FirestoreEndpoint cfg) (FirestoreEndpoint cfg +:+ "/" +:+ rest) = Some (path, url_EscapedPath path path, query) →
  let r := MkObserved method path (url_EscapedPath path path) query
    match body with Some _ => [("Content-Type", "application/json")] | None => [] end
    match body with Some j => to_bytes (render j) | None => [] end in
  run_val (gcp_do client method (FirestoreEndpoint cfg +:+ "/" +:+ rest) body) w
    = Ok (run_val (firestore_handle r) w) ∧
  run_state (gcp_do client method (FirestoreEndpoint cfg +:+ "/" +:+ rest) body) w
    = run_state (firestore_handle r) w.
Proof.
  intros Ht r. unfold gcp_do, do_json. cbn [client gcp_fakes two_hosts url_err Do h_URL].
  rewrite hosts. unfold loopback. cbn [url_err Do h_URL]. rewrite Ht. run. done.
Qed.

(** ** The JSON exchanged *)

Lemma Decode_field (name : string) b (enc : json → string) :
  enc = Encode ∨ enc = render → to_valid_utf8 name = name →
  Decode (string_field name) ""
    (MkBody (to_bytes (enc (JObj [(name, JStr (EncodeToString StdEncoding b))]))) None)
  = Ok (EncodeToString StdEncoding b).
Proof.
  intros Henc Hn.
  assert (store_struct (string_field name)
    (json_utf8 (JObj [(name, JStr (EncodeToString StdEncoding b))])) ""
    = Some (EncodeToString StdEncoding b)) as Hs.
  { cbn [json_utf8 map fst snd]. rewrite Hn, EncodeToString_utf8.
    cbn [store_struct store_members store_field string_field]. unfold field_match.
    by rewrite String.eqb_refl. }
  destruct Henc as [-> | ->]; [rewrite Decode_Encode|rewrite Decode_render];
    rewrite ?Hs; try done; cbn; rewrite ?Hn; done.
Qed.

Lemma Decode_doc b (enc : json → string) :
  enc = Encode ∨ enc = render →
  Decode wrapped_fields "" (MkBody (to_bytes (enc (wrapped_doc b))) None)
  = Ok (EncodeToString StdEncoding b).
Proof.
  intros Henc.
  assert (store_struct wrapped_fields (json_utf8 (wrapped_doc b)) ""
    = Some (EncodeToString StdEncoding b)) as Hs.
  { unfold wrapped_doc. cbn [json_utf8 map fst snd]. by rewrite EncodeToString_utf8. }
  destruct Henc as [-> | ->]; [rewrite Decode_Encode|rewrite Decode_render]; rewrite ?Hs; done.
Qed.

(** ** Each API call over the fakes *)

Lemma fake_encrypt_spec pt (w : G * GCPFake) : length (kek w.2) = 32%nat →
  ∃ ct g, run_val (fake_encrypt pt) w = Ok ct ∧ run_state (fake_encrypt pt) w = (g, w.2) ∧
    fake_decrypt (kek w.2) ct = Ok pt ∧ ct ≠ [].
Proof.
  intros Hk. destruct (quiet_rand 12 w) as (nonce & Hn & Hl).
  exists (nonce ++ gcm_seal (aes_block (kek w.2)) nonce pt), (run_state (ReadFull 12) w).1.
  unfold fake_encrypt. run. destruct (run_service w) as [-> ->]. rewrite aes_NewCipher_32 by done.
  change (Z.to_nat gcm_NonceSize) with 12%nat. run. rewrite Hn. split; [done|]. split; [|split].
  - rewrite <- (quiet_rand_state 12 w). by destruct (run_state (ReadFull 12) w).
  - unfold fake_decrypt. rewrite aes_NewCipher_32 by done. cbn [mbind Result_bind].
    unfold blen. rewrite length_app, Hl.
    destruct (_ <? _) eqn:E; [apply Z.ltb_lt in E; unfold gcm_NonceSize in E; lia|].
    change (Z.to_nat gcm_NonceSize) with 12%nat.
    by rewrite <- Hl, take_app_length, drop_app_length, gcm_open_seal.
  - by destruct nonce.
Qed.

Lemma kmsEncrypt_fake km w : length (kek w.2) = 32%nat →
  ∃ wrapped g, run_val (kmsEncrypt client cfg km) w = Ok wrapped ∧
    run_state (kmsEncrypt client cfg km) w = (g, w.2) ∧
    fake_decrypt (kek w.2) wrapped = Ok km ∧ wrapped ≠ [].
Proof.
  intros Hk. destruct (fake_encrypt_spec km w Hk) as (ct & g & Hv & Hs & Hd & Hne).
  exists ct, g. unfold kmsEncrypt. run.
  change (KMSEndpoint cfg +:+ "/v1/" +:+ KEKResourceName cfg +:+ ":encrypt")
    with (KMSEndpoint cfg +:+ "/" +:+ ("v1/" +:+ KEKResourceName cfg +:+ ":encrypt")).
  edestruct (gcp_do_kms ("v1/" +:+ KEKResourceName cfg +:+ ":encrypt")) as [-> ->];
    [by rewrite !clean_app, kek_clean|].
  unfold kms_handle. cbn [o_Method o_Path o_Body].
  replace (HasSuffix ("/" +:+ "v1/" +:+ KEKResourceName cfg +:+ ":encrypt") ":encrypt") with true
    by (symmetry; rewrite <- !str_app_assoc; apply HasSuffix_app).
  cbn [String.eqb Ascii.eqb andb Bool.eqb]. unfold body_base64. cbn [o_Body].
  rewrite Decode_field by eauto. cbn [mbind Result_bind]. rewrite decode_base64_EncodeToString.
  run. rewrite Hv, Hs. split; [|done].
  cbn [json_reply respond StatusCode h_RespBody]. rewrite Decode_field by eauto.
  change (negb (StatusOK =? StatusOK)) with false. cbv iota.
  rewrite decode_base64_EncodeToString.
  by destruct (String.eqb_spec (EncodeToString StdEncoding ct) "") as [E|_];
    [apply EncodeToString_nonempty in E|].
Qed.

Lemma kmsDecrypt_fake wrapped km w : fake_decrypt (kek w.2) wrapped = Ok km →
  run_val (kmsDecrypt client cfg wrapped) w = Ok km ∧ run_state (kmsDecrypt client cfg wrapped) w = w.
Proof.
  intros Hd. unfold kmsDecrypt. run.
  change (KMSEndpoint cfg +:+ "/v1/" +:+ KEKResourceName cfg +:+ ":decrypt")
    with (KMSEndpoint cfg +:+ "/" +:+ ("v1/" +:+ KEKResourceName cfg +:+ ":decrypt")).
  edestruct (gcp_do_kms ("v1/" +:+ KEKResourceName cfg +:+ ":decrypt")) as [-> ->];
    [by rewrite !clean_app, kek_clean|].
  unfold kms_handle. cbn [o_Method o_Path o_Body].
  replace (HasSuffix ("/" +:+ "v1/" +:+ KEKResourceName cfg +:+ ":decrypt") ":encrypt") with false
    by (symmetry; rewrite <- !str_app_assoc; apply HasSuffix_last; done).
  replace (HasSuffix ("/" +:+ "v1/" +:+ KEKResourceName cfg +:+ ":decrypt") ":decrypt") with true
    by (symmetry; rewrite <- !str_app_assoc; apply HasSuffix_app).
  cbn [String.eqb Ascii.eqb andb Bool.eqb]. unfold body_base64. cbn [o_Body].
  rewrite Decode_field by eauto. cbn [mbind Result_bind]. rewrite decode_base64_EncodeToString.
  run. destruct (run_service w) as [-> ->]. rewrite Hd. split; [|done].
  cbn [json_reply respond StatusCode h_RespBody]. rewrite Decode_field by eauto.
  change (negb (StatusOK =? StatusOK)) with false. cbv iota.
  by rewrite decode_base64_EncodeToString.
Qed.

Definition doc_key (h : string) : string := firestoreParentPath cfg +:+ "/" +:+ h.

Lemma doc_clean l : clean ("/v1/" +:+ firestoreParentPath cfg +:+ "/" +:+ hex_EncodeToString l) = true.
Proof.
  by rewrite !clean_app, parent_clean, clean_hex.
Qed.

Lemma firestore_doc_call method body l w :
  let path := "/v1/" +:+ doc_key (hex_EncodeToString l) in
  let r := MkObserved method path (url_EscapedPath path path) ""
    match body with Some _ => [("Content-Type", "application/json")] | None => [] end
    match body with Some j => to_bytes (render j) | None => [] end in
  let url := FirestoreEndpoint cfg +:+ "/v1/" +:+ firestoreParentPath cfg +:+ "/" +:+ hex_EncodeToString l in
  run_val (gcp_do client method url body) w = Ok (run_val (firestore_handle r) w) ∧
  run_state (gcp_do client method url body) w = run_state (firestore_handle r) w.
Proof.
  intros path r url.
  apply (gcp_do_firestore ("v1/" +:+ firestoreParentPath cfg +:+ "/" +:+ hex_EncodeToString l)).
  apply parse_target_clean; [done|apply doc_clean].
Qed.

Lemma firestoreGet_fake l w :
  run_state (firestoreGetWrapped client cfg (hex_EncodeToString l)) w = w ∧
  run_val (firestoreGetWrapped client cfg (hex_EncodeToString l)) w =
    match docs w.2 !! doc_key (hex_EncodeToString l) with
    | None | Some [] => Err (sdk_err ErrKeyNotFound)
    | Some wrapped => Ok wrapped
    end.
Proof.
  unfold firestoreGetWrapped. run. destruct (firestore_doc_call "GET" None l w) as [-> ->].
  unfold firestore_handle. cbn [o_Method o_Path]. rewrite TrimPrefix_app. run.
  destruct (run_service w) as [-> ->]. cbn [String.eqb Ascii.eqb andb Bool.eqb]. run.
  destruct (docs w.2 !! doc_key (hex_EncodeToString l)) as [b|]; run; split; try done.
  cbn [respond StatusCode h_RespBody]. rewrite Decode_doc by eauto.
  change (StatusOK =? StatusNotFound) with false. change (negb (StatusOK =? StatusOK)) with false.
  cbv iota. destruct b as [|x b]; [done|].
  destruct (String.eqb_spec (EncodeToString StdEncoding (x :: b)) "") as [E|_];
    [by apply EncodeToString_nonempty in E|]. by rewrite decode_base64_EncodeToString.
Qed.

Lemma firestoreDelete_fake l w :
  (run_state (firestoreDeleteWrapped client cfg (hex_EncodeToString l)) w).2 =
    MkGCPFake (kek w.2) (delete (doc_key (hex_EncodeToString l)) (docs w.2)) ∧
  (run_val (firestoreDeleteWrapped client cfg (hex_EncodeToString l)) w = None ∨
   run_val (firestoreDeleteWrapped client cfg (hex_EncodeToString l)) w = Some errGCPNotFound).
Proof.
  unfold firestoreDeleteWrapped. run. destruct (firestore_doc_call "DELETE" None l w) as [-> ->].
  unfold firestore_handle. cbn [o_Method o_Path]. rewrite TrimPrefix_app. run.
  destruct (run_service w) as [-> ->]. cbn [String.eqb Ascii.eqb andb Bool.eqb].
  destruct (docs w.2 !! doc_key (hex_EncodeToString l)) as [b|] eqn:E; run.
  - rewrite run_state_set_docs. split; [done|by left].
  - rewrite delete_id by done. split; [by destruct w as [? []]|by right].
Qed.

Lemma firestoreCreate_fake l wrapped w :
  l ≠ [] → docs w.2 !! doc_key (hex_EncodeToString l) = None →
  run_val (firestoreCreateWrapped client cfg (hex_EncodeToString l) wrapped) w = None ∧
  (run_state (firestoreCreateWrapped client cfg (hex_EncodeToString l) wrapped) w).2 =
    MkGCPFake (kek w.2) (<[doc_key (hex_EncodeToString l) := wrapped]> (docs w.2)).
Proof.
  intros Hl Hf. unfold firestoreCreateWrapped. run.
  edestruct (gcp_do_firestore ("v1/" +:+ firestoreParentPath cfg +:+ "?documentId=" +:+ hex_EncodeToString l)
    ("/v1/" +:+ firestoreParentPath cfg) ("documentId=" +:+ hex_EncodeToString l)) as [Hv Hs].
  { change ("?documentId=" +:+ hex_EncodeToString l)
      with (String "?" ("documentId=" +:+ hex_EncodeToString l)).
    change ("/" +:+ "v1/" +:+ firestoreParentPath cfg +:+ String "?" ("documentId=" +:+ hex_EncodeToString l))
      with ("/v1/" +:+ firestoreParentPath cfg +:+ String "?" ("documentId=" +:+ hex_EncodeToString l)).
    rewrite <- (str_app_assoc "/v1/"). apply parse_target_query.
    - done.
    - by rewrite clean_app, parent_clean.
    - by rewrite url_text_app, hex_url_text. }
  change (FirestoreEndpoint cfg +:+ "/v1/" +:+ firestoreParentPath cfg +:+ "?documentId=" +:+ hex_EncodeToString l)
    with (FirestoreEndpoint cfg +:+ "/" +:+ ("v1/" +:+ firestoreParentPath cfg +:+ "?documentId=" +:+ hex_EncodeToString l)).
  rewrite Hv, Hs. clear Hv Hs.
  unfold firestore_handle. cbn [o_Method o_Path o_Query]. rewrite TrimPrefix_app. run.
  destruct (run_service w) as [-> ->]. cbn [String.eqb Ascii.eqb andb Bool.eqb].
  change ("documentId=" +:+ hex_EncodeToString l) with ("documentId" +:+ String "=" (hex_EncodeToString l)).
  rewrite Query_plain by (done || apply hex_plain).
  change (Get "documentId" [("documentId", hex_EncodeToString l)]) with (hex_EncodeToString l).
  destruct (String.eqb_spec (hex_EncodeToString l) "") as [E|_].
  { apply (f_equal String.length) in E. rewrite hex_EncodeToString_length in E. by destruct l. }
  change (firestoreParentPath cfg +:+ "/" +:+ hex_EncodeToString l) with (doc_key (hex_EncodeToString l)).
  rewrite Hf. unfold body_base64. cbn [o_Body]. rewrite Decode_doc by eauto.
  cbn [mbind Result_bind]. rewrite decode_base64_EncodeToString. run. by rewrite run_state_set_docs.
Qed.

(** ** The service implements the keyring *)

(** Each key's wrapped form is the document of its digest, and no digest
    without a key has a document. *)
Definition gcp_holds (w : G * GCPFake) (m : keyring) : Prop :=
  length (kek w.2) = 32%nat ∧ ∀ l : bytes,
    match m !! hex_EncodeToString l with
    | Some (key, nonce) =>
        length key = 32%nat ∧ length nonce = 12%nat ∧
        ∃ wrapped, docs w.2 !! doc_key (hex_EncodeToString l) = Some wrapped ∧ wrapped ≠ [] ∧
          fake_decrypt (kek w.2) wrapped = Ok (key ++ nonce)
    | None => docs w.2 !! doc_key (hex_EncodeToString l) = None
    end.

Lemma gcp_holds_quiet w w' m : w'.2 = w.2 → gcp_holds w m → gcp_holds w' m.
Proof. unfold gcp_holds. by intros ->. Qed.

Lemma doc_key_inj h h' : doc_key h = doc_key h' → h = h'.
Proof. unfold doc_key. intros E%(inj (String.append _))%(inj (String.append _)). done. Qed.

Lemma gcp_holds_delete w m w' l :
  gcp_holds w m →
  w'.2 = MkGCPFake (kek w.2) (delete (doc_key (hex_EncodeToString l)) (docs w.2)) →
  gcp_holds w' (delete (hex_EncodeToString l) m).
Proof.
  intros [Hk Hd] E. split; rewrite E; cbn [kek docs]; [done|]. intros l'. specialize (Hd l').
  destruct (decide (l' = l)) as [->|Hne]; [by rewrite !lookup_delete_eq|].
  rewrite !lookup_delete_ne; [done| |].
  - by intros ->%doc_key_inj%(inj hex_EncodeToString).
  - by intros ->%(inj hex_EncodeToString).
Qed.

Lemma gcp_holds_insert w m w' l key nonce wrapped :
  gcp_holds w m → length key = 32%nat → length nonce = 12%nat → wrapped ≠ [] →
  fake_decrypt (kek w.2) wrapped = Ok (key ++ nonce) →
  w'.2 = MkGCPFake (kek w.2) (<[doc_key (hex_EncodeToString l) := wrapped]> (docs w.2)) →
  gcp_holds w' (<[hex_EncodeToString l := (key, nonce)]> m).
Proof.
  intros [Hk Hd] Hkl Hnl Hw Hdec E. split; rewrite E; cbn [kek docs]; [done|].
  intros l'. specialize (Hd l'). destruct (decide (l' = l)) as [->|Hne].
  - rewrite !lookup_insert_eq. eauto 10.
  - rewrite !lookup_insert_ne; [done| |].
    + by intros ->%doc_key_inj%(inj hex_EncodeToString).
    + by intros ->%(inj hex_EncodeToString).
Qed.

Lemma gcp_unwrap_spec : unwraps gcp_holds (gcp_unwrap client cfg).
Proof.
  intros c w m HR. pose proof HR as [Hk Hd]. specialize (Hd (Digest c)).
  unfold gcp_unwrap, key_id, docID. run.
  destruct (firestoreGet_fake (Digest c) w) as [-> ->].
  destruct (m !! hex_EncodeToString (Digest c)) as [[key nonce]|].
  - destruct Hd as (Hkl & Hnl & wrapped & -> & Hne & Hdec). destruct wrapped as [|x b]; [done|].
    destruct (kmsDecrypt_fake _ _ _ Hdec) as [-> ->].
    rewrite KeySize_32, NonceSize_12. auto.
  - rewrite Hd. run. split; [done|]. eexists. split; [done|]. apply errors_Is_sdk_err.
Qed.

Hypothesis digest_nonempty : ∀ d, Digest (Compute d) ≠ [].

Lemma gcp_generate_spec pt s m key nonce :
  gcp_holds s.1 m → rand_draw s.1 = (key, nonce) → ∃ ct,
  aesGCMSeal key nonce pt = Ok ct ∧
  (m !! key_id (Compute ct) = None →
    run_val (gcp_GenerateAndEncrypt client cfg pt) s = Ok (Compute ct, ct) ∧
    gcp_holds (run_state (gcp_GenerateAndEncrypt client cfg pt) s).1
      (<[key_id (Compute ct) := (key, nonce)]> m)).
Proof.
  intros HR Hdraw. pose proof HR as [Hk Hd].
  destruct (seal_fresh_quiet gcp_tag pt s) as (key' & nonce' & ct & g & Hdraw' & Hkl & Hnl & Hs & Hv & Hst).
  rewrite Hdraw in Hdraw'. injection Hdraw' as <- <-.
  exists ct. split; [done|]. unfold key_id. intros Hfresh.
  specialize (Hd (Digest (Compute ct))). rewrite Hfresh in Hd.
  set (w1 := (g, s.1.2)) in *.
  destruct (kmsEncrypt_fake (key ++ nonce) w1 Hk) as (wrapped & g' & He & Hes & Hdec & Hne).
  destruct (firestoreCreate_fake (Digest (Compute ct)) wrapped (g', w1.2)) as [Hc Hcs];
    [apply digest_nonempty|done|].
  unfold gcp_GenerateAndEncrypt, docID. prun. rewrite Hv, Hst. prun. fold w1. rewrite He, Hes. prun.
  rewrite Hc. prun. split; [done|]. eapply gcp_holds_insert; eauto.
Qed.

Lemma gcp_contract : KeyContract (GCPKMS client cfg) gcp_holds rand_draw.
Proof.
  constructor.
  - intros. by apply gcp_generate_spec.
  - intros c ct s m. apply decrypt_with_spec, gcp_unwrap_spec.
  - intros c pub s m. apply wrap_with_spec; [|apply gcp_unwrap_spec].
    intros km pk w m'. apply gcp_holds_quiet, quiet_ecies.
  - intros c s m HR. cbn [ks_Delete GCPKMS]. unfold gcp_Delete, docID, key_id. prun.
    destruct (firestoreDelete_fake (Digest c) s.1) as [Hs [Hv|Hv]]; rewrite Hv; prun;
      (split; [done|]); by eapply gcp_holds_delete.
  - by exists gcp_tag.
Qed.

(** C28. The GCP key service, talking to the fake Cloud KMS and Firestore of the
    test suite, implements the key-service contract: a fresh pair of servers
    holds no keys, and from then on each of the five operations behaves, for
    every plaintext, CID and state, as the keyring says. *)
Theorem gcpkms_conformance :
  (∀ g k, length k = 32%nat → gcp_holds (g, MkGCPFake k ∅) ∅) ∧
  KeyContract (GCPKMS client cfg) gcp_holds rand_draw.
Proof.
  split; [|apply gcp_contract]. intros g k Hk. split; [done|]. intros l. by rewrite !lookup_empty.
Qed.
End Contract.
