(* ===== verification/Vault.v ===== *)
(** * keyservice/vault*.go: HashiCorp Vault Transit

    Envelope encryption with one Transit key per artifact and the wrapped DEKs
    in kv-v2, over an arbitrary HTTP client; then the documented behaviour of
    Vault as type classes, under which the service discharges the key-service
    contract and rolls a Transit key back when kv-v2 fails. *)

From Stdlib Require Import Ascii.
From S2P Require Import Prelude GoStrings Encoding Json Storage Http AesGcm KeyService KeyRest.

Open Scope Z_scope.

Record VaultTransitConfig := MkVault {
  Endpoint : string; Token : string; TransitMount : string; KVMount : string;
  KVNamespace : string }.

(** [NewVaultTransit]: the configuration the service keeps. *)
Definition NewVaultTransit (cfg : VaultTransitConfig) : Result VaultTransitConfig :=
  if String.eqb (Endpoint cfg) "" then Err (errors_New "keyservice/vault: Endpoint is required")
  else if String.eqb (Token cfg) "" then Err (errors_New "keyservice/vault: Token is required")
  else
    let dflt s d := if String.eqb s "" then d else s in
    Ok (MkVault (TrimRight (Ascii.eqb "/") (Endpoint cfg)) (Token cfg)
          (dflt (TransitMount cfg) "transit") (dflt (KVMount cfg) "secret")
          (dflt (KVNamespace cfg) "artifact-keys")).

Definition vault_tag : string := "keyservice/vault".

(** [errVaultNotFound]. *)
Definition errVaultNotFound : error :=
  MkError "keyservice/vault: backend reports not-found (404)" [ErrVaultNotFound].

(** [hexCID]: two characters of [hexChars] per digest byte. *)
Definition hexChars : list Byte.byte := to_bytes "0123456789abcdef".
Definition hexCID (c : CID) : string :=
  of_bytes (Digest c ≫= λ b,
    [nth (N.to_nat (N.shiftr (Byte.to_N b) 4)) hexChars x00;
     nth (N.to_nat (N.land (Byte.to_N b) 0x0f)) hexChars x00]).

(** [transitKeyName]. *)
Definition transitKeyName (c : CID) : string := "artifact-" +:+ hex_EncodeToString (Digest c).

Section Vault.
Context `{SDK} `{Diag} `{ArtifactSDK W}.
Variables (client : Client W) (cfg : VaultTransitConfig).

(** ** vault_api.go *)

Definition kvDataPath (c : CID) : string :=
  "/v1/" +:+ KVMount cfg +:+ "/data/" +:+ KVNamespace cfg +:+ "/" +:+ hexCID c.
Definition kvMetadataPath (c : CID) : string :=
  "/v1/" +:+ KVMount cfg +:+ "/metadata/" +:+ KVNamespace cfg +:+ "/" +:+ hexCID c.

(** A Transit endpoint. *)
Definition transit_url (what name : string) : string :=
  Endpoint cfg +:+ "/v1/" +:+ TransitMount cfg +:+ "/" +:+ what +:+ "/" +:+ name.

Definition vault_do (method url : string) (body : option json) : M W (Result HttpResp) :=
  do_json client vault_tag [("X-Vault-Token", Token cfg)] method url body.

Definition fmtVaultErr (r : HttpResp) (op : string) : error := fmt_api_err vault_tag op r.

Definition ok_or_no_content (r : HttpResp) : bool :=
  (StatusCode r =? StatusOK) || (StatusCode r =? StatusNoContent).

Definition transitCreateKey (name : string) : M W (option error) :=
  r ← vault_do "POST" (transit_url "keys" name)
        (Some (JObj [("allow_plaintext_backup", JBool false); ("derived", JBool false);
                     ("exportable", JBool false); ("type", JStr "aes256-gcm96")]));
  mret match r with
       | Err e => Some e
       | Ok resp => if ok_or_no_content resp then None
                    else Some (fmtVaultErr resp "transit/keys create")
       end.

(** The string field [data.name] of a response. *)
Definition data_field (name : string) : list (string * (json → string → option string)) :=
  [("data", store_struct [(name, store_string)])].

Definition transitEncrypt (name : string) (plaintext : bytes) : M W (Result string) :=
  r ← vault_do "POST" (transit_url "encrypt" name)
        (Some (JObj [("plaintext", JStr (EncodeToString StdEncoding plaintext))]));
  mret match r with
       | Err e => Err e
       | Ok resp =>
           if negb (StatusCode resp =? StatusOK) then Err (fmtVaultErr resp "transit/encrypt")
           else match Decode (data_field "ciphertext") "" (h_RespBody resp) with
                | Err e => Err (wrapf "keyservice/vault: decode encrypt response: " e "")
                | Ok c => if String.eqb c "" then
                            Err (errors_New "keyservice/vault: encrypt returned empty ciphertext")
                          else Ok c
                end
       end.

Definition transitDecrypt (name ciphertext : string) : M W (Result bytes) :=
  r ← vault_do "POST" (transit_url "decrypt" name) (Some (JObj [("ciphertext", JStr ciphertext)]));
  mret match r with
       | Err e => Err e
       | Ok resp =>
           if StatusCode resp =? StatusNotFound then Err (sdk_err ErrKeyNotFound)
           else if negb (StatusCode resp =? StatusOK) then Err (fmtVaultErr resp "transit/decrypt")
           else match Decode (data_field "plaintext") "" (h_RespBody resp) with
                | Err e => Err (wrapf "keyservice/vault: decode decrypt response: " e "")
                | Ok p => map_err (λ e, wrapf "keyservice/vault: decode plaintext: " e "")
                            (decode_base64 p)
                end
       end.

(** Existence check, permission to delete, deletion.  The first two bodies are
    closed before an error would read them. *)
Definition transitDeleteKey (name : string) : M W (option error) :=
  r ← vault_do "GET" (transit_url "keys" name) None;
  match r with
  | Err e => mret (Some e)
  | Ok getResp =>
      if StatusCode getResp =? StatusNotFound then mret (Some errVaultNotFound)
      else if negb (StatusCode getResp =? StatusOK) then
        mret (Some (fmtVaultErr (closed getResp) "transit/keys exists-check"))
      else
        r ← vault_do "POST" (transit_url "keys" name +:+ "/config")
              (Some (JObj [("deletion_allowed", JBool true)]));
        match r with
        | Err e => mret (Some e)
        | Ok cfgResp =>
            if negb (ok_or_no_content cfgResp) then
              mret (Some (fmtVaultErr (closed cfgResp) "transit/keys config"))
            else
              r ← vault_do "DELETE" (transit_url "keys" name) None;
              mret match r with
                   | Err e => Some e
                   | Ok resp =>
                       if ok_or_no_content resp then None
                       else if StatusCode resp =? StatusNotFound then Some errVaultNotFound
                       else Some (fmtVaultErr resp "transit/keys delete")
                   end
        end
  end.

Definition kvPutWrapped (c : CID) (wrapped : string) : M W (option error) :=
  r ← vault_do "POST" (Endpoint cfg +:+ kvDataPath c)
        (Some (JObj [("data", JObj [("wrapped", JStr wrapped)])]));
  mret match r with
       | Err e => Some e
       | Ok resp => if ok_or_no_content resp || (StatusCode resp =? StatusCreated) then None
                    else Some (fmtVaultErr resp "kv-v2 put")
       end.

(** [Data.Data.Wrapped] and [Data.Metadata.DeletionTime]. *)
Definition kv_fields : list (string * (json → string * string → option (string * string))) :=
  [("data", store_struct
     [("data", λ j a, (λ w, (w, a.2)) <$> store_struct [("wrapped", store_string)] j a.1);
      ("metadata", λ j a, (λ t, (a.1, t)) <$> store_struct [("deletion_time", store_string)] j a.2)])].

Definition kvGetWrapped (c : CID) : M W (Result string) :=
  r ← vault_do "GET" (Endpoint cfg +:+ kvDataPath c) None;
  mret match r with
       | Err e => Err e
       | Ok resp =>
           if StatusCode resp =? StatusNotFound then Err (sdk_err ErrKeyNotFound)
           else if negb (StatusCode resp =? StatusOK) then Err (fmtVaultErr resp "kv-v2 get")
           else match Decode kv_fields ("", "") (h_RespBody resp) with
                | Err e => Err (wrapf "keyservice/vault: decode kv-v2 get: " e "")
                | Ok (wrapped, deleted) =>
                    if negb (String.eqb deleted "") || String.eqb wrapped ""
                    then Err (sdk_err ErrKeyNotFound) else Ok wrapped
                end
       end.

Definition kvDeleteMetadata (c : CID) : M W (option error) :=
  r ← vault_do "DELETE" (Endpoint cfg +:+ kvMetadataPath c) None;
  mret match r with
       | Err e => Some e
       | Ok resp =>
           if ok_or_no_content resp then None
           else if StatusCode resp =? StatusNotFound then Some errVaultNotFound
           else Some (fmtVaultErr resp "kv-v2 metadata delete")
       end.

(** ** vault.go *)

Definition vault_GenerateAndEncrypt (plaintext : bytes) : M (W * Proc) (Result (CID * bytes)) :=
  r ← seal_fresh vault_tag plaintext;
  match r with
  | Err e => mret (Err e)
  | Ok (k, nonce, ct) =>
      let cid := Compute ct in
      let keyName := transitKeyName cid in
      key ← load k;
      i ← alloc (key ++ nonce);
      km ← load i;
      c ← remote (transitCreateKey keyName);
      match c with
      | Some e => wipe k;; wipe i;; mret (Err e)
      | None =>
          w ← remote (transitEncrypt keyName km);
          wipe i;;
          match w with
          | Err e => remote (transitDeleteKey keyName);; wipe k;; mret (Err e)
          | Ok wrapped =>
              e ← remote (kvPutWrapped cid wrapped);
              match e with
              | Some e => remote (transitDeleteKey keyName);; wipe k;; mret (Err e)
              | None => wipe k;; cache_add (CID_String cid);; mret (Ok (cid, ct))
              end
          end
      end
  end.

(** The wrapped DEK from kv-v2, unwrapped by Transit. *)
Definition vault_unwrap (c : CID) : M W (Result bytes) :=
  r ← kvGetWrapped c;
  match r with
  | Err e => mret (Err e)
  | Ok wrapped => transitDecrypt (transitKeyName c) wrapped
  end.

Definition vault_WrapForRecipient (c : CID) (recipientPub : bytes) : M (W * Proc) (Result bytes) :=
  match recipient recipientPub with
  | Err e => mret (Err e)
  | Ok pub => wrap_with vault_tag (vault_unwrap c) pub
  end.

Definition vault_Decrypt (c : CID) (ciphertext : bytes) : M (W * Proc) (Result bytes) :=
  decrypt_with vault_tag (vault_unwrap c) ciphertext.

(** An error other than not-found. *)
Definition hard_error (r : option error) : option error :=
  match r with
  | Some e => if errors_Is e ErrVaultNotFound then None else Some e
  | None => None
  end.

Definition vault_Delete (c : CID) : M (W * Proc) (option error) :=
  r ← remote (kvDeleteMetadata c);
  match hard_error r with
  | Some e => mret (Some e)
  | None =>
      r ← remote (transitDeleteKey (transitKeyName c));
      match hard_error r with
      | Some e => mret (Some e)
      | None => cache_delete (CID_String c);; mret None
      end
  end.

Definition vault_Rotate (oldCID : CID) (oldCiphertext : bytes) : M (W * Proc) (CID * bytes * option error) :=
  rotate_with vault_tag vault_Decrypt vault_GenerateAndEncrypt vault_Delete oldCID oldCiphertext.

Definition VaultTransit : ArtifactKeyService (W * Proc) := {|
  GenerateAndEncrypt := vault_GenerateAndEncrypt;
  WrapForRecipient := vault_WrapForRecipient;
  Decrypt := vault_Decrypt;
  Rotate := vault_Rotate;
  ks_Delete := vault_Delete |}.
End Vault.

(** ** Paths *)

Lemma nth_hexChars n : (n < 16)%N → nth (N.to_nat n) hexChars x00 = hex_digit n.
Proof.
  intros Hn. assert (n = 0 ∨ n = 1 ∨ n = 2 ∨ n = 3 ∨ n = 4 ∨ n = 5 ∨ n = 6 ∨ n = 7 ∨ n = 8 ∨ n = 9
    ∨ n = 10 ∨ n = 11 ∨ n = 12 ∨ n = 13 ∨ n = 14 ∨ n = 15)%N as Hc by lia.
  repeat destruct Hc as [->|Hc]; try reflexivity. by subst.
Qed.

(** The hand-written loop is [hex.EncodeToString]: kv-v2 paths and Transit key
    names carry the same text. *)
Lemma hexCID_spec c : hexCID c = hex_EncodeToString (Digest c).
Proof.
  unfold hexCID, hex_EncodeToString, hex_encode. f_equal.
  induction (Digest c) as [|b l IH]; [done|]. cbn [mbind list_bind]. pose proof (to_N_lt b) as Hb.
  rewrite IH. f_equal. rewrite N.shiftr_div_pow2. change (2 ^ 4)%N with 16%N.
  change 0x0f%N with (N.ones 4). rewrite N.land_ones. change (2 ^ 4)%N with 16%N.
  rewrite !nth_hexChars; [done|apply N.mod_upper_bound; lia|apply N.Div0.div_lt_upper_bound; lia].
Qed.

(** ** On any network *)

Section AnyNetwork.
Context `{SDK} `{Diag} `{ArtifactSDK W}.
Variables (client : Client W) (cfg : VaultTransitConfig).

(** Wiping an older buffer and the newest one, in either order. *)
Lemma alter_both (l : list bytes) k b : (k < length l)%nat →
  alter zeroize (length l) (alter zeroize k (l ++ [b])) = alter zeroize k l ++ [zeroize b] ∧
  alter zeroize k (alter zeroize (length l) (l ++ [b])) = alter zeroize k l ++ [zeroize b].
Proof.
  intros Hk. rewrite alter_app_l by done. split.
  - rewrite <- (length_alter zeroize l k) at 1. rewrite <- (app_nil_r (_ ++ [b])). apply alter_alloc.
  - rewrite <- (app_nil_r (l ++ [b])), alter_alloc. by rewrite alter_app_l.
Qed.

Lemma vault_Generate_wipes pt :
  (∀ w, is_Ok (run_val (ReadFull NonceSize) w) = true) →
  wipes (vault_GenerateAndEncrypt client cfg pt).
Proof.
  intros Hr. unfold vault_GenerateAndEncrypt. apply seal_fresh_wipes; [done|auto with wipes|].
  intros k nonce ct s Hk. prun. set (km := default [] (mem s.2 !! k) ++ nonce).
  exists [zeroize km]. destruct (alter_both (mem s.2) k km Hk) as [E1 E2].
  split; [|repeat constructor; apply zeroize_zeroed].
  destruct (run_val (transitCreateKey _ _ _) _) as [e|]; prun; [done|].
  destruct (run_val (transitEncrypt _ _ _ _) _) as [wrapped|e]; prun; [|done].
  by destruct (run_val (kvPutWrapped _ _ _ _) _) as [e|]; prun.
Qed.

Lemma vault_Delete_wipes c : wipes (vault_Delete client cfg c).
Proof.
  unfold vault_Delete. apply wipes_bind; [auto with wipes|]. intros r.
  destruct (hard_error r); [auto with wipes|]. apply wipes_bind; [auto with wipes|]. intros r'.
  destruct (hard_error r'); auto with wipes.
Qed.
End AnyNetwork.

(** ** Vault as documented *)

(** What a Vault server keeps: the Transit keys by name, what each decrypts and
    whether its configuration allows its deletion, and the current kv-v2
    secrets by path. *)
Class VaultState (F : Type) := {
  TransitKey : Type;
  tkeys : F → gmap string TransitKey;
  tdec : TransitKey → string → option bytes;
  deletion_allowed : TransitKey → bool;
  kv : F → gmap string string }.

Section Laws.
Context `{SDK} `{Diag} {G F : Type} `{VaultState F}.
Variables (client : Client (G * F)) (cfg : VaultTransitConfig).

(** The request [vault_do] sends. *)
Definition vault_req (method url : string) (body : option json) : HttpReq :=
  MkReq method url
    ([("X-Vault-Token", Token cfg)] ++
     match body with Some _ => [("Content-Type", "application/json")] | None => [] end)
    match body with Some j => to_bytes (render j) | None => [] end.

(** An exchange: the server's answer and the state it leaves. *)
Definition exchange (method url : string) (body : option json) (w : G * F)
    (P : HttpResp → F → Prop) : Prop :=
  url_err client url = None ∧
  ∃ resp, run_val (Do client (vault_req method url body)) w = Ok resp ∧
    P resp (run_state (Do client (vault_req method url body)) w).2.

Definition key_name (l : bytes) : string := "artifact-" +:+ hex_EncodeToString l.

(** The Transit engine (secrets/transit API).  Creating an AES-256-GCM key is
    idempotent, and a new key is not deletable; encryption under an existing
    key gives a ciphertext that key decrypts; reading a missing key is a 404;
    the config endpoint sets [deletion_allowed] and nothing else; a DELETE
    removes a key whose configuration allows it, and is otherwise refused with
    a 400 and changes nothing. *)
Class HonestTransit := {
  create_law l w : exchange "POST" (transit_url cfg "keys" (key_name l))
    (Some (JObj [("allow_plaintext_backup", JBool false); ("derived", JBool false);
                 ("exportable", JBool false); ("type", JStr "aes256-gcm96")])) w (λ resp f,
    ok_or_no_content resp = true ∧ kv f = kv w.2 ∧
    match tkeys w.2 !! key_name l with
    | Some _ => tkeys f = tkeys w.2
    | None => ∃ k, tkeys f = <[key_name l := k]> (tkeys w.2) ∧ deletion_allowed k = false
    end);
  encrypt_law l k pt w : tkeys w.2 !! key_name l = Some k →
    exchange "POST" (transit_url cfg "encrypt" (key_name l))
      (Some (JObj [("plaintext", JStr (EncodeToString StdEncoding pt))])) w (λ resp f,
      f = w.2 ∧ StatusCode resp = StatusOK ∧ ∃ c,
        Decode (data_field "ciphertext") "" (h_RespBody resp) = Ok c ∧
        c ≠ "" ∧ is_ascii c = true ∧ tdec k c = Some pt);
  decrypt_law l k c pt w : tkeys w.2 !! key_name l = Some k → tdec k c = Some pt →
    exchange "POST" (transit_url cfg "decrypt" (key_name l)) (Some (JObj [("ciphertext", JStr c)])) w
      (λ resp f, f = w.2 ∧ StatusCode resp = StatusOK ∧
        Decode (data_field "plaintext") "" (h_RespBody resp) = Ok (EncodeToString StdEncoding pt));
  read_law l w : exchange "GET" (transit_url cfg "keys" (key_name l)) None w (λ resp f,
    f = w.2 ∧ StatusCode resp = match tkeys w.2 !! key_name l with
                                | Some _ => StatusOK
                                | None => StatusNotFound
                                end);
  config_law l b k w : tkeys w.2 !! key_name l = Some k →
    exchange "POST" (transit_url cfg "keys" (key_name l) +:+ "/config")
      (Some (JObj [("deletion_allowed", JBool b)])) w (λ resp f,
      kv f = kv w.2 ∧ ok_or_no_content resp = true ∧ ∃ k',
        tkeys f = <[key_name l := k']> (tkeys w.2) ∧ deletion_allowed k' = b ∧ ∀ c, tdec k' c = tdec k c);
  remove_law l k w : tkeys w.2 !! key_name l = Some k →
    exchange "DELETE" (transit_url cfg "keys" (key_name l)) None w (λ resp f,
      if deletion_allowed k
      then kv f = kv w.2 ∧ tkeys f = delete (key_name l) (tkeys w.2) ∧ ok_or_no_content resp = true
      else f = w.2 ∧ StatusCode resp = StatusBadRequest) }.

(** The kv-v2 engine: a write stores the secret, a read returns it or is a
    404, and deleting the metadata removes it whether or not it was there. *)
Class HonestKV := {
  put_law c v w : is_ascii v = true →
    exchange "POST" (Endpoint cfg +:+ kvDataPath cfg c)
      (Some (JObj [("data", JObj [("wrapped", JStr v)])])) w (λ resp f,
      tkeys f = tkeys w.2 ∧ kv f = <[hexCID c := v]> (kv w.2) ∧ ok_or_no_content resp = true);
  get_law c w : exchange "GET" (Endpoint cfg +:+ kvDataPath cfg c) None w (λ resp f,
    f = w.2 ∧ match kv w.2 !! hexCID c with
              | Some v => StatusCode resp = StatusOK ∧ Decode kv_fields ("", "") (h_RespBody resp) = Ok (v, "")
              | None => StatusCode resp = StatusNotFound
              end);
  purge_law c w : exchange "DELETE" (Endpoint cfg +:+ kvMetadataPath cfg c) None w (λ resp f,
    tkeys f = tkeys w.2 ∧ kv f = delete (hexCID c) (kv w.2) ∧
    (ok_or_no_content resp = true ∨ StatusCode resp = StatusNotFound)) }.

(** What [vault_do] makes of an exchange. *)
Lemma vault_do_exchange method url body w P :
  exchange method url body w P →
  ∃ resp, run_val (vault_do client cfg method url body) w = Ok resp ∧
    P resp (run_state (vault_do client cfg method url body) w).2.
Proof.
  intros (Hu & resp & Hv & HP). exists resp. unfold vault_do, do_json. rewrite Hu. run.
  unfold vault_req in *. by rewrite Hv.
Qed.
End Laws.

Section Contract.
Context `{SDK} `{Diag} {G F : Type} `{VaultState F} `{ArtifactSDK (G * F)}.
Context `{!ArtifactSDKLaws (G * F)} `{!QuietSDK}.
Variables (client : Client (G * F)) (cfg : VaultTransitConfig).

(** A step of [vault_do] under a law. *)
Ltac step law resp H :=
  let Hv := fresh "Hv" in
  destruct (vault_do_exchange _ _ _ _ _ _ _ law) as (resp & Hv & H);
  run; rewrite ?Hv; clear Hv; run.

Section Transit.
Context `{!HonestTransit client cfg}.

Lemma transitCreateKey_run l w :
  run_val (transitCreateKey client cfg (key_name l)) w = None ∧
  kv (run_state (transitCreateKey client cfg (key_name l)) w).2 = kv w.2 ∧
  ∃ k, tkeys (run_state (transitCreateKey client cfg (key_name l)) w).2 = <[key_name l := k]> (tkeys w.2).
Proof.
  unfold transitCreateKey. step (create_law client cfg l w) resp H'.
  destruct H' as (Ho & Hkv & Ht). rewrite Ho. split; [done|]. split; [done|].
  destruct (tkeys w.2 !! key_name l) as [k|] eqn:E; [|destruct Ht as (k & Ht & _); by exists k].
  exists k. by rewrite Ht, insert_id.
Qed.

Lemma transitEncrypt_run l k pt w : tkeys w.2 !! key_name l = Some k →
  ∃ c, run_val (transitEncrypt client cfg (key_name l) pt) w = Ok c ∧
    (run_state (transitEncrypt client cfg (key_name l) pt) w).2 = w.2 ∧
    c ≠ "" ∧ is_ascii c = true ∧ tdec k c = Some pt.
Proof.
  intros Hk. unfold transitEncrypt. step (encrypt_law client cfg l k pt w Hk) resp H'.
  destruct H' as (Hs & Ho & c & Hd & Hne & Ha & Hdec). exists c. rewrite Ho, Hd.
  change (negb (StatusOK =? StatusOK)) with false. cbv iota.
  destruct (String.eqb_spec c "") as [->|_]; [done|]. done.
Qed.

Lemma transitDecrypt_run l k c pt w : tkeys w.2 !! key_name l = Some k → tdec k c = Some pt →
  run_val (transitDecrypt client cfg (key_name l) c) w = Ok pt ∧
  (run_state (transitDecrypt client cfg (key_name l) c) w).2 = w.2.
Proof.
  intros Hk Hd. unfold transitDecrypt. step (decrypt_law client cfg l k c pt w Hk Hd) resp H'.
  destruct H' as (Hs & Ho & Hdec). rewrite Ho, Hdec, decode_base64_EncodeToString. done.
Qed.

Lemma transitDeleteKey_run l w :
  hard_error (run_val (transitDeleteKey client cfg (key_name l)) w) = None ∧
  kv (run_state (transitDeleteKey client cfg (key_name l)) w).2 = kv w.2 ∧
  tkeys (run_state (transitDeleteKey client cfg (key_name l)) w).2 = delete (key_name l) (tkeys w.2).
Proof.
  unfold transitDeleteKey. step (read_law client cfg l w) r1 H1'. destruct H1' as (Hs1 & ->).
  set (w1 := run_state (vault_do client cfg _ _ _) w) in *.
  destruct (tkeys w.2 !! key_name l) as [k|] eqn:Ek.
  - change (StatusOK =? StatusNotFound) with false. change (negb (StatusOK =? StatusOK)) with false. cbv iota.
    rewrite <- Hs1 in Ek. step (config_law client cfg l true k w1 Ek) r2 H2'.
    destruct H2' as (Hkv2 & -> & k' & Ht2 & Hda & _). cbn [negb].
    set (w2 := run_state (vault_do client cfg _ _ _) w1) in *.
    assert (tkeys w2.2 !! key_name l = Some k') as Ek' by by rewrite Ht2, lookup_insert_eq.
    step (remove_law client cfg l k' w2 Ek') r3 H3'. rewrite Hda in H3'.
    destruct H3' as (Hkv3 & Ht3 & ->). by rewrite Hkv3, Hkv2, Ht3, Ht2, delete_insert_eq, Hs1.
  - change (StatusNotFound =? StatusNotFound) with true. cbv iota. run.
    rewrite Hs1, delete_id by done. done.
Qed.
End Transit.

Section KV.
Context `{!HonestKV client cfg}.

Lemma kvPut_run c v w : is_ascii v = true →
  run_val (kvPutWrapped client cfg c v) w = None ∧
  tkeys (run_state (kvPutWrapped client cfg c v) w).2 = tkeys w.2 ∧
  kv (run_state (kvPutWrapped client cfg c v) w).2 = <[key_id c := v]> (kv w.2).
Proof.
  intros Ha. unfold kvPutWrapped. step (put_law client cfg c v w Ha) resp H'.
  destruct H' as (Ht & Hk & ->). rewrite hexCID_spec in Hk. done.
Qed.

Lemma kvGet_run c w :
  (run_state (kvGetWrapped client cfg c) w).2 = w.2 ∧
  run_val (kvGetWrapped client cfg c) w =
    match kv w.2 !! key_id c with
    | Some "" | None => Err (sdk_err ErrKeyNotFound)
    | Some v => Ok v
    end.
Proof.
  unfold kvGetWrapped. step (get_law client cfg c w) resp H'. destruct H' as (Hs & Hg).
  rewrite hexCID_spec in Hg. unfold key_id. split; [done|].
  destruct (kv w.2 !! hex_EncodeToString (Digest c)) as [v|].
  - destruct Hg as [-> ->]. by destruct v.
  - by rewrite Hg.
Qed.

Lemma kvDelete_run c w :
  hard_error (run_val (kvDeleteMetadata client cfg c) w) = None ∧
  tkeys (run_state (kvDeleteMetadata client cfg c) w).2 = tkeys w.2 ∧
  kv (run_state (kvDeleteMetadata client cfg c) w).2 = delete (key_id c) (kv w.2).
Proof.
  unfold kvDeleteMetadata. step (purge_law client cfg c w) resp H'. rewrite hexCID_spec in H'.
  destruct H' as (Ht & Hk & [->|Hn]); [done|]. rewrite Hn.
  by destruct (ok_or_no_content resp).
Qed.
End KV.

(** ** The service implements the keyring *)

(** Each key's wrapped form is the kv-v2 secret of its digest, under a Transit
    key that decrypts it; no digest without a key has a secret. *)
Definition vault_holds (w : G * F) (m : keyring) : Prop := ∀ l : bytes,
  match m !! hex_EncodeToString l with
  | Some (key, nonce) =>
      length key = 32%nat ∧ length nonce = 12%nat ∧ ∃ k v,
        tkeys w.2 !! key_name l = Some k ∧ kv w.2 !! hex_EncodeToString l = Some v ∧
        v ≠ "" ∧ tdec k v = Some (key ++ nonce)
  | None => kv w.2 !! hex_EncodeToString l = None
  end.

Lemma vault_holds_quiet w w' m : w'.2 = w.2 → vault_holds w m → vault_holds w' m.
Proof. unfold vault_holds. by intros ->. Qed.

Lemma key_name_inj l l' : key_name l = key_name l' → l = l'.
Proof. by intros E%(inj (String.append _))%(inj hex_EncodeToString). Qed.

Lemma vault_holds_delete w m w' l :
  vault_holds w m → kv w'.2 = delete (hex_EncodeToString l) (kv w.2) →
  tkeys w'.2 = delete (key_name l) (tkeys w.2) →
  vault_holds w' (delete (hex_EncodeToString l) m).
Proof.
  intros Hh Ek Et l'. rewrite Ek, Et. specialize (Hh l').
  destruct (decide (l' = l)) as [->|Hne]; [by rewrite !lookup_delete_eq|].
  rewrite !(lookup_delete_ne _ (hex_EncodeToString l)) by by intros ->%(inj hex_EncodeToString).
  by rewrite (lookup_delete_ne _ (key_name l)) by by intros ->%key_name_inj.
Qed.

(** Overwriting the Transit key of a digest that has no secret is harmless. *)
Lemma vault_holds_insert w m w' l k v key nonce :
  vault_holds w m → length key = 32%nat → length nonce = 12%nat → v ≠ "" →
  tdec k v = Some (key ++ nonce) →
  kv w'.2 = <[hex_EncodeToString l := v]> (kv w.2) →
  tkeys w'.2 = <[key_name l := k]> (tkeys w.2) →
  vault_holds w' (<[hex_EncodeToString l := (key, nonce)]> m).
Proof.
  intros Hh Hk Hn Hv Hd Ek Et l'. rewrite Ek, Et. specialize (Hh l').
  destruct (decide (l' = l)) as [->|Hne]; [rewrite !lookup_insert_eq; eauto 10|].
  rewrite !(lookup_insert_ne _ (hex_EncodeToString l)) by by intros ->%(inj hex_EncodeToString).
  by rewrite (lookup_insert_ne _ (key_name l)) by by intros ->%key_name_inj.
Qed.

Section Conformance.
Context `{!HonestTransit client cfg} `{!HonestKV client cfg}.

Lemma vault_unwrap_spec : unwraps vault_holds (vault_unwrap client cfg).
Proof.
  intros c w m HR. pose proof (HR (Digest c)) as Hd. unfold vault_unwrap, key_id. run.
  destruct (kvGet_run c w) as [Hs ->]. unfold key_id.
  destruct (m !! hex_EncodeToString (Digest c)) as [[key nonce]|].
  - destruct Hd as (Hk & Hn & k & v & Ht & -> & Hne & Hdec). destruct v as [|a v]; [done|].
    rewrite <- Hs in Ht.
    destruct (transitDecrypt_run (Digest c) k _ _ _ Ht Hdec) as [Hv' Hs'].
    change (transitKeyName c) with (key_name (Digest c)). rewrite Hv', KeySize_32, NonceSize_12.
    split; [|done]. eapply (vault_holds_quiet w); [by rewrite Hs', Hs|done].
  - rewrite Hd. run. split; [by eapply vault_holds_quiet|].
    eexists. split; [done|]. apply errors_Is_sdk_err.
Qed.

Lemma vault_generate_spec pt s m key nonce :
  vault_holds s.1 m → rand_draw s.1 = (key, nonce) → ∃ ct,
  aesGCMSeal key nonce pt = Ok ct ∧
  (m !! key_id (Compute ct) = None →
    run_val (vault_GenerateAndEncrypt client cfg pt) s = Ok (Compute ct, ct) ∧
    vault_holds (run_state (vault_GenerateAndEncrypt client cfg pt) s).1
      (<[key_id (Compute ct) := (key, nonce)]> m)).
Proof.
  intros HR Hdraw.
  destruct (seal_fresh_quiet vault_tag pt s) as (key' & nonce' & ct & g & Hdraw' & Hkl & Hnl & Hs & Hv & Hst).
  rewrite Hdraw in Hdraw'. injection Hdraw' as <- <-.
  exists ct. split; [done|]. intros _. set (l := Digest (Compute ct)).
  set (w1 := (g, s.1.2)) in *. destruct (transitCreateKey_run l w1) as (Hc & Hckv & k & Hct).
  set (w2 := run_state (transitCreateKey client cfg (key_name l)) w1) in *.
  destruct (transitEncrypt_run l k (key ++ nonce) w2) as (v & He & Hes & Hne & Ha & Hdec);
    [by rewrite Hct, lookup_insert_eq|].
  set (w3 := run_state (transitEncrypt client cfg (key_name l) (key ++ nonce)) w2) in *.
  destruct (kvPut_run (Compute ct) v w3 Ha) as (Hp & Hpt & Hpk).
  unfold vault_GenerateAndEncrypt. change (transitKeyName (Compute ct)) with (key_name l). prun.
  rewrite Hv, Hst. change (transitKeyName (Compute ct)) with (key_name l). prun.
  fold w1. rewrite Hc. prun. fold w2. rewrite He. prun. fold w3. rewrite Hp. prun.
  split; [done|]. eapply (vault_holds_insert s.1); [done..| |].
  - rewrite Hpk. unfold key_id. by rewrite Hes, Hckv.
  - by rewrite Hpt, Hes, Hct.
Qed.

Lemma vault_contract : KeyContract (VaultTransit client cfg) vault_holds rand_draw.
Proof.
  constructor.
  - intros. by apply vault_generate_spec.
  - intros c ct s m. apply decrypt_with_spec, vault_unwrap_spec.
  - intros c pub s m. apply wrap_with_spec; [|apply vault_unwrap_spec].
    intros km pk w m'. apply vault_holds_quiet, quiet_ecies.
  - intros c s m HR. cbn [ks_Delete VaultTransit]. unfold vault_Delete. prun.
    destruct (kvDelete_run c s.1) as (-> & Ht & Hk). prun.
    set (w1 := run_state (kvDeleteMetadata client cfg c) s.1) in *.
    change (transitKeyName c) with (key_name (Digest c)).
    destruct (transitDeleteKey_run (Digest c) w1) as (-> & Hkv & Hts). prun. split; [done|].
    eapply vault_holds_delete; [done|by rewrite Hkv, Hk|by rewrite Hts, Ht].
  - by exists vault_tag.
Qed.

(** C29. The Vault key service implements the key-service contract over any
    Vault server that behaves as its Transit and kv-v2 documentation says (keys
    are created without permission to be deleted, and a DELETE without it is
    refused): a server with no secrets holds no keys, and each of the five
    operations behaves, for every plaintext, CID and state, as the keyring
    says. *)
Theorem vault_conformance :
  (∀ w, kv w.2 = ∅ → vault_holds w ∅) ∧ KeyContract (VaultTransit client cfg) vault_holds rand_draw.
Proof.
  split; [|apply vault_contract]. intros w Hw l. by rewrite Hw, !lookup_empty.
Qed.
End Conformance.

Section Rollback.
Context `{!HonestTransit client cfg}.

(** The kv-v2 engine refuses writes: a transport error or a status that is not
    a success, the Transit keys left alone. *)
Definition kv_down : Prop := ∀ c j w,
  let req := vault_req cfg "POST" (Endpoint cfg +:+ kvDataPath cfg c) j in
  tkeys (run_state (Do client req) w).2 = tkeys w.2 ∧
  match run_val (Do client req) w with
  | Err _ => True
  | Ok resp => ok_or_no_content resp || (StatusCode resp =? StatusCreated) = false
  end.

Lemma kvPut_down c v w : kv_down →
  (∃ e, run_val (kvPutWrapped client cfg c v) w = Some e) ∧
  tkeys (run_state (kvPutWrapped client cfg c v) w).2 = tkeys w.2.
Proof.
  intros Hd. unfold kvPutWrapped, vault_do, do_json.
  destruct (url_err client _); [run; eauto|]. run.
  match goal with |- context [JObj ?l] => destruct (Hd c (Some (JObj l)) w) as [Ht Hr] end.
  unfold vault_req in *. destruct (run_val (Do client _) w) as [resp|e]; cbn [map_err]; [|eauto].
  rewrite Hr. eauto.
Qed.

(** C31. Rollback: when kv-v2 refuses the wrapped DEK, [GenerateAndEncrypt]
    fails and leaves Vault's Transit keys exactly as they were, if it had no
    key of the new artifact's name: a sustained outage leaks no keys.  The
    rollback holds on a Vault that refuses to delete a key whose configuration
    does not allow it, as a new key's does not. *)
Theorem vault_rollback pt s key nonce :
  kv_down → rand_draw s.1 = (key, nonce) →
  ∃ ct, aesGCMSeal key nonce pt = Ok ct ∧
    (tkeys s.1.2 !! transitKeyName (Compute ct) = None →
      (∃ e, run_val (vault_GenerateAndEncrypt client cfg pt) s = Err e) ∧
      tkeys (run_state (vault_GenerateAndEncrypt client cfg pt) s).1.2 = tkeys s.1.2).
Proof.
  intros Hd Hdraw.
  destruct (seal_fresh_quiet vault_tag pt s) as (key' & nonce' & ct & g & Hdraw' & Hkl & Hnl & Hs & Hv & Hst).
  rewrite Hdraw in Hdraw'. injection Hdraw' as <- <-.
  exists ct. split; [done|]. set (l := Digest (Compute ct)).
  change (transitKeyName (Compute ct)) with (key_name l). intros Hnone.
  set (w1 := (g, s.1.2)) in *. destruct (transitCreateKey_run l w1) as (Hc & Hckv & k & Hct).
  set (w2 := run_state (transitCreateKey client cfg (key_name l)) w1) in *.
  destruct (transitEncrypt_run l k (key ++ nonce) w2) as (v & He & Hes & _);
    [by rewrite Hct, lookup_insert_eq|].
  set (w3 := run_state (transitEncrypt client cfg (key_name l) (key ++ nonce)) w2) in *.
  destruct (kvPut_down (Compute ct) v w3 Hd) as ((e & Hp) & Hpt).
  set (w4 := run_state (kvPutWrapped client cfg (Compute ct) v) w3) in *.
  destruct (transitDeleteKey_run l w4) as (_ & _ & Hdt).
  unfold vault_GenerateAndEncrypt. prun. rewrite Hv, Hst.
  change (transitKeyName (Compute ct)) with (key_name l). prun.
  fold w1. rewrite Hc. prun. fold w2. rewrite He. prun. fold w3. rewrite Hp. prun. fold w4.
  split; [eauto|]. by rewrite Hdt, Hpt, Hes, Hct, delete_insert_id.
Qed.
End Rollback.
End Contract.
