(* ===== verification/Pkcs11.v ===== *)
(** * keyservice/pkcs11*.go: keys inside an HSM

    The PKCS#11 key service over an arbitrary module context (the methods of
    miekg/pkcs11's [Ctx] the code calls), then the standard's description of
    those methods as a type class, under which the service discharges the
    key-service contract. *)

From Stdlib Require Import Ascii.
From S2P Require Import Prelude GoStrings Encoding Storage AesGcm KeyService.

Open Scope Z_scope.

(** ** The module interface *)

Inductive CKA := CKA_CLASS | CKA_KEY_TYPE | CKA_VALUE_LEN | CKA_TOKEN | CKA_PRIVATE
  | CKA_SENSITIVE | CKA_EXTRACTABLE | CKA_ENCRYPT | CKA_DECRYPT | CKA_LABEL | CKA_ID | CKA_VALUE.
#[export] Instance CKA_eq_dec : EqDecision CKA.
Proof. solve_decision. Defined.

Inductive AttrValue := CKO_SECRET_KEY | CKK_AES | VInt (z : Z) | VBool (b : bool)
  | VStr (s : string) | VBytes (b : list Byte.byte) | VNil.
Abbreviation Attribute := (CKA * AttrValue)%type.

Inductive Mechanism := CKM_AES_KEY_GEN
  | CKM_AES_GCM (iv aad : list Byte.byte) (tagBits : Z).
Inductive SessionFlag := CKF_SERIAL_SESSION | CKF_RW_SESSION.
Inductive UserType := CKU_USER.

(** Return values: [pkcs11.Error] codes the code inspects, or another error. *)
Inductive CKR := CKR_USER_ALREADY_LOGGED_IN | CKR_OBJECT_HANDLE_INVALID | CKR_KEY_HANDLE_INVALID
  | CKR_OTHER.
Record p11_error := P11Error { p_code : CKR; p_err : error }.

Inductive P11 (A : Type) := POk (a : A) | PErr (e : p11_error).
Arguments POk {A} _.
Arguments PErr {A} _.

(** [*pkcs11.Ctx], for a module whose state is a [T]. *)
Record Ctx (T : Type) := MkCtx {
  Initialize : M T (option p11_error);
  Finalize : M T (option p11_error);
  Destroy : M T ();
  GetSlotList : bool → M T (P11 (list N));
  GetTokenInfo : N → M T (P11 string);
  OpenSession : N → list SessionFlag → M T (P11 N);
  Login : N → UserType → string → M T (option p11_error);
  Logout : N → M T (option p11_error);
  CloseSession : N → M T (option p11_error);
  FindObjectsInit : N → list Attribute → M T (option p11_error);
  FindObjects : N → Z → M T (P11 (list N * bool));
  FindObjectsFinal : N → M T (option p11_error);
  GenerateKey : N → list Mechanism → list Attribute → M T (P11 N);
  GetAttributeValue : N → N → list Attribute → M T (P11 (list (CKA * list Byte.byte)));
  SetAttributeValue : N → N → list Attribute → M T (option p11_error);
  EncryptInit : N → list Mechanism → N → M T (option p11_error);
  Encrypt : N → list Byte.byte → M T (P11 (list Byte.byte));
  DecryptInit : N → list Mechanism → N → M T (option p11_error);
  p11_Decrypt : N → list Byte.byte → M T (P11 (list Byte.byte));
  DestroyObject : N → N → M T (option p11_error) }.
Arguments Initialize {T} _.
Arguments Finalize {T} _.
Arguments Destroy {T} _.
Arguments GetSlotList {T} _ _.
Arguments GetTokenInfo {T} _ _.
Arguments OpenSession {T} _ _ _.
Arguments Login {T} _ _ _ _.
Arguments Logout {T} _ _.
Arguments CloseSession {T} _ _.
Arguments FindObjectsInit {T} _ _ _.
Arguments FindObjects {T} _ _ _.
Arguments FindObjectsFinal {T} _ _.
Arguments GenerateKey {T} _ _ _ _.
Arguments GetAttributeValue {T} _ _ _ _.
Arguments SetAttributeValue {T} _ _ _ _.
Arguments EncryptInit {T} _ _ _ _.
Arguments Encrypt {T} _ _ _.
Arguments DecryptInit {T} _ _ _ _.
Arguments p11_Decrypt {T} _ _ _.
Arguments DestroyObject {T} _ _ _.

Record PKCS11Config := MkPKCS11 {
  ModulePath : string; TokenLabel : string; Pin : string; KeyLabelPrefix : string }.

(** The module, and whether [p.ctx] is non-nil. *)
Record Module T := MkModule { hsm : T; ctx_open : bool }.
Arguments MkModule {T} _ _.
Arguments hsm {T} _.
Arguments ctx_open {T} _.

Definition p11_tag : string := "keyservice/pkcs11".
Definition p11_errf (what : string) (e : p11_error) : error :=
  wrapf (p11_tag +:+ ": " +:+ what +:+ ": ") (p_err e) "".

(** [errPKCS11NotFound]. *)
Definition errPKCS11NotFound : error :=
  MkError "keyservice/pkcs11: object not found" [ErrPKCS11NotFound].

(** ** pkcs11_setup.go *)

(** [trimNul]: the loop from the end of the label. *)
Fixpoint trim_end (s : list ascii) : list ascii :=
  match s with
  | c :: s' => if Ascii.eqb c "000" || Ascii.eqb c " " then trim_end s' else s
  | [] => []
  end.
Definition trimNul (s : string) : string :=
  String.string_of_list_ascii (rev (trim_end (rev (String.list_ascii_of_string s)))).

Section Setup.
Context `{Diag} {T : Type}.

(** The slots in order; one whose token cannot be read is skipped. *)
Fixpoint scan_slots (ctx : Ctx T) (label : string) (slots : list N) : M T (option N) :=
  match slots with
  | [] => mret None
  | sid :: slots =>
      ti ← GetTokenInfo ctx sid;
      match ti with
      | PErr _ => scan_slots ctx label slots
      | POk l => if String.eqb (trimNul l) label then mret (Some sid) else scan_slots ctx label slots
      end
  end.

Definition findSlotByTokenLabel (ctx : Ctx T) (label : string) : M T (Result N) :=
  r ← GetSlotList ctx true;
  match r with
  | PErr e => mret (Err (p11_errf "GetSlotList" e))
  | POk slots =>
      s ← scan_slots ctx label slots;
      mret match s with
           | Some sid => Ok sid
           | None => Err (errors_New (p11_tag +:+ ": no slot with token label " +:+ Quote label
                          +:+ " (have " +:+ Itoa (Z.of_nat (length slots)) +:+ " slot(s))"))
           end
  end.

(** [NewPKCS11]; [load] is [pkcs11.New]. *)
Definition NewPKCS11 (load : string → option (Ctx T)) (cfg : PKCS11Config)
    : M T (Result (PKCS11Config * Ctx T * N)) :=
  if String.eqb (ModulePath cfg) "" then mret (Err (errors_New "keyservice/pkcs11: ModulePath is required"))
  else if String.eqb (TokenLabel cfg) "" then
    mret (Err (errors_New "keyservice/pkcs11: TokenLabel is required"))
  else if String.eqb (Pin cfg) "" then mret (Err (errors_New "keyservice/pkcs11: Pin is required"))
  else
    let prefix := if String.eqb (KeyLabelPrefix cfg) "" then "artifact-" else KeyLabelPrefix cfg in
    let cfg := MkPKCS11 (ModulePath cfg) (TokenLabel cfg) (Pin cfg) prefix in
    match load (ModulePath cfg) with
    | None => mret (Err (errors_New (p11_tag +:+ ": failed to load module " +:+ Quote (ModulePath cfg))))
    | Some ctx =>
        r ← Initialize ctx;
        match r with
        | Some e => Destroy ctx;; mret (Err (p11_errf "Initialize" e))
        | None =>
            s ← findSlotByTokenLabel ctx (TokenLabel cfg);
            match s with
            | Err e => Finalize ctx;; Destroy ctx;; mret (Err e)
            | Ok slotID => mret (Ok (cfg, ctx, slotID))
            end
        end
    end.
End Setup.

Section Service.
Context `{SDK} `{Diag} {G T : Type} `{ArtifactSDK (G * Module T)}.
Variables (ctx : Ctx T) (cfg : PKCS11Config) (slotID : N).
Abbreviation W := (G * Module T)%type.

(** A call on the module. *)
Definition call {A} (m : M T A) : M W A := λ '(g, d),
  let '(a, t, l) := m (hsm d) in (a, (g, MkModule t (ctx_open d)), l).

Definition keyLabel (c : CID) : string := KeyLabelPrefix cfg +:+ hex_EncodeToString (Digest c).

Definition checkOpen : M W (option error) := λ w,
  (if ctx_open w.2 then None else Some (errors_New "keyservice/pkcs11: service is closed"), w, []).

(** [Close]. *)
Definition set_closed : M W () := λ w, ((), (w.1, MkModule (hsm w.2) false), []).
Definition Close : M W (option error) :=
  r ← checkOpen;
  match r with
  | Some _ => mret None
  | None => call (Finalize ctx);; call (Destroy ctx);; set_closed;; mret None
  end.

(** ** pkcs11_api.go *)

Definition session_flags : list SessionFlag := [CKF_SERIAL_SESSION; CKF_RW_SESSION].

Definition openSession : M T (Result N) :=
  r ← OpenSession ctx slotID session_flags;
  match r with
  | PErr e => mret (Err (p11_errf "OpenSession" e))
  | POk sh =>
      l ← Login ctx sh CKU_USER (Pin cfg);
      match l with
      | None => mret (Ok sh)
      | Some e =>
          CloseSession ctx sh;;
          match p_code e with
          | CKR_USER_ALREADY_LOGGED_IN =>
              r ← OpenSession ctx slotID session_flags;
              mret match r with
                   | PErr e => Err (p11_errf "re-OpenSession" e)
                   | POk sh => Ok sh
                   end
          | _ => mret (Err (p11_errf "Login" e))
          end
      end
  end.

(** [p11Session.Close]. *)
Definition session_Close (sh : N) : M T () := Logout ctx sh;; CloseSession ctx sh;; mret ().

Definition findKeyByLabel (sh : N) (label : string) : M T (Result N) :=
  i ← FindObjectsInit ctx sh [(CKA_CLASS, CKO_SECRET_KEY); (CKA_KEY_TYPE, CKK_AES); (CKA_LABEL, VStr label)];
  match i with
  | Some e => mret (Err (p11_errf ("FindObjectsInit(" +:+ Quote label +:+ ")") e))
  | None =>
      r ← FindObjects ctx sh 1;
      FindObjectsFinal ctx sh;;
      mret match r with
           | PErr e => Err (p11_errf ("FindObjects(" +:+ Quote label +:+ ")") e)
           | POk ([], _) => Err errPKCS11NotFound
           | POk (oh :: _, _) => Ok oh
           end
  end.

Definition key_template (label : string) (nonce : bytes) : list Attribute :=
  [(CKA_CLASS, CKO_SECRET_KEY); (CKA_KEY_TYPE, CKK_AES); (CKA_VALUE_LEN, VInt 32);
   (CKA_TOKEN, VBool true); (CKA_PRIVATE, VBool true); (CKA_SENSITIVE, VBool false);
   (CKA_EXTRACTABLE, VBool true); (CKA_ENCRYPT, VBool true); (CKA_DECRYPT, VBool true);
   (CKA_LABEL, VStr label); (CKA_ID, VBytes nonce)].

Definition generateAESKey (sh : N) (label : string) (nonce : bytes) : M T (Result N) :=
  r ← GenerateKey ctx sh [CKM_AES_KEY_GEN] (key_template label nonce);
  mret match r with
       | PErr e => Err (p11_errf ("GenerateKey(" +:+ Quote label +:+ ")") e)
       | POk oh => Ok oh
       end.

(** The last value of an attribute in a reply. *)
Definition attr_of (a : CKA) (got : list (CKA * bytes)) : bytes :=
  foldl (λ v kv, if decide (kv.1 = a) then kv.2 else v) [] got.

(** The key's copy, in a buffer of its own, and the nonce. *)
Definition readKeyMaterial (sh oh : N) : M (W * Proc) (Result (nat * bytes)) :=
  r ← remote (call (GetAttributeValue ctx sh oh [(CKA_VALUE, VNil); (CKA_ID, VNil)]));
  match r with
  | PErr e => mret (Err (p11_errf "GetAttributeValue" e))
  | POk got =>
      let key := attr_of CKA_VALUE got in
      let nonce := attr_of CKA_ID got in
      k ← alloc key;
      if (blen key =? 0) || (blen nonce =? 0) then
        mret (Err (errors_New "keyservice/pkcs11: key object missing CKA_VALUE or CKA_ID"))
      else mret (Ok (k, nonce))
  end.

Definition gcm_mech (nonce : bytes) : list Mechanism := [CKM_AES_GCM nonce [] 128].

Definition gcmEncrypt (sh oh : N) (nonce plaintext : bytes) : M T (Result bytes) :=
  i ← EncryptInit ctx sh (gcm_mech nonce) oh;
  match i with
  | Some e => mret (Err (p11_errf "EncryptInit" e))
  | None =>
      r ← Encrypt ctx sh plaintext;
      mret match r with PErr e => Err (p11_errf "Encrypt" e) | POk ct => Ok ct end
  end.

Definition gcmDecrypt (sh oh : N) (nonce ciphertext : bytes) : M T (Result bytes) :=
  i ← DecryptInit ctx sh (gcm_mech nonce) oh;
  match i with
  | Some e => mret (Err (p11_errf "DecryptInit" e))
  | None =>
      r ← p11_Decrypt ctx sh ciphertext;
      mret match r with PErr e => Err (p11_errf "Decrypt" e) | POk pt => Ok pt end
  end.

Definition destroyKey (sh oh : N) : M T (option error) :=
  r ← DestroyObject ctx sh oh;
  mret match r with
       | None => None
       | Some e =>
           match p_code e with
           | CKR_OBJECT_HANDLE_INVALID | CKR_KEY_HANDLE_INVALID => Some errPKCS11NotFound
           | _ => Some (p11_errf "DestroyObject" e)
           end
       end.

(** ** pkcs11.go *)

(** The session an operation runs in, closed on every return. *)
Definition with_session {A} (fail : error → A) (body : N → M (W * Proc) A) : M (W * Proc) A :=
  s ← remote (call openSession);
  match s with
  | Err e => mret (fail e)
  | Ok sh => a ← body sh; remote (call (session_Close sh));; mret a
  end.

(** [checkOpen], then the operation. *)
Definition when_open {A} (fail : error → A) (body : M (W * Proc) A) : M (W * Proc) A :=
  r ← remote checkOpen;
  match r with Some e => mret (fail e) | None => body end.

(** The per-artifact key's handle. *)
Definition artifact_key (sh : N) (c : CID) : M (W * Proc) (Result N) :=
  r ← remote (call (findKeyByLabel sh (keyLabel c)));
  mret (map_err (λ e, if errors_Is e ErrPKCS11NotFound then sdk_err ErrKeyNotFound else e) r).

(** [GenerateAndEncrypt] inside its session: the key is made under a transient
    label, and labelled with the CID once the ciphertext is known. *)
Definition generate_in (plaintext nonce : bytes) (sh : N) : M (W * Proc) (Result (CID * bytes)) :=
  let tmpLabel := KeyLabelPrefix cfg +:+ "tmp-" +:+ hex_EncodeToString nonce in
  g ← remote (call (generateAESKey sh tmpLabel nonce));
  match g with
  | Err e => mret (Err e)
  | Ok oh =>
      r ← remote (call (gcmEncrypt sh oh nonce plaintext));
      match r with
      | Err e => remote (call (destroyKey sh oh));; mret (Err e)
      | Ok ct =>
          let cid := Compute ct in
          l ← remote (call (SetAttributeValue ctx sh oh [(CKA_LABEL, VStr (keyLabel cid))]));
          match l with
          | Some e => remote (call (destroyKey sh oh));;
                      mret (Err (p11_errf "SetAttributeValue(label)" e))
          | None => mret (Ok (cid, ct))
          end
      end
  end.

Definition p11_GenerateAndEncrypt (plaintext : bytes) : M (W * Proc) (Result (CID * bytes)) :=
  when_open Err (
    n ← remote (ReadFull NonceSize);
    match n with
    | Err e => mret (Err (wrapf (p11_tag +:+ ": rand: ") e ""))
    | Ok nonce => with_session Err (generate_in plaintext nonce)
    end).

(** [WrapForRecipient] inside its session. *)
Definition wrap_in (c : CID) (pub : PublicKey) (sh : N) : M (W * Proc) (Result bytes) :=
  o ← artifact_key sh c;
  match o with
  | Err e => mret (Err e)
  | Ok oh =>
      m ← readKeyMaterial sh oh;
      match m with
      | Err e => mret (Err e)
      | Ok (k, nonce) =>
          key ← load k;
          i ← alloc (key ++ nonce);
          wipe k;;
          km ← load i;
          env ← remote (EncryptForNode km pub);
          wipe i;;
          mret (map_err (λ e, wrapf (p11_tag +:+ ": ECIES wrap: ") e "") env)
      end
  end.

Definition p11_WrapForRecipient (c : CID) (recipientPub : bytes) : M (W * Proc) (Result bytes) :=
  match recipient recipientPub with
  | Err e => mret (Err e)
  | Ok pub => when_open Err (with_session Err (wrap_in c pub))
  end.

(** [Decrypt] inside its session: [CKA_ID] carries the nonce. *)
Definition decrypt_in (c : CID) (ciphertext : bytes) (sh : N) : M (W * Proc) (Result bytes) :=
  o ← artifact_key sh c;
  match o with
  | Err e => mret (Err e)
  | Ok oh =>
      a ← remote (call (GetAttributeValue ctx sh oh [(CKA_ID, VNil)]));
      match a with
      | PErr e => mret (Err (p11_errf "read CKA_ID" e))
      | POk attrs =>
          let nonce := attr_of CKA_ID attrs in
          if negb (blen nonce =? Z.of_nat NonceSize) then
            mret (Err (errors_New (p11_tag +:+ ": stored nonce length " +:+ Itoa (blen nonce)
                                   +:+ ", want " +:+ Itoa (Z.of_nat NonceSize))))
          else
            r ← remote (call (gcmDecrypt sh oh nonce ciphertext));
            mret (map_err (λ e, wrapf "" (sdk_err ErrCiphertextMismatch) (": " +:+ Error e)) r)
      end
  end.

Definition p11_service_Decrypt (c : CID) (ciphertext : bytes) : M (W * Proc) (Result bytes) :=
  when_open Err (with_session Err (decrypt_in c ciphertext)).

(** [Delete] inside its session. *)
Definition delete_in (c : CID) (sh : N) : M (W * Proc) (option error) :=
  o ← remote (call (findKeyByLabel sh (keyLabel c)));
  match o with
  | Err e => mret (if errors_Is e ErrPKCS11NotFound then None else Some e)
  | Ok oh =>
      d ← remote (call (destroyKey sh oh));
      mret match d with
           | Some e => if errors_Is e ErrPKCS11NotFound then None else Some e
           | None => None
           end
  end.

Definition p11_Delete (c : CID) : M (W * Proc) (option error) :=
  when_open Some (with_session Some (delete_in c)).

Definition p11_Rotate (oldCID : CID) (oldCiphertext : bytes) : M (W * Proc) (CID * bytes * option error) :=
  rotate_with p11_tag p11_service_Decrypt p11_GenerateAndEncrypt p11_Delete oldCID oldCiphertext.

Definition PKCS11 : ArtifactKeyService (W * Proc) := {|
  GenerateAndEncrypt := p11_GenerateAndEncrypt;
  WrapForRecipient := p11_WrapForRecipient;
  Decrypt := p11_service_Decrypt;
  Rotate := p11_Rotate;
  ks_Delete := p11_Delete |}.
End Service.

(** ** Lemmas *)

Section Calls.
Context {G T : Type}.

Lemma run_val_call {A} (m : M T A) (w : G * Module T) : run_val (call m) w = run_val m (hsm w.2).
Proof. destruct w as [g d]. unfold run_val, call. cbn. by destruct (m (hsm d)) as [[]]. Qed.
Lemma run_state_call {A} (m : M T A) (w : G * Module T) :
  run_state (call m) w = (w.1, MkModule (run_state m (hsm w.2)) (ctx_open w.2)).
Proof. destruct w as [g d]. unfold run_state, call. cbn. by destruct (m (hsm d)) as [[]]. Qed.
Lemma run_checkOpen (w : G * Module T) : ctx_open w.2 = true →
  run_val checkOpen w = None ∧ run_state checkOpen w = w.
Proof. unfold run_val, run_state, checkOpen. cbn. by intros ->. Qed.
End Calls.
#[export] Hint Rewrite @run_val_call @run_state_call : run.

(** ** A PKCS#11 token as the standard describes it *)

(** A persistent AES key: [CKA_LABEL], [CKA_ID] and [CKA_VALUE]. *)
Record KeyObject := MkKey { o_label : string; o_id : list Byte.byte; o_value : list Byte.byte }.

(** What a session is doing: nothing, a search with the handles still to be
    returned, or a cryptographic operation under a key and an IV. *)
Inductive Activity := Idle | Finding (left : list N)
  | Encrypting (oh : N) (iv : list Byte.byte) | Decrypting (oh : N) (iv : list Byte.byte).

(** What the application sees of a token: its key objects, the key it will
    generate next, the application's open sessions with it, the login state
    they share, and what each session is doing. *)
Class TokenState (T : Type) := {
  objs : T → gmap N KeyObject;
  next_key : T → bytes;
  sessions : T → gset N;
  logged_in : T → bool;
  activity : T → N → Activity }.

Section Token.
Context {T : Type} `{TokenState T}.
Variables (ctx : Ctx T) (pin : string).

(** The sessions and the login state are as before. *)
Definition steady (t t' : T) : Prop := sessions t' = sessions t ∧ logged_in t' = logged_in t.

(** An open session of a logged-in user with no operation active. *)
Definition ready (t : T) (sh : N) : Prop :=
  sh ∈ sessions t ∧ logged_in t = true ∧ activity t sh = Idle.

Lemma ready_steady t t' sh : ready t sh → steady t t' → activity t' sh = Idle → ready t' sh.
Proof. intros (? & ? & _) [E1 E2] ?. unfold ready. by rewrite E1, E2. Qed.

(** The functions of the standard the service calls.  The login state belongs to
    the application and not to a session: [C_Login] in any session fails with
    CKR_USER_ALREADY_LOGGED_IN once one has logged in, until [C_Logout] or until
    the last session is closed.  [C_FindObjects] hands out each match of its
    search once, at least one per call while there are any left.  Keys are
    private objects, so the object functions are described for a logged-in
    session, in the phase the standard requires. *)
Class HonestToken := {
  next_key_length t : length (next_key t) = 32%nat;
  login_needs_session t : logged_in t = true → sessions t ≠ ∅;
  open_law slot t : let op := OpenSession ctx slot session_flags in let t' := run_state op t in
    ∃ sh, run_val op t = POk sh ∧ (sh ∉ sessions t) ∧ sessions t' = {[sh]} ∪ sessions t ∧
      logged_in t' = logged_in t ∧ activity t' sh = Idle ∧ objs t' = objs t ∧ next_key t' = next_key t;
  login_law sh t : sh ∈ sessions t →
    let op := Login ctx sh CKU_USER pin in let t' := run_state op t in
    sessions t' = sessions t ∧ activity t' sh = activity t sh ∧ objs t' = objs t ∧
    next_key t' = next_key t ∧ logged_in t' = true ∧
    if logged_in t then ∃ e, run_val op t = Some e ∧ p_code e = CKR_USER_ALREADY_LOGGED_IN
    else run_val op t = None;
  logout_law sh t : let t' := run_state (Logout ctx sh) t in
    objs t' = objs t ∧ (sh ∈ sessions t → sessions t' = sessions t ∧ logged_in t' = false);
  close_law sh t : let t' := run_state (CloseSession ctx sh) t in
    objs t' = objs t ∧ next_key t' = next_key t ∧
    (sh ∈ sessions t → sessions t' = sessions t ∖ {[sh]} ∧
       logged_in t' = (logged_in t && bool_decide (sessions t' ≠ ∅)));
  find_init_law sh label t : ready t sh →
    let op := FindObjectsInit ctx sh
      [(CKA_CLASS, CKO_SECRET_KEY); (CKA_KEY_TYPE, CKK_AES); (CKA_LABEL, VStr label)] in
    let t' := run_state op t in
    run_val op t = None ∧ steady t t' ∧ objs t' = objs t ∧ ∃ hits, activity t' sh = Finding hits ∧
      ∀ oh, oh ∈ hits ↔ ∃ o, objs t !! oh = Some o ∧ o_label o = label;
  find_law sh left n t : sh ∈ sessions t → activity t sh = Finding left → 0 < n →
    let op := FindObjects ctx sh n in let t' := run_state op t in
    steady t t' ∧ objs t' = objs t ∧ ∃ hits rest more, run_val op t = POk (hits, more) ∧
      left = hits ++ rest ∧ Z.of_nat (length hits) ≤ n ∧ (hits = [] → left = []) ∧
      activity t' sh = Finding rest;
  find_final_law sh left t : sh ∈ sessions t → activity t sh = Finding left →
    let t' := run_state (FindObjectsFinal ctx sh) t in
    steady t t' ∧ objs t' = objs t ∧ activity t' sh = Idle;
  generate_law sh label nonce t : ready t sh →
    let op := GenerateKey ctx sh [CKM_AES_KEY_GEN] (key_template label nonce) in
    let t' := run_state op t in
    ∃ oh, run_val op t = POk oh ∧ objs t !! oh = None ∧ steady t t' ∧ activity t' sh = Idle ∧
      objs t' = <[oh := MkKey label nonce (next_key t)]> (objs t);
  get_both_law sh oh o t : ready t sh → objs t !! oh = Some o →
    let op := GetAttributeValue ctx sh oh [(CKA_VALUE, VNil); (CKA_ID, VNil)] in
    let t' := run_state op t in
    run_val op t = POk [(CKA_VALUE, o_value o); (CKA_ID, o_id o)] ∧ steady t t' ∧
    activity t' sh = Idle ∧ objs t' = objs t;
  get_id_law sh oh o t : ready t sh → objs t !! oh = Some o →
    let op := GetAttributeValue ctx sh oh [(CKA_ID, VNil)] in let t' := run_state op t in
    run_val op t = POk [(CKA_ID, o_id o)] ∧ steady t t' ∧ activity t' sh = Idle ∧ objs t' = objs t;
  set_label_law sh oh o label t : ready t sh → objs t !! oh = Some o →
    let op := SetAttributeValue ctx sh oh [(CKA_LABEL, VStr label)] in let t' := run_state op t in
    run_val op t = None ∧ steady t t' ∧ activity t' sh = Idle ∧
    objs t' = <[oh := MkKey label (o_id o) (o_value o)]> (objs t);
  encrypt_init_law sh oh o nonce t : ready t sh → objs t !! oh = Some o →
    let op := EncryptInit ctx sh (gcm_mech nonce) oh in let t' := run_state op t in
    run_val op t = None ∧ steady t t' ∧ activity t' sh = Encrypting oh nonce ∧ objs t' = objs t;
  encrypt_law sh oh o nonce pt t :
    sh ∈ sessions t → activity t sh = Encrypting oh nonce → objs t !! oh = Some o →
    let op := Encrypt ctx sh pt in let t' := run_state op t in
    run_val op t = POk (gcm_seal (aes_block (o_value o)) nonce pt) ∧
    steady t t' ∧ activity t' sh = Idle ∧ objs t' = objs t;
  decrypt_init_law sh oh o nonce t : ready t sh → objs t !! oh = Some o →
    let op := DecryptInit ctx sh (gcm_mech nonce) oh in let t' := run_state op t in
    run_val op t = None ∧ steady t t' ∧ activity t' sh = Decrypting oh nonce ∧ objs t' = objs t;
  decrypt_law sh oh o nonce ct t :
    sh ∈ sessions t → activity t sh = Decrypting oh nonce → objs t !! oh = Some o →
    let op := p11_Decrypt ctx sh ct in let t' := run_state op t in
    steady t t' ∧ activity t' sh = Idle ∧ objs t' = objs t ∧
    match gcm_open (aes_block (o_value o)) nonce ct with
    | Some pt => run_val op t = POk pt
    | None => ∃ e, run_val op t = PErr e
    end;
  destroy_law sh oh o t : ready t sh → objs t !! oh = Some o →
    let op := DestroyObject ctx sh oh in let t' := run_state op t in
    run_val op t = None ∧ steady t t' ∧ activity t' sh = Idle ∧ objs t' = delete oh (objs t) }.
End Token.

Section Contract.
Context `{SDK} `{Diag} {G T : Type} `{ArtifactSDK (G * Module T)}.
Context `{!ArtifactSDKLaws (G * Module T)} `{!QuietSDK} `{TokenState T}.
Variables (ctx : Ctx T) (cfg : PKCS11Config) (slotID : N).
Context `{!HonestToken ctx (Pin cfg)}.

(** Whether or not the user is logged in already, the session is. *)
Lemma openSession_run t : ∃ sh,
  run_val (openSession ctx cfg slotID) t = Ok sh ∧
  ready (run_state (openSession ctx cfg slotID) t) sh ∧
  objs (run_state (openSession ctx cfg slotID) t) = objs t ∧
  next_key (run_state (openSession ctx cfg slotID) t) = next_key t.
Proof.
  destruct (open_law ctx (Pin cfg) slotID t) as (sh & Hv & Hnew & Hss & Hl & Ha & Ho & Hk).
  unfold openSession. run. rewrite Hv. run. set (t1 := run_state (OpenSession _ _ _) t) in *.
  assert (sh ∈ sessions t1) as Hin by set_solver.
  destruct (login_law ctx (Pin cfg) sh t1 Hin) as (Hss2 & Ha2 & Ho2 & Hk2 & Hl2 & Hv2).
  set (t2 := run_state (Login _ _ _ _) t1) in *. rewrite Hl in Hv2. destruct (logged_in t) eqn:Hlog.
  - destruct Hv2 as (e & -> & Hc). run.
    destruct (close_law ctx (Pin cfg) sh t2) as (Ho3 & Hk3 & Hss3).
    set (t3 := run_state (CloseSession _ _) t2) in *. rewrite Hc. run.
    destruct Hss3 as [Hss3 Hl3]; [by rewrite Hss2|].
    pose proof (login_needs_session ctx (Pin cfg) t Hlog) as Hne.
    assert (sessions t3 = sessions t) as E3 by (rewrite Hss3, Hss2, Hss; set_solver).
    destruct (open_law ctx (Pin cfg) slotID t3) as (sh' & -> & Hnew4 & Hss4 & Hl4 & Ha4 & Ho4 & Hk4).
    exists sh'. split; [done|]. split; [|split; congruence]. split; [set_solver|]. split; [|done].
    rewrite Hl4, Hl3, Hl2. cbn [andb]. apply bool_decide_eq_true_2. by rewrite E3.
  - rewrite Hv2. run. exists sh. split; [done|]. split; [|split; congruence].
    split; [by rewrite Hss2|]. split; [done|]. by rewrite Ha2.
Qed.

Lemma session_Close_run sh t : objs (run_state (session_Close ctx sh) t) = objs t.
Proof.
  unfold session_Close. run. destruct (logout_law ctx (Pin cfg) sh t) as [<- _].
  apply (close_law ctx (Pin cfg)).
Qed.

Lemma findKey_run sh label t : ready t sh →
  ready (run_state (findKeyByLabel ctx sh label) t) sh ∧
  objs (run_state (findKeyByLabel ctx sh label) t) = objs t ∧
  ((∃ oh o, run_val (findKeyByLabel ctx sh label) t = Ok oh ∧ objs t !! oh = Some o ∧ o_label o = label) ∨
   run_val (findKeyByLabel ctx sh label) t = Err errPKCS11NotFound ∧
   ∀ oh o, objs t !! oh = Some o → o_label o ≠ label).
Proof.
  intros Hr. pose proof Hr as (Hin & Hlog & _).
  destruct (find_init_law ctx (Pin cfg) sh label t Hr) as (Hv & [S1 L1] & Ho & hits & Ha & Hh).
  unfold findKeyByLabel. run. rewrite Hv. run. set (t1 := run_state (FindObjectsInit _ _ _) t) in *.
  destruct (find_law ctx (Pin cfg) sh hits 1 t1) as ([S2 L2] & Ho2 & got & rest & more & Hv2 & Hsplit & _ & Hnil & Ha2);
    [by rewrite S1|done|done|].
  set (t2 := run_state (FindObjects _ _ _) t1) in *.
  destruct (find_final_law ctx (Pin cfg) sh rest t2) as ([S3 L3] & Ho3 & Ha3); [by rewrite S2, S1|done|].
  rewrite Hv2. split; [split; [by rewrite S3, S2, S1|split; [by rewrite L3, L2, L1|done]]|].
  split; [congruence|]. destruct got as [|oh got].
  - right. split; [done|]. intros oh o Hoh Hl. rewrite (Hnil eq_refl) in Hh.
    apply (elem_of_nil oh), Hh. by exists o.
  - left. destruct (proj1 (Hh oh)) as (o & Hoh & Hl); [rewrite Hsplit; by left|]. eauto.
Qed.

(** A session around a body that leaves the module open. *)
Lemma with_session_run {A} (fail : error → A) (body : N → M ((G * Module T) * Proc) A) s :
  ∃ sh t1, ready t1 sh ∧ objs t1 = objs (hsm s.1.2) ∧ next_key t1 = next_key (hsm s.1.2) ∧
    let s1 := ((s.1.1, MkModule t1 (ctx_open s.1.2)), s.2) in
    let s' := run_state (with_session ctx cfg slotID fail body) s in
    run_val (with_session ctx cfg slotID fail body) s = run_val (body sh) s1 ∧
    objs (hsm s'.1.2) = objs (hsm (run_state (body sh) s1).1.2) ∧
    ctx_open s'.1.2 = ctx_open (run_state (body sh) s1).1.2.
Proof.
  destruct (openSession_run (hsm s.1.2)) as (sh & Hv & Hr & Ho & Hk).
  exists sh, (run_state (openSession ctx cfg slotID) (hsm s.1.2)). do 3 (split; [done|]).
  intros s1 s'. subst s'. unfold with_session. prun. rewrite Hv. prun. fold s1.
  cbn [hsm ctx_open]. by rewrite session_Close_run.
Qed.

Lemma when_open_run {A} (fail : error → A) (body : M ((G * Module T) * Proc) A) s :
  ctx_open s.1.2 = true →
  run_val (when_open fail body) s = run_val body s ∧ run_state (when_open fail body) s = run_state body s.
Proof.
  intros Hc. unfold when_open. prun. destruct (run_checkOpen s.1 Hc) as [-> ->].
  by destruct s.
Qed.

(** ** The objects hold the keyring *)

Definition label_of (l : bytes) : string := KeyLabelPrefix cfg +:+ hex_EncodeToString l.

Lemma label_of_inj l l' : label_of l = label_of l' → l = l'.
Proof. by intros E%(inj (String.append _))%(inj hex_EncodeToString). Qed.

(** The transient label is no artifact's. *)
(** One object per key, carrying the key and its nonce; none for other
    digests. *)
Definition obj_holds (O : gmap N KeyObject) (m : keyring) : Prop := ∀ l : bytes,
  match m !! hex_EncodeToString l with
  | Some (key, nonce) =>
      length key = 32%nat ∧ length nonce = 12%nat ∧
      ∃ oh, O !! oh = Some (MkKey (label_of l) nonce key) ∧
        ∀ oh' o, O !! oh' = Some o → o_label o = label_of l → oh' = oh
  | None => ∀ oh o, O !! oh = Some o → o_label o ≠ label_of l
  end.

Definition p11_holds (w : G * Module T) (m : keyring) : Prop :=
  ctx_open w.2 = true ∧ obj_holds (objs (hsm w.2)) m.

Lemma obj_holds_insert O m oh l key nonce :
  obj_holds O m → O !! oh = None → m !! hex_EncodeToString l = None →
  length key = 32%nat → length nonce = 12%nat →
  obj_holds (<[oh := MkKey (label_of l) nonce key]> O) (<[hex_EncodeToString l := (key, nonce)]> m).
Proof.
  intros Hh Ho Hm Hk Hn l'. pose proof (Hh l') as Hl'.
  destruct (decide (l' = l)) as [->|Hne].
  - rewrite lookup_insert_eq. rewrite Hm in Hl'. split; [done|]. split; [done|].
    exists oh. rewrite lookup_insert_eq. split; [done|]. intros oh' o Hoh Hlab.
    destruct (decide (oh' = oh)) as [|Hne]; [done|]. rewrite lookup_insert_ne in Hoh by done.
    by destruct (Hl' oh' o Hoh).
  - rewrite lookup_insert_ne by by intros ->%(inj hex_EncodeToString).
    destruct (m !! hex_EncodeToString l') as [[key' nonce']|].
    + destruct Hl' as (? & ? & oh' & Hoh' & Hu). do 2 (split; [done|]). exists oh'.
      rewrite lookup_insert_ne by congruence. split; [done|]. intros oh2 o2 H2' Hlab.
      apply lookup_insert_Some in H2' as [[-> <-]|[_ H2']]; [|eauto].
      by apply label_of_inj in Hlab.
    + intros oh2 o2 [[-> <-]|[_ H2']]%lookup_insert_Some; [|eauto].
      by intros ->%label_of_inj.
Qed.

Lemma obj_holds_delete O m oh o l :
  obj_holds O m → O !! oh = Some o → o_label o = label_of l →
  obj_holds (delete oh O) (delete (hex_EncodeToString l) m).
Proof.
  intros Hh Ho Hlab l'. pose proof (Hh l') as Hl'.
  destruct (decide (l' = l)) as [->|Hne].
  - rewrite lookup_delete_eq. intros oh' o' [Hn Ho']%lookup_delete_Some Hlab'.
    destruct (m !! hex_EncodeToString l) as [[key nonce]|].
    + destruct Hl' as (_ & _ & oh0 & _ & Hu). apply Hn. by rewrite (Hu oh o), (Hu oh' o').
    + by destruct (Hl' _ _ Ho').
  - rewrite lookup_delete_ne by by intros ->%(inj hex_EncodeToString).
    destruct (m !! hex_EncodeToString l') as [[key' nonce']|].
    + destruct Hl' as (? & ? & oh' & Hoh' & Hu). do 2 (split; [done|]). exists oh'.
      rewrite lookup_delete_ne; [|by intros ->; rewrite Hoh' in Ho; injection Ho as <-; apply label_of_inj in Hlab].
      split; [done|]. intros oh2 o2 [_ ?]%lookup_delete_Some. eauto.
    + intros oh2 o2 [_ ?]%lookup_delete_Some. eauto.
Qed.

Lemma obj_holds_delete_absent O m l :
  obj_holds O m → (∀ oh o, O !! oh = Some o → o_label o ≠ label_of l) →
  obj_holds O (delete (hex_EncodeToString l) m).
Proof.
  intros Hh Ha l'. destruct (decide (l' = l)) as [->|Hne]; [by rewrite lookup_delete_eq|].
  rewrite lookup_delete_ne by by intros ->%(inj hex_EncodeToString). apply Hh.
Qed.

(** ** The service implements the keyring *)

(** Finding an artifact's key in a ready session. *)
Lemma findKey_holds sh l t m : ready t sh → obj_holds (objs t) m →
  let op := findKeyByLabel ctx sh (label_of l) in
  ready (run_state op t) sh ∧ objs (run_state op t) = objs t ∧
  match m !! hex_EncodeToString l with
  | Some (key, nonce) => ∃ oh, run_val op t = Ok oh ∧ objs t !! oh = Some (MkKey (label_of l) nonce key)
  | None => run_val op t = Err errPKCS11NotFound
  end.
Proof.
  intros Hr Hh op. destruct (findKey_run sh (label_of l) t Hr) as (Hr' & Ho & Hf).
  split; [done|]. split; [done|]. specialize (Hh l).
  destruct (m !! hex_EncodeToString l) as [[key nonce]|].
  - destruct Hh as (_ & _ & oh & Hoh & Hu). destruct Hf as [(oh' & o & Hv & Ho' & Hl)|[_ Hn]].
    + rewrite (Hu oh' o Ho' Hl) in Hv. eauto.
    + by destruct (Hn oh _ Hoh).
  - destruct Hf as [(oh & o & _ & Ho' & Hl)|[Hv _]]; [by destruct (Hh oh o Ho')|done].
Qed.

(** The session body of [GenerateAndEncrypt]. *)
Lemma generate_in_run pt nonce sh (s : (G * Module T) * Proc) m :
  let t := hsm s.1.2 in let key := next_key t in
  let ct := gcm_seal (aes_block key) nonce pt in
  let op := generate_in ctx cfg pt nonce sh in
  ready t sh → obj_holds (objs t) m → length nonce = 12%nat →
  m !! key_id (Compute ct) = None →
  run_val op s = Ok (Compute ct, ct) ∧ ctx_open (run_state op s).1.2 = ctx_open s.1.2 ∧
  obj_holds (objs (hsm (run_state op s).1.2)) (<[key_id (Compute ct) := (key, nonce)]> m).
Proof.
  intros t key ct op Hr Hh Hl Hfresh. subst op. unfold generate_in.
  set (tmp := KeyLabelPrefix cfg +:+ "tmp-" +:+ hex_EncodeToString nonce).
  destruct (generate_law ctx (Pin cfg) sh tmp nonce t Hr) as (oh & Hg & Hnone & St2 & Ha2 & Ho2).
  pose proof (ready_steady _ _ _ Hr St2 Ha2) as Hr2.
  unfold generateAESKey, gcmEncrypt. prun. fold t. rewrite Hg. prun. cbn [hsm ctx_open].
  set (t2 := run_state (GenerateKey _ _ _ _) t) in *. fold key in Ho2.
  assert (objs t2 !! oh = Some (MkKey tmp nonce key)) as Hoh by by rewrite Ho2, lookup_insert_eq.
  destruct (encrypt_init_law ctx (Pin cfg) sh oh _ nonce t2 Hr2 Hoh) as (He & [S3 L3] & Henc & Ho3).
  rewrite He. prun. set (t3 := run_state (EncryptInit _ _ _ _) t2) in *. rewrite <- Ho3 in Hoh.
  destruct (encrypt_law ctx (Pin cfg) sh oh (MkKey tmp nonce key) nonce pt t3) as (He2 & [S4 L4] & Ha4 & Ho4);
    [rewrite S3; apply Hr2|done|exact Hoh|].
  rewrite He2. prun. cbn [hsm ctx_open o_value]. fold ct.
  set (t4 := run_state (Encrypt _ _ _) t3) in *. rewrite <- Ho4 in Hoh.
  assert (ready t4 sh) as Hr4 by (eapply (ready_steady t2); [done|split; congruence|done]).
  destruct (set_label_law ctx (Pin cfg) sh oh _ (keyLabel cfg (Compute ct)) t4 Hr4 Hoh) as (Hsl & _ & _ & Ho5).
  rewrite Hsl. prun. cbn [hsm ctx_open]. split; [done|]. split; [done|].
  rewrite Ho5, Ho4, Ho3, Ho2, insert_insert_eq. cbn [o_id o_value].
  apply obj_holds_insert; [done..|apply (next_key_length ctx (Pin cfg))|done].
Qed.

(** The key the token makes next, and the nonce the process reads next. *)
Definition p11_draw (w : G * Module T) : bytes * bytes :=
  (next_key (hsm w.2), read_or_nil (ReadFull NonceSize) w).

Lemma p11_generate_spec pt s m key nonce :
  p11_holds s.1 m → p11_draw s.1 = (key, nonce) → ∃ ct,
  aesGCMSeal key nonce pt = Ok ct ∧
  (m !! key_id (Compute ct) = None →
    run_val (p11_GenerateAndEncrypt ctx cfg slotID pt) s = Ok (Compute ct, ct) ∧
    p11_holds (run_state (p11_GenerateAndEncrypt ctx cfg slotID pt) s).1
      (<[key_id (Compute ct) := (key, nonce)]> m)).
Proof.
  intros [Hc Hh] [= <- <-]. destruct (quiet_rand NonceSize s.1) as (nonce & Hn & Hl).
  assert (read_or_nil (ReadFull NonceSize) s.1 = nonce) as -> by (unfold read_or_nil; by rewrite Hn).
  rewrite NonceSize_12 in Hl. set (key := next_key (hsm s.1.2)).
  assert (length key = 32%nat) as Hk by apply (next_key_length ctx (Pin cfg)).
  exists (gcm_seal (aes_block key) nonce pt). split; [by apply aesGCMSeal_32|]. intros Hfresh.
  unfold p11_GenerateAndEncrypt.
  match goal with |- context [when_open Err ?b] => destruct (when_open_run Err b s Hc) as [-> ->] end.
  prun. rewrite Hn. set (s0 := (run_state (ReadFull NonceSize) s.1, s.2)).
  destruct (with_session_run Err (generate_in ctx cfg pt nonce) s0) as (sh & t1 & Hr & Ho & Hnk & Hv & Hos & Hop).
  unfold s0 in Ho, Hnk. cbn [fst snd] in Ho, Hnk. rewrite quiet_rand_state in Ho, Hnk. fold key in Hnk.
  set (s1 := ((s0.1.1, MkModule t1 (ctx_open s0.1.2)), s0.2)) in *.
  destruct (generate_in_run pt nonce sh s1 m) as (Hv1 & Hc1 & Hh1); cbn [s1 fst snd hsm] in *.
  1: done. 1: by rewrite Ho. 1: done. 1: by rewrite Hnk.
  fold s1 in Hv1, Hc1, Hh1. rewrite Hnk in *. rewrite Hv, Hv1. split; [done|].
  split; [|by rewrite Hos]. rewrite Hop, Hc1. unfold s0. cbn [fst snd]. by rewrite quiet_rand_state.
Qed.

(** An operation that runs in a session of its own and whose body, in any ready
    session, satisfies a specification and leaves the objects as [m'] says. *)
Lemma in_session {A} (fail : error → A) (body : N → M ((G * Module T) * Proc) A) s m m' (P : A → Prop) :
  p11_holds s.1 m →
  (∀ sh s1, ready (hsm s1.1.2) sh → p11_holds s1.1 m →
    P (run_val (body sh) s1) ∧ p11_holds (run_state (body sh) s1).1 m') →
  let op := when_open fail (with_session ctx cfg slotID fail body) in
  P (run_val op s) ∧ p11_holds (run_state op s).1 m'.
Proof.
  intros [Hc Hh] Hb op. subst op.
  destruct (when_open_run fail (with_session ctx cfg slotID fail body) s Hc) as [-> ->].
  destruct (with_session_run fail body s) as (sh & t1 & Hr & Ho & _ & Hv & Hos & Hop).
  set (s1 := ((s.1.1, MkModule t1 (ctx_open s.1.2)), s.2)) in *.
  destruct (Hb sh s1 Hr) as [HP [Hc1 Hh1]]; [split; [done|]; cbn [s1 fst snd hsm]; by rewrite Ho|].
  rewrite Hv. split; [done|]. split; [by rewrite Hop|by rewrite Hos].
Qed.

(** [artifact_key] in a ready session. *)
Lemma artifact_key_run sh c (s : (G * Module T) * Proc) m :
  ready (hsm s.1.2) sh → p11_holds s.1 m →
  let op := artifact_key ctx cfg sh c in
  let s' := run_state op s in
  ready (hsm s'.1.2) sh ∧ p11_holds s'.1 m ∧ s'.2 = s.2 ∧
  match m !! key_id c with
  | Some (key, nonce) => ∃ oh, run_val op s = Ok oh ∧
      objs (hsm s'.1.2) !! oh = Some (MkKey (keyLabel cfg c) nonce key)
  | None => run_val op s = Err (sdk_err ErrKeyNotFound)
  end.
Proof.
  intros Hr [Hc Hh] op s'. subst s' op. unfold artifact_key. prun. cbn [hsm ctx_open].
  destruct (findKey_holds sh (Digest c) (hsm s.1.2) m Hr Hh) as (Hr' & Ho & Hv).
  change (keyLabel cfg c) with (label_of (Digest c)). split; [done|].
  split; [split; [done|]; cbn [snd hsm]; by rewrite Ho|]. split; [done|]. rewrite Ho. unfold key_id.
  destruct (m !! hex_EncodeToString (Digest c)) as [[key nonce]|].
  - destruct Hv as (oh & -> & Hoh). eauto.
  - by rewrite Hv.
Qed.

Lemma holds_lengths w m c key nonce :
  p11_holds w m → m !! key_id c = Some (key, nonce) → length key = 32%nat ∧ length nonce = 12%nat.
Proof. intros [_ Hh] Hm. specialize (Hh (Digest c)). unfold key_id in Hm. rewrite Hm in Hh. naive_solver. Qed.

Lemma decrypt_in_run c ct sh (s : (G * Module T) * Proc) m :
  ready (hsm s.1.2) sh → p11_holds s.1 m →
  decrypt_spec m c ct (run_val (decrypt_in ctx cfg c ct sh) s) ∧
  p11_holds (run_state (decrypt_in ctx cfg c ct sh) s).1 m.
Proof.
  intros Hr HR. destruct (artifact_key_run sh c s m Hr HR) as (Hr1 & HR1 & _ & Hv).
  unfold decrypt_in, decrypt_spec. run. set (s1 := run_state (artifact_key ctx cfg sh c) s) in *.
  destruct (m !! key_id c) as [[key nonce]|] eqn:Em.
  - destruct (holds_lengths _ _ _ _ _ HR Em) as [Hk Hn].
    destruct Hv as (oh & -> & Hoh). unfold gcmDecrypt. prun. pose proof HR1 as [Hc1 Hh1].
    destruct (get_id_law ctx (Pin cfg) sh oh _ _ Hr1 Hoh) as (-> & St2 & Ha2 & Ho2). prun.
    pose proof (ready_steady _ _ _ Hr1 St2 Ha2) as Hr2.
    cbn [attr_of foldl fst snd]. rewrite decide_True by done.
    unfold blen. cbn [o_id]. rewrite Hn, NonceSize_12. change (negb (Z.of_nat 12 =? Z.of_nat 12)) with false.
    cbv iota. prun. cbn [hsm ctx_open]. set (t2 := run_state (GetAttributeValue _ _ _ _) _) in *.
    rewrite <- Ho2 in Hoh. destruct (decrypt_init_law ctx (Pin cfg) sh oh _ nonce t2 Hr2 Hoh) as (-> & [S3 _] & Hd3 & Ho3).
    prun. set (t3 := run_state (DecryptInit _ _ _ _) _) in *. rewrite <- Ho3 in Hoh.
    destruct (decrypt_law ctx (Pin cfg) sh oh (MkKey (keyLabel cfg c) nonce key) nonce ct t3) as (_ & _ & Ho4 & Hres);
      [rewrite S3; apply Hr2|done|exact Hoh|]. cbn [o_value] in Hres.
    split; [|split; [done|]; cbn [snd hsm]; by rewrite Ho4, Ho3, Ho2].
    unfold aesGCMOpen. rewrite aes_NewCipher_32 by done. cbn [mbind Result_bind]. unfold blen. rewrite Hn.
    change (negb (Z.of_nat 12 =? gcm_NonceSize)) with false. cbv iota.
    destruct (gcm_open (aes_block key) nonce ct) as [pt|]; [by rewrite Hres|].
    destruct Hres as (e & ->). eexists. split; [done|]. rewrite errors_Is_wrapf. apply errors_Is_sdk_err.
  - rewrite Hv. run. split; [|done]. eexists. split; [done|]. apply errors_Is_sdk_err.
Qed.

Lemma wrap_in_run c pub pk sh (s : (G * Module T) * Proc) m :
  recipient pub = Ok pk → ready (hsm s.1.2) sh → p11_holds s.1 m →
  wrap_spec p11_holds m c pub (run_val (wrap_in ctx cfg c pk sh) s) ∧
  p11_holds (run_state (wrap_in ctx cfg c pk sh) s).1 m.
Proof.
  intros Hp Hr HR. destruct (artifact_key_run sh c s m Hr HR) as (Hr1 & HR1 & _ & Hv).
  unfold wrap_in, wrap_spec. rewrite Hp. run.
  set (s1 := run_state (artifact_key ctx cfg sh c) s) in *. pose proof HR1 as [Hc1 Hh1].
  destruct (m !! key_id c) as [[key nonce]|] eqn:Em.
  - destruct (holds_lengths _ _ _ _ _ HR Em) as [Hk Hn].
    destruct Hv as (oh & -> & Hoh). unfold readKeyMaterial. prun.
    destruct (get_both_law ctx (Pin cfg) sh oh _ _ Hr1 Hoh) as (-> & _ & _ & Ho2). prun.
    cbn [o_id o_value].
    change (attr_of CKA_VALUE [(CKA_VALUE, key); (CKA_ID, nonce)]) with key.
    change (attr_of CKA_ID [(CKA_VALUE, key); (CKA_ID, nonce)]) with nonce.
    unfold blen. rewrite Hk, Hn. change ((Z.of_nat 32 =? 0) || (Z.of_nat 12 =? 0)) with false.
    cbv iota. prun. set (w2 := (_, MkModule _ _)).
    assert (p11_holds w2 m) as HR2 by (split; [done|]; cbn [w2 snd hsm]; by rewrite Ho2).
    rewrite lookup_wiped. split.
    + by eexists w2, _.
    + unfold p11_holds. rewrite !quiet_ecies. exact HR2.
  - rewrite Hv. run. split; [|done]. eexists. split; [done|]. apply errors_Is_sdk_err.
Qed.

Lemma delete_in_run c sh (s : (G * Module T) * Proc) m :
  ready (hsm s.1.2) sh → p11_holds s.1 m →
  run_val (delete_in ctx cfg c sh) s = None ∧
  p11_holds (run_state (delete_in ctx cfg c sh) s).1 (delete (key_id c) m).
Proof.
  intros Hr [Hc Hh]. unfold delete_in, destroyKey. prun. cbn [hsm ctx_open].
  change (keyLabel cfg c) with (label_of (Digest c)).
  destruct (findKey_run sh (label_of (Digest c)) (hsm s.1.2) Hr) as (Hr1 & Ho1 & [(oh & o & -> & Hoh & Hl)|[-> Hn]]);
    prun; cbn [hsm ctx_open].
  - set (t1 := run_state (findKeyByLabel _ _ _) _) in *. rewrite <- Ho1 in Hoh.
    destruct (destroy_law ctx (Pin cfg) sh oh o t1 Hr1 Hoh) as (-> & _ & _ & Ho2). split; [done|].
    split; [done|]. cbn [snd hsm]. rewrite Ho2. eapply obj_holds_delete; [by rewrite Ho1|done..].
  - split; [done|]. split; [done|]. cbn [snd hsm]. rewrite Ho1. by apply obj_holds_delete_absent.
Qed.

Lemma p11_contract : KeyContract (PKCS11 ctx cfg slotID) p11_holds p11_draw.
Proof.
  constructor.
  - intros. by apply p11_generate_spec.
  - intros c ct s m HR. by apply (in_session _ _ _ m m (decrypt_spec m c ct));
      [|intros; apply decrypt_in_run].
  - intros c pub s m HR. cbn [WrapForRecipient PKCS11]. unfold p11_WrapForRecipient.
    destruct (recipient pub) as [pk|e] eqn:Ep.
    + apply (in_session _ _ _ m m (wrap_spec p11_holds m c pub)); [done|]. intros. by apply wrap_in_run.
    + run. split; [|done]. by apply wrap_spec_invalid.
  - intros c s m HR. apply (in_session _ _ _ m _ (λ r, r = None)); [done|]. intros. by apply delete_in_run.
  - by exists p11_tag.
Qed.

(** C30. The PKCS#11 key service implements the key-service contract over any
    token that behaves as the standard says, with the login state shared by the
    application's sessions and each match of a search handed out once: while the module is open and the
    token has no artifact keys it holds the empty keyring, and each of the
    five operations behaves, for every plaintext, CID and state, as the
    keyring says. *)
Theorem pkcs11_conformance :
  (∀ w, ctx_open w.2 = true → objs (hsm w.2) = ∅ → p11_holds w ∅) ∧
  KeyContract (PKCS11 ctx cfg slotID) p11_holds p11_draw.
Proof.
  split; [|apply p11_contract]. intros w Hc Ho. split; [done|]. rewrite Ho. intros l.
  rewrite lookup_empty. intros oh o. by rewrite lookup_empty.
Qed.
End Contract.
