(* ===== verification/Gcs.v ===== *)
(** * backends/gcs.go: the Google Cloud Storage backend

    The JSON-API requests each operation sends and how each response status is
    read, over an arbitrary HTTP client, token source and URL signer. *)

From Stdlib Require Import Ascii.
From S2P Require Import Prelude GoStrings Json Url Storage Http Backends Reference Fakes.

Open Scope Z_scope.

Record GCSConfig (S : Type) := MkGCS {
  Bucket : string;
  Prefix : string;
  TokenFunc : option (M S (Result string));
  (* URLSigner.SignURL(bucket, object, expiry), at the time it is called *)
  URLSigner : option (Z → string → string → Z → Result string);
  BaseURL : string }.
Arguments Bucket {S} _.
Arguments Prefix {S} _.
Arguments TokenFunc {S} _.
Arguments URLSigner {S} _.
Arguments BaseURL {S} _.

Section GCS.
Context `{SDK} {S : Type}.
Variables (client : Client S) (cfg : GCSConfig S).

Definition baseURL : string :=
  if negb (String.eqb (BaseURL cfg) "") then BaseURL cfg else "https://storage.googleapis.com".

Definition objectPath (c : CID) : string := Prefix cfg +:+ CID_String c.

Definition apiURL (object : string) : string :=
  baseURL +:+ "/upload/storage/v1/b/" +:+ Bucket cfg +:+ "/o?uploadType=media&name="
  +:+ QueryEscape object.

Definition objectURL (object : string) : string :=
  baseURL +:+ "/storage/v1/b/" +:+ Bucket cfg +:+ "/o/" +:+ PathEscape object.

Definition mediaURL (object : string) : string :=
  baseURL +:+ "/storage/v1/b/" +:+ Bucket cfg +:+ "/o/" +:+ PathEscape object +:+ "?alt=media".

(** The bearer token as a header list: none without a token source. *)
Definition authHeader : M S (Result (list (string * string))) :=
  match TokenFunc cfg with
  | None => mret (Ok [])
  | Some token =>
      r ← token;
      mret match r with
           | Err e => Err (wrapf "gcs: get token: " e "")
           | Ok t => Ok [("Authorization", "Bearer " +:+ t)]
           end
  end.

(** What every operation does up to the response: build the request, authorize
    it, send it. *)
Definition gcs_call (op method url : string) (hdr : list (string * string)) (body : bytes)
    : M S (Result HttpResp) :=
  match url_err client url with
  | Some e => mret (Err (wrapf ("gcs/" +:+ op +:+ ": ") e ""))
  | None =>
      auth ← authHeader;
      match auth with
      | Err e => mret (Err e)
      | Ok a =>
          resp ← Do client (MkReq method url (hdr ++ a) body);
          mret (map_err (λ e, wrapf ("gcs/" +:+ op +:+ ": ") e "") resp)
      end
  end.

(** [fmt.Errorf("gcs/op: HTTP %d: %s", code, body)]. *)
Definition gcs_status (op : string) (r : HttpResp) : error :=
  errors_New ("gcs/" +:+ op +:+ ": HTTP " +:+ Itoa (StatusCode r) +:+ ": " +:+ snippet r).

Definition gcs_Push (c : CID) (d : bytes) : M S (option error) :=
  r ← gcs_call "push" "POST" (apiURL (objectPath c)) [("Content-Type", "application/octet-stream")] d;
  mret match r with
       | Err e => Some e
       | Ok resp =>
           if (StatusCode resp =? StatusOK) || (StatusCode resp =? StatusCreated) then None
           else Some (gcs_status "push" resp)
       end.

Definition gcs_Fetch (c : CID) : M S (Result bytes) :=
  r ← gcs_call "fetch" "GET" (mediaURL (objectPath c)) [] [];
  mret match r with
       | Err e => Err e
       | Ok resp =>
           if StatusCode resp =? StatusNotFound then Err (sdk_err ErrContentNotFound)
           else if negb (StatusCode resp =? StatusOK) then Err (gcs_status "fetch" resp)
           else read_whole (h_RespBody resp)
       end.

Definition gcs_Exists (c : CID) : M S (Result bool) :=
  r ← gcs_call "exists" "GET" (objectURL (objectPath c)) [] [];
  mret match r with
       | Err e => Err e
       | Ok resp => Ok (StatusCode resp =? StatusOK)
       end.

(** The metadata patch that marks an object pinned. *)
Definition pin_body : string :=
  let q s := String "034" (s +:+ String "034" "") in
  "{" +:+ q "metadata" +:+ ":{" +:+ q "ortholog-pinned" +:+ ":" +:+ q "true" +:+ "}}".

Definition gcs_Pin (c : CID) : M S (option error) :=
  r ← gcs_call "pin" "PATCH" (objectURL (objectPath c)) [("Content-Type", "application/json")]
        (to_bytes pin_body);
  mret match r with
       | Err e => Some e
       | Ok resp =>
           if StatusCode resp =? StatusNotFound then Some (sdk_err ErrContentNotFound) else None
       end.

Definition gcs_Delete (c : CID) : M S (option error) :=
  r ← gcs_call "delete" "DELETE" (objectURL (objectPath c)) [] [];
  mret match r with
       | Err e => Some e
       | Ok resp =>
           if (StatusCode resp =? StatusOK) || (StatusCode resp =? StatusNoContent) then None
           else if StatusCode resp =? StatusNotFound then Some (sdk_err ErrContentNotFound)
           else Some (gcs_status "delete" resp)
       end.

Definition gcs_Resolve (now : Z) (c : CID) (expiry : Z) : M S (Result RetrievalCredential) :=
  mret match URLSigner cfg with
       | None => Err (errors_New "gcs/resolve: no URL signer configured")
       | Some sign =>
           match sign now (Bucket cfg) (objectPath c) expiry with
           | Err e => Err (wrapf "gcs/resolve: " e "")
           | Ok url => Ok (MkCred MethodSignedURL url (Some (now + expiry)))
           end
       end.

(** The request's construction error is ignored; a nil request panics, which
    stands here as an error of its own. *)
Definition gcs_Healthy : M S (option error) :=
  let url := baseURL +:+ "/storage/v1/b/" +:+ Bucket cfg in
  auth ← authHeader;
  match auth with
  | Err e => mret (Some e)
  | Ok a =>
      match url_err client url with
      | Some _ => mret (Some (errors_New "panic: nil *http.Request"))
      | None =>
          r ← Do client (MkReq "GET" url a []);
          mret match r with
               | Err e => Some (wrapf "gcs/health: " e "")
               | Ok resp =>
                   if StatusCode resp =? StatusOK then None
                   else Some (errors_New ("gcs/health: HTTP " +:+ Itoa (StatusCode resp)))
               end
      end
  end.

Definition GCSBackend : BackendProvider S := {|
  Push := gcs_Push; Fetch := gcs_Fetch; Pin := gcs_Pin; Exists := gcs_Exists;
  Delete := gcs_Delete; Resolve := gcs_Resolve; Healthy := gcs_Healthy |}.
End GCS.

(** ** Over the GCS fake *)

Section OverFake.
Context `{SDK}.
Variable cfg : GCSConfig Fake.

(** A bucket name of unreserved characters, a base URL, no token source. *)
Hypothesis bucket_plain : plain (Bucket cfg) = true.
Hypothesis base_set : BaseURL cfg ≠ "".
Hypothesis no_token : TokenFunc cfg = None.

Let client : Client Fake := gcs_fake (BaseURL cfg).

Lemma baseURL_set : baseURL cfg = BaseURL cfg.
Proof. unfold baseURL. by apply String.eqb_neq in base_set as ->. Qed.

Lemma bucket_free c : unreserved c = false → str_has c (Bucket cfg) = false.
Proof. intros Hc. by apply plain_free. Qed.

(** The object path unescapes to the object's name, whatever its characters. *)
Lemma object_unescape o :
  PathUnescape ("/storage/v1/b/" +:+ Bucket cfg +:+ "/o/" +:+ PathEscape o)
  = Some (storage_root +:+ Bucket cfg +:+ "/o/" +:+ o).
Proof.
  unfold PathUnescape. rewrite (unescape_app _ "/storage/v1/b/" _ storage_root) by reflexivity.
  rewrite (unescape_app _ (Bucket cfg) _ (Bucket cfg)) by (by apply plain_unescape).
  rewrite (unescape_app _ "/o/" _ "/o/") by reflexivity.
  fold PathUnescape. by rewrite PathUnescape_Escape.
Qed.

Lemma object_no_query o :
  str_has "?" ("/storage/v1/b/" +:+ Bucket cfg +:+ "/o/" +:+ PathEscape o) = false.
Proof. rewrite !str_has_app, bucket_free, PathEscape_free by done. done. Qed.

Lemma object_text o :
  url_text ("/storage/v1/b/" +:+ Bucket cfg +:+ "/o/" +:+ PathEscape o) = true.
Proof. by rewrite !url_text_app, (plain_url_text (Bucket cfg)), PathEscape_url_text. Qed.

Lemma target_object o :
  ∃ raw, parse_target (BaseURL cfg) (objectURL cfg o)
  = Some (storage_root +:+ Bucket cfg +:+ "/o/" +:+ o, raw, "").
Proof.
  eexists. unfold objectURL. rewrite baseURL_set.
  apply parse_target_path; [done|apply object_text|apply object_no_query|apply object_unescape].
Qed.

Lemma target_media o :
  ∃ raw, parse_target (BaseURL cfg) (mediaURL cfg o)
  = Some (storage_root +:+ Bucket cfg +:+ "/o/" +:+ o, raw, "alt=media").
Proof.
  eexists. unfold mediaURL. rewrite baseURL_set. change "?alt=media" with (String "?" "alt=media").
  rewrite <- (str_app_assoc _ _ (String "?" _)), <- (str_app_assoc _ _ (String "?" _)),
    <- (str_app_assoc _ _ (String "?" _)).
  apply parse_target_path_query;
    [done|apply object_text|apply object_no_query|done|apply object_unescape].
Qed.

Lemma Query_upload o :
  Get "name" (Query ("uploadType=media&name=" +:+ QueryEscape o)) = o.
Proof.
  assert (Split ("uploadType=media&name=" +:+ QueryEscape o) "&"
          = ["uploadType=media"; "name=" +:+ QueryEscape o]) as Hs.
  { change ("uploadType=media&name=" +:+ QueryEscape o)
      with ("uploadType=media" +:+ String "&" ("name=" +:+ QueryEscape o)).
    rewrite Split_app by done. rewrite Split_single; [done|].
    by rewrite str_has_app, QueryEscape_free. }
  unfold Query. rewrite Hs. cbn [omap list_omap].
  change (parse_setting "uploadType=media") with (Some ("uploadType", "media")).
  unfold parse_setting. rewrite str_has_app, QueryEscape_free by done.
  change ("name=" +:+ QueryEscape o) with ("name" +:+ String "=" (QueryEscape o)).
  rewrite IndexByte_app by done. change (str_has ";" "name=" || false) with false. cbv iota.
  change (String.eqb ("name" +:+ String "=" (QueryEscape o)) "") with false. cbv iota.
  change (len "name" <? 0) with false. cbv iota. change (Z.to_nat (len "name")) with 4%nat.
  change (str_take 4 ("name" +:+ String "=" (QueryEscape o))) with "name".
  change (str_drop (4 + 1) ("name" +:+ String "=" (QueryEscape o))) with (QueryEscape o).
  by rewrite QueryUnescape_Escape.
Qed.

Lemma target_upload o :
  ∃ raw, parse_target (BaseURL cfg) (apiURL cfg o)
  = Some (upload_root +:+ Bucket cfg +:+ "/o", raw, "uploadType=media&name=" +:+ QueryEscape o).
Proof.
  eexists. unfold apiURL. rewrite baseURL_set.
  change ("/o?uploadType=media&name=" +:+ QueryEscape o)
    with ("/o" +:+ String "?" ("uploadType=media&name=" +:+ QueryEscape o)).
  rewrite <- (str_app_assoc _ _ (String "?" _)), <- (str_app_assoc _ _ (String "?" _)).
  apply parse_target_path_query.
  - done.
  - by rewrite !url_text_app, (plain_url_text (Bucket cfg)).
  - by rewrite !str_has_app, bucket_free.
  - by rewrite url_text_app, QueryEscape_url_text.
  - unfold PathUnescape. rewrite (unescape_app _ "/upload/storage/v1/b/" _ upload_root) by reflexivity.
    by rewrite (unescape_app _ (Bucket cfg) _ (Bucket cfg)) by (by apply plain_unescape).
Qed.
Lemma gcs_call_fake op method url hdr body f path raw query :
  parse_target (BaseURL cfg) url = Some (path, raw, query) →
  let r := MkObserved method path raw query (hdr ++ []) body in
  run_val (gcs_call client cfg op method url hdr body) f = Ok (gcs_handle r f).1 ∧
  run_state (gcs_call client cfg op method url hdr body) f = (gcs_handle r f).2.
Proof.
  intros Ht r. unfold gcs_call, authHeader. cbn [url_err Do client gcs_fake loopback].
  rewrite no_token, Ht. run. cbn [h_URL]. rewrite Ht. run. done.
Qed.

Definition object_request (r : ObservedRequest) (o : string) : Prop :=
  o_Path r = storage_root +:+ Bucket cfg +:+ "/o/" +:+ o ∧ o_Method r ≠ "POST".

Lemma gcs_handle_object r o f :
  object_request r o → gcs_handle r f = gcs_object r (Bucket cfg) o (observe r f).
Proof.
  intros [Hp Hm]. unfold gcs_handle. rewrite Hp. apply String.eqb_neq in Hm as ->. cbn [andb].
  rewrite TrimPrefix_app.
  assert (Contains (Bucket cfg +:+ "/o/" +:+ o) "/o" = true) as ->
    by apply (Contains_app (Bucket cfg) "/o" ("/" +:+ o)).
  rewrite andb_false_r, HasPrefix_app.
  assert (Contains (storage_root +:+ Bucket cfg +:+ "/o/" +:+ o) "/o/" = true) as ->
    by (rewrite <- str_app_assoc; apply Contains_app).
  cbn [andb]. by rewrite cut_app by (by apply bucket_free).
Qed.

(** The fake holds, under the bucket and prefix, exactly the abstract map. *)
Definition gcs_key (k : string) : string := Bucket cfg +:+ "/" +:+ Prefix cfg +:+ k.
Definition gcs_holds (f : Fake) (m : content) : Prop :=
  overrides f = no_overrides ∧ ∀ k, objects f !! gcs_key k = m !! k.

#[local] Instance gcs_key_inj : Inj (=) (=) gcs_key.
Proof. intros a b E. unfold gcs_key in E. by repeat apply (inj _) in E. Qed.

Lemma gcs_holds_insert f m k d :
  gcs_holds f m → gcs_holds (set_objects (<[gcs_key k := d]> (objects f)) f) (<[k := d]> m).
Proof.
  intros [Ho Hk]. split; [done|]. intros k'. cbn. destruct (decide (k = k')) as [->|Hne].
  - by rewrite !lookup_insert_eq.
  - rewrite !lookup_insert_ne; [apply Hk|done|]. by intros ?%(inj _).
Qed.

Lemma gcs_holds_delete f m k :
  gcs_holds f m → gcs_holds (set_objects (delete (gcs_key k) (objects f)) f) (delete k m).
Proof.
  intros [Ho Hk]. split; [done|]. intros k'. cbn. destruct (decide (k = k')) as [->|Hne].
  - by rewrite !lookup_delete_eq.
  - rewrite !lookup_delete_ne; [apply Hk|done|]. by intros ?%(inj _).
Qed.

Lemma gcs_holds_observe r f m : gcs_holds f m → gcs_holds (observe r f) m.
Proof. done. Qed.

Lemma gcs_handle_upload r o f :
  o_Path r = upload_root +:+ Bucket cfg +:+ "/o" → o_Method r = "POST" →
  o_Query r = "uploadType=media&name=" +:+ QueryEscape o → overrides f = no_overrides →
  StatusCode (gcs_handle r f).1 = StatusOK ∧
  (gcs_handle r f).2 =
    set_objects (<[Bucket cfg +:+ "/" +:+ o := o_Body r]> (objects f)) (observe r f).
Proof.
  intros Hp Hm Hq Ho. unfold gcs_handle. rewrite Hp, Hm, Hq, HasPrefix_app, TrimPrefix_app.
  rewrite TrimSuffix_app, Query_upload. cbn [observe overrides]. by rewrite Ho.
Qed.

(** One request of the backend to an object, against a fake that holds [m]. *)
Lemma gcs_object_call op method url hdr body f m c raw query :
  gcs_holds f m → method ≠ "POST" →
  parse_target (BaseURL cfg) url =
    Some (storage_root +:+ Bucket cfg +:+ "/o/" +:+ objectPath cfg c, raw, query) →
  ∃ r f0, o_Method r = method ∧ o_Query r = query ∧ gcs_holds f0 m ∧
    run_val (gcs_call client cfg op method url hdr body) f =
      Ok (gcs_object r (Bucket cfg) (objectPath cfg c) f0).1 ∧
    run_state (gcs_call client cfg op method url hdr body) f =
      (gcs_object r (Bucket cfg) (objectPath cfg c) f0).2.
Proof.
  intros HR Hm Ht. destruct (gcs_call_fake op method url hdr body f _ _ _ Ht) as [-> ->].
  set (r := MkObserved _ _ _ _ _ _). exists r, (observe r f).
  rewrite (gcs_handle_object r (objectPath cfg c)) by done.
  split; [done|]. split; [done|]. split; [by apply gcs_holds_observe|done].
Qed.

Lemma gcs_lookup f m c :
  gcs_holds f m → objects f !! (Bucket cfg +:+ "/" +:+ objectPath cfg c) = m !! CID_String c.
Proof. intros [_ Hk]. apply (Hk (CID_String c)). Qed.

Lemma gcs_pin_holds f m key : gcs_holds f m → gcs_holds (pin_object key f).2 m.
Proof. intros HR. unfold pin_object. by destruct (objects f !! key). Qed.

Lemma gcs_push_map c d f m :
  gcs_holds f m → run_val (gcs_Push client cfg c d) f = None ∧
    gcs_holds (run_state (gcs_Push client cfg c d) f) (<[CID_String c := d]> m).
Proof.
  intros HR. unfold gcs_Push. run. destruct (target_upload (objectPath cfg c)) as [raw Ht].
  destruct (gcs_call_fake "push" "POST" _ [("Content-Type", "application/octet-stream")] d f _ _ _ Ht)
    as [-> ->]. set (r := MkObserved _ _ _ _ _ _).
  destruct (gcs_handle_upload r (objectPath cfg c) f eq_refl eq_refl eq_refl (proj1 HR)) as [-> ->].
  split; [done|]. by apply (gcs_holds_insert (observe r f)).
Qed.

Lemma gcs_fetch_map c f m :
  gcs_holds f m → fetch_spec m c (run_val (gcs_Fetch client cfg c) f) ∧
    gcs_holds (run_state (gcs_Fetch client cfg c) f) m.
Proof.
  intros HR. unfold gcs_Fetch. run. destruct (target_media (objectPath cfg c)) as [raw Ht].
  destruct (gcs_object_call "fetch" "GET" _ [] [] f m c _ _ HR ltac:(done) Ht)
    as (r & f0 & Hm & Hq & HR0 & -> & ->).
  unfold gcs_object. rewrite Hm, Hq, (proj1 HR0), (gcs_lookup f0 m c HR0). cbn.
  destruct (m !! CID_String c) as [x|] eqn:E; (split; [|done]); split; rewrite E; try done.
  - by intros d [= ->].
  - intros _. eexists. split; [done|]. apply errors_Is_sdk_err.
Qed.

Lemma gcs_exists_map c f m :
  gcs_holds f m → run_val (gcs_Exists client cfg c) f = Ok (bool_decide (is_Some (m !! CID_String c))) ∧
    gcs_holds (run_state (gcs_Exists client cfg c) f) m.
Proof.
  intros HR. unfold gcs_Exists. run. destruct (target_object (objectPath cfg c)) as [raw Ht].
  destruct (gcs_object_call "exists" "GET" _ [] [] f m c _ _ HR ltac:(done) Ht)
    as (r & f0 & Hm & Hq & HR0 & -> & ->).
  unfold gcs_object. rewrite Hm, Hq, (proj1 HR0), (gcs_lookup f0 m c HR0). cbn.
  by destruct (m !! CID_String c).
Qed.

Lemma gcs_pin_map c f m :
  gcs_holds f m → present_spec m c (run_val (gcs_Pin client cfg c) f) ∧
    gcs_holds (run_state (gcs_Pin client cfg c) f) m.
Proof.
  intros HR. unfold gcs_Pin. run. destruct (target_object (objectPath cfg c)) as [raw Ht].
  destruct (gcs_object_call "pin" "PATCH" _ [("Content-Type", "application/json")]
    (to_bytes pin_body) f m c _ _ HR ltac:(done) Ht) as (r & f0 & Hm & Hq & HR0 & -> & ->).
  unfold gcs_object. rewrite Hm, (proj1 HR0). cbn [String.eqb Ascii.eqb Bool.eqb].
  split; [|by apply gcs_pin_holds]. cbn [PinStatus no_overrides].
  change (negb (0 =? 0)) with false. cbv iota. unfold pin_object. rewrite (gcs_lookup f0 m c HR0).
  destruct (m !! CID_String c) eqn:E; cbn; [done|]. by rewrite E.
Qed.

Lemma gcs_delete_map c f m :
  gcs_holds f m → present_spec m c (run_val (gcs_Delete client cfg c) f) ∧
    gcs_holds (run_state (gcs_Delete client cfg c) f) (delete (CID_String c) m).
Proof.
  intros HR. unfold gcs_Delete. run. destruct (target_object (objectPath cfg c)) as [raw Ht].
  destruct (gcs_object_call "delete" "DELETE" _ [] [] f m c _ _ HR ltac:(done) Ht)
    as (r & f0 & Hm & Hq & HR0 & -> & ->).
  unfold gcs_object. rewrite Hm, (proj1 HR0). cbn. split; [done|]. by apply gcs_holds_delete.
Qed.

Lemma target_bucket :
  ∃ raw, parse_target (BaseURL cfg) (baseURL cfg +:+ "/storage/v1/b/" +:+ Bucket cfg)
  = Some (storage_root +:+ Bucket cfg, raw, "").
Proof.
  eexists. rewrite baseURL_set. apply parse_target_path.
  - done.
  - by rewrite url_text_app, (plain_url_text (Bucket cfg)).
  - by rewrite str_has_app, bucket_free.
  - unfold PathUnescape. rewrite (unescape_app _ "/storage/v1/b/" _ storage_root) by reflexivity.
    by rewrite plain_unescape.
Qed.

Lemma gcs_health_map f m :
  gcs_holds f m → run_val (gcs_Healthy client cfg) f = None ∧
    gcs_holds (run_state (gcs_Healthy client cfg) f) m.
Proof.
  intros HR. unfold gcs_Healthy, authHeader. rewrite no_token. run. destruct target_bucket as [raw Ht].
  cbn [url_err Do client gcs_fake loopback]. rewrite Ht. run. cbn [h_URL]. rewrite Ht. run.
  unfold gcs_handle. cbn [o_Path o_Method String.eqb Ascii.eqb Bool.eqb andb].
  rewrite HasPrefix_app, TrimPrefix_app, Contains_free by (by apply bucket_free).
  cbn [negb andb observe overrides]. by rewrite (proj1 HR).
Qed.

(** Over the fake without overrides, the GCS backend implements the map. *)
#[export] Instance gcs_refines_map : Refines (GCSBackend client cfg) gcs_holds.
Proof.
  split; cbn [Push Fetch Pin Exists Delete Resolve Healthy GCSBackend];
    eauto using gcs_push_map, gcs_fetch_map, gcs_exists_map, gcs_pin_map, gcs_delete_map,
      gcs_health_map.
Qed.
End OverFake.

(** ** Over any honest service *)

(** What a store may return for an object name, whatever fails: an upload adds
    at most the uploaded bytes under the uploaded name, no other request of the
    backend adds anything, a complete 200 download is one of them. *)
Class HonestGCS `{SDK} {S} (client : Client S) (cfg : GCSConfig S) := {
  held : S → string → bytes → Prop;
  held_upload o d hdr s o' x :
    held (run_state (Do client (MkReq "POST" (apiURL cfg o) hdr d)) s) o' x →
    held s o' x ∨ (o' = o ∧ x = d);
  held_other req s o x :
    h_Method req ≠ "POST" → held (run_state (Do client req) s) o x → held s o x;
  held_media o hdr s resp :
    run_val (Do client (MkReq "GET" (mediaURL cfg o) hdr [])) s = Ok resp →
    StatusCode resp = StatusOK → body_err (h_RespBody resp) = None →
    held s o (body_data (h_RespBody resp));
  held_token token s o x : TokenFunc cfg = Some token → held (run_state token s) o x → held s o x }.

Section Honest.
Context `{SDK} {S : Type} (client : Client S) (cfg : GCSConfig S) `{!HonestGCS client cfg}.

Lemma held_auth s o x : held (run_state (authHeader cfg) s) o x → held s o x.
Proof.
  unfold authHeader. destruct (TokenFunc cfg) as [token|] eqn:E; run; [|done].
  by apply held_token.
Qed.

Lemma held_call op method url hdr body s o x :
  method ≠ "POST" → held (run_state (gcs_call client cfg op method url hdr body) s) o x → held s o x.
Proof.
  intros Hm. unfold gcs_call. destruct (url_err client url); run; [done|].
  destruct (run_val (authHeader cfg) s); run; [|by apply held_auth].
  intros ?%held_other; [by apply held_auth|done].
Qed.

Lemma held_fetch c s x :
  run_val (gcs_Fetch client cfg c) s = Ok x → held s (objectPath cfg c) x.
Proof.
  unfold gcs_Fetch, gcs_call. run. destruct (url_err client _); run; [done|].
  destruct (run_val (authHeader cfg) s) as [a|]; run; [|done].
  destruct (run_val (Do client _) _) as [resp|] eqn:Hd; cbn [map_err]; [|done].
  destruct (StatusCode resp =? StatusNotFound); [done|].
  destruct (Z.eqb_spec (StatusCode resp) StatusOK) as [Hst|]; [|done]. cbn [negb].
  unfold read_whole. destruct (body_err _) eqn:Hb; [done|]. intros [= <-].
  by apply held_auth, (held_media _ a _ resp).
Qed.

(** The backend meets the fault-tolerant contract over any honest service. *)
#[export] Program Instance gcs_sound : Sound (GCSBackend client cfg) :=
  {| may s k x := held s (Prefix cfg +:+ k) x |}.
Next Obligation.
  intros c d s k x. cbn [Push GCSBackend]. unfold gcs_Push, gcs_call. run.
  destruct (url_err client _); run; [by left|].
  destruct (run_val (authHeader cfg) s); run; [|intros ?%held_auth; by left].
  intros [?%held_auth|[E ->]]%held_upload; [by left|right]. split; [|done].
  unfold objectPath in E. by apply (inj _) in E.
Qed.
Next Obligation. intros c s k x. cbn. unfold gcs_Fetch. run. by apply held_call. Qed.
Next Obligation. intros c s k x. cbn. unfold gcs_Pin. run. by apply held_call. Qed.
Next Obligation. intros c s k x. cbn. unfold gcs_Exists. run. by apply held_call. Qed.
Next Obligation. intros c s k x. cbn. unfold gcs_Delete. run. by apply held_call. Qed.
Next Obligation. done. Qed.
Next Obligation.
  intros s k x. cbn. unfold gcs_Healthy. run. destruct (run_val (authHeader cfg) s); run.
  - destruct (url_err client _); run; [by apply held_auth|].
    intros ?%held_other; [by apply held_auth|done].
  - by apply held_auth.
Qed.
Next Obligation. intros c s x. cbn. apply held_fetch. Qed.
End Honest.

(** ** Theorems *)

(** C33. Conformance: over the GCS fake (no status overrides, no token source), for
    any plain bucket name and any object prefix, the GCS backend implements the
    map from CID strings to bytes: its escaping and the JSON API's parsing of
    names agree for every CID string, so no two CIDs share an object. *)
Theorem gcs_conformance `{SDK} (cfg : GCSConfig Fake) :
  plain (Bucket cfg) = true → BaseURL cfg ≠ "" → TokenFunc cfg = None →
  Refines (GCSBackend (gcs_fake (BaseURL cfg)) cfg) (gcs_holds cfg).
Proof. intros Hb Hu Ht. by apply gcs_refines_map. Qed.

Definition ex_gcs : GCSConfig Fake := MkGCS Fake "bucket-1" "staging/n 1/" None None "http://127.0.0.1:9000".

Lemma gcs_conformance_witness :
  Refines (GCSBackend (gcs_fake (BaseURL ex_gcs)) ex_gcs) (gcs_holds ex_gcs).
Proof.
  apply (gcs_conformance ex_gcs); [reflexivity|discriminate|reflexivity].
Defined.

(** The JSON API addresses objects in isolation: the upload, metadata and media
    URLs of two CID strings are equal only if the strings are. *)
Theorem gcs_object_isolation `{SDK} {S} (cfg : GCSConfig S) c1 c2 :
  apiURL cfg (objectPath cfg c1) = apiURL cfg (objectPath cfg c2) ∨
  objectURL cfg (objectPath cfg c1) = objectURL cfg (objectPath cfg c2) ∨
  mediaURL cfg (objectPath cfg c1) = mediaURL cfg (objectPath cfg c2) →
  CID_String c1 = CID_String c2.
Proof.
  assert (∀ x y, Prefix cfg +:+ x = Prefix cfg +:+ y → x = y) as Hp by (by intros x y E%(inj _)).
  intros [E|[E|E]]; apply Hp; unfold apiURL, objectURL, mediaURL in E;
    repeat apply (inj (String.append _)) in E.
  - by apply (inj QueryEscape).
  - by apply (inj PathEscape).
  - apply (f_equal (λ s, TrimSuffix s "?alt=media")) in E. rewrite !TrimSuffix_app in E.
    by apply (inj PathEscape).
Qed.

Lemma gcs_object_isolation_witness : CID_String ex_cid = CID_String ex_cid.
Proof. apply (gcs_object_isolation ex_gcs). left. reflexivity. Defined.
