(* ===== verification/Rustfs.v ===== *)
(** * backends/rustfs.go: the RustFS (S3 wire protocol) backend *)

From Stdlib Require Import Ascii.
From S2P Require Import Prelude GoStrings Encoding Json Url Storage Http Backends Reference Fakes.

Open Scope Z_scope.

Record RustFSConfig := MkRustFS {
  Endpoint : string;
  s3_Bucket : string;
  Region : string;
  s3_Prefix : string;
  PathStyle : bool;
  (* RequestSigner.SignRequest: the request with its signature headers *)
  RequestSigner : option (HttpReq → Result HttpReq);
  (* URLSigner.PresignGetObject(bucket, key, expiry), at the time it is called *)
  s3_URLSigner : option (Z → string → string → Z → Result string) }.

Section RustFS.
Context `{SDK} {S : Type}.
Variables (client : Client S) (cfg : RustFSConfig).

Definition s3_objectURL (c : CID) : string :=
  let key := s3_Prefix cfg +:+ CID_String c in
  if PathStyle cfg then Endpoint cfg +:+ "/" +:+ s3_Bucket cfg +:+ "/" +:+ key
  else
    let endpoint := Endpoint cfg +:+ "/" +:+ s3_Bucket cfg in
    endpoint +:+ "/" +:+ key.

Definition signRequest (req : HttpReq) : Result HttpReq :=
  match RequestSigner cfg with
  | Some sign => sign req
  | None => Ok req
  end.

(** Build, sign and send: what every operation does up to the response. *)
Definition s3_call (op method url : string) (hdr : list (string * string)) (body : bytes)
    : M S (Result HttpResp) :=
  match url_err client url with
  | Some e => mret (Err (wrapf ("rustfs/" +:+ op +:+ ": ") e ""))
  | None =>
      match signRequest (MkReq method url hdr body) with
      | Err e => mret (Err (wrapf ("rustfs/" +:+ op +:+ ": sign: ") e ""))
      | Ok req =>
          resp ← Do client req;
          mret (map_err (λ e, wrapf ("rustfs/" +:+ op +:+ ": ") e "") resp)
      end
  end.

Definition s3_Push (c : CID) (d : bytes) : M S (option error) :=
  r ← s3_call "push" "PUT" (s3_objectURL c) [("Content-Type", "application/octet-stream")] d;
  mret match r with
       | Err e => Some e
       | Ok resp =>
           if (StatusCode resp =? StatusOK) || (StatusCode resp =? StatusCreated) then None
           else Some (errors_New ("rustfs/push: HTTP " +:+ Itoa (StatusCode resp)))
       end.

Definition s3_Fetch (c : CID) : M S (Result bytes) :=
  r ← s3_call "fetch" "GET" (s3_objectURL c) [] [];
  mret match r with
       | Err e => Err e
       | Ok resp =>
           if (StatusCode resp =? StatusNotFound) || (StatusCode resp =? StatusForbidden)
           then Err (sdk_err ErrContentNotFound)
           else if negb (StatusCode resp =? StatusOK) then
             Err (errors_New ("rustfs/fetch: HTTP " +:+ Itoa (StatusCode resp) +:+ ": " +:+ snippet resp))
           else read_whole (h_RespBody resp)
       end.

Definition s3_Exists (c : CID) : M S (Result bool) :=
  r ← s3_call "exists" "HEAD" (s3_objectURL c) [] [];
  mret match r with
       | Err e => Err e
       | Ok resp => Ok (StatusCode resp =? StatusOK)
       end.

(** The tag set that marks an object pinned. *)
Definition tagging_body : string :=
  let q s := String "034" (s +:+ String "034" "") in
  "<?xml version=" +:+ q "1.0" +:+ " encoding=" +:+ q "UTF-8" +:+
  "?><Tagging><TagSet><Tag><Key>ortholog-pinned</Key><Value>true</Value></Tag></TagSet></Tagging>".

Definition s3_Pin (c : CID) : M S (option error) :=
  r ← s3_call "pin" "PUT" (s3_objectURL c +:+ "?tagging") [("Content-Type", "application/xml")]
        (to_bytes tagging_body);
  mret match r with
       | Err e => Some e
       | Ok resp =>
           if StatusCode resp =? StatusNotFound then Some (sdk_err ErrContentNotFound) else None
       end.

Definition s3_Delete (c : CID) : M S (option error) :=
  r ← s3_call "delete" "DELETE" (s3_objectURL c) [] [];
  mret match r with
       | Err e => Some e
       | Ok resp =>
           if (StatusCode resp <? 200) || (300 <=? StatusCode resp)
           then Some (errors_New ("rustfs/delete: HTTP " +:+ Itoa (StatusCode resp) +:+ ": "
                                   +:+ snippet resp))
           else None
       end.

Definition s3_Resolve (now : Z) (c : CID) (expiry : Z) : M S (Result RetrievalCredential) :=
  mret match s3_URLSigner cfg with
       | None => Err (errors_New "rustfs/resolve: no URL signer configured")
       | Some presign =>
           match presign now (s3_Bucket cfg) (s3_Prefix cfg +:+ CID_String c) expiry with
           | Err e => Err (wrapf "rustfs/resolve: " e "")
           | Ok url => Ok (MkCred MethodSignedURL url (Some (now + expiry)))
           end
       end.

(** The zero CID's key stands in for the bucket outside path style. As in the
    GCS backend, a request that cannot be built is a nil dereference. *)
Definition s3_Healthy : M S (option error) :=
  let url := if PathStyle cfg then Endpoint cfg +:+ "/" +:+ s3_Bucket cfg
             else s3_objectURL (MkCID 0 []) in
  match url_err client url with
  | Some _ => mret (Some (errors_New "panic: nil *http.Request"))
  | None =>
      match signRequest (MkReq "HEAD" url [] []) with
      | Err e => mret (Some (wrapf "rustfs/health: sign: " e ""))
      | Ok req =>
          r ← Do client req;
          mret match r with
               | Err e => Some (wrapf "rustfs/health: " e "")
               | Ok resp =>
                   if 500 <=? StatusCode resp
                   then Some (errors_New ("rustfs/health: HTTP " +:+ Itoa (StatusCode resp)))
                   else None
               end
      end
  end.

Definition RustFSBackend : BackendProvider S := {|
  Push := s3_Push; Fetch := s3_Fetch; Pin := s3_Pin; Exists := s3_Exists;
  Delete := s3_Delete; Resolve := s3_Resolve; Healthy := s3_Healthy |}.
End RustFS.

(** ** Over the S3 fake *)

(** A text that stands for itself in a URL path. *)
Definition path_text (s : string) : Prop :=
  str_has "%" s = false ∧ str_has "?" s = false ∧ url_text s = true.

(** The SDK's CID strings ([sha256:<hex>] and the like) are not empty and need
    no escaping in a path: the backend writes them into URLs as they are. *)
Class CIDText `{SDK} := {
  cid_nonempty c : CID_String c ≠ "";
  cid_unescaped c : path_text (CID_String c) }.

Section OverFake.
Context `{SDK} `{!CIDText}.
Variable cfg : RustFSConfig.

Hypothesis bucket_plain : plain (s3_Bucket cfg) = true.
Hypothesis prefix_text : path_text (s3_Prefix cfg).
(** A signer adds headers and nothing else (SigV4). *)
Hypothesis signer_adds_headers : ∀ req, ∃ hdr,
  signRequest cfg req = Ok (MkReq (h_Method req) (h_URL req) hdr (h_Body req)).

Let client : Client Fake := s3_fake (Endpoint cfg).

Definition s3_key (k : string) : string := s3_Bucket cfg +:+ "/" +:+ s3_Prefix cfg +:+ k.

Lemma s3_objectURL_eq c : s3_objectURL cfg c = Endpoint cfg +:+ "/" +:+ s3_key (CID_String c).
Proof. unfold s3_objectURL, s3_key. destruct (PathStyle cfg); by rewrite ?str_app_assoc. Qed.

Lemma s3_key_text c : path_text ("/" +:+ s3_key (CID_String c)).
Proof.
  destruct prefix_text as (Hp & Hq & Ht), (cid_unescaped c) as (Hc & Hd & Hu). unfold s3_key.
  split; [|split];
    by rewrite ?url_text_app, ?str_has_app, ?Hp, ?Hq, ?Ht, ?Hc, ?Hd, ?Hu,
      ?(plain_free _ (s3_Bucket cfg)), ?(plain_url_text (s3_Bucket cfg)).
Qed.

(** The escaped path the server sees. *)
Definition s3_raw (c : CID) : string :=
  let path := "/" +:+ s3_key (CID_String c) in url_EscapedPath path path.

Lemma target_key c :
  parse_target (Endpoint cfg) (s3_objectURL cfg c)
  = Some ("/" +:+ s3_key (CID_String c), s3_raw c, "").
Proof.
  destruct (s3_key_text c) as (Hp & Hq & Ht). rewrite s3_objectURL_eq.
  apply parse_target_path; try done. by apply no_percent_unescape.
Qed.

Lemma target_tagging c :
  parse_target (Endpoint cfg) (s3_objectURL cfg c +:+ "?tagging")
  = Some ("/" +:+ s3_key (CID_String c), s3_raw c, "tagging").
Proof.
  destruct (s3_key_text c) as (Hp & Hq & Ht). rewrite s3_objectURL_eq, str_app_assoc.
  apply parse_target_path_query; try done. by apply no_percent_unescape.
Qed.

Lemma s3_call_fake op method url hdr body f path raw query :
  parse_target (Endpoint cfg) url = Some (path, raw, query) →
  ∃ hdr', let r := MkObserved method path raw query hdr' body in
  run_val (s3_call client cfg op method url hdr body) f = Ok (s3_handle r f).1 ∧
  run_state (s3_call client cfg op method url hdr body) f = (s3_handle r f).2.
Proof.
  intros Ht. destruct (signer_adds_headers (MkReq method url hdr body)) as [hdr' Hs].
  exists hdr'. unfold s3_call. cbn [url_err Do client s3_fake loopback].
  rewrite Ht, Hs. cbn [h_Method h_URL h_Body]. run. rewrite Ht. by run.
Qed.

(** The fake's view of an object's path. *)
Lemma s3_handle_key r k f :
  o_Path r = "/" +:+ s3_key k → s3_Prefix cfg +:+ k ≠ "" →
  s3_handle r f =
    (if negb (String.eqb (Get "tagging" (Query (o_Query r))) "") || HasSuffix (o_Query r) "tagging"
     then if negb (PinStatus (overrides f) =? 0) then (no_body (PinStatus (overrides f)), observe r f)
          else pin_object (s3_key k) (observe r f)
     else s3_object r (s3_key k) (observe r f)).
Proof.
  intros Hp Hk. unfold s3_handle. rewrite Hp, TrimPrefix_app. unfold s3_key.
  assert (String.eqb (s3_Bucket cfg +:+ "/" +:+ s3_Prefix cfg +:+ k) "" = false) as ->.
  { apply String.eqb_neq. by destruct (s3_Bucket cfg). }
  rewrite cut_app by (by apply plain_free). by apply String.eqb_neq in Hk as ->.
Qed.

Lemma s3_key_nonempty c : s3_Prefix cfg +:+ CID_String c ≠ "".
Proof.
  pose proof (cid_nonempty c). destruct (s3_Prefix cfg); [by rewrite str_app_nil_l|done].
Qed.

Definition s3_holds (f : Fake) (m : content) : Prop :=
  overrides f = no_overrides ∧ ∀ k, objects f !! s3_key k = m !! k.

#[local] Instance s3_key_inj : Inj (=) (=) s3_key.
Proof. intros a b E. unfold s3_key in E. by repeat apply (inj _) in E. Qed.

Lemma s3_holds_insert f m k d :
  s3_holds f m → s3_holds (set_objects (<[s3_key k := d]> (objects f)) f) (<[k := d]> m).
Proof.
  intros [Ho Hk]. split; [done|]. intros k'. cbn. destruct (decide (k = k')) as [->|Hne].
  - by rewrite !lookup_insert_eq.
  - rewrite !lookup_insert_ne; [apply Hk|done|]. by intros ?%(inj _).
Qed.

Lemma s3_holds_delete f m k :
  s3_holds f m → s3_holds (set_objects (delete (s3_key k) (objects f)) f) (delete k m).
Proof.
  intros [Ho Hk]. split; [done|]. intros k'. cbn. destruct (decide (k = k')) as [->|Hne].
  - by rewrite !lookup_delete_eq.
  - rewrite !lookup_delete_ne; [apply Hk|done|]. by intros ?%(inj _).
Qed.

(** One request of the backend to an object, against a fake that holds [m]. *)
Lemma s3_object_call op method hdr body f m c :
  s3_holds f m →
  ∃ r f0, o_Method r = method ∧ o_Body r = body ∧ s3_holds f0 m ∧
    run_val (s3_call client cfg op method (s3_objectURL cfg c) hdr body) f =
      Ok (s3_object r (s3_key (CID_String c)) f0).1 ∧
    run_state (s3_call client cfg op method (s3_objectURL cfg c) hdr body) f =
      (s3_object r (s3_key (CID_String c)) f0).2.
Proof.
  intros HR. destruct (s3_call_fake op method _ hdr body f _ _ _ (target_key c)) as (hdr' & -> & ->).
  set (r := MkObserved _ _ _ _ _ _). exists r, (observe r f).
  by rewrite (s3_handle_key r (CID_String c)) by (done || apply s3_key_nonempty).
Qed.

Lemma s3_push_map c d f m :
  s3_holds f m → run_val (s3_Push client cfg c d) f = None ∧
    s3_holds (run_state (s3_Push client cfg c d) f) (<[CID_String c := d]> m).
Proof.
  intros HR. unfold s3_Push. run.
  destruct (s3_object_call "push" "PUT" [("Content-Type", "application/octet-stream")] d f m c HR)
    as (r & f0 & Hm & Hb & HR0 & -> & ->).
  unfold s3_object. rewrite Hm, Hb, (proj1 HR0). cbn. split; [done|]. by apply s3_holds_insert.
Qed.

Lemma s3_fetch_map c f m :
  s3_holds f m → fetch_spec m c (run_val (s3_Fetch client cfg c) f) ∧
    s3_holds (run_state (s3_Fetch client cfg c) f) m.
Proof.
  intros HR. unfold s3_Fetch. run.
  destruct (s3_object_call "fetch" "GET" [] [] f m c HR) as (r & f0 & Hm & Hb & HR0 & -> & ->).
  unfold s3_object. rewrite Hm, (proj1 HR0), (proj2 HR0 (CID_String c)). cbn.
  destruct (m !! CID_String c) as [x|] eqn:E; (split; [|done]); split; rewrite E; try done.
  - by intros d [= ->].
  - intros _. eexists. split; [done|]. apply errors_Is_sdk_err.
Qed.

Lemma s3_exists_map c f m :
  s3_holds f m → run_val (s3_Exists client cfg c) f = Ok (bool_decide (is_Some (m !! CID_String c))) ∧
    s3_holds (run_state (s3_Exists client cfg c) f) m.
Proof.
  intros HR. unfold s3_Exists. run.
  destruct (s3_object_call "exists" "HEAD" [] [] f m c HR) as (r & f0 & Hm & Hb & HR0 & -> & ->).
  unfold s3_object. rewrite Hm, (proj1 HR0), (proj2 HR0 (CID_String c)). cbn.
  by destruct (m !! CID_String c).
Qed.

Lemma s3_pin_map c f m :
  s3_holds f m → present_spec m c (run_val (s3_Pin client cfg c) f) ∧
    s3_holds (run_state (s3_Pin client cfg c) f) m.
Proof.
  intros HR. unfold s3_Pin. run.
  destruct (s3_call_fake "pin" "PUT" _ [("Content-Type", "application/xml")] (to_bytes tagging_body)
    f _ _ _ (target_tagging c)) as (hdr' & -> & ->). set (r := MkObserved _ _ _ _ _ _).
  rewrite (s3_handle_key r (CID_String c)) by (done || apply s3_key_nonempty).
  change (negb (String.eqb (Get "tagging" (Query (o_Query r))) "") || HasSuffix (o_Query r) "tagging")
    with true. cbv iota. rewrite (proj1 HR). change (negb (PinStatus no_overrides =? 0)) with false.
  cbv iota. unfold pin_object. cbn [observe objects]. rewrite (proj2 HR (CID_String c)).
  destruct (m !! CID_String c) eqn:E; cbn; [done|]. by rewrite E.
Qed.

Lemma s3_delete_map c f m :
  s3_holds f m → present_spec m c (run_val (s3_Delete client cfg c) f) ∧
    s3_holds (run_state (s3_Delete client cfg c) f) (delete (CID_String c) m).
Proof.
  intros HR. unfold s3_Delete. run.
  destruct (s3_object_call "delete" "DELETE" [] [] f m c HR) as (r & f0 & Hm & Hb & HR0 & -> & ->).
  unfold s3_object. rewrite Hm, (proj1 HR0). cbn. split; [done|]. by apply s3_holds_delete.
Qed.

(** Whatever a HEAD finds, the fake answers it without a server error. *)
Lemma s3_head_status r f m :
  o_Method r = "HEAD" → o_Query r = "" → s3_holds f m →
  StatusCode (s3_handle r f).1 < 500 ∧ s3_holds (s3_handle r f).2 m.
Proof.
  intros Hm Hq HR. unfold s3_handle. rewrite Hq. cbn [observe overrides]. rewrite (proj1 HR).
  destruct (String.eqb _ ""); [done|].
  destruct (match cut _ _ with Some bk => bk | None => _ end) as [b k].
  destruct (String.eqb k ""); [done|].
  change (negb (String.eqb (Get "tagging" (Query "")) "") || HasSuffix "" "tagging") with false. cbv iota.
  unfold s3_object. rewrite Hm. cbn [observe overrides objects]. rewrite (proj1 HR). cbn.
  by destruct (objects f !! _).
Qed.

Lemma target_bucket_s3 :
  ∃ raw, parse_target (Endpoint cfg) (Endpoint cfg +:+ "/" +:+ s3_Bucket cfg)
  = Some ("/" +:+ s3_Bucket cfg, raw, "").
Proof.
  eexists. apply parse_target_path.
  - done.
  - by rewrite url_text_app, (plain_url_text (s3_Bucket cfg)).
  - by rewrite str_has_app, (plain_free _ (s3_Bucket cfg)).
  - by apply no_percent_unescape; rewrite str_has_app, (plain_free _ (s3_Bucket cfg)).
Qed.

Lemma s3_health_map f m :
  s3_holds f m → run_val (s3_Healthy client cfg) f = None ∧
    s3_holds (run_state (s3_Healthy client cfg) f) m.
Proof.
  intros HR. unfold s3_Healthy. set (url := if PathStyle cfg then _ else _).
  assert (∃ path raw, parse_target (Endpoint cfg) url = Some (path, raw, "")) as (path & raw & Ht).
  { unfold url. destruct (PathStyle cfg); [destruct target_bucket_s3 as [? ->]|rewrite target_key]; eauto. }
  destruct (signer_adds_headers (MkReq "HEAD" url [] [])) as [hdr' Hs].
  cbn [url_err client s3_fake loopback]. rewrite Ht, Hs. run. cbn [Do client s3_fake loopback h_Method h_URL h_Body].
  rewrite Ht. run. set (r := MkObserved _ _ _ _ _ _).
  destruct (s3_head_status r f m eq_refl eq_refl HR) as [Hst HR'].
  destruct (Z.leb_spec 500 (StatusCode (s3_handle r f).1)); [lia|done].
Qed.

(** Over the fake without overrides, the RustFS backend implements the map. *)
#[export] Instance s3_refines_map : Refines (RustFSBackend client cfg) s3_holds.
Proof.
  split; cbn [Push Fetch Pin Exists Delete Resolve Healthy RustFSBackend];
    eauto using s3_push_map, s3_fetch_map, s3_exists_map, s3_pin_map, s3_delete_map, s3_health_map.
Qed.
End OverFake.

(** ** Theorems *)

(** C34. Conformance: over the S3 fake (no status overrides), path style or not, with
    any request signer that only adds headers, for any plain bucket name and any
    prefix that a URL path takes as it is, the RustFS backend implements the
    map from CID strings to bytes. *)
Theorem rustfs_conformance `{SDK} `{!CIDText} (cfg : RustFSConfig) :
  plain (s3_Bucket cfg) = true → path_text (s3_Prefix cfg) →
  (∀ req, ∃ hdr, signRequest cfg req = Ok (MkReq (h_Method req) (h_URL req) hdr (h_Body req))) →
  Refines (RustFSBackend (s3_fake (Endpoint cfg)) cfg) (s3_holds cfg).
Proof. intros Hb Hp Hs. by apply s3_refines_map. Qed.

(** A backend that reports a failing existence check as "absent": any status but
    200 on the metadata request, a server error or a refusal included, is
    [(false, nil)]. *)
Lemma s3_exists_status `{SDK} {S} (client : Client S) cfg c s resp :
  run_val (s3_call client cfg "exists" "HEAD" (s3_objectURL cfg c) [] []) s = Ok resp →
  run_val (s3_Exists client cfg c) s = Ok (StatusCode resp =? StatusOK).
Proof. intros E. unfold s3_Exists. run. by rewrite E. Qed.

(** ** Witness *)

#[export] Instance RefCIDText : CIDText.
Proof.
  split; [done|]. intros c. cbn [CID_String RefSDK]. unfold path_text.
  by rewrite !str_has_app, !hex_EncodeToString_free, url_text_app, hex_url_text.
Qed.

Definition ex_rustfs : RustFSConfig :=
  MkRustFS "http://rustfs.internal:9000" "artifacts" "us-east-1" "p/" true None None.

Lemma rustfs_conformance_witness :
  Refines (RustFSBackend (s3_fake (Endpoint ex_rustfs)) ex_rustfs) (s3_holds ex_rustfs).
Proof.
  apply (rustfs_conformance ex_rustfs).
  - reflexivity.
  - split; [|split]; reflexivity.
  - intros [m u h b]. exists h. reflexivity.
Defined.
