(* ===== verification/Token.v ===== *)
(** * api/token.go, and the token helpers of api/push.go

    The kid-keyed Ed25519 upload-token verifier: splitting and decoding the
    header, the JSON payload, key dispatch, the claims checks, and the mapping
    of verification errors to audit reasons. *)

From Stdlib Require Import Ascii.
From S2P Require Import Prelude GoStrings Encoding Sha256 Json Storage Backends Reference.

Open Scope Z_scope.

(** ** Sentinel errors *)

Definition token_text (t : sentinel) : string :=
  match t with
  | ErrTokenMalformed => "upload token: malformed"
  | ErrTokenBadSignature => "upload token: bad signature"
  | ErrTokenExpired => "upload token: expired"
  | ErrTokenCIDMismatch => "upload token: cid mismatch"
  | ErrTokenSizeMismatch => "upload token: size mismatch"
  | ErrTokenPayloadInvalid => "upload token: payload invalid"
  | ErrTokenUnknownKid => "upload token: unknown kid"
  | _ => ""
  end.

(** The sentinel as an error value, and [fmt.Errorf("%w" + detail, sentinel)]. *)
Definition token_err (t : sentinel) : error := MkError (token_text t) [t].
Definition token_errf (t : sentinel) (detail : string) : error := wrapf "" (token_err t) detail.

(** ** Payload *)

Record UploadTokenPayload := MkPayload {
  p_CID : string; p_Size : Z; p_Exp : Z; p_Iat : Z; p_Kid : string }.

Definition zero_payload : UploadTokenPayload := MkPayload "" 0 0 0 "".

(** The struct's JSON tags. *)
Definition payload_fields
    : list (string * (json → UploadTokenPayload → option UploadTokenPayload)) :=
  [ ("cid", λ j p, v ← store_string j (p_CID p);
      Some (MkPayload v (p_Size p) (p_Exp p) (p_Iat p) (p_Kid p)));
    ("size", λ j p, v ← store_int64 j (p_Size p);
      Some (MkPayload (p_CID p) v (p_Exp p) (p_Iat p) (p_Kid p)));
    ("exp", λ j p, v ← store_int64 j (p_Exp p);
      Some (MkPayload (p_CID p) (p_Size p) v (p_Iat p) (p_Kid p)));
    ("iat", λ j p, v ← store_int64 j (p_Iat p);
      Some (MkPayload (p_CID p) (p_Size p) (p_Exp p) v (p_Kid p)));
    ("kid", λ j p, v ← store_string j (p_Kid p);
      Some (MkPayload (p_CID p) (p_Size p) (p_Exp p) (p_Iat p) v)) ].

Definition unmarshal_payload (b : bytes) : option UploadTokenPayload :=
  Unmarshal payload_fields zero_payload b.

(** ** The verifier *)

Definition PublicKeySize : Z := 32.

(** The verifier is its map from kid to public key. *)
Record ed25519UploadTokenVerifier := MkVerifier { keys : gmap string (list Byte.byte) }.

(** A key of the wrong size, if there is one (Go visits a map in no fixed
    order; here the map's own enumeration order). *)
Definition bad_key (ks : gmap string (list Byte.byte)) : option (string * bytes) :=
  (λ x, x.2) <$> list_find (λ kv : string * bytes, blen kv.2 ≠ PublicKeySize) (map_to_list ks).

Definition NewEd25519UploadTokenVerifier `{Diag} (ks : gmap string (list Byte.byte))
    : Result ed25519UploadTokenVerifier :=
  if Nat.eqb (size ks) 0 then Err (errors_New "upload token verifier: keys map is empty")
  else match bad_key ks with
       | Some (kid, pk) =>
           Err (errors_New ("upload token verifier: key " +:+ Quote kid +:+ " is "
             +:+ Itoa (blen pk) +:+ " bytes, want " +:+ Itoa PublicKeySize +:+ " (ed25519)"))
       | None => Ok (MkVerifier ks)
       end.

(** Raw-URL base64, then padded URL base64: the verifier's tolerance. *)
Definition decode_url (s : string) : option bytes :=
  match DecodeString RawURLEncoding s with
  | Some b => Some b
  | None => DecodeString URLEncoding s
  end.

(** The claims checks, in the order of the code. *)
Definition check_claims (p : UploadTokenPayload) (expectedCID : string)
    (actualSize now : Z) : option error :=
  if (p_Exp p =? 0) || (p_Exp p <? Unix now) then Some (token_err ErrTokenExpired)
  else if negb (String.eqb (p_CID p) expectedCID) then
    Some (token_errf ErrTokenCIDMismatch
      (": token cid=" +:+ p_CID p +:+ ", header cid=" +:+ expectedCID))
  else if negb (p_Size p =? actualSize) then
    Some (token_errf ErrTokenSizeMismatch
      (": token size=" +:+ Itoa (p_Size p) +:+ ", body size=" +:+ Itoa actualSize))
  else None.

(** [Verify] once the token is split: decoding, key dispatch, signature, claims. *)
Definition verify_parts `{SDK} `{Diag} (v : ed25519UploadTokenVerifier)
    (payloadB64 sigB64 expectedCID : string) (actualSize now : Z) : option error :=
  match decode_url payloadB64 with
  | None => Some (token_errf ErrTokenMalformed (": payload base64: " +:+ base64_err payloadB64))
  | Some payloadBytes =>
      match decode_url sigB64 with
      | None => Some (token_errf ErrTokenMalformed (": signature base64: " +:+ base64_err sigB64))
      | Some sig =>
          match unmarshal_payload payloadBytes with
          | None => Some (token_errf ErrTokenPayloadInvalid (": json: " +:+ json_err payloadBytes))
          | Some p =>
              match keys v !! p_Kid p with
              | None => Some (token_errf ErrTokenUnknownKid (": kid=" +:+ Quote (p_Kid p)))
              | Some pubkey =>
                  match VerifyEd25519 pubkey payloadBytes sig with
                  | Some e => Some (token_errf ErrTokenBadSignature (": " +:+ Error e))
                  | None => check_claims p expectedCID actualSize now
                  end
              end
          end
      end
  end.

(** [Verify(token, expectedCID, actualSize, now)]. *)
Definition Verify `{SDK} `{Diag} (v : ed25519UploadTokenVerifier)
    (token expectedCID : string) (actualSize now : Z) : option error :=
  let dot := IndexByte token "." in
  if (dot <? 1) || (dot =? len token - 1) then
    Some (token_errf ErrTokenMalformed ": expected payload.signature")
  else
    verify_parts v (str_take (Z.to_nat dot) token) (str_drop (Z.to_nat dot + 1) token)
      expectedCID actualSize now.

(** ** api/push.go: classifyTokenError and extractKid *)

Definition classifyTokenError (e : error) : string :=
  if errors_Is e ErrTokenUnknownKid then "token_unknown_kid"
  else if errors_Is e ErrTokenBadSignature then "token_invalid"
  else if errors_Is e ErrTokenExpired then "token_expired"
  else if errors_Is e ErrTokenCIDMismatch then "token_cid_mismatch"
  else if errors_Is e ErrTokenSizeMismatch then "token_size_mismatch"
  else if errors_Is e ErrTokenMalformed || errors_Is e ErrTokenPayloadInvalid
  then "token_malformed"
  else "token_invalid".

(** The anonymous struct with the [kid] field only. *)
Definition kid_fields : list (string * (json → string → option string)) :=
  [("kid", store_string)].

(** The loop over the two decoders: [None] goes on to the next one.  Both
    attempts decode into the same struct, but a text both decoders accept has
    one decoding, so an attempt that succeeds always starts from the zero
    value. *)
Definition extractKid (token : string) : string :=
  let dot := IndexByte token "." in
  if dot <? 1 then ""
  else
    let part := str_take (Z.to_nat dot) token in
    match DecodeString RawURLEncoding part ≫= Unmarshal kid_fields "" with
    | Some kid => kid
    | None =>
        match DecodeString URLEncoding part ≫= Unmarshal kid_fields "" with
        | Some kid => kid
        | None => ""
        end
    end.


(** ** Behaviour of the verifier *)

(** Which audit reason documents a sentinel (the list in PushHandler's doc
    comment). *)
Definition documented_reason (t : sentinel) : option string :=
  match t with
  | ErrTokenUnknownKid => Some "token_unknown_kid"
  | ErrTokenBadSignature => Some "token_invalid"
  | ErrTokenExpired => Some "token_expired"
  | ErrTokenCIDMismatch => Some "token_cid_mismatch"
  | ErrTokenSizeMismatch => Some "token_size_mismatch"
  | ErrTokenMalformed | ErrTokenPayloadInvalid => Some "token_malformed"
  | _ => None
  end.

(** Claims that name this upload and have not lapsed. *)
Definition claims_ok (p : UploadTokenPayload) (cid : string) (size now : Z) : Prop :=
  p_Exp p ≠ 0 ∧ Unix now ≤ p_Exp p ∧ p_CID p = cid ∧ p_Size p = size.

(** [signed v token p]: the token is [payload.signature], its payload decodes
    to [p], and the signature over the payload bytes verifies under the key
    registered for [p]'s kid. *)
Definition signed `{SDK} (v : ed25519UploadTokenVerifier) (token : string)
    (p : UploadTokenPayload) : Prop :=
  ∃ p64 s64 payload sig pk,
    token = p64 +:+ "." +:+ s64 ∧ str_has "." p64 = false ∧ p64 ≠ "" ∧ s64 ≠ "" ∧
    decode_url p64 = Some payload ∧ decode_url s64 = Some sig ∧
    unmarshal_payload payload = Some p ∧ keys v !! p_Kid p = Some pk ∧
    VerifyEd25519 pk payload sig = None.

Lemma check_claims_None p cid size now :
  check_claims p cid size now = None ↔ claims_ok p cid size now.
Proof.
  unfold check_claims, claims_ok.
  destruct (Z.eqb_spec (p_Exp p) 0); [naive_solver|].
  destruct (Z.ltb_spec (p_Exp p) (Unix now)); cbn; [split; [done|lia]|].
  destruct (String.eqb_spec (p_CID p) cid); cbn; [|naive_solver].
  destruct (Z.eqb_spec (p_Size p) size); naive_solver.
Qed.

(** How a token splits. *)
Lemma Verify_split `{SDK} `{Diag} v token cid size now :
  (∃ p64 s64, token = p64 +:+ "." +:+ s64 ∧ str_has "." p64 = false ∧ p64 ≠ "" ∧ s64 ≠ "" ∧
     Verify v token cid size now = verify_parts v p64 s64 cid size now) ∨
  Verify v token cid size now = Some (token_errf ErrTokenMalformed ": expected payload.signature").
Proof.
  unfold Verify. set (dot := IndexByte token ".").
  destruct (Z.ltb_spec dot 1) as [|Hd]; [by right|].
  destruct (Z.eqb_spec dot (len token - 1)) as [|Hl]; [by right|]. left.
  destruct (IndexByte_split token "." dot eq_refl ltac:(lia)) as [Ht Hn].
  pose proof (IndexByte_range token "."). fold dot in H1.
  eexists _, _. split; [exact Ht|]. split_and!; [done| | |done].
  - intros E. apply (f_equal String.length) in E.
    rewrite str_length_take in E by (unfold len in *; lia). cbn in E. lia.
  - intros E. rewrite E in Ht. apply (f_equal String.length) in Ht.
    rewrite str_length_app, str_length_take in Ht by (unfold len in *; lia).
    unfold len in *. cbn in Ht. lia.
Qed.

Lemma Verify_dot `{SDK} `{Diag} v p64 s64 cid size now :
  str_has "." p64 = false → p64 ≠ "" → s64 ≠ "" →
  Verify v (p64 +:+ "." +:+ s64) cid size now = verify_parts v p64 s64 cid size now.
Proof.
  intros Hn Hp Hs. unfold Verify. rewrite str_app_cons, str_app_nil_l, IndexByte_app by done.
  assert (1 ≤ len p64) by (destruct p64; [done|unfold len; cbn; lia]).
  assert (1 ≤ len s64) by (destruct s64; [done|unfold len; cbn; lia]).
  assert (len (p64 +:+ String "." s64) = len p64 + 1 + len s64) as ->
    by (unfold len; rewrite str_length_app; cbn; lia).
  destruct (Z.ltb_spec (len p64) 1); [lia|].
  destruct (Z.eqb_spec (len p64) (len p64 + 1 + len s64 - 1)); [lia|]. cbn [orb].
  unfold len. rewrite Nat2Z.id, str_take_app.
  replace (p64 +:+ String "." s64) with ((p64 +:+ ".") +:+ s64) by (by rewrite str_app_assoc).
  replace (String.length p64 + 1)%nat with (String.length (p64 +:+ "."))
    by (rewrite str_length_app; done).
  by rewrite str_drop_app.
Qed.

Section Verifier.
Context `{SDK} `{Diag}.
Implicit Types (v : ed25519UploadTokenVerifier) (p : UploadTokenPayload).

(** The sentinels [Verify] reports before, and after, the signature check. *)
Definition unsigned_failures : list sentinel :=
  [ErrTokenMalformed; ErrTokenPayloadInvalid; ErrTokenUnknownKid; ErrTokenBadSignature].
Definition claims_failures : list sentinel :=
  [ErrTokenExpired; ErrTokenCIDMismatch; ErrTokenSizeMismatch].

Lemma check_claims_chain p cid size now e :
  check_claims p cid size now = Some e → ∃ t, chain e = [t] ∧ t ∈ claims_failures.
Proof.
  unfold check_claims. repeat case_match; intros [= <-]; eexists; (split; [done|set_solver]).
Qed.

Lemma signed_Verify v token p cid size now :
  signed v token p → Verify v token cid size now = check_claims p cid size now.
Proof.
  intros (p64 & s64 & payload & sig & pk & -> & Hn & Hp & Hs & Dp & Ds & U & K & V).
  rewrite Verify_dot by done. unfold verify_parts. by rewrite Dp, Ds, U, K, V.
Qed.

Lemma Verify_cases v token cid size now :
  (∃ p, signed v token p ∧ Verify v token cid size now = check_claims p cid size now) ∨
  (∃ t d, Verify v token cid size now = Some (token_errf t d) ∧ t ∈ unsigned_failures).
Proof.
  destruct (Verify_split v token cid size now)
    as [(p64 & s64 & -> & Hn & Hp & Hs & ->)| ->]; [|right; repeat econstructor; set_solver].
  unfold verify_parts.
  destruct (decode_url p64) as [payload|] eqn:Dp; [|right; repeat econstructor; set_solver].
  destruct (decode_url s64) as [sig|] eqn:Ds; [|right; repeat econstructor; set_solver].
  destruct (unmarshal_payload payload) as [p|] eqn:U; [|right; repeat econstructor; set_solver].
  destruct (keys v !! p_Kid p) as [pk|] eqn:K; [|right; repeat econstructor; set_solver].
  destruct (VerifyEd25519 pk payload sig) eqn:Hv; [right; repeat econstructor; set_solver|].
  left. exists p. split; [|done]. by exists p64, s64, payload, sig, pk.
Qed.

Lemma Verify_accepts v token cid size now :
  Verify v token cid size now = None ↔ ∃ p, signed v token p ∧ claims_ok p cid size now.
Proof.
  split.
  - destruct (Verify_cases v token cid size now) as [(p & Hs & ->)|(t & d & -> & _)]; [|done].
    intros Hc%check_claims_None. eauto.
  - intros (p & Hs & Hc). rewrite (signed_Verify _ _ p) by done. by apply check_claims_None.
Qed.

Lemma classify_chain e t r :
  chain e = [t] → documented_reason t = Some r → classifyTokenError e = r.
Proof.
  destruct e as [txt ch]. cbn. intros ->. unfold classifyTokenError, errors_Is.
  destruct t; cbn; intros [= <-]; reflexivity.
Qed.

End Verifier.

(** Decoding only the kid agrees with decoding the whole payload. *)
Lemma field_match_fold name k :
  field_match name k = String.eqb (fold_name k) (fold_name name).
Proof.
  unfold field_match. destruct (String.eqb_spec k name) as [->|]; [|done].
  by rewrite String.eqb_refl.
Qed.

Lemma payload_kid_field k j p p' :
  store_field payload_fields k j p = Some p' →
  store_field kid_fields k j (p_Kid p) = Some (p_Kid p').
Proof.
  unfold payload_fields, kid_fields, store_field. rewrite !field_match_fold.
  destruct (String.eqb_spec (fold_name k) (fold_name "cid")) as [->|_].
  { change (String.eqb (fold_name "cid") (fold_name "kid")) with false.
    by intros (x & _ & [= <-])%bind_Some. }
  destruct (String.eqb_spec (fold_name k) (fold_name "size")) as [->|_].
  { change (String.eqb (fold_name "size") (fold_name "kid")) with false.
    by intros (x & _ & [= <-])%bind_Some. }
  destruct (String.eqb_spec (fold_name k) (fold_name "exp")) as [->|_].
  { change (String.eqb (fold_name "exp") (fold_name "kid")) with false.
    by intros (x & _ & [= <-])%bind_Some. }
  destruct (String.eqb_spec (fold_name k) (fold_name "iat")) as [->|_].
  { change (String.eqb (fold_name "iat") (fold_name "kid")) with false.
    by intros (x & _ & [= <-])%bind_Some. }
  destruct (String.eqb (fold_name k) (fold_name "kid")); [|by intros [= <-]].
  by intros (x & Hx & [= <-])%bind_Some.
Qed.

Lemma payload_kid_members l p p' :
  store_members payload_fields l p = Some p' →
  store_members kid_fields l (p_Kid p) = Some (p_Kid p').
Proof.
  revert p. induction l as [|[k j] l IH]; intros p; [by intros [= ->]|]. cbn [store_members].
  intros (p1 & Hf & Hm)%bind_Some. rewrite (payload_kid_field _ _ _ _ Hf). by apply IH.
Qed.

Lemma payload_kid b p :
  unmarshal_payload b = Some p → Unmarshal kid_fields "" b = Some (p_Kid p).
Proof.
  unfold unmarshal_payload, Unmarshal. destruct (parse (of_bytes b)) as [j|]; [|done]. cbn.
  destruct j; try done; [by intros [= <-]|]. apply payload_kid_members.
Qed.

Lemma extractKid_dot p64 s64 b kid :
  str_has "." p64 = false → p64 ≠ "" → decode_url p64 = Some b →
  Unmarshal kid_fields "" b = Some kid → extractKid (p64 +:+ "." +:+ s64) = kid.
Proof.
  intros Hn Hp Hd Hu. unfold extractKid.
  rewrite str_app_cons, str_app_nil_l, IndexByte_app by done.
  assert (1 ≤ len p64) by (destruct p64; [done|unfold len; cbn; lia]).
  destruct (Z.ltb_spec (len p64) 1); [lia|]. unfold len. rewrite Nat2Z.id, str_take_app.
  unfold decode_url in Hd. destruct (DecodeString RawURLEncoding p64) as [b'|].
  - injection Hd as ->. cbn [mbind option_bind]. by rewrite Hu.
  - rewrite Hd. cbn [mbind option_bind]. by rewrite Hu.
Qed.

Lemma signed_extractKid `{SDK} v token p : signed v token p → extractKid token = p_Kid p.
Proof.
  intros (p64 & s64 & payload & sig & pk & -> & Hn & Hp & _ & Dp & _ & U & _).
  eapply extractKid_dot; eauto using payload_kid.
Qed.

Lemma NewVerifier_ok `{Diag} ks :
  NewEd25519UploadTokenVerifier ks = Ok (MkVerifier ks) ↔
    ks ≠ ∅ ∧ map_Forall (λ _ pk, blen pk = PublicKeySize) ks.
Proof.
  unfold NewEd25519UploadTokenVerifier. destruct (Nat.eqb_spec (size ks) 0) as [E|E].
  { split; [done|]. intros [Hne _]. by apply map_size_empty_inv in E. }
  assert (ks ≠ ∅) as Hne by (intros ->; by rewrite map_size_empty in E).
  unfold bad_key. destruct (list_find _ _) as [[i [kid pk]]|] eqn:F; cbn.
  - split; [done|]. intros [_ Hall]. apply list_find_Some in F as (Hi & Hbad & _).
    apply list_elem_of_lookup_2, elem_of_map_to_list in Hi. by apply Hall in Hi.
  - split; [|done]. intros _. split; [done|]. intros kid pk Hk.
    apply list_find_None in F. rewrite Forall_forall in F.
    destruct (decide (blen pk = PublicKeySize)) as [|Hb]; [done|].
    exfalso. apply (F (kid, pk)); [by apply elem_of_map_to_list|exact Hb].
Qed.

(** ** Minting, the operator's side of the contract in api/token.go's header *)

(** [json.Marshal] of the payload struct, with its [omitempty] fields. *)
Definition payload_json (p : UploadTokenPayload) : json :=
  JObj ([("cid", JStr (p_CID p)); ("size", JNum (Itoa (p_Size p)));
         ("exp", JNum (Itoa (p_Exp p)))]
        ++ (if p_Iat p =? 0 then [] else [("iat", JNum (Itoa (p_Iat p)))])
        ++ (if String.eqb (p_Kid p) "" then [] else [("kid", JStr (p_Kid p))])).

Definition mint (sign : bytes → bytes) (p : UploadTokenPayload) : string :=
  let payload := to_bytes (render (payload_json p)) in
  EncodeToString RawURLEncoding payload +:+ "." +:+ EncodeToString RawURLEncoding (sign payload).

(** A payload whose strings are valid UTF-8 and whose integers are [int64]s:
    every payload a Go program can hold, when its strings are text. *)
Definition payload_wf (p : UploadTokenPayload) : Prop :=
  to_valid_utf8 (p_CID p) = p_CID p ∧ to_valid_utf8 (p_Kid p) = p_Kid p ∧
  in_int64 (p_Size p) ∧ in_int64 (p_Exp p) ∧ in_int64 (p_Iat p).

Lemma payload_json_wf p : json_wf (payload_json p) ∧ (json_depth (payload_json p) ≤ max_depth)%N.
Proof.
  unfold payload_json.
  destruct (p_Iat p =? 0), (String.eqb (p_Kid p) ""); cbn; split;
    try (repeat split; apply num_ok_Itoa); done.
Qed.

Lemma unmarshal_payload_json p :
  payload_wf p → unmarshal_payload (to_bytes (render (payload_json p))) = Some p.
Proof.
  intros (Hc & Hk & Hs & He & Hi). unfold unmarshal_payload, Unmarshal. rewrite of_to_bytes.
  destruct (payload_json_wf p) as [Hw Hd]. rewrite parse_render by done. cbn [mbind option_bind].
  unfold payload_json.
  destruct (Z.eqb_spec (p_Iat p) 0) as [E|_], (String.eqb_spec (p_Kid p) "") as [E'|_];
    cbn; rewrite ?ParseInt_Itoa by done; cbn; rewrite ?ParseInt_Itoa by done; cbn;
    rewrite ?ParseInt_Itoa by done; cbn; rewrite ?Hc, ?Hk; destruct p; cbn in *; by subst.
Qed.

Lemma mint_signed `{SDK} v sign p pk :
  payload_wf p → keys v !! p_Kid p = Some pk →
  sign (to_bytes (render (payload_json p))) ≠ [] →
  VerifyEd25519 pk (to_bytes (render (payload_json p)))
    (sign (to_bytes (render (payload_json p)))) = None →
  signed v (mint sign p) p.
Proof.
  intros Hw Hk Hs Hv. unfold mint. set (b := to_bytes (render (payload_json p))) in *.
  pose proof (unmarshal_payload_json p Hw) as U. fold b in U.
  assert (b ≠ []) by (intros E; by rewrite E in U). clearbody b.
  eexists _, _, b, (sign b), pk. split; [done|].
  split_and!; auto using EncodeToString_no_dot, EncodeToString_nonempty;
    unfold decode_url; by rewrite DecodeString_EncodeToString.
Qed.

(** ** Theorems *)

Section Claims.
Context `{SDK} `{Diag}.

(** C9. [Verify] accepts a token exactly when it is [payload.signature], both
    parts base64url, the payload's JSON decodes, the signature over the payload
    bytes verifies under the key registered for the payload's own kid, and the
    claims name this CID and size and have not expired. *)
Theorem Verify_accepts_iff v token cid size now :
  Verify v token cid size now = None ↔ ∃ p, signed v token p ∧ claims_ok p cid size now.
Proof. apply Verify_accepts. Qed.

(** C10. Every rejection carries exactly one token sentinel, its audit reason is
    the documented one for that sentinel (the default branch of the
    classification is never taken), and the reasons that reveal a claim
    (expired, CID mismatch, size mismatch) are only given for tokens whose
    signature verified. *)
Theorem Verify_rejects v token cid size now e :
  Verify v token cid size now = Some e →
  ∃ t, chain e = [t] ∧ documented_reason t = Some (classifyTokenError e) ∧
    (t ∈ claims_failures → ∃ p, signed v token p).
Proof.
  destruct (Verify_cases v token cid size now) as [(p & Hs & ->)|(t & d & -> & Ht)].
  - intros (t & Hc & Ht)%check_claims_chain. exists t. split; [done|].
    split; [|eauto].
    destruct (documented_reason t) as [r|] eqn:E.
    + by rewrite (classify_chain e t r).
    + unfold claims_failures in Ht. destruct t; set_solver.
  - intros [= <-]. exists t. split; [done|].
    destruct (documented_reason t) as [r|] eqn:E.
    + rewrite (classify_chain _ t r) by done. split; [done|].
      unfold unsigned_failures, claims_failures in *. destruct t; set_solver.
    + unfold unsigned_failures in Ht. destruct t; set_solver.
Qed.

(** C12. The kid the push handler logs is the kid of the payload whose signature
    was verified: the second, independent parse of the token agrees with the
    verifier's. *)
Theorem extractKid_verified v token cid size now :
  Verify v token cid size now = None →
  ∃ p, signed v token p ∧ claims_ok p cid size now ∧ extractKid token = p_Kid p.
Proof.
  intros (p & Hs & Hc)%Verify_accepts. exists p. eauto using signed_extractKid.
Qed.

(** C11. An operator's token round-trips: the payload struct marshalled, signed
    and base64url encoded is accepted for its own CID and size up to and
    including its expiry second, and for no other CID, size or time. *)
Theorem Verify_minted v sign p pk cid size now :
  let b := to_bytes (render (payload_json p)) in
  payload_wf p → keys v !! p_Kid p = Some pk →
  sign b ≠ [] → VerifyEd25519 pk b (sign b) = None →
  Verify v (mint sign p) cid size now = None ↔ claims_ok p cid size now.
Proof.
  intros b Hw Hk Hn Hs. rewrite (signed_Verify _ _ p) by eauto using mint_signed.
  apply check_claims_None.
Qed.

(** Key rotation: registering a key under a kid that was not in use leaves
    the verdict on every token signed under the old keys as it was; dropping
    the kid turns its tokens into unknown-kid rejections and changes no token
    of another kid. *)
Theorem Verify_rotation v kid pk token p cid size now :
  signed v token p →
  (keys v !! kid = None →
     Verify (MkVerifier (<[kid := pk]> (keys v))) token cid size now
     = Verify v token cid size now) ∧
  (p_Kid p ≠ kid →
     Verify (MkVerifier (delete kid (keys v))) token cid size now
     = Verify v token cid size now) ∧
  (p_Kid p = kid →
     ∃ e, Verify (MkVerifier (delete kid (keys v))) token cid size now = Some e ∧
       classifyTokenError e = "token_unknown_kid").
Proof.
  intros Hs. rewrite (signed_Verify v token p) by done.
  destruct Hs as (p64 & s64 & b & sig & pk' & -> & Hn & Hp & Hq & Dp & Ds & U & K & V).
  split_and!.
  - intros Hk. apply signed_Verify. exists p64, s64, b, sig, pk'. cbn.
    rewrite lookup_insert_ne by congruence. done.
  - intros Hk. apply signed_Verify. exists p64, s64, b, sig, pk'. cbn.
    rewrite lookup_delete_ne by done. done.
  - intros <-. rewrite Verify_dot by done. unfold verify_parts. rewrite Dp, Ds, U. cbn [keys].
    rewrite lookup_delete_eq. eexists. split; [done|]. by eapply classify_chain.
Qed.

(** The constructor accepts exactly the non-empty maps of 32-byte keys, and
    then the verifier dispatches over that very map. *)
Theorem NewVerifier_spec ks :
  NewEd25519UploadTokenVerifier ks = Ok (MkVerifier ks) ↔
    ks ≠ ∅ ∧ map_Forall (λ _ pk, blen pk = PublicKeySize) ks.
Proof. apply NewVerifier_ok. Qed.

End Claims.

(** ** Witnesses *)

Definition ex_key : bytes := replicate 32 x01.
Definition ex_verifier : ed25519UploadTokenVerifier := MkVerifier {["op-2026" := ex_key]}.
Definition ex_payload : UploadTokenPayload := MkPayload "sha256:ab" 5 1800000000 1700000000 "op-2026".
Definition ex_token : string := mint (hmac_sha256 ex_key) ex_payload.

Lemma ex_payload_wf : payload_wf ex_payload.
Proof. unfold payload_wf. split_and!; try reflexivity; vm_compute; by split. Qed.

Lemma ex_token_signed : signed ex_verifier ex_token ex_payload.
Proof.
  eapply mint_signed; [apply ex_payload_wf|reflexivity| |vm_compute; reflexivity].
  intros E. apply (f_equal length) in E. by rewrite hmac_sha256_length in E.
Qed.

Lemma Verify_rejects_witness :
  ∃ e, Verify ex_verifier ex_token "sha256:ab" 6 0 = Some e ∧
    ∃ t, chain e = [t] ∧ documented_reason t = Some (classifyTokenError e) ∧
      (t ∈ claims_failures → ∃ p, signed ex_verifier ex_token p).
Proof.
  eexists. split; [vm_compute; reflexivity|].
  apply (Verify_rejects ex_verifier ex_token "sha256:ab" 6 0). vm_compute. reflexivity.
Defined.

Lemma extractKid_verified_witness :
  ∃ p, signed ex_verifier ex_token p ∧ claims_ok p "sha256:ab" 5 0 ∧
    extractKid ex_token = p_Kid p.
Proof. apply (extractKid_verified ex_verifier ex_token). vm_compute. reflexivity. Defined.

Lemma Verify_minted_witness :
  Verify ex_verifier (mint (hmac_sha256 ex_key) ex_payload) "sha256:ab" 5 0 = None.
Proof.
  apply (Verify_minted ex_verifier (hmac_sha256 ex_key) ex_payload ex_key).
  - apply ex_payload_wf.
  - reflexivity.
  - intros E. apply (f_equal length) in E. by rewrite hmac_sha256_length in E.
  - vm_compute. reflexivity.
  - vm_compute. by split_and!.
Defined.

Lemma Verify_rotation_witness :
  ∃ e, Verify (MkVerifier (delete "op-2026" (keys ex_verifier))) ex_token "sha256:ab" 5 0 = Some e ∧
    classifyTokenError e = "token_unknown_kid".
Proof.
  apply (Verify_rotation ex_verifier "op-2026" ex_key ex_token ex_payload "sha256:ab" 5 0);
    [apply ex_token_signed|reflexivity].
Defined.
