(* ===== verification/Config.v ===== *)
(** * config/config.go: settings from the environment

    [Load] reads every setting from an environment (a function from names to
    values, the empty string when unset), applies the defaults and validates. *)

From S2P Require Import Prelude GoStrings Json Storage Backends Reference.

Open Scope Z_scope.

Module config.

Record Config := MkConfig {
  Backend : string; Endpoint : string; Bucket : string; Region : string;
  PathStyle : bool; Prefix : string;
  MirrorBackend : string; MirrorEndpoint : string; MirrorBucket : string; MirrorMode : string;
  VerifyOnPush : bool;
  Env : string;
  RequireUploadToken : string; OperatorPubKeys : string; OperatorPubKeysDir : string;
  DefaultResolveExpiry : Z;
  ListenAddr : string; MaxBodySize : Z;
  KeyService : string;
  VaultEndpoint : string; VaultToken : string; VaultTransitMount : string;
  VaultKVMount : string; VaultKVNamespace : string;
  GCPKMSKEKResource : string; GCPFirestoreProjectID : string;
  GCPFirestoreDatabase : string; GCPFirestoreCollection : string;
  PKCS11ModulePath : string; PKCS11TokenLabel : string; PKCS11Pin : string }.

(** [os.Getenv]. *)
Definition environ : Type := string → string.

Definition envOrDefault (env : environ) (key fallback : string) : string :=
  if negb (String.eqb (env key) "") then env key else fallback.

Definition envBool (env : environ) (key : string) (fallback : bool) : bool :=
  let v := env key in
  if String.eqb v "" then fallback
  else match ParseBool v with Some b => b | None => fallback end.

Definition envInt64 (env : environ) (key : string) (fallback : Z) : Z :=
  let v := env key in
  if String.eqb v "" then fallback
  else match ParseInt v with Some n => n | None => fallback end.

Definition envDuration (env : environ) (key : string) (fallback : Z) : Z :=
  let v := env key in
  if String.eqb v "" then fallback
  else match ParseInt v with Some secs => wrap64 (secs * Second) | None => fallback end.

(** [64 << 20]. *)
Definition default_max_body : Z := Z.shiftl 64 20.

(** The struct literal of [Load]. *)
Definition read_env (env : environ) : Config := {|
  Backend := envOrDefault env "ARTIFACT_BACKEND" "memory";
  Endpoint := env "ARTIFACT_ENDPOINT";
  Bucket := envOrDefault env "ARTIFACT_BUCKET" "ortholog-artifacts";
  Region := envOrDefault env "ARTIFACT_REGION" "us-east-1";
  PathStyle := envBool env "ARTIFACT_PATH_STYLE" false;
  Prefix := env "ARTIFACT_PREFIX";
  MirrorBackend := env "ARTIFACT_MIRROR_BACKEND";
  MirrorEndpoint := env "ARTIFACT_MIRROR_ENDPOINT";
  MirrorBucket := env "ARTIFACT_MIRROR_BUCKET";
  MirrorMode := envOrDefault env "ARTIFACT_MIRROR_MODE" "sync";
  VerifyOnPush := envBool env "ARTIFACT_VERIFY_ON_PUSH" true;
  Env := envOrDefault env "ORTHOLOG_ENV" "dev";
  RequireUploadToken := envOrDefault env "ARTIFACT_REQUIRE_UPLOAD_TOKEN" "off";
  OperatorPubKeys := env "ARTIFACT_OPERATOR_PUBKEYS";
  OperatorPubKeysDir := env "ARTIFACT_OPERATOR_PUBKEYS_DIR";
  DefaultResolveExpiry := envDuration env "ARTIFACT_RESOLVE_EXPIRY" (3600 * Second);
  ListenAddr := envOrDefault env "ARTIFACT_LISTEN_ADDR" ":8082";
  MaxBodySize := envInt64 env "ARTIFACT_MAX_BODY_SIZE" default_max_body;
  KeyService := envOrDefault env "ARTIFACT_KEYSERVICE" "vault";
  VaultEndpoint := envOrDefault env "ARTIFACT_VAULT_ENDPOINT" "http://127.0.0.1:8200";
  VaultToken := env "ARTIFACT_VAULT_TOKEN";
  VaultTransitMount := envOrDefault env "ARTIFACT_VAULT_TRANSIT_MOUNT" "transit";
  VaultKVMount := envOrDefault env "ARTIFACT_VAULT_KV_MOUNT" "secret";
  VaultKVNamespace := envOrDefault env "ARTIFACT_VAULT_KV_NAMESPACE" "artifact-keys";
  GCPKMSKEKResource := env "ARTIFACT_GCP_KMS_KEK_RESOURCE";
  GCPFirestoreProjectID := env "ARTIFACT_GCP_FIRESTORE_PROJECT_ID";
  GCPFirestoreDatabase := envOrDefault env "ARTIFACT_GCP_FIRESTORE_DATABASE" "(default)";
  GCPFirestoreCollection :=
    envOrDefault env "ARTIFACT_GCP_FIRESTORE_COLLECTION" "ortholog-artifact-keys";
  PKCS11ModulePath :=
    envOrDefault env "ARTIFACT_PKCS11_MODULE_PATH" "/usr/lib/softhsm/libsofthsm2.so";
  PKCS11TokenLabel := env "ARTIFACT_PKCS11_TOKEN_LABEL";
  PKCS11Pin := env "ARTIFACT_PKCS11_PIN" |}.

Definition set_MaxBodySize (n : Z) (c : Config) : Config :=
  MkConfig (Backend c) (Endpoint c) (Bucket c) (Region c) (PathStyle c) (Prefix c)
    (MirrorBackend c) (MirrorEndpoint c) (MirrorBucket c) (MirrorMode c) (VerifyOnPush c) (Env c)
    (RequireUploadToken c) (OperatorPubKeys c) (OperatorPubKeysDir c) (DefaultResolveExpiry c)
    (ListenAddr c) n (KeyService c) (VaultEndpoint c) (VaultToken c) (VaultTransitMount c)
    (VaultKVMount c) (VaultKVNamespace c) (GCPKMSKEKResource c) (GCPFirestoreProjectID c)
    (GCPFirestoreDatabase c) (GCPFirestoreCollection c) (PKCS11ModulePath c) (PKCS11TokenLabel c)
    (PKCS11Pin c).

Definition one_of (s : string) (l : list string) : bool := existsb (String.eqb s) l.

(** A required setting of the selected key service. *)
Definition required (name tier value : string) : Result () :=
  if String.eqb value "" then
    Err (errors_New ("config: " +:+ name +:+ " is required when ARTIFACT_KEYSERVICE=" +:+ tier))
  else Ok ().

(** The key-service switch of [validate]. *)
Definition validate_keyservice `{Diag} (c : Config) : Result () :=
  let ks := KeyService c in
  if String.eqb ks "memory" then Ok ()
  else if String.eqb ks "vault" then required "ARTIFACT_VAULT_TOKEN" "vault" (VaultToken c)
  else if String.eqb ks "gcpkms" then
    _ ← required "ARTIFACT_GCP_KMS_KEK_RESOURCE" "gcpkms" (GCPKMSKEKResource c);
    required "ARTIFACT_GCP_FIRESTORE_PROJECT_ID" "gcpkms" (GCPFirestoreProjectID c)
  else if String.eqb ks "pkcs11" then
    _ ← required "ARTIFACT_PKCS11_TOKEN_LABEL" "pkcs11" (PKCS11TokenLabel c);
    required "ARTIFACT_PKCS11_PIN" "pkcs11" (PKCS11Pin c)
  else Err (errors_New ("config: unknown ARTIFACT_KEYSERVICE " +:+ Quote ks
              +:+ " (want vault, gcpkms, pkcs11, or memory)")).

(** [validate], with the one field it corrects in place. *)
Definition validate `{Diag} (c : Config) : Result Config :=
  if negb (one_of (Backend c) ["gcs"; "rustfs"; "memory"]) then
    Err (errors_New ("config: unknown backend " +:+ Quote (Backend c)
      +:+ " (want gcs, rustfs, or memory)"))
  else if negb (String.eqb (MirrorBackend c) "")
          && negb (one_of (MirrorBackend c) ["gcs"; "rustfs"]) then
    Err (errors_New ("config: unknown mirror backend " +:+ Quote (MirrorBackend c)
      +:+ " (want gcs or rustfs)"))
  else if negb (String.eqb (MirrorMode c) "sync") then
    Err (errors_New ("config: unknown mirror mode " +:+ Quote (MirrorMode c) +:+ " (want sync)"))
  else
    let c := if MaxBodySize c <=? 0 then set_MaxBodySize default_max_body c else c in
    if negb (one_of (RequireUploadToken c) ["off"; "optional"; "required"]) then
      Err (errors_New ("config: unknown ARTIFACT_REQUIRE_UPLOAD_TOKEN "
        +:+ Quote (RequireUploadToken c) +:+ " (want off, optional, required)"))
    else _ ← validate_keyservice c; Ok c.

Definition Load `{Diag} (env : environ) : Result Config := validate (read_env env).

(** ** What a loaded configuration satisfies *)

Definition keyservice_ok (c : Config) : Prop :=
  KeyService c = "memory" ∨
  (KeyService c = "vault" ∧ VaultToken c ≠ "") ∨
  (KeyService c = "gcpkms" ∧ GCPKMSKEKResource c ≠ "" ∧ GCPFirestoreProjectID c ≠ "") ∨
  (KeyService c = "pkcs11" ∧ PKCS11TokenLabel c ≠ "" ∧ PKCS11Pin c ≠ "").

Record config_ok (c : Config) : Prop := {
  ok_backend : Backend c ∈ ["gcs"; "rustfs"; "memory"];
  ok_mirror : MirrorBackend c ∈ [""; "gcs"; "rustfs"];
  ok_mode : MirrorMode c = "sync";
  ok_policy : RequireUploadToken c ∈ ["off"; "optional"; "required"];
  ok_keyservice : keyservice_ok c }.

(** A non-positive body limit is replaced by the default. *)
Definition with_body_limit (c : Config) : Config :=
  if MaxBodySize c <=? 0 then set_MaxBodySize default_max_body c else c.

Lemma one_of_spec s l : one_of s l = true ↔ s ∈ l.
Proof.
  unfold one_of. rewrite existsb_exists. split.
  - intros (x & Hx & ->%String.eqb_eq). by apply list_elem_of_In.
  - intros Hx. exists s. split; [by apply list_elem_of_In|apply String.eqb_refl].
Qed.

Lemma required_Ok name tier v u : required name tier v = Ok u ↔ v ≠ "".
Proof. unfold required. destruct u, (String.eqb_spec v ""); naive_solver. Qed.

Lemma validate_keyservice_Ok `{Diag} c u : validate_keyservice c = Ok u ↔ keyservice_ok c.
Proof.
  unfold validate_keyservice, keyservice_ok.
  destruct (String.eqb_spec (KeyService c) "memory") as [E|E1];
    [split; [by left|by destruct u]|].
  destruct (String.eqb_spec (KeyService c) "vault") as [E|E2].
  { rewrite required_Ok, E. naive_solver. }
  destruct (String.eqb_spec (KeyService c) "gcpkms") as [E|E3].
  { rewrite bind_Ok, E. setoid_rewrite required_Ok. naive_solver. }
  destruct (String.eqb_spec (KeyService c) "pkcs11") as [E|E4].
  { rewrite bind_Ok, E. setoid_rewrite required_Ok. naive_solver. }
  naive_solver.
Qed.

Lemma keyservice_ok_limit c : keyservice_ok (with_body_limit c) ↔ keyservice_ok c.
Proof. unfold with_body_limit. by destruct (MaxBodySize c <=? 0). Qed.

Lemma with_body_limit_policy c : RequireUploadToken (with_body_limit c) = RequireUploadToken c.
Proof. unfold with_body_limit. by destruct (MaxBodySize c <=? 0). Qed.

Lemma validate_Ok `{Diag} c c' :
  validate c = Ok c' ↔ config_ok c ∧ c' = with_body_limit c.
Proof.
  unfold validate. fold (with_body_limit c). cbv zeta.
  destruct (one_of (Backend c) _) eqn:Hb; cbn [negb]; [apply one_of_spec in Hb|].
  2: { split; [done|]. intros [[Hx%one_of_spec _ _ _ _] _]. by rewrite Hb in Hx. }
  destruct (negb (String.eqb (MirrorBackend c) "") && negb (one_of (MirrorBackend c) _)) eqn:Hm.
  { split; [done|]. intros [[_ Hx _ _ _] _]. apply andb_true_iff in Hm as [H1 H2].
    apply negb_true_iff, String.eqb_neq in H1. apply elem_of_cons in Hx as [?|Hx%one_of_spec]; [done|].
    by rewrite Hx in H2. }
  assert (MirrorBackend c ∈ [""; "gcs"; "rustfs"]) as Hmir.
  { apply andb_false_iff in Hm as [H1|H1]; apply negb_false_iff in H1.
    - apply String.eqb_eq in H1 as ->. by left.
    - right. by apply one_of_spec. }
  destruct (String.eqb_spec (MirrorMode c) "sync") as [Hmode|Hmode]; cbn [negb].
  2: { split; [done|]. by intros [[_ _ ? _ _] _]. }
  rewrite with_body_limit_policy.
  destruct (one_of (RequireUploadToken c) _) eqn:Hp; cbn [negb]; [apply one_of_spec in Hp|].
  2: { split; [done|]. intros [[_ _ _ Hx%one_of_spec _] _]. by rewrite Hp in Hx. }
  rewrite bind_Ok. setoid_rewrite validate_keyservice_Ok. setoid_rewrite keyservice_ok_limit. split.
  - intros (_ & Hk & [= <-]). by repeat split.
  - intros [[_ _ _ _ Hk] ->]. by exists ().
Qed.

(** Loading succeeds exactly when every enumerated setting has a known value and
    the selected key service has its required settings; the result is the
    settings read, with a non-positive body limit replaced by the 64 MiB
    default. *)
Theorem Load_spec `{Diag} env c :
  Load env = Ok c ↔ config_ok (read_env env) ∧ c = with_body_limit (read_env env).
Proof. apply validate_Ok. Qed.

Lemma Load_keyservice `{Diag} env c : Load env = Ok c → keyservice_ok c.
Proof. intros [[_ _ _ _ Hk] ->]%validate_Ok. by apply keyservice_ok_limit. Qed.

(** The integers a configuration holds are in range. *)
Lemma read_env_int64 env : in_int64 (MaxBodySize (read_env env)).
Proof.
  cbn. unfold envInt64. destruct (String.eqb _ ""); [by vm_compute|].
  destruct (ParseInt (env "ARTIFACT_MAX_BODY_SIZE")) as [n|] eqn:E; [|by vm_compute].
  by eapply ParseInt_range.
Qed.

(** C36. Type invariant of a loaded configuration: a known backend, mirror, policy
    and key service, the key service's settings present, and a body limit that
    is positive and an [int64]. *)
Theorem Load_well_formed `{Diag} env c :
  Load env = Ok c → config_ok c ∧ 0 < MaxBodySize c ≤ max_int64.
Proof.
  intros [Hok ->]%validate_Ok. split.
  - destruct Hok as [Hb Hm Hmo Hp Hk]. apply keyservice_ok_limit in Hk as Hk'.
    unfold with_body_limit in *. destruct (MaxBodySize (read_env env) <=? 0); by split.
  - pose proof (read_env_int64 env) as [_ Hmax]. unfold with_body_limit.
    destruct (Z.leb_spec (MaxBodySize (read_env env)) 0); [by vm_compute|lia].
Qed.

(** The unset environment is refused for its missing Vault token and for nothing
    else; with the key service in memory it loads as an unauthenticated,
    digest-verifying, in-memory store with a 64 MiB limit. *)
Theorem Load_defaults `{Diag} :
  Load (λ _, "") =
    Err (errors_New "config: ARTIFACT_VAULT_TOKEN is required when ARTIFACT_KEYSERVICE=vault") ∧
  ∃ c, Load (λ k, if String.eqb k "ARTIFACT_KEYSERVICE" then "memory" else "") = Ok c ∧
    Backend c = "memory" ∧ MirrorBackend c = "" ∧ VerifyOnPush c = true ∧
    RequireUploadToken c = "off" ∧ MaxBodySize c = 67108864 ∧
    DefaultResolveExpiry c = 3600 * Second.
Proof. split; [reflexivity|]. eexists. split; [reflexivity|]. by vm_compute. Qed.

(** Witness: a production environment. *)
Definition ex_env (k : string) : string :=
  if String.eqb k "ARTIFACT_KEYSERVICE" then "vault"
  else if String.eqb k "ARTIFACT_VAULT_TOKEN" then "s.token"
  else if String.eqb k "ARTIFACT_BACKEND" then "gcs"
  else if String.eqb k "ARTIFACT_MAX_BODY_SIZE" then "-1" else "".

Lemma Load_well_formed_witness :
  ∃ c, Load ex_env = Ok c ∧ config_ok c ∧ 0 < MaxBodySize c ≤ max_int64.
Proof.
  eexists. split; [vm_compute; reflexivity|].
  apply (Load_well_formed ex_env). vm_compute. reflexivity.
Defined.
End config.
