(* ===== verification/KeyServices.v ===== *)
(** * cmd/artifact-store/keyservice.go, and what all key services share

    The selection of a key service from the configuration; the two properties
    that hold of the services on any network or token: key material is wiped,
    and an outage is reported as such; and the round trip of all three. *)

From S2P Require Import Prelude GoStrings Encoding Json Storage Http AesGcm KeyService KeyRest GcpKms Vault Pkcs11 Config.

Open Scope Z_scope.

(** ** Selection *)

(** The service constructed, with the configuration its constructor kept. *)
Inductive Selected (W T : Type) :=
  | SelMemory
  | SelVault (cfg : VaultTransitConfig)
  | SelGCPKMS (cfg : GCPKMSConfig) (client : Client W)
  | SelPKCS11 (cfg : PKCS11Config) (ctx : Ctx T) (slotID : N).
Arguments SelMemory {W T}.
Arguments SelVault {W T} _.
Arguments SelGCPKMS {W T} _ _.
Arguments SelPKCS11 {W T} _ _ _.

Definition on_error {W T} (pre : string) (r : Result (Selected W T)) : Result (Selected W T) :=
  map_err (λ e, wrapf pre e "") r.

(** [initKeyService].  [adc] is the client of the default credentials, [load]
    is [pkcs11.New]. *)
Definition initKeyService `{Diag} {W T} (adc : Result (Client W)) (load : string → option (Ctx T))
    (c : config.Config) : M T (Result (Selected W T)) :=
  let ks := config.KeyService c in
  if String.eqb ks "memory" then mret (Ok SelMemory)
  else if String.eqb ks "vault" then
    mret (on_error "vault keyservice: "
      (v ← NewVaultTransit (MkVault (config.VaultEndpoint c) (config.VaultToken c)
              (config.VaultTransitMount c) (config.VaultKVMount c) (config.VaultKVNamespace c));
       Ok (SelVault v)))
  else if String.eqb ks "gcpkms" then
    mret (on_error "gcpkms keyservice: "
      ('(g, client) ← NewGCPKMS (MkGCPKMS (config.GCPKMSKEKResource c) (config.GCPFirestoreProjectID c)
              (config.GCPFirestoreDatabase c) (config.GCPFirestoreCollection c) "" "") None adc;
       Ok (SelGCPKMS g client)))
  else if String.eqb ks "pkcs11" then
    r ← NewPKCS11 load (MkPKCS11 (config.PKCS11ModulePath c) (config.PKCS11TokenLabel c)
          (config.PKCS11Pin c) "");
    mret (on_error "pkcs11 keyservice: "
      ('(p, ctx, slot) ← r; Ok (SelPKCS11 p ctx slot)))
  else mret (Err (errors_New ("unknown keyservice " +:+ Quote ks))).

(** The default Vault endpoint stands in for an unset one. *)
Lemma loaded_endpoint `{Diag} env c : config.Load env = Ok c → config.VaultEndpoint c ≠ "".
Proof.
  intros [_ ->]%config.validate_Ok. unfold config.with_body_limit.
  assert (config.VaultEndpoint (config.read_env env) ≠ "") as Hn.
  { cbn. unfold config.envOrDefault. by destruct (String.eqb_spec (env "ARTIFACT_VAULT_ENDPOINT") ""). }
  by destruct (_ <=? 0).
Qed.

(** Selection after a successful [config.Load]: the memory and the Vault
    service are always constructed; the GCP one exactly when the KEK resource
    name starts with [projects/] and default credentials exist; and no
    selection is unknown. *)
Theorem initKeyService_loaded `{Diag} {W T} (adc : Result (Client W)) (load : string → option (Ctx T)) env c t :
  config.Load env = Ok c →
  let r := run_val (initKeyService adc load c) t in
  let ks := config.KeyService c in
  (ks = "memory" ∧ r = Ok SelMemory) ∨
  (ks = "vault" ∧ ∃ v, r = Ok (SelVault v) ∧ Token v = config.VaultToken c ∧ Token v ≠ "") ∨
  (ks = "gcpkms" ∧
    (is_Ok r = HasPrefix (config.GCPKMSKEKResource c) "projects/" && is_Ok adc) ∧
    ∀ g client, r = Ok (SelGCPKMS g client) → adc = Ok client) ∨
  (ks = "pkcs11" ∧ ∀ sel, r = Ok sel → ∃ p ctx slot, sel = SelPKCS11 p ctx slot ∧
    load (config.PKCS11ModulePath c) = Some ctx ∧ KeyLabelPrefix p = "artifact-").
Proof.
  intros HL r ks. pose proof (loaded_endpoint env c HL) as Hend.
  apply config.Load_keyservice in HL as Hk. subst r ks. unfold initKeyService.
  destruct Hk as [->|[[-> Hv]|[(-> & Hg & Hp)|(-> & Hl & Hpin)]]]; cbn [String.eqb Ascii.eqb Bool.eqb].
  - by left.
  - right. left. split; [done|]. run. unfold NewVaultTransit. cbn [Endpoint Token].
    apply String.eqb_neq in Hend as ->. pose proof Hv as Hv'. apply String.eqb_neq in Hv' as ->.
    by eexists.
  - right. right. left. split; [done|]. run. unfold NewGCPKMS. cbn [KEKResourceName FirestoreProjectID].
    apply String.eqb_neq in Hg as ->. apply String.eqb_neq in Hp as ->.
    destruct (HasPrefix (config.GCPKMSKEKResource c) "projects/"); [|done]. cbn [negb].
    destruct adc as [client|e]; [|done]. split; [done|]. by intros g cl [= _ ->].
  - right. right. right. split; [done|]. intros sel. run.
    apply String.eqb_neq in Hl, Hpin. unfold NewPKCS11. cbn [ModulePath TokenLabel Pin KeyLabelPrefix].
    rewrite Hl, Hpin. destruct (String.eqb (config.PKCS11ModulePath c) ""); [by run|].
    destruct (load (config.PKCS11ModulePath c)) as [ctx|]; [|by run]. run.
    destruct (run_val (Initialize ctx) t); [by run|]. run.
    destruct (run_val (findSlotByTokenLabel ctx _) _) as [slot|e]; run; [|done].
    intros [= <-]. by eexists _, _, _.
Qed.

(** ** Key material is wiped *)


Section Pkcs11Wipes.
Context `{SDK} `{Diag} {G T : Type} `{ArtifactSDK (G * Module T)}.
Variables (ctx : Ctx T) (cfg : PKCS11Config) (slotID : N).









(** Without the nonce the copy of the key stays in memory. *)
Lemma readKeyMaterial_leaks sh oh got (s : (G * Module T) * Proc) :
  run_val (GetAttributeValue ctx sh oh [(CKA_VALUE, VNil); (CKA_ID, VNil)]) (hsm s.1.2) = POk got →
  attr_of CKA_ID got = [] →
  mem (run_state (readKeyMaterial ctx sh oh) s).2 = mem s.2 ++ [attr_of CKA_VALUE got].
Proof.
  intros Hg Hn. unfold readKeyMaterial. prun. rewrite Hg. prun. rewrite Hn.
  change (blen [] =? 0) with true. rewrite orb_true_r. by prun.
Qed.
End Pkcs11Wipes.


(** When it does not, the key drawn before it stays in memory. *)
Lemma seal_fresh_leaks `{SDK} `{ArtifactSDK W} tag pt s key e :
  run_val (ReadFull KeySize) s.1 = Ok key →
  run_val (ReadFull NonceSize) (run_state (ReadFull KeySize) s.1) = Err e →
  mem (run_state (seal_fresh tag pt) s).2 = mem s.2 ++ [key].
Proof. intros Hk Hn. unfold seal_fresh. prun. rewrite Hk. prun. rewrite Hn. by prun. Qed.


(** ** Round trips *)

(** From every state that holds a keyring: the plaintext is sealed under the key
    and nonce drawn; if the CID of that ciphertext is not taken,
    [GenerateAndEncrypt] returns the pair, and [Decrypt] of the pair, in the
    state it leaves, gives the plaintext back. *)
Definition round_trips `{SDK} `{ArtifactSDK W} (ks : ArtifactKeyService (W * Proc))
    (R : W → keyring → Prop) (draw : W → bytes * bytes) : Prop :=
  ∀ pt s m key nonce, R s.1 m → draw s.1 = (key, nonce) → ∃ ct,
    aesGCMSeal key nonce pt = Ok ct ∧
    (m !! key_id (Compute ct) = None →
      run_val (GenerateAndEncrypt ks pt) s = Ok (Compute ct, ct) ∧
      run_val (Decrypt ks (Compute ct) ct) (run_state (GenerateAndEncrypt ks pt) s) = Ok pt).

Lemma contract_round_trips `{SDK} `{ArtifactSDK W} (ks : ArtifactKeyService (W * Proc)) R draw :
  KeyContract ks R draw → round_trips ks R draw.
Proof.
  intros HC pt s m key nonce HR Hd.
  destruct (generate_then_decrypt ks R draw pt s m key nonce HR Hd) as (ct & Hs & Hg).
  exists ct. split; [done|]. intros Hf. by destruct (Hg Hf) as (? & ? & _).
Qed.

(** C25. Round trip of the three key services: over the fake Cloud KMS and Firestore,
    over any Vault server that behaves as documented, and over any PKCS#11 token
    that behaves as the standard says: for every plaintext and every state the
    key and nonce drawn seal the plaintext, and unless a key is filed already
    under the CID of that ciphertext, [GenerateAndEncrypt] returns the pair and
    [Decrypt] turns it back into the plaintext. *)
Theorem services_round_trip `{SDK} `{Diag} {G F T} `{VaultState F} `{TokenState T}
    `{ArtifactSDK (G * GCPFake)} `{!ArtifactSDKLaws (G * GCPFake)} `{!QuietSDK (G:=G) (F:=GCPFake)}
    `{ArtifactSDK (G * F)} `{!ArtifactSDKLaws (G * F)} `{!QuietSDK (G:=G) (F:=F)}
    `{ArtifactSDK (G * Module T)} `{!ArtifactSDKLaws (G * Module T)} `{!QuietSDK (G:=G) (F:=Module T)}
    gcfg (vclient : Client (G * F)) vcfg `{!HonestTransit vclient vcfg} `{!HonestKV vclient vcfg}
    (ctx : Ctx T) pcfg slotID `{!HonestToken ctx (Pin pcfg)} :
  clean (KEKResourceName gcfg) = true → clean (firestoreParentPath gcfg) = true →
  (∀ rest, HasPrefix (FirestoreEndpoint gcfg +:+ "/" +:+ rest) (KMSEndpoint gcfg +:+ "/") = false) →
  (∀ d, Digest (Compute d) ≠ []) →
  round_trips (GCPKMS (gcp_fakes (G:=G) gcfg) gcfg) (gcp_holds gcfg) rand_draw ∧
  round_trips (VaultTransit vclient vcfg) vault_holds rand_draw ∧
  round_trips (PKCS11 ctx pcfg slotID) (p11_holds pcfg) p11_draw.
Proof.
  intros Hk Hp Hh Hd. split_and!; apply contract_round_trips;
    [by apply gcp_contract|by apply vault_contract|by apply p11_contract].
Qed.

(** ** Outages *)

Section Outage.
Context `{SDK} `{Diag} `{ArtifactSDK W} `{!ArtifactSDKLaws W}.
Variable client : Client W.

(** No request gets through: each fails in transport or is answered with a
    server error. *)
Definition outage : Prop := ∀ req w,
  url_err client (h_URL req) = None ∧
  match run_val (Do client req) w with Err _ => True | Ok resp => 500 ≤ StatusCode resp end.

Definition unavailable (e : error) : Prop := errors_Is e ErrServiceUnavailable = true.

(** ... and is not the not-found marker a deletion forgives. *)
Definition down (e : error) : Prop :=
  unavailable e ∧ errors_Is e ErrVaultNotFound = false ∧ errors_Is e ErrGCPNotFound = false.

(** What an API call makes of an outage. *)
Lemma do_json_outage tag hdr method url body w : outage →
  match run_val (do_json client tag hdr method url body) w with
  | Err e => down e
  | Ok resp => 500 ≤ StatusCode resp
  end.
Proof.
  intros Ho. unfold do_json.
  match goal with |- context [Do client ?req] => destruct (Ho req w) as [Hu Hr] end.
  cbn [h_URL] in Hu. rewrite Hu. run. destruct (run_val (Do client _) w) as [resp|e]; cbn [map_err]; [done|].
  unfold down, unavailable. rewrite !errors_Is_wrapf, errors_Is_sdk_err. done.
Qed.

(** The statuses the clients accept or single out are not server errors. *)
Lemma outage_status resp : 500 ≤ StatusCode resp →
  (StatusCode resp =? StatusOK) = false ∧ (StatusCode resp =? StatusCreated) = false ∧
  (StatusCode resp =? StatusNoContent) = false ∧ (StatusCode resp =? StatusNotFound) = false.
Proof.
  unfold StatusOK, StatusCreated, StatusNoContent, StatusNotFound.
  intros. repeat split; apply Z.eqb_neq; lia.
Qed.

Lemma fmt_outage tag op resp : 500 ≤ StatusCode resp → down (fmt_api_err tag op resp).
Proof.
  intros Hs. unfold down, unavailable. destruct (fmt_api_err_class tag op resp) as (-> & -> & ->).
  by apply Z.leb_le in Hs as ->.
Qed.

(** One API call during an outage, by its [do]. *)
Ltac outage_call Ho :=
  run;
  match goal with |- context [run_val (do_json ?c ?t ?h ?m ?u ?b) ?w] =>
    let Hd := fresh "Hd" in
    pose proof (do_json_outage t h m u b w Ho) as Hd;
    destruct (run_val (do_json c t h m u b) w) as [resp|e];
    [destruct (outage_status resp Hd) as (? & ? & ? & ?); unfold ok_or_no_content;
     repeat match goal with E : (StatusCode resp =? _) = false |- _ => rewrite E; clear E end;
     cbn [negb orb]; run; eexists; split; [done|by apply fmt_outage]
    |run; by eexists]
  end.

Section GcpCalls.
Variable gcfg : GCPKMSConfig.

Lemma firestoreGet_outage doc w : outage →
  ∃ e, run_val (firestoreGetWrapped client gcfg doc) w = Err e ∧ down e.
Proof. intros Ho. unfold firestoreGetWrapped, gcp_do, fmtGCPErr. outage_call Ho. Qed.
Lemma kmsEncrypt_outage b w : outage → ∃ e, run_val (kmsEncrypt client gcfg b) w = Err e ∧ down e.
Proof. intros Ho. unfold kmsEncrypt, gcp_do, fmtGCPErr. outage_call Ho. Qed.
Lemma firestoreDelete_outage doc w : outage →
  ∃ e, run_val (firestoreDeleteWrapped client gcfg doc) w = Some e ∧ down e.
Proof. intros Ho. unfold firestoreDeleteWrapped, gcp_do, fmtGCPErr. outage_call Ho. Qed.
End GcpCalls.

Section VaultCalls.
Variable vcfg : VaultTransitConfig.

Lemma kvGet_outage c w : outage → ∃ e, run_val (kvGetWrapped client vcfg c) w = Err e ∧ down e.
Proof. intros Ho. unfold kvGetWrapped, vault_do, fmtVaultErr. outage_call Ho. Qed.
Lemma transitCreate_outage name w : outage →
  ∃ e, run_val (transitCreateKey client vcfg name) w = Some e ∧ down e.
Proof. intros Ho. unfold transitCreateKey, vault_do, fmtVaultErr. outage_call Ho. Qed.
Lemma kvDelete_outage c w : outage →
  ∃ e, run_val (kvDeleteMetadata client vcfg c) w = Some e ∧ down e.
Proof. intros Ho. unfold kvDeleteMetadata, vault_do, fmtVaultErr. outage_call Ho. Qed.
End VaultCalls.

(** Randomness delivers, so that the artifact is sealed. *)
Definition seals (s : W * Proc) (pt : bytes) : Prop :=
  is_Ok (run_val (seal_fresh "" pt) s) = true.

(** Every operation that gets as far as the service reports the outage. *)
Record reports_outage (ks : ArtifactKeyService (W * Proc)) (s : W * Proc) : Prop := {
  rep_generate pt : seals s pt →
    ∃ e, run_val (GenerateAndEncrypt ks pt) s = Err e ∧ unavailable e;
  rep_decrypt c ct : ∃ e, run_val (Decrypt ks c ct) s = Err e ∧ unavailable e;
  rep_wrap c pub pk : recipient pub = Ok pk →
    ∃ e, run_val (WrapForRecipient ks c pub) s = Err e ∧ unavailable e;
  rep_rotate c ct : ∃ e, run_val (Rotate ks c ct) s = (no_artifact, Some e) ∧ unavailable e;
  rep_delete c : ∃ e, run_val (ks_Delete ks c) s = Some e ∧ unavailable e }.

Lemma seals_tag s pt tag : seals s pt → ∃ r,
  run_val (seal_fresh tag pt) s = Ok r ∧ run_state (seal_fresh tag pt) s = run_state (seal_fresh "" pt) s.
Proof.
  unfold seals, seal_fresh. prun. destruct (run_val (ReadFull KeySize) s.1) as [key|]; [|done]. prun.
  destruct (run_val (ReadFull NonceSize) _) as [nonce|]; [|done]. prun.
  destruct (aesGCMSeal key nonce pt); [|by prun]. prun. eauto.
Qed.

Lemma decrypt_with_down tag unwrap ct s e :
  run_val unwrap s.1 = Err e → run_val (decrypt_with tag unwrap ct) s = Err e.
Proof. intros E. unfold decrypt_with. prun. by rewrite E. Qed.
Lemma wrap_with_down tag unwrap pk s e :
  run_val unwrap s.1 = Err e → run_val (wrap_with tag unwrap pk) s = Err e.
Proof. intros E. unfold wrap_with. prun. by rewrite E. Qed.
Lemma rotate_with_down tag dec gen del c ct (s : W * Proc) e :
  run_val (dec c ct) s = Err e → run_val (rotate_with tag dec gen del c ct) s = (no_artifact, Some e).
Proof. intros E. unfold rotate_with. prun. by rewrite E. Qed.

(** Outage reporting: when no request gets through (a transport failure or
    an HTTP status of 500 and above), every operation of the Vault and of the
    GCP key service fails with [ErrServiceUnavailable], never with
    [ErrKeyNotFound] or a silent success; [Rotate] returns no artifact. *)
Theorem outage_reported gcfg vcfg s :
  outage → reports_outage (GCPKMS client gcfg) s ∧ reports_outage (VaultTransit client vcfg) s.
Proof.
  intros Ho.
  assert (∀ c w, ∃ e, run_val (gcp_unwrap client gcfg c) w = Err e ∧ down e) as Hgu.
  { intros c w. unfold gcp_unwrap. run.
    destruct (firestoreGet_outage gcfg (docID c) w Ho) as (e & -> & He). run. eauto. }
  assert (∀ c w, ∃ e, run_val (vault_unwrap client vcfg c) w = Err e ∧ down e) as Hvu.
  { intros c w. unfold vault_unwrap. run.
    destruct (kvGet_outage vcfg c w Ho) as (e & -> & He). run. eauto. }
  split; constructor;
    cbn [GenerateAndEncrypt WrapForRecipient Decrypt Rotate ks_Delete GCPKMS VaultTransit].
  - intros pt Hs. destruct (seals_tag _ _ gcp_tag Hs) as ([[k n] ct] & Hv & _).
    unfold gcp_GenerateAndEncrypt. prun. rewrite Hv. prun.
    match goal with |- context [run_val (kmsEncrypt client gcfg ?b) ?w] =>
      destruct (kmsEncrypt_outage gcfg b w Ho) as (e & -> & He & _) end. prun. eauto.
  - intros c ct. destruct (Hgu c s.1) as (e & E & He & _). exists e. split; [by apply decrypt_with_down|done].
  - intros c pub pk Hp. destruct (Hgu c s.1) as (e & E & He & _). unfold gcp_WrapForRecipient. rewrite Hp.
    exists e. split; [by apply wrap_with_down|done].
  - intros c ct. destruct (Hgu c s.1) as (e & E & He & _). exists e.
    split; [by apply rotate_with_down, decrypt_with_down|done].
  - intros c. unfold gcp_Delete. prun.
    destruct (firestoreDelete_outage gcfg (docID c) s.1 Ho) as (e & -> & He & _ & Hn). rewrite Hn. run. eauto.
  - intros pt Hs. destruct (seals_tag _ _ vault_tag Hs) as ([[k n] ct] & Hv & _).
    unfold vault_GenerateAndEncrypt. prun. rewrite Hv. prun.
    match goal with |- context [run_val (transitCreateKey client vcfg ?b) ?w] =>
      destruct (transitCreate_outage vcfg b w Ho) as (e & -> & He & _) end. prun. eauto.
  - intros c ct. destruct (Hvu c s.1) as (e & E & He & _). exists e. split; [by apply decrypt_with_down|done].
  - intros c pub pk Hp. destruct (Hvu c s.1) as (e & E & He & _). unfold vault_WrapForRecipient. rewrite Hp.
    exists e. split; [by apply wrap_with_down|done].
  - intros c ct. destruct (Hvu c s.1) as (e & E & He & _). exists e.
    split; [by apply rotate_with_down, decrypt_with_down|done].
  - intros c. unfold vault_Delete. prun.
    destruct (kvDelete_outage vcfg c s.1 Ho) as (e & -> & He & Hn & _). cbn [hard_error]. rewrite Hn. run. eauto.
Qed.
End Outage.
