(* ===== verification/KeyWitnesses.v ===== *)
(** * The key-service theorems on concrete services

    A deterministic source of randomness, the GCP fakes, a Vault server and a
    PKCS#11 token as small state machines that satisfy the documented laws, and
    each theorem about the key services applied to them. *)

From Stdlib Require Import Ascii.
From S2P Require Import Prelude GoStrings Encoding Sha256 Json Url Storage Http Backends Reference AesGcm KeyService KeyRest Fakes GcpKms Vault Pkcs11 Config KeyServices.

Open Scope Z_scope.

(** ** The process's parameters *)

(** Randomness from a counter; a public key is its bytes, and ECIES appends it. *)
Definition ref_ReadFull {F} (n : nat) : M (N * F) (Result bytes) := λ '(g, f),
  (Ok (be_bytes n (N_of_bytes (sha256 (be_bytes 8 g)))), ((g + 1)%N, f), []).

#[export] Instance RefArtifactSDK F : ArtifactSDK (N * F) := {|
  KeySize := 32;
  NonceSize := 12;
  PublicKey := list Byte.byte;
  ParsePubKey b := Ok b;
  EncryptForNode km pk := mret (Ok (km ++ pk));
  ReadFull := ref_ReadFull |}.

#[export] Instance RefArtifactSDKLaws F : ArtifactSDKLaws (N * F).
Proof. by constructor. Qed.

#[export] Instance RefQuiet F : QuietSDK (G:=N) (F:=F).
Proof.
  constructor; [|by intros n []|done]. intros n [g f]. eexists. split; [done|]. apply be_bytes_length.
Qed.

(** ** Cloud KMS and Firestore *)

Definition ex_gcp : GCPKMSConfig :=
  MkGCPKMS "projects/p/locations/global/keyRings/r/cryptoKeys/k" "p" "(default)"
    "ortholog-artifact-keys" "http://127.0.0.1:9001" "http://127.0.0.1:9002".

Definition ex_gcp_client : Client (N * GCPFake) := gcp_fakes ex_gcp.
Definition ex_gcp_service : ArtifactKeyService ((N * GCPFake) * Proc) := GCPKMS ex_gcp_client ex_gcp.
Definition ex_gcp_state : (N * GCPFake) * Proc := ((7%N, MkGCPFake (replicate 32 x11) ∅), new_proc).

Lemma ex_digest_nonempty d : Digest (Compute d) ≠ [].
Proof. change (Digest (Compute d)) with (sha256 d). intros E. pose proof (sha256_length d) as Hl. by rewrite E in Hl. Qed.

Lemma gcpkms_conformance_witness :
  KeyContract ex_gcp_service (gcp_holds ex_gcp) rand_draw ∧ gcp_holds ex_gcp ex_gcp_state.1 ∅.
Proof.
  destruct (gcpkms_conformance (G:=N) ex_gcp) as [H1 H2];
    [reflexivity|reflexivity|reflexivity|apply ex_digest_nonempty|].
  split; [exact H2|]. by apply H1.
Defined.

Definition ex_contract : KeyContract ex_gcp_service (gcp_holds ex_gcp) rand_draw :=
  gcp_contract ex_gcp eq_refl eq_refl (λ _, eq_refl) ex_digest_nonempty.

Lemma ex_gcp_holds : gcp_holds ex_gcp ex_gcp_state.1 ∅.
Proof. split; [done|]. intros l. by rewrite !lookup_empty. Qed.

Definition ex_secret : bytes := to_bytes "attack at dawn".

Lemma delete_erases_witness :
  run_val (ks_Delete ex_gcp_service (Compute ex_secret)) ex_gcp_state = None ∧
  ∃ e, run_val (Decrypt ex_gcp_service (Compute ex_secret) ex_secret)
    (run_state (ks_Delete ex_gcp_service (Compute ex_secret)) ex_gcp_state) = Err e ∧
    errors_Is e ErrKeyNotFound = true.
Proof.
  destruct (delete_erases ex_gcp_service (gcp_holds ex_gcp) rand_draw (KeyContract0:=ex_contract)
    (Compute ex_secret) ex_gcp_state ∅ ex_gcp_holds) as (H1 & _ & H2 & _).
  split; [exact H1|apply H2].
Defined.

(** The ciphertext of the first generation, and the state after it. *)
Definition ex_ct : bytes := Eval vm_compute in
  match run_val (GenerateAndEncrypt ex_gcp_service ex_secret) ex_gcp_state with
  | Ok (_, ct) => ct
  | Err _ => []
  end.
Definition ex_gcp_state1 : (N * GCPFake) * Proc :=
  run_state (GenerateAndEncrypt ex_gcp_service ex_secret) ex_gcp_state.

Lemma rotate_erases_witness : ∃ ct',
  let s' := run_state (Rotate ex_gcp_service (Compute ex_ct) ex_ct) ex_gcp_state1 in
  run_val (Rotate ex_gcp_service (Compute ex_ct) ex_ct) ex_gcp_state1 = (Compute ct', ct', None) ∧
  run_val (Decrypt ex_gcp_service (Compute ct') ct') s' = Ok ex_secret ∧
  ∃ e, run_val (Decrypt ex_gcp_service (Compute ex_ct) ex_ct) s' = Err e ∧
    errors_Is e ErrKeyNotFound = true.
Proof.
  destruct (con_generate (KeyContract:=ex_contract) ex_secret ex_gcp_state ∅ _ _ ex_gcp_holds eq_refl)
    as (ct & Hs & Hg).
  assert (ct = ex_ct) as -> by (vm_compute in Hs; by injection Hs as <-).
  destruct (Hg (lookup_empty _)) as [_ HR].
  destruct (rotate_erases ex_gcp_service (gcp_holds ex_gcp) rand_draw (KeyContract0:=ex_contract)
    (Compute ex_ct) ex_ct ex_gcp_state1 _ _ _ ex_secret _ _ HR (lookup_insert_eq _ _ _) Hs eq_refl)
    as (ct' & Hs' & Hct').
  exists ct'. destruct Hct' as (H1 & H2 & H3 & _).
  - rewrite lookup_insert_ne; [apply lookup_empty|].
    vm_compute in Hs'. injection Hs' as <-. by vm_compute.
  - cbv zeta. split; [exact H1|]. split; [exact H2|]. apply H3.
Defined.

(** ** A Vault server *)

(** Its Transit keys (which all encrypt alike; each is whether it may be
    deleted) and its kv-v2 secrets, of which it serves the ASCII ones; with
    [down], kv-v2 writes are refused. *)
Record RefVault := MkRefVault { rv_keys : gmap string bool; rv_kv : gmap string string }.

Definition vault_prefix : string := "vault:v1:".

(** Ciphertexts are labelled base64. *)
Definition ref_tdec (c : string) : option bytes :=
  if is_ascii c && HasPrefix c vault_prefix
  then DecodeString StdEncoding (TrimPrefix c vault_prefix) else None.

#[export] Instance RefVaultState : VaultState RefVault := {|
  TransitKey := bool;
  tkeys := rv_keys;
  tdec _ := ref_tdec;
  deletion_allowed b := b;
  kv v := filter (λ p, is_ascii p.2 = true) (rv_kv v) |}.

Definition ex_vault : VaultTransitConfig :=
  MkVault "http://vault" "s.token" "transit" "secret" "artifact-keys".

Definition vkeys : string := "http://vault/v1/transit/keys/".
Definition venc : string := "http://vault/v1/transit/encrypt/".
Definition vdec : string := "http://vault/v1/transit/decrypt/".
Definition vdata : string := "http://vault/v1/secret/data/artifact-keys/".
Definition vmeta : string := "http://vault/v1/secret/metadata/artifact-keys/".

Definition vault_reply (name v : string) : HttpResp :=
  respond StatusOK (to_bytes (Encode (JObj [("data", JObj [(name, JStr v)])]))).
Definition kv_reply (v : string) : HttpResp :=
  respond StatusOK (to_bytes (Encode (JObj [("data",
    JObj [("data", JObj [("wrapped", JStr v)]); ("metadata", JObj [("deletion_time", JStr "")])])]))).

(** A string field of a request body. *)
Definition body_field (fields : list (string * (json → string → option string))) (b : bytes) : string :=
  match Decode fields "" (MkBody b None) with Ok v => v | Err _ => "" end.

(** The [deletion_allowed] of a configuration request. *)
Definition allows_deletion (b : bytes) : bool :=
  bool_decide (b = to_bytes (render (JObj [("deletion_allowed", JBool true)]))).

Definition vault_post (down : bool) (url : string) (b : bytes) (v : RefVault) : HttpResp * RefVault :=
  if HasPrefix url venc then
    (vault_reply "ciphertext" (vault_prefix +:+ body_field (string_field "plaintext") b), v)
  else if HasPrefix url vdec then
    match ref_tdec (body_field (string_field "ciphertext") b) with
    | Some pt => (vault_reply "plaintext" (EncodeToString StdEncoding pt), v)
    | None => (no_body StatusBadRequest, v)
    end
  else if HasPrefix url vkeys then
    match cut (TrimPrefix url vkeys) "/" with
    | Some (name, _) =>
        match rv_keys v !! name with
        | Some _ => (no_body StatusNoContent, MkRefVault (<[name := allows_deletion b]> (rv_keys v)) (rv_kv v))
        | None => (no_body StatusBadRequest, v)
        end
    | None =>
        let name := TrimPrefix url vkeys in
        (no_body StatusNoContent,
         MkRefVault (<[name := default false (rv_keys v !! name)]> (rv_keys v)) (rv_kv v))
    end
  else if HasPrefix url vdata then
    if down then (no_body StatusServiceUnavailable, v)
    else (no_body StatusOK,
          MkRefVault (rv_keys v) (<[TrimPrefix url vdata := body_field (data_field "wrapped") b]> (rv_kv v)))
  else (no_body StatusNotFound, v).

Definition vault_serve (down : bool) (r : HttpReq) (v : RefVault) : HttpResp * RefVault :=
  let url := h_URL r in
  if String.eqb (h_Method r) "POST" then vault_post down url (h_Body r) v
  else if String.eqb (h_Method r) "GET" then
    if HasPrefix url vkeys then
      (no_body (match rv_keys v !! TrimPrefix url vkeys with Some _ => StatusOK | None => StatusNotFound end), v)
    else match rv_kv v !! TrimPrefix url vdata with
         | Some w => (if is_ascii w then kv_reply w else no_body StatusNotFound, v)
         | None => (no_body StatusNotFound, v)
         end
  else if HasPrefix url vkeys then
    if default false (rv_keys v !! TrimPrefix url vkeys)
    then (no_body StatusNoContent, MkRefVault (delete (TrimPrefix url vkeys) (rv_keys v)) (rv_kv v))
    else (no_body StatusBadRequest, v)
  else (no_body StatusNoContent, MkRefVault (rv_keys v) (delete (TrimPrefix url vmeta) (rv_kv v))).

Definition vault_client (down : bool) : Client (N * RefVault) := {|
  url_err _ := None;
  Do r := λ '(g, v), let '(resp, v') := vault_serve down r v in (Ok resp, (g, v'), []) |}.

Lemma vault_exchange down method url body (w : N * RefVault) (P : HttpResp → RefVault → Prop) :
  (let '(resp, v) := vault_serve down (vault_req ex_vault method url body) w.2 in P resp v) →
  exchange (vault_client down) ex_vault method url body w P.
Proof.
  destruct w as [g v]. intros HP. split; [done|]. unfold run_val, run_state. cbn [Do vault_client snd] in *.
  destruct (vault_serve _ _ v) as [resp v']. by exists resp.
Qed.

(** Where each endpoint's requests go. *)
Lemma vkeys_url l : transit_url ex_vault "keys" (key_name l) = vkeys +:+ key_name l.
Proof. reflexivity. Qed.
Lemma vdata_url c : Endpoint ex_vault +:+ kvDataPath ex_vault c = vdata +:+ hexCID c.
Proof. reflexivity. Qed.
Lemma vmeta_url c : Endpoint ex_vault +:+ kvMetadataPath ex_vault c = vmeta +:+ hexCID c.
Proof. reflexivity. Qed.
Lemma key_name_no_slash l : str_has "/" (key_name l) = false.
Proof. unfold key_name. by rewrite str_has_app, hex_EncodeToString_free. Qed.

(** Request and response bodies carry ASCII text unchanged. *)
Lemma body_field_ascii name v :
  is_ascii name = true → is_ascii v = true →
  body_field (string_field name) (to_bytes (render (JObj [(name, JStr v)]))) = v.
Proof.
  intros Hn Hv. unfold body_field. rewrite Decode_render by done.
  cbn [json_utf8 map fst snd]. rewrite !to_valid_utf8_ascii by done.
  cbn [store_struct store_members store_field string_field]. unfold field_match.
  by rewrite String.eqb_refl.
Qed.

Lemma vault_reply_field name v :
  is_ascii name = true → is_ascii v = true →
  Decode (data_field name) "" (h_RespBody (vault_reply name v)) = Ok v.
Proof.
  intros Hn Hv. cbn [vault_reply respond h_RespBody]. rewrite Decode_Encode by done.
  cbn [json_utf8 map fst snd]. rewrite !(to_valid_utf8_ascii name), !(to_valid_utf8_ascii v) by done.
  change (to_valid_utf8 "data") with "data".
  cbn [store_struct store_members store_field data_field]. unfold field_match.
  by rewrite !String.eqb_refl.
Qed.

#[export] Instance vault_client_transit down : HonestTransit (vault_client down) ex_vault.
Proof.
  constructor.
  - intros l w. apply vault_exchange. cbn [vault_serve vault_req h_Method h_URL h_Body String.eqb Ascii.eqb Bool.eqb].
    rewrite vkeys_url. unfold vault_post. change (HasPrefix (vkeys +:+ key_name l) venc) with false.
    change (HasPrefix (vkeys +:+ key_name l) vdec) with false.
    rewrite HasPrefix_app, TrimPrefix_app, cut_free by apply key_name_no_slash. cbn. repeat split.
    destruct (rv_keys w.2 !! key_name l) as [b|] eqn:E; [by apply insert_id|by exists false].
  - intros l b pt w Hk. apply vault_exchange.
    cbn [vault_serve vault_req h_Method h_URL h_Body String.eqb Ascii.eqb Bool.eqb]. unfold vault_post.
    change (transit_url ex_vault "encrypt" (key_name l)) with (venc +:+ key_name l).
    rewrite HasPrefix_app, body_field_ascii by (done || apply EncodeToString_ascii).
    split; [done|]. split; [done|]. exists (vault_prefix +:+ EncodeToString StdEncoding pt).
    assert (is_ascii (vault_prefix +:+ EncodeToString StdEncoding pt) = true) as Ha
      by by rewrite is_ascii_app, EncodeToString_ascii.
    rewrite vault_reply_field by done. do 3 (split; [done|]).
    unfold tdec, RefVaultState, ref_tdec. rewrite Ha, HasPrefix_app, TrimPrefix_app. apply DecodeString_EncodeToString.
  - intros l b c pt w Hk Hd. apply vault_exchange.
    assert (is_ascii c = true) as Ha
      by (unfold tdec, RefVaultState, ref_tdec in Hd; by destruct (is_ascii c)).
    cbn [vault_serve vault_req h_Method h_URL h_Body String.eqb Ascii.eqb Bool.eqb]. unfold vault_post.
    change (transit_url ex_vault "decrypt" (key_name l)) with (vdec +:+ key_name l).
    change (HasPrefix (vdec +:+ key_name l) venc) with false.
    rewrite HasPrefix_app, body_field_ascii by done.
    change (ref_tdec c = Some pt) in Hd. rewrite Hd. repeat split.
    rewrite vault_reply_field by (done || apply EncodeToString_ascii). done.
  - intros l w. apply vault_exchange.
    cbn [vault_serve vault_req h_Method h_URL h_Body String.eqb Ascii.eqb Bool.eqb].
    rewrite vkeys_url, HasPrefix_app, TrimPrefix_app. split; [done|].
    reflexivity.
  - intros l b k w Hk. apply vault_exchange.
    cbn [vault_serve vault_req h_Method h_URL h_Body String.eqb Ascii.eqb Bool.eqb].
    rewrite vkeys_url. unfold vault_post. rewrite !str_app_assoc.
    change (HasPrefix (vkeys +:+ key_name l +:+ "/config") venc) with false.
    change (HasPrefix (vkeys +:+ key_name l +:+ "/config") vdec) with false.
    rewrite HasPrefix_app, TrimPrefix_app. change "/config" with ("/" +:+ "config").
    rewrite cut_app by apply key_name_no_slash.
    match goal with |- context [match ?x with Some _ => _ | None => _ end] =>
      change x with (tkeys w.2 !! key_name l) end.
    rewrite Hk.
    split; [done|]. split; [done|]. exists b. by destruct b.
  - intros l k w Hk. apply vault_exchange.
    cbn [vault_serve vault_req h_Method h_URL h_Body String.eqb Ascii.eqb Bool.eqb].
    rewrite vkeys_url, HasPrefix_app, TrimPrefix_app.
    match goal with |- context [default false ?x] => change x with (tkeys w.2 !! key_name l) end.
    rewrite Hk.
    by destruct k.
Qed.

Lemma kv_reply_field v : is_ascii v = true →
  Decode kv_fields ("", "") (h_RespBody (kv_reply v)) = Ok (v, "").
Proof.
  intros Hv. cbn [kv_reply respond h_RespBody]. rewrite Decode_Encode by done.
  cbn [json_utf8 map fst snd]. by rewrite (to_valid_utf8_ascii v).
Qed.

Lemma wrapped_field v : is_ascii v = true →
  body_field (data_field "wrapped") (to_bytes (render (JObj [("data", JObj [("wrapped", JStr v)])]))) = v.
Proof.
  intros Hv. unfold body_field. rewrite Decode_render by done.
  cbn [json_utf8 map fst snd]. by rewrite (to_valid_utf8_ascii v).
Qed.

#[export] Instance vault_client_kv : HonestKV (vault_client false) ex_vault.
Proof.
  constructor.
  - intros c v w Ha. apply vault_exchange.
    cbn [vault_serve vault_req h_Method h_URL h_Body String.eqb Ascii.eqb Bool.eqb].
    rewrite vdata_url. unfold vault_post. change (HasPrefix (vdata +:+ hexCID c) venc) with false.
    change (HasPrefix (vdata +:+ hexCID c) vdec) with false.
    change (HasPrefix (vdata +:+ hexCID c) vkeys) with false.
    rewrite HasPrefix_app, TrimPrefix_app, wrapped_field by done. split; [done|]. split; [|done].
    unfold kv, RefVaultState. cbn [rv_kv]. by rewrite map_filter_insert_True.
  - intros c w. apply vault_exchange.
    cbn [vault_serve vault_req h_Method h_URL h_Body String.eqb Ascii.eqb Bool.eqb].
    rewrite vdata_url. change (HasPrefix (vdata +:+ hexCID c) vkeys) with false. cbv iota.
    rewrite TrimPrefix_app. unfold kv, RefVaultState. rewrite map_lookup_filter.
    destruct (rv_kv w.2 !! hexCID c) as [v|]; [|done]. split; [done|]. cbn [option_bind mbind].
    destruct (decide (is_ascii v = true)) as [Ha|Ha].
    + rewrite option_guard_True by done. cbn. rewrite Ha, kv_reply_field by done. done.
    + rewrite option_guard_False by done. cbn. by destruct (is_ascii v).
  - intros c w. apply vault_exchange.
    cbn [vault_serve vault_req h_Method h_URL h_Body String.eqb Ascii.eqb Bool.eqb].
    rewrite vmeta_url. change (HasPrefix (vmeta +:+ hexCID c) vkeys) with false. cbv iota.
    rewrite TrimPrefix_app. split; [done|]. split; [|by left].
    unfold kv, RefVaultState. cbn [rv_kv]. by rewrite map_filter_delete.
Qed.

Definition ex_vault_state : N * RefVault := (3%N, MkRefVault ∅ ∅).

Lemma vault_conformance_witness :
  vault_holds ex_vault_state ∅ ∧
  KeyContract (VaultTransit (vault_client false) ex_vault) vault_holds rand_draw.
Proof.
  destruct (vault_conformance (vault_client false) ex_vault) as [H1 H2]. split; [by apply H1|exact H2].
Defined.

Lemma ex_kv_down : kv_down (vault_client true) ex_vault.
Proof.
  intros c j [g v]. rewrite vdata_url. by destruct j.
Qed.

Lemma vault_rollback_witness :
  (∃ e, run_val (vault_GenerateAndEncrypt (vault_client true) ex_vault ex_secret)
          (ex_vault_state, new_proc) = Err e) ∧
  tkeys (run_state (vault_GenerateAndEncrypt (vault_client true) ex_vault ex_secret)
          (ex_vault_state, new_proc)).1.2 = ∅.
Proof.
  destruct (vault_rollback (vault_client true) ex_vault ex_secret (ex_vault_state, new_proc) _ _
    ex_kv_down eq_refl) as (ct & _ & Hr).
  apply Hr, lookup_empty.
Defined.

(** ** A PKCS#11 token *)

(** Its objects, a counter that keys are made from, the open sessions with what
    each is doing, and whether the user has logged in. *)
Record RefToken := MkRefToken {
  rt_objs : gmap N KeyObject; rt_count : N; rt_acts : gmap N Activity; rt_login : bool }.

(** The login ends with the last session. *)
Definition rt_logged (t : RefToken) : bool := rt_login t && bool_decide (dom (rt_acts t) ≠ ∅).

Definition set_act (sh : N) (a : Activity) (t : RefToken) : RefToken :=
  MkRefToken (rt_objs t) (rt_count t) (alter (λ _, a) sh (rt_acts t)) (rt_login t).
Definition set_objs (o : gmap N KeyObject) (t : RefToken) : RefToken :=
  MkRefToken o (rt_count t) (rt_acts t) (rt_login t).
Definition set_sessions (acts : gmap N Activity) (login : bool) (t : RefToken) : RefToken :=
  MkRefToken (rt_objs t) (rt_count t) acts login.

Definition rt_key (t : RefToken) : bytes := be_bytes 32 (rt_count t).
Arguments rt_key : simpl never.

Definition p11_fail : p11_error := P11Error CKR_OTHER (errors_New "CKR_FUNCTION_FAILED").
Definition handle_invalid : p11_error :=
  P11Error CKR_OBJECT_HANDLE_INVALID (errors_New "CKR_OBJECT_HANDLE_INVALID").
Definition already_in : p11_error :=
  P11Error CKR_USER_ALREADY_LOGGED_IN (errors_New "CKR_USER_ALREADY_LOGGED_IN").

(** The label and the id of a template. *)
Definition tmpl_label (l : list Attribute) : string :=
  foldl (λ v a, match a with (CKA_LABEL, VStr s) => s | _ => v end) "" l.
Definition tmpl_id (l : list Attribute) : bytes :=
  foldl (λ v a, match a with (CKA_ID, VBytes b) => b | _ => v end) [] l.

Definition find_labelled (label : string) (t : RefToken) : list N :=
  map fst (filter (λ p, o_label p.2 = label) (map_to_list (rt_objs t))).

Definition act {A} (f : RefToken → A * RefToken) : M RefToken A := λ t, let '(a, t') := f t in (a, t', []).

(** A function on private objects, refused without a login. *)
Definition as_user {A} (fail : A) (sh : N) (f : RefToken → A * RefToken) : M RefToken A :=
  act (λ t, if bool_decide (sh ∈ dom (rt_acts t)) && rt_logged t then f t else (fail, t)).

Definition get_attr (o : KeyObject) (a : Attribute) : CKA * bytes :=
  (a.1, match a.1 with CKA_VALUE => o_value o | CKA_ID => o_id o | _ => [] end).

Definition ref_ctx : Ctx RefToken := {|
  Initialize := mret None; Finalize := mret None; Destroy := mret ();
  GetSlotList _ := mret (POk [0%N]);
  GetTokenInfo _ := mret (POk "ortholog-test                   ");
  OpenSession _ _ := act (λ t, let sh := fresh (dom (rt_acts t)) in
    (POk sh, set_sessions (<[sh := Idle]> (rt_acts t)) (rt_logged t) t));
  Login sh _ _ := act (λ t,
    if rt_logged t then (Some already_in, t) else (None, set_sessions (rt_acts t) true t));
  Logout sh := act (λ t, (None, set_sessions (rt_acts t) false t));
  CloseSession sh := act (λ t, (None, set_sessions (delete sh (rt_acts t)) (rt_logged t) t));
  FindObjectsInit sh tmpl := as_user (Some p11_fail) sh (λ t,
    (None, set_act sh (Finding (find_labelled (tmpl_label tmpl) t)) t));
  FindObjects sh n := act (λ t, match rt_acts t !! sh with
    | Some (Finding hits) => (POk (take (Z.to_nat n) hits, false), set_act sh (Finding (drop (Z.to_nat n) hits)) t)
    | _ => (PErr p11_fail, t)
    end);
  FindObjectsFinal sh := act (λ t, (None, set_act sh Idle t));
  GenerateKey sh _ tmpl := as_user (PErr p11_fail) sh (λ t,
    let oh := fresh (dom (rt_objs t)) in
    (POk oh, MkRefToken (<[oh := MkKey (tmpl_label tmpl) (tmpl_id tmpl) (rt_key t)]> (rt_objs t))
               (rt_count t + 1) (rt_acts t) (rt_login t)));
  GetAttributeValue sh oh tmpl := as_user (PErr p11_fail) sh (λ t, match rt_objs t !! oh with
    | Some o => (POk (map (get_attr o) tmpl), t)
    | None => (PErr handle_invalid, t)
    end);
  SetAttributeValue sh oh tmpl := as_user (Some p11_fail) sh (λ t, match rt_objs t !! oh with
    | Some o => (None, set_objs (<[oh := MkKey (tmpl_label tmpl) (o_id o) (o_value o)]> (rt_objs t)) t)
    | None => (Some handle_invalid, t)
    end);
  EncryptInit sh mech oh := as_user (Some p11_fail) sh (λ t, match mech with
    | [CKM_AES_GCM nonce _ _] => (None, set_act sh (Encrypting oh nonce) t)
    | _ => (Some p11_fail, t)
    end);
  Encrypt sh pt := act (λ t, match rt_acts t !! sh with
    | Some (Encrypting oh nonce) =>
        match rt_objs t !! oh with
        | Some o => (POk (gcm_seal (aes_block (o_value o)) nonce pt), set_act sh Idle t)
        | None => (PErr handle_invalid, t)
        end
    | _ => (PErr p11_fail, t)
    end);
  DecryptInit sh mech oh := as_user (Some p11_fail) sh (λ t, match mech with
    | [CKM_AES_GCM nonce _ _] => (None, set_act sh (Decrypting oh nonce) t)
    | _ => (Some p11_fail, t)
    end);
  p11_Decrypt sh ct := act (λ t, match rt_acts t !! sh with
    | Some (Decrypting oh nonce) =>
        (match rt_objs t !! oh ≫= λ o, gcm_open (aes_block (o_value o)) nonce ct with
         | Some pt => POk pt
         | None => PErr p11_fail
         end, set_act sh Idle t)
    | _ => (PErr p11_fail, t)
    end);
  DestroyObject sh oh := as_user (Some p11_fail) sh (λ t, match rt_objs t !! oh with
    | Some _ => (None, set_objs (delete oh (rt_objs t)) t)
    | None => (Some handle_invalid, t)
    end) |}.

Lemma run_val_act {A} (f : RefToken → A * RefToken) t : run_val (act f) t = (f t).1.
Proof. unfold run_val, act. by destruct (f t). Qed.
Lemma run_state_act {A} (f : RefToken → A * RefToken) t : run_state (act f) t = (f t).2.
Proof. unfold run_state, act. by destruct (f t). Qed.
#[export] Hint Rewrite @run_val_act @run_state_act : run.

Lemma find_labelled_spec label t oh :
  oh ∈ find_labelled label t ↔ ∃ o, rt_objs t !! oh = Some o ∧ o_label o = label.
Proof.
  unfold find_labelled. rewrite list_elem_of_fmap. split.
  - intros ([oh' o] & -> & [Hl Hm]%list_elem_of_filter). apply elem_of_map_to_list in Hm. eauto.
  - intros (o & Ho & Hl). exists (oh, o). split; [done|]. apply list_elem_of_filter.
    split; [done|]. by apply elem_of_map_to_list.
Qed.

#[export] Instance RefTokenState : TokenState RefToken := {|
  objs := rt_objs; next_key := rt_key; sessions t := dom (rt_acts t); logged_in := rt_logged;
  activity t sh := default Idle (rt_acts t !! sh) |}.

Lemma set_act_steady sh a t : steady t (set_act sh a t).
Proof.
  split; cbn [sessions logged_in RefTokenState set_act rt_acts]; [by rewrite dom_alter_L|].
  unfold rt_logged. cbn [set_act rt_acts rt_login]. by rewrite dom_alter_L.
Qed.
Lemma set_act_activity sh a t : sh ∈ dom (rt_acts t) → activity (set_act sh a t) sh = a.
Proof.
  intros [x Hx]%elem_of_dom. cbn [activity RefTokenState set_act rt_acts]. by rewrite lookup_alter_eq, Hx.
Qed.

(** A logged-in session gets through. *)
Lemma as_user_run {A} (fail : A) sh f t : ready t sh →
  run_val (as_user fail sh f) t = (f t).1 ∧ run_state (as_user fail sh f) t = (f t).2.
Proof.
  intros (Hs & Hl & _). cbn [sessions logged_in RefTokenState] in Hs, Hl. unfold as_user. run.
  rewrite Hl, bool_decide_eq_true_2 by done. done.
Qed.
Lemma active_acts t sh a : activity t sh = a → a ≠ Idle → rt_acts t !! sh = Some a.
Proof. cbn [activity RefTokenState]. destruct (rt_acts t !! sh); cbn; [by intros ->|done]. Qed.

Ltac user_step Hr :=
  match goal with |- context [as_user ?fl ?sh ?f] =>
    destruct (as_user_run fl sh f _ Hr) as [-> ->] end.

Section RefLaws.
Variable pin : string.

Lemma ref_login_law sh t : sh ∈ sessions t →
  let op := Login ref_ctx sh CKU_USER pin in let t' := run_state op t in
  sessions t' = sessions t ∧ activity t' sh = activity t sh ∧ objs t' = objs t ∧
  next_key t' = next_key t ∧ logged_in t' = true ∧
  if logged_in t then ∃ e, run_val op t = Some e ∧ p_code e = CKR_USER_ALREADY_LOGGED_IN
  else run_val op t = None.
Proof.
  cbn [Login ref_ctx sessions activity objs next_key logged_in RefTokenState]. intros Hin. cbv zeta. run.
  destruct (rt_logged t) eqn:Hl; cbn [fst snd]; [by eauto 10|].
  do 4 (split; [reflexivity|]). split; [|reflexivity]. unfold rt_logged.
  cbn [set_sessions rt_acts rt_login andb]. apply bool_decide_eq_true_2. set_solver.
Qed.

Lemma ref_close_law sh t : let t' := run_state (CloseSession ref_ctx sh) t in
  objs t' = objs t ∧ next_key t' = next_key t ∧
  (sh ∈ sessions t → sessions t' = sessions t ∖ {[sh]} ∧
     logged_in t' = (logged_in t && bool_decide (sessions t' ≠ ∅))).
Proof.
  cbn [CloseSession ref_ctx]. run. cbn [sessions objs next_key logged_in RefTokenState set_sessions rt_acts rt_objs].
  split; [reflexivity|]. split; [reflexivity|]. intros _. split; [by rewrite dom_delete_L|reflexivity].
Qed.

Lemma ref_find_law sh left n t : sh ∈ sessions t → activity t sh = Finding left → 0 < n →
  let op := FindObjects ref_ctx sh n in let t' := run_state op t in
  steady t t' ∧ objs t' = objs t ∧ ∃ hits rest more, run_val op t = POk (hits, more) ∧
    left = hits ++ rest ∧ Z.of_nat (length hits) ≤ n ∧ (hits = [] → left = []) ∧
    activity t' sh = Finding rest.
Proof.
  intros Hin Ha Hn. cbn [FindObjects ref_ctx]. cbv zeta. run. rewrite (active_acts _ _ _ Ha) by done. cbn [fst snd].
  split; [apply set_act_steady|]. split; [done|]. eexists _, _, _. split; [done|].
  split; [symmetry; apply take_drop|]. split; [rewrite length_take; lia|].
  split; [|by apply set_act_activity]. intros E%(f_equal length). rewrite length_take in E.
  destruct left as [|x left]; [done|]. cbn in E. lia.
Qed.
End RefLaws.

#[export] Instance ref_token_honest pin : HonestToken ref_ctx pin.
Proof.
  constructor.
  - intros t. apply be_bytes_length.
  - intros t [_ Hd%bool_decide_eq_true]%andb_true_iff. exact Hd.
  - intros slot t. cbn [OpenSession ref_ctx]. cbv zeta. run. exists (fresh (dom (rt_acts t))).
    cbn [sessions activity objs next_key logged_in RefTokenState set_sessions rt_acts rt_objs].
    rewrite lookup_insert_eq, dom_insert_L. split_and!; [done|apply is_fresh|done| |done..].
    unfold rt_logged at 1. cbn [set_sessions rt_acts rt_login]. rewrite dom_insert_L.
    rewrite bool_decide_eq_true_2 by set_solver. apply andb_true_r.
  - intros sh t. apply ref_login_law.
  - intros sh t. cbn [Logout ref_ctx]. cbv zeta. run. done.
  - intros sh t. apply ref_close_law.
  - intros sh label t Hr. cbn [FindObjectsInit ref_ctx]. cbv zeta. user_step Hr. cbn [fst snd].
    split; [done|]. split; [apply set_act_steady|]. split; [done|]. eexists.
    split; [apply set_act_activity, Hr|]. intros oh. apply find_labelled_spec.
  - apply ref_find_law.
  - intros sh left t Hin Ha. cbn [FindObjectsFinal ref_ctx]. cbv zeta. run.
    split; [apply set_act_steady|]. split; [done|]. by apply set_act_activity.
  - intros sh label nonce t Hr. cbn [GenerateKey ref_ctx]. cbv zeta. user_step Hr. cbn [fst snd].
    eexists. split; [done|]. split; [apply not_elem_of_dom, is_fresh|]. split; [done|].
    split; [apply Hr|done].
  - intros sh oh o t Hr Ho. cbn [GetAttributeValue ref_ctx]. cbv zeta. user_step Hr.
    rewrite (Ho : rt_objs t !! oh = Some o). cbn. split_and!; [done..|apply Hr|done].
  - intros sh oh o t Hr Ho. cbn [GetAttributeValue ref_ctx]. cbv zeta. user_step Hr.
    rewrite (Ho : rt_objs t !! oh = Some o). cbn. split_and!; [done..|apply Hr|done].
  - intros sh oh o label t Hr Ho. cbn [SetAttributeValue ref_ctx]. cbv zeta. user_step Hr.
    rewrite (Ho : rt_objs t !! oh = Some o). cbn. split_and!; [done..|apply Hr|done].
  - intros sh oh o nonce t Hr Ho. cbn [EncryptInit ref_ctx]. cbv zeta. user_step Hr. cbn [gcm_mech fst snd].
    split; [done|]. split; [apply set_act_steady|]. split; [apply set_act_activity, Hr|done].
  - intros sh oh o nonce pt t Hin Ha Ho. cbn [Encrypt ref_ctx]. cbv zeta. run.
    rewrite (active_acts _ _ _ Ha), (Ho : rt_objs t !! oh = Some o) by done. cbn [fst snd].
    split; [done|]. split; [apply set_act_steady|]. split; [by apply set_act_activity|done].
  - intros sh oh o nonce t Hr Ho. cbn [DecryptInit ref_ctx]. cbv zeta. user_step Hr. cbn [gcm_mech fst snd].
    split; [done|]. split; [apply set_act_steady|]. split; [apply set_act_activity, Hr|done].
  - intros sh oh o nonce ct t Hin Ha Ho. cbn [p11_Decrypt ref_ctx]. cbv zeta. run.
    rewrite (active_acts _ _ _ Ha), (Ho : rt_objs t !! oh = Some o) by done. cbn [fst snd mbind option_bind].
    split; [apply set_act_steady|]. split; [by apply set_act_activity|]. split; [done|].
    destruct (gcm_open (aes_block (o_value o)) nonce ct); eauto.
  - intros sh oh o t Hr Ho. cbn [DestroyObject ref_ctx]. cbv zeta. user_step Hr.
    rewrite (Ho : rt_objs t !! oh = Some o). cbn. split_and!; [done..|apply Hr|done].
Qed.

Definition ex_p11 : PKCS11Config := MkPKCS11 "/usr/lib/softhsm/libsofthsm2.so" "ortholog-test" "1234" "artifact-".
Definition ex_token : N * Module RefToken := (0%N, MkModule (MkRefToken ∅ 5 ∅ false) true).

Lemma pkcs11_conformance_witness :
  p11_holds ex_p11 ex_token ∅ ∧
  KeyContract (PKCS11 ref_ctx ex_p11 0) (p11_holds ex_p11) p11_draw.
Proof.
  destruct (pkcs11_conformance (G:=N) ref_ctx ex_p11 0) as [H1 H2]. split; [by apply H1|exact H2].
Defined.

(** ** Wiping, outages, selection *)




Lemma services_round_trip_witness :
  round_trips ex_gcp_service (gcp_holds ex_gcp) rand_draw ∧
  round_trips (VaultTransit (vault_client false) ex_vault) vault_holds rand_draw ∧
  round_trips (PKCS11 ref_ctx ex_p11 0) (p11_holds ex_p11) p11_draw.
Proof.
  apply (services_round_trip (G:=N) (F:=RefVault) ex_gcp (vault_client false) ex_vault ref_ctx ex_p11 0);
    [reflexivity|reflexivity|reflexivity|apply ex_digest_nonempty].
Defined.

(** A session opened while another of the application's sessions is logged in:
    the second login is refused as the standard says, and the session is
    usable. *)
Example login_shared :
  let t := MkRefToken ∅ 5 {[7%N := Idle]} true in
  p_code <$> run_val (Login ref_ctx 7 CKU_USER "1234") t = Some CKR_USER_ALREADY_LOGGED_IN ∧
  is_Ok (run_val (openSession ref_ctx ex_p11 0) t) = true.
Proof. split; vm_compute; reflexivity. Qed.

(** A client whose host does not answer. *)
Definition dead_client : Client (N * ()) := {|
  url_err _ := None;
  Do _ := mret (Err (errors_New "connect: connection refused")) |}.

Lemma outage_reported_witness :
  reports_outage (GCPKMS dead_client ex_gcp) ((0%N, ()), new_proc) ∧
  reports_outage (VaultTransit dead_client ex_vault) ((0%N, ()), new_proc).
Proof. apply outage_reported. intros req w. done. Defined.

Lemma initKeyService_loaded_witness : ∃ c v,
  config.Load config.ex_env = Ok c ∧
  run_val (initKeyService (W:=()) (T:=()) (Err (errors_New "no credentials")) (λ _, None) c) () = Ok (SelVault v) ∧
  Token v = "s.token".
Proof.
  eexists _. pose proof (λ c H, initKeyService_loaded (W:=()) (T:=()) (Err (errors_New "no credentials"))
    (λ _, None) config.ex_env c () H) as Hi.
  specialize (Hi _ ltac:(vm_compute; reflexivity)).
  destruct Hi as [[Hk _]|[(_ & v & Hv & Ht & _)|[[Hk _]|[Hk _]]]]; [discriminate Hk| |discriminate Hk..].
  exists v. split; [vm_compute; reflexivity|]. split; [exact Hv|]. rewrite Ht. reflexivity.
Defined.
