(* ===== verification/Api.v ===== *)
(** * api: the HTTP handlers

    One section per handler file (push.go, fetch.go, exists.go, pin.go,
    delete.go, resolve.go, health.go) with the shared helpers of helpers.go and
    wire.go.  A handler is a computation over the backend's state that returns
    the response it wrote, or [None] when it returned without writing one. *)

From Stdlib Require Import Ascii.
From S2P Require Import Prelude GoStrings Encoding Json Url Storage Http Backends Token Time.

Open Scope Z_scope.

(** ** Requests and responses (net/http) *)

(** What the handlers read of an [*http.Request].  [PathValue] is the value the
    mux bound to the wildcard [{cid}]; header names are in canonical form. *)
Record Request := MkRequest {
  req_Method : string;
  EscapedPath : string;
  RawQuery : string;
  Header : list (string * string);
  req_Body : Body;
  RemoteAddr : string;
  PathValue : string }.

Record Response := MkResponse {
  status : Z;
  resp_header : list (string * string);
  resp_body : list Byte.byte }.

(** [r.Header.Get(k)]. *)
Definition Header_Get (r : Request) (k : string) : string :=
  default "" (assoc (CanonicalHeaderKey k) (Header r)).

(** ** helpers.go *)

(** A response with a JSON body. *)
Definition json_response (st : Z) (j : json) : Response :=
  MkResponse st [("Content-Type", "application/json")] (to_bytes (Encode j)).

Definition writeError (st : Z) (msg : string) : Response :=
  json_response st (JObj [("error", JStr msg)]).

(** [w.WriteHeader(st)] with no body. *)
Definition bare (st : Z) : Response := MkResponse st [] [].

Definition intToStr (n : Z) : string := Itoa n.

Definition parseCIDFromPath `{SDK} (r : Request) : Result CID :=
  if String.eqb (PathValue r) "" then Err (errors_New "missing CID in path")
  else ParseCID (PathValue r).

(** ** wire.go *)

Record resolveResponseV1 := MkWire { w_Method : string; w_URL : string; w_Expiry : string }.

Definition retrievalCredentialToWire (c : RetrievalCredential) : resolveResponseV1 :=
  MkWire (Method c) (URL c) (match Expiry c with Some t => FormatRFC3339 t | None => "" end).

Definition retrievalCredentialFromWire (w : resolveResponseV1) : RetrievalCredential :=
  MkCred (w_Method w) (w_URL w)
    (if String.eqb (w_Expiry w) "" then None else ParseRFC3339 (w_Expiry w)).

(** The struct's JSON, with [omitempty] on the expiry. *)
Definition wire_json (w : resolveResponseV1) : json :=
  JObj ([("method", JStr (w_Method w)); ("url", JStr (w_URL w))]
        ++ if String.eqb (w_Expiry w) "" then [] else [("expiry", JStr (w_Expiry w))]).

(** ** push.go *)

Definition pushRejectedEvent : string := "artifact.push.rejected".
Definition tokenRejected : string := "<rejected>".

(** api.UploadTokenVerifier: token, expected CID, actual size, time. *)
Definition UploadTokenVerifier : Type := string → string → Z → Z → option error.

Record PushHandler (S : Type) := MkPush {
  p_backend : BackendProvider S;
  p_verify : bool;
  p_maxBody : Z;
  p_tokenVerifier : option UploadTokenVerifier;
  p_tokenPolicy : string }.
Arguments p_backend {S} _.
Arguments p_verify {S} _.
Arguments p_maxBody {S} _.
Arguments p_tokenVerifier {S} _.
Arguments p_tokenPolicy {S} _.

Definition algorithmName `{SDK} (c : CID) : string :=
  let s := CID_String c in
  let i := IndexByte s ":" in
  if 0 <? i then str_take (Z.to_nat i) s else "".

Section Handlers.
Context `{SDK} {S : Type}.
Implicit Types (r : Request).

(** The attributes every rejection record carries. *)
Definition reject_attrs (reason cidStr : string) (r : Request) (size : Z) : list (string * attr) :=
  [("event", AStr pushRejectedEvent); ("reason", AStr reason); ("claimed_cid", AStr cidStr);
   ("remote_addr", AStr (RemoteAddr r)); ("received_size", AInt size)].

Definition rejectMalformed (r : Request) (cidStr : string) (size : Z) (reason userMsg : string)
    : M S Response :=
  _ ← warn ("push rejected: " +:+ reason) (reject_attrs reason cidStr r size);
  mret (writeError StatusBadRequest userMsg).

(** Returns what the code returns (the kid, the empty string or the sentinel
    [tokenRejected]) with the response it wrote, if it wrote one. *)
Definition checkUploadToken (h : PushHandler S) (now : Z) (r : Request)
    (cidStr : string) (size : Z) : M S (string * option Response) :=
  match p_tokenVerifier h with
  | None => mret ("", None)
  | Some verify =>
      if String.eqb (p_tokenPolicy h) "off" then mret ("", None)
      else
        let tokenStr := Header_Get r "X-Upload-Token" in
        if String.eqb tokenStr "" then
          if String.eqb (p_tokenPolicy h) "required" then
            _ ← warn "push rejected: upload token required but missing"
                  (reject_attrs "token_required_missing" cidStr r size);
            mret (tokenRejected, Some (writeError StatusUnauthorized "X-Upload-Token required"))
          else mret ("", None)
        else
          match verify tokenStr cidStr size now with
          | Some e =>
              _ ← warn "push rejected: upload token failed"
                    (reject_attrs (classifyTokenError e) cidStr r size ++ [("error", AStr (Error e))]);
              mret (tokenRejected, Some (writeError StatusUnauthorized (Error e)))
          | None => mret (extractKid tokenStr, None)
          end
  end.

(** Step 5: hand the bytes to the backend. *)
Definition persist (h : PushHandler S) (r : Request) (cidStr : string) (cid : CID) (data : bytes)
    : M S (option Response) :=
  e ← Push (p_backend h) cid data;
  match e with
  | Some e =>
      _ ← warn "push rejected: backend error"
            (reject_attrs "backend_error" cidStr r (blen data) ++ [("error", AStr (Error e))]);
      mret (Some (writeError StatusInternalServerError (Error e)))
  | None =>
      mret (Some (json_response StatusOK
        (JObj [("cid", JStr (CID_String cid)); ("size", JNum (Itoa (blen data)))])))
  end.

(** Steps 4 and 5: the digest check, when it is on, then the backend. *)
Definition verify_and_persist (h : PushHandler S) (r : Request) (cidStr tokenKid : string)
    (cid : CID) (data : bytes) : M S (option Response) :=
  if p_verify h && negb (CID_Verify cid data) then
    _ ← warn "push rejected: CID digest mismatch (data corruption)"
          [("event", AStr pushRejectedEvent); ("reason", AStr "cid_mismatch");
           ("claimed_cid", AStr cidStr); ("cid_algorithm", AStr (algorithmName cid));
           ("remote_addr", AStr (RemoteAddr r)); ("received_size", AInt (blen data));
           ("computed_cid", AStr (CID_String (ComputeWith data (Algorithm cid))));
           ("claimed_digest", AStr (hex_EncodeToString (Digest cid)));
           ("operator_token_kid", AStr tokenKid)];
    mret (Some (writeError StatusBadRequest "body bytes do not match CID digest (data corruption)"))
  else persist h r cidStr cid data.

(** [PushHandler.ServeHTTP]. *)
Definition push_ServeHTTP (h : PushHandler S) (now : Z) (r : Request) : M S (option Response) :=
  let cidStr := Header_Get r "X-Artifact-CID" in
  if String.eqb cidStr "" then
    Some <$> rejectMalformed r "" 0 "missing_cid_header" "missing X-Artifact-CID header"
  else match ParseCID cidStr with
  | Err e => Some <$> rejectMalformed r cidStr 0 "invalid_cid_header" ("invalid CID: " +:+ Error e)
  | Ok cid =>
      let '(data, err) := ReadAll (wrap64 (p_maxBody h + 1)) (req_Body r) in
      match err with
      | Some e => Some <$> rejectMalformed r cidStr (blen data) "read_body_error"
                            ("read body: " +:+ Error e)
      | None =>
          if p_maxBody h <? blen data then
            _ ← warn "push rejected: body exceeds size limit"
                  (reject_attrs "size_exceeded" cidStr r (blen data)
                   ++ [("max_body_size", AInt (p_maxBody h))]);
            mret (Some (writeError StatusRequestEntityTooLarge
              ("body size exceeds " +:+ Itoa (p_maxBody h) +:+ " bytes")))
          else
            '(tokenKid, written) ← checkUploadToken h now r cidStr (blen data);
            if String.eqb tokenKid tokenRejected then mret written
            else verify_and_persist h r cidStr tokenKid cid data
      end
  end.

(** ** fetch.go, exists.go, pin.go, delete.go, health.go *)

Variable backend : BackendProvider S.

Definition fetch_ServeHTTP (r : Request) : M S (option Response) :=
  match parseCIDFromPath r with
  | Err e => mret (Some (writeError StatusBadRequest (Error e)))
  | Ok cid =>
      res ← Fetch backend cid;
      mret (Some match res with
        | Err e =>
            if errors_Is e ErrContentNotFound then writeError StatusNotFound "not found"
            else writeError StatusInternalServerError (Error e)
        | Ok data =>
            MkResponse StatusOK
              [("Content-Type", "application/octet-stream");
               ("Cache-Control", "public, immutable");
               ("Content-Length", intToStr (blen data))] data
        end)
  end.

Definition exists_ServeHTTP (r : Request) : M S (option Response) :=
  match parseCIDFromPath r with
  | Err _ => mret (Some (bare StatusBadRequest))
  | Ok cid =>
      res ← Exists backend cid;
      mret (Some match res with
        | Err _ => bare StatusInternalServerError
        | Ok true => bare StatusOK
        | Ok false => bare StatusNotFound
        end)
  end.

Definition pin_ServeHTTP (r : Request) : M S (option Response) :=
  match parseCIDFromPath r with
  | Err e => mret (Some (writeError StatusBadRequest (Error e)))
  | Ok cid =>
      res ← Pin backend cid;
      mret (Some match res with
        | Some e =>
            if errors_Is e ErrContentNotFound then writeError StatusNotFound "not found"
            else writeError StatusInternalServerError (Error e)
        | None => bare StatusOK
        end)
  end.

Definition delete_ServeHTTP (r : Request) : M S (option Response) :=
  match parseCIDFromPath r with
  | Err e => mret (Some (writeError StatusBadRequest (Error e)))
  | Ok cid =>
      res ← Delete backend cid;
      mret (Some match res with
        | Some e =>
            if errors_Is e ErrNotSupported
            then writeError StatusNotImplemented "delete not supported by this backend"
            else writeError StatusInternalServerError (Error e)
        | None => bare StatusOK
        end)
  end.

Definition health_ServeHTTP (r : Request) : M S (option Response) :=
  err ← Healthy backend;
  mret (Some match err with
    | Some e => json_response StatusServiceUnavailable
                  (JObj [("error", JStr (Error e)); ("status", JStr "unhealthy")])
    | None => json_response StatusOK (JObj [("status", JStr "healthy")])
    end).

(** ** resolve.go *)

(** The [expiry] query parameter in seconds, or the default; a [time.Duration]
    is an [int64], so the product wraps. *)
Definition resolve_expiry (defaultExpiry : Z) (r : Request) : Z :=
  let es := Get "expiry" (Query (RawQuery r)) in
  if String.eqb es "" then defaultExpiry
  else match ParseInt es with
       | Some secs => if 0 <? secs then wrap64 (secs * Second) else defaultExpiry
       | None => defaultExpiry
       end.

Definition resolve_ServeHTTP (defaultExpiry now : Z) (r : Request) : M S (option Response) :=
  match parseCIDFromPath r with
  | Err e => mret (Some (writeError StatusBadRequest (Error e)))
  | Ok cid =>
      res ← Exists backend cid;
      match res with
      | Err e => mret (Some (writeError StatusInternalServerError (Error e)))
      | Ok false => mret (Some (writeError StatusNotFound "not found"))
      | Ok true =>
          cred ← Resolve backend now cid (resolve_expiry defaultExpiry r);
          mret (Some match cred with
            | Err e =>
                if errors_Is e ErrContentNotFound then writeError StatusNotFound "not found"
                else writeError StatusInternalServerError (Error e)
            | Ok c => json_response StatusOK (wire_json (retrievalCredentialToWire c))
            end)
      end
  end.
End Handlers.

(** ** Lemmas: reading the body *)

(** With a limit that does not overflow, a body within it is read whole, and a
    larger one is seen to be larger. *)
Lemma ReadAll_limit n b :
  0 ≤ n < max_int64 →
  let '(data, err) := ReadAll (wrap64 (n + 1)) b in
  (blen data ≤ n ∧ data = body_data b ∧ err = body_err b) ∨
  (blen data = n + 1 ∧ err = None ∧ n < blen (body_data b)).
Proof.
  intros Hn. rewrite wrap64_id by (unfold in_int64, min_int64; lia). unfold ReadAll.
  destruct (Z.leb_spec (n + 1) 0); [lia|].
  destruct (Z.leb_spec (n + 1) (blen (body_data b))); [right|left; split_and!; auto; lia].
  unfold blen in *. rewrite length_take. split_and!; [lia|done|lia].
Qed.

(** [maxBody + 1] wraps at the top of the range: nothing is read. *)
Lemma ReadAll_overflow b : ReadAll (wrap64 (max_int64 + 1)) b = ([], None).
Proof. reflexivity. Qed.

(** ** Lemmas: the push handler *)

(** A rejection record with its reason. *)
Definition audit (reason : string) (rec : LogRecord) : Prop :=
  log_level rec = LevelWarn ∧ log_attr "event" rec = Some (AStr pushRejectedEvent) ∧
  log_attr "reason" rec = Some (AStr reason).

Section PushLemmas.
Context `{SDK} {S : Type}.
Implicit Types (h : PushHandler S) (r : Request) (s : S).

(** The token gate: what the code demands of a request before it goes on. *)
Definition token_gate (h : PushHandler S) (now : Z) (r : Request) (cidStr : string) (size : Z) : Prop :=
  match p_tokenVerifier h with
  | None => True
  | Some verify =>
      p_tokenPolicy h = "off" ∨
      (Header_Get r "X-Upload-Token" = "" ∧ p_tokenPolicy h ≠ "required") ∨
      (Header_Get r "X-Upload-Token" ≠ "" ∧
       verify (Header_Get r "X-Upload-Token") cidStr size now = None)
  end.

(** The reasons the token check gives. *)
Definition token_reason (h : PushHandler S) (now : Z) (r : Request) (cidStr : string) (size : Z)
    (reason : string) : Prop :=
  ∃ verify, p_tokenVerifier h = Some verify ∧ p_tokenPolicy h ≠ "off" ∧
    ((Header_Get r "X-Upload-Token" = "" ∧ p_tokenPolicy h = "required" ∧
      reason = "token_required_missing") ∨
     (∃ e, Header_Get r "X-Upload-Token" ≠ "" ∧
        verify (Header_Get r "X-Upload-Token") cidStr size now = Some e ∧
        reason = classifyTokenError e)).

Lemma checkUploadToken_cases h now r cidStr size s :
  (∃ kid, checkUploadToken h now r cidStr size s = ((kid, None), s, []) ∧
     token_gate h now r cidStr size ∧
     (kid = "" ∨ kid = extractKid (Header_Get r "X-Upload-Token"))) ∨
  (∃ msg rec reason,
     checkUploadToken h now r cidStr size s =
       ((tokenRejected, Some (writeError StatusUnauthorized msg)), s, [rec]) ∧
     audit reason rec ∧ token_reason h now r cidStr size reason).
Proof.
  unfold checkUploadToken, token_gate, token_reason.
  destruct (p_tokenVerifier h) as [verify|]; [|left; exists ""; by auto].
  destruct (String.eqb_spec (p_tokenPolicy h) "off") as [Hoff|Hoff]; [left; exists ""; by auto|].
  destruct (String.eqb_spec (Header_Get r "X-Upload-Token") "") as [Ht|Ht].
  - destruct (String.eqb_spec (p_tokenPolicy h) "required") as [Hr|Hr].
    + right. eexists _, _, _. split; [reflexivity|]. split; [done|]. eauto 10.
    + left. exists "". auto 10.
  - destruct (verify _ cidStr size now) as [e|] eqn:Hv.
    + right. eexists _, _, _. split; [reflexivity|]. split; [done|]. eauto 10.
    + left. eexists. split; [reflexivity|]. split; [|by right]. auto.
Qed.
(** The body as the handler reads it. *)
Definition read_body (h : PushHandler S) (r : Request) : bytes * option error :=
  ReadAll (wrap64 (p_maxBody h + 1)) (req_Body r).

(** Why a push is refused, with its audit reason and HTTP status, in the order
    of the checks. *)
Inductive refusal (h : PushHandler S) (now : Z) (r : Request) : string → Z → Prop :=
  | refuse_missing_cid :
      Header_Get r "X-Artifact-CID" = "" →
      refusal h now r "missing_cid_header" StatusBadRequest
  | refuse_invalid_cid e :
      Header_Get r "X-Artifact-CID" ≠ "" → ParseCID (Header_Get r "X-Artifact-CID") = Err e →
      refusal h now r "invalid_cid_header" StatusBadRequest
  | refuse_read cid data e :
      ParseCID (Header_Get r "X-Artifact-CID") = Ok cid → read_body h r = (data, Some e) →
      refusal h now r "read_body_error" StatusBadRequest
  | refuse_size cid data :
      ParseCID (Header_Get r "X-Artifact-CID") = Ok cid → read_body h r = (data, None) →
      p_maxBody h < blen data →
      refusal h now r "size_exceeded" StatusRequestEntityTooLarge
  | refuse_token cid data reason :
      ParseCID (Header_Get r "X-Artifact-CID") = Ok cid → read_body h r = (data, None) →
      blen data ≤ p_maxBody h →
      token_reason h now r (Header_Get r "X-Artifact-CID") (blen data) reason →
      refusal h now r reason StatusUnauthorized
  | refuse_digest cid data :
      ParseCID (Header_Get r "X-Artifact-CID") = Ok cid → read_body h r = (data, None) →
      blen data ≤ p_maxBody h →
      token_gate h now r (Header_Get r "X-Artifact-CID") (blen data) →
      p_verify h = true → CID_Verify cid data = false →
      refusal h now r "cid_mismatch" StatusBadRequest.

(** What a push must satisfy for its bytes to reach the backend. *)
Record pushable (h : PushHandler S) (now : Z) (r : Request) (cid : CID) (data : bytes) : Prop := {
  pushable_cid : ParseCID (Header_Get r "X-Artifact-CID") = Ok cid;
  pushable_read : read_body h r = (data, None);
  pushable_size : blen data ≤ p_maxBody h;
  pushable_token : token_gate h now r (Header_Get r "X-Artifact-CID") (blen data);
  pushable_digest : p_verify h = true → CID_Verify cid data = true }.

(** The kid of an accepted token that the handler takes for its own sentinel. *)
Definition sentinel_kid (r : Request) : Prop :=
  extractKid (Header_Get r "X-Upload-Token") = tokenRejected.

Lemma verify_and_persist_cases h now r kid cid data s :
  let cs := Header_Get r "X-Artifact-CID" in
  ParseCID cs = Ok cid → read_body h r = (data, None) → blen data ≤ p_maxBody h →
  token_gate h now r cs (blen data) →
  (∃ msg rec, verify_and_persist h r cs kid cid data s =
     (Some (writeError StatusBadRequest msg), s, [rec]) ∧ audit "cid_mismatch" rec ∧
     refusal h now r "cid_mismatch" StatusBadRequest) ∨
  (pushable h now r cid data ∧
   verify_and_persist h r cs kid cid data s = persist h r cs cid data s).
Proof.
  intros cs Hp Hr Hs Ht. unfold verify_and_persist.
  destruct (p_verify h) eqn:Hv; cbn [andb]; [|right; split; [split; done || congruence|done]].
  destruct (CID_Verify cid data) eqn:Hd; cbn [negb].
  - right. split; [by split|done].
  - left. eexists _, _. split; [reflexivity|]. split; [done|]. by eapply refuse_digest.
Qed.

Lemma push_cases h now r s :
  (∃ reason st msg rec, push_ServeHTTP h now r s = (Some (writeError st msg), s, [rec]) ∧
     audit reason rec ∧ refusal h now r reason st) ∨
  (∃ cid data, pushable h now r cid data ∧
     push_ServeHTTP h now r s = persist h r (Header_Get r "X-Artifact-CID") cid data s) ∨
  (push_ServeHTTP h now r s = (None, s, []) ∧ sentinel_kid r).
Proof.
  unfold push_ServeHTTP. set (cs := Header_Get r "X-Artifact-CID").
  destruct (String.eqb_spec cs "") as [Hcs|Hcs].
  { left. eexists _, _, _, _. split; [reflexivity|]. split; [done|]. by apply refuse_missing_cid. }
  destruct (ParseCID cs) as [cid|e] eqn:Hp.
  2: { left. eexists _, _, _, _. split; [reflexivity|]. split; [done|]. by eapply refuse_invalid_cid. }
  fold (read_body h r). destruct (read_body h r) as [data [e|]] eqn:Hr.
  { left. eexists _, _, _, _. split; [reflexivity|]. split; [done|]. by eapply refuse_read. }
  destruct (Z.ltb_spec (p_maxBody h) (blen data)) as [Hs|Hs].
  { left. eexists _, _, _, _. split; [reflexivity|]. split; [done|]. by eapply refuse_size. }
  rewrite M_bind_eq.
  destruct (checkUploadToken_cases h now r cs (blen data) s)
    as [(kid & -> & Hg & Hk)|(msg & rec & reason & -> & Ha & Ht)].
  - destruct (String.eqb_spec kid tokenRejected) as [->|_].
    { right; right. destruct Hk as [Hk|Hk]; [done|]. by split. }
    destruct (verify_and_persist_cases h now r kid cid data s Hp Hr Hs Hg)
      as [(msg & rec & E & Ha & Hf)|[Hok E]]; fold cs in E; rewrite E.
    + left. eexists _, _, _, _. split; [reflexivity|]. by split.
    + right; left. exists cid, data. split; [done|]. by destruct (persist h r cs cid data s) as [[]].
  - left. cbn. eexists _, _, _, _. split; [reflexivity|]. split; [done|]. by eapply refuse_token.
Qed.

Lemma persist_run h r cs cid data s :
  run_state (persist h r cs cid data) s = run_state (Push (p_backend h) cid data) s ∧
  match run_val (Push (p_backend h) cid data) s with
  | None =>
      run_val (persist h r cs cid data) s = Some (json_response StatusOK
        (JObj [("cid", JStr (CID_String cid)); ("size", JNum (Itoa (blen data)))])) ∧
      run_log (persist h r cs cid data) s = run_log (Push (p_backend h) cid data) s
  | Some e =>
      run_val (persist h r cs cid data) s = Some (writeError StatusInternalServerError (Error e)) ∧
      ∃ rec, run_log (persist h r cs cid data) s = run_log (Push (p_backend h) cid data) s ++ [rec] ∧
        audit "backend_error" rec
  end.
Proof.
  unfold persist. run. destruct (run_val (Push (p_backend h) cid data) s) as [e|]; run.
  - split; [done|]. split; [done|]. eexists. by split.
  - by rewrite app_nil_r.
Qed.
End PushLemmas.

(** ** Theorems: authorization *)

(** A push that had an effect, or reported success, was pushable. *)
Lemma push_effect `{SDK} {S} (h : PushHandler S) now r s :
  run_state (push_ServeHTTP h now r) s ≠ s ∨
    (∃ resp, run_val (push_ServeHTTP h now r) s = Some resp ∧ status resp = StatusOK) →
  ∃ c d, pushable h now r c d.
Proof.
  destruct (push_cases h now r s) as [(reason & st & msg & rec & E & _ & Hf)|[(c & d & Hp & _)|[E _]]];
    [|by eauto|]; unfold run_state, run_val; rewrite E; cbn.
  - intros [?|(resp & [= <-] & Hst)]; [done|]. destruct Hf; done.
  - by intros [?|(resp & ? & _)].
Qed.

Lemma required_authorizes `{SDK} `{Diag} {S} (h : PushHandler S) v now r s :
  p_tokenPolicy h = "required" → p_tokenVerifier h = Some (Verify v) →
  run_state (push_ServeHTTP h now r) s ≠ s ∨
    (∃ resp, run_val (push_ServeHTTP h now r) s = Some resp ∧ status resp = StatusOK) →
  ∃ p d, read_body h r = (d, None) ∧ signed v (Header_Get r "X-Upload-Token") p ∧
    claims_ok p (Header_Get r "X-Artifact-CID") (blen d) now.
Proof.
  intros Hpol Hver (c & d & [_ Hr _ Ht _])%push_effect.
  unfold token_gate in Ht. rewrite Hver, Hpol in Ht.
  destruct Ht as [?|[[_ ?]|[_ (p & ? & ?)%Verify_accepts]]]; [done|done|by exists p, d].
Qed.

(** C6. Authorization: under policy "required", a push changes the store or is
    answered 200 only if it carries a token signed by the key registered for
    the token's kid, over exactly this CID header and this body length, and not
    past its expiry. *)
Theorem required_policy_authorizes `{SDK} `{Diag} {S} (h : PushHandler S) v now r s :
  p_tokenPolicy h = "required" → p_tokenVerifier h = Some (Verify v) →
  run_state (push_ServeHTTP h now r) s ≠ s ∨
    (∃ resp, run_val (push_ServeHTTP h now r) s = Some resp ∧ status resp = StatusOK) →
  ∃ p d, read_body h r = (d, None) ∧ signed v (Header_Get r "X-Upload-Token") p ∧
    claims_ok p (Header_Get r "X-Artifact-CID") (blen d) now.
Proof. apply required_authorizes. Qed.

(** ** Theorems: bounds *)

(** What the handler leaves of the backend: nothing, or one [Push] of a body that
    passed every check. *)
Lemma push_leaves `{SDK} {S} (h : PushHandler S) now r s :
  run_state (push_ServeHTTP h now r) s = s ∨
  ∃ c d, pushable h now r c d ∧
    run_state (push_ServeHTTP h now r) s = run_state (Push (p_backend h) c d) s.
Proof.
  destruct (push_cases h now r s) as [(reason & st & msg & rec & E & _)|[(c & d & Hp & E)|[E _]]];
    [left; unfold run_state; by rewrite E|right|left; unfold run_state; by rewrite E].
  exists c, d. split; [done|].
  destruct (persist_run h r (Header_Get r "X-Artifact-CID") c d s) as [<- _]. unfold run_state. by rewrite E.
Qed.

(** C13. The body limit: whatever backend the push handler is given, and whatever the
    request, it leaves the backend's state as it was, or as one [Push] leaves
    it, of the header's CID with the whole request body, read without error and
    at most [MaxBodySize] bytes long; a larger body is answered 413 with a
    [size_exceeded] record, before any token or digest work and without
    touching the backend. *)
Theorem push_size_limit `{SDK} {S} (h : PushHandler S) now r s :
  0 ≤ p_maxBody h < max_int64 →
  (run_state (push_ServeHTTP h now r) s = s ∨
   ∃ c, ParseCID (Header_Get r "X-Artifact-CID") = Ok c ∧ body_err (req_Body r) = None ∧
     blen (body_data (req_Body r)) ≤ p_maxBody h ∧
     run_state (push_ServeHTTP h now r) s = run_state (Push (p_backend h) c (body_data (req_Body r))) s) ∧
  (∀ c, Header_Get r "X-Artifact-CID" ≠ "" → ParseCID (Header_Get r "X-Artifact-CID") = Ok c →
     p_maxBody h < blen (body_data (req_Body r)) →
     ∃ msg rec, audit "size_exceeded" rec ∧
       push_ServeHTTP h now r s = (Some (writeError StatusRequestEntityTooLarge msg), s, [rec])).
Proof.
  intros Hmax. pose proof (ReadAll_limit (p_maxBody h) (req_Body r) Hmax) as Hlim. split.
  - destruct (push_leaves h now r s) as [?|(c & d & [Hc Hr Hs _ _] & E)]; [by left|right].
    unfold read_body in Hr. rewrite Hr in Hlim. exists c.
    destruct Hlim as [(Hl & -> & He)|(Hl & _)]; [done|lia].
  - intros c Hne Hc Hbig. unfold push_ServeHTTP. apply String.eqb_neq in Hne as ->. rewrite Hc.
    destruct (ReadAll _ _) as [d e].
    destruct Hlim as [(Hl & -> & _)|(Hl & -> & _)]; [lia|].
    destruct (Z.ltb_spec (p_maxBody h) (blen d)); [|lia].
    eexists _, _. split; [|reflexivity]. done.
Qed.

(** C14. At the top of the range the limit overflows: with [MaxBodySize] equal to
    2^63-1 the reader's limit [maxBody+1] is negative and no byte of any body is
    read.  Whatever the request, the push handler leaves the backend as it was
    or as a [Push] of the empty byte string leaves it; and with digest
    verification and upload tokens off, it acknowledges every upload with size
    0 and stores the empty byte string under its CID. *)
Theorem push_limit_overflow `{SDK} {S} (h : PushHandler S) now r s :
  p_maxBody h = max_int64 →
  (run_state (push_ServeHTTP h now r) s = s ∨
   ∃ c, ParseCID (Header_Get r "X-Artifact-CID") = Ok c ∧
     run_state (push_ServeHTTP h now r) s = run_state (Push (p_backend h) c []) s) ∧
  (∀ c, Header_Get r "X-Artifact-CID" ≠ "" → ParseCID (Header_Get r "X-Artifact-CID") = Ok c →
     p_tokenVerifier h = None → p_verify h = false → run_val (Push (p_backend h) c []) s = None →
     run_val (push_ServeHTTP h now r) s = Some (json_response StatusOK
       (JObj [("cid", JStr (CID_String c)); ("size", JNum "0")])) ∧
     run_state (push_ServeHTTP h now r) s = run_state (Push (p_backend h) c []) s).
Proof.
  intros Hm. pose proof (ReadAll_overflow (req_Body r)) as Ho. split.
  - destruct (push_leaves h now r s) as [?|(c & d & [Hc Hr _ _ _] & E)]; [by left|right]. exists c.
    unfold read_body in Hr. rewrite Hm, Ho in Hr. by injection Hr as <-.
  - intros c Hne Hc Ht Hv Hp.
    assert (push_ServeHTTP h now r s = persist h r (Header_Get r "X-Artifact-CID") c [] s) as E.
    { unfold push_ServeHTTP. apply String.eqb_neq in Hne as ->. rewrite Hc, Hm, Ho.
      change (max_int64 <? blen []) with false. cbv iota. rewrite M_bind_eq. unfold checkUploadToken.
      rewrite Ht. unfold verify_and_persist. rewrite Hv. cbn.
      by destruct (persist h r _ c [] s) as [[]]. }
    destruct (persist_run h r (Header_Get r "X-Artifact-CID") c [] s) as [Hs Hval]. rewrite Hp in Hval.
    unfold run_val at 1, run_state at 1. rewrite E. by destruct Hval.
Qed.

(** ** Theorems: the resolve expiry *)

Lemma all_digits_unescape ds : all_digits ds = true → QueryUnescape ds = Some ds.
Proof.
  unfold QueryUnescape. induction ds as [|a ds IH]; [done|]. cbn [all_digits].
  intros [Ha Hd]%andb_true_iff. cbn [url_unescape]. rewrite IH by done.
  destruct (Ascii.eqb_spec a "%") as [->|_]; [done|].
  cbn. by destruct (Ascii.eqb_spec a "+") as [->|_].
Qed.

Lemma Itoa_digits z : 0 < z → all_digits (Itoa z) = true ∧ Itoa z ≠ "".
Proof.
  intros Hz. destruct z as [|p|p]; [lia| |lia].
  change (Itoa (Zpos p)) with (pretty (Npos p)). unfold pretty, pretty_N.
  rewrite decide_False by done.
  destruct (pretty_N_go_digits (Npos p) "") as (a & r & -> & Ha & _ & _ & Hr); [lia|done|].
  split; [cbn; by rewrite Ha, Hr|done].
Qed.

Lemma Query_expiry ds :
  all_digits ds = true → Get "expiry" (Query ("expiry=" +:+ ds)) = ds.
Proof.
  intros Hd.
  assert (∀ c, is_digit c = false → str_has c ds = false) as Hno.
  { intros c Hc. induction ds as [|a ds IH]; [done|]. cbn in *.
    apply andb_true_iff in Hd as [Ha Hd]. rewrite IH by done.
    destruct (Ascii.eqb_spec a c) as [->|_]; [congruence|done]. }
  unfold Query. rewrite Split_single by (rewrite str_has_app, Hno by done; done). cbn [omap list_omap].
  unfold parse_setting. rewrite str_has_app, Hno by done. cbn [orb str_has Ascii.eqb Bool.eqb].
  change ("expiry=" +:+ ds) with ("expiry" +:+ String "=" ds).
  rewrite IndexByte_app by done. cbn [len Z.of_nat].
  change (String.eqb ("expiry" +:+ String "=" ds) "") with false.
  change (len "expiry" <? 0) with false. cbv iota.
  change (Z.to_nat (len "expiry")) with 6%nat.
  change (str_take 6 ("expiry" +:+ String "=" ds)) with "expiry".
  change (str_drop (6 + 1) ("expiry" +:+ String "=" ds)) with ds.
  change (QueryUnescape "expiry") with (Some "expiry"). rewrite all_digits_unescape by done.
  reflexivity.
Qed.

(** C24. The [expiry] parameter of a resolve request, in seconds, becomes a duration
    in nanoseconds exactly, up to 9223372036 seconds.  From the next second on
    the [int64] product wraps and the credential is asked for with a shorter
    duration than the parameter: a negative one up to 18446744073 seconds, and
    a fraction of a second at 18446744074. *)
Theorem resolve_expiry_range dflt r n :
  0 < n ≤ max_int64 → RawQuery r = "expiry=" +:+ Itoa n →
  (n ≤ 9223372036 → resolve_expiry dflt r = n * Second) ∧
  (9223372037 ≤ n → resolve_expiry dflt r < n * Second) ∧
  (9223372037 ≤ n ≤ 18446744073 → resolve_expiry dflt r < 0) ∧
  (n = 18446744074 → resolve_expiry dflt r = 290448384).
Proof.
  intros Hn Hq. destruct (Itoa_digits n) as [Hd Hne]; [lia|].
  assert (resolve_expiry dflt r = wrap64 (n * Second)) as ->.
  { unfold resolve_expiry. rewrite Hq, Query_expiry by done.
    apply String.eqb_neq in Hne as ->.
    rewrite ParseInt_Itoa by (unfold in_int64, min_int64; lia).
    destruct (Z.ltb_spec 0 n); [done|lia]. }
  unfold Second. split_and!; intros Hr.
  - apply wrap64_id. unfold in_int64, min_int64, max_int64. lia.
  - unfold wrap64. pose proof (Z.mod_pos_bound (n * 1000000000 + 2 ^ 63) (2 ^ 64) ltac:(lia)). lia.
  - unfold wrap64. replace (n * 1000000000 + 2 ^ 63) with (n * 1000000000 - 2 ^ 63 + 1 * 2 ^ 64) by lia.
    rewrite Z_mod_plus_full, Z.mod_small by lia. lia.
  - by subst n.
Qed.
