(* ===== verification/Testutil.v ===== *)
(** * internal/testutil: the log capture, the leak check and the seeded bytes

    [SlogCapture] is the logger the repository's tests hand to the handlers;
    its assertions are what those tests demand of the audit log.  They are
    modelled as the condition under which the test goes on, with the text of
    the failure otherwise, and linked to the records the push handler writes.
    [DeterministicBytes] is math/rand's Read over a seeded source, which is a
    parameter. *)

From Stdlib Require Import Ascii.
From S2P Require Import Prelude GoStrings Encoding Json Url Storage Http Backends Token Time Signers Api.

Open Scope Z_scope.

(** ** Captured records *)

(** The numeric values of [slog.Level], and its [String()]. *)
Definition level_value (l : Level) : Z :=
  match l with LevelInfo => 0 | LevelWarn => 4 | LevelError => 8 end.
Definition level_String (l : Level) : string :=
  match l with LevelInfo => "INFO" | LevelWarn => "WARN" | LevelError => "ERROR" end.

(** [fmt.Sprintf] of a value under the verb v. *)
Definition Sprintf_v (a : attr) : string :=
  match a with
  | AStr s => s
  | AInt z => Itoa z
  | ABool b => if b then "true" else "false"
  | AStrs l => "[" +:+ Join " " l +:+ "]"
  end.

Record CapturedRecord := MkCaptured {
  cr_Level : Level; cr_Message : string; cr_Attrs : gmap string attr }.

(** The handler's state: its slice of records. *)
Definition SlogCapture : Type := list CapturedRecord.

Definition NewSlogCapture : SlogCapture := [].

(** Every level is enabled. *)
Definition Enabled (c : SlogCapture) (l : Level) : bool := true.

(** The attributes go into a map in order: the last value of a key stays. *)
Definition captured (r : LogRecord) : CapturedRecord :=
  MkCaptured (log_level r) (log_msg r) (foldl (λ m '(k, v), <[k := v]> m) ∅ (log_attrs r)).

Definition Handle (c : SlogCapture) (r : LogRecord) : SlogCapture := c ++ [captured r].

Definition WithAttrs (c : SlogCapture) (attrs : list (string * attr)) : SlogCapture := c.
Definition WithGroup (c : SlogCapture) (name : string) : SlogCapture := c.

Definition Records (c : SlogCapture) : list CapturedRecord := c.
Definition Len (c : SlogCapture) : nat := length c.
Definition Reset (c : SlogCapture) : SlogCapture := [].

(** [slog.New(c)] under the records of a run. *)
Definition Logger (c : SlogCapture) (l : list LogRecord) : SlogCapture :=
  foldl (λ c r, if Enabled c (log_level r) then Handle c r else c) c l.

(** ** Assertions *)

Definition attrsMatch (got want : gmap string attr) : bool :=
  forallb (λ '(k, wv), match got !! k with
                       | Some gv => String.eqb (Sprintf_v gv) (Sprintf_v wv)
                       | None => false
                       end) (map_to_list want).

(** A map under the verb v: the keys in order. *)
Definition Sprintf_map (m : gmap string attr) : string :=
  "map[" +:+ Join " " ((λ k, k +:+ ":" +:+ default "" (Sprintf_v <$> m !! k)) <$> sorted_keys m) +:+ "]".

Definition newline : string := String "010" "".

Definition format_line `{Diag} (i : nat) (r : CapturedRecord) : string :=
  "  [" +:+ Itoa (Z.of_nat i) +:+ "] level=" +:+ level_String (cr_Level r) +:+ " msg="
    +:+ Quote (cr_Message r) +:+ " attrs=" +:+ Sprintf_map (cr_Attrs r) +:+ newline.

Definition formatRecords `{Diag} (rs : list CapturedRecord) : string :=
  match rs with
  | [] => "  (none)" +:+ newline
  | _ => Join "" (imap format_line rs)
  end.

(** One record against what a test wants. *)
Definition record_matches (level : Level) (msgSubstr : string) (want : gmap string attr)
    (r : CapturedRecord) : bool :=
  bool_decide (cr_Level r = level) && Contains (cr_Message r) msgSubstr && attrsMatch (cr_Attrs r) want.

(** The assertions: [None], or the text the test fails with. *)
Definition AssertContains `{Diag} (c : SlogCapture) (level : Level) (msgSubstr : string)
    (want : gmap string attr) : option string :=
  if existsb (record_matches level msgSubstr want) (Records c) then None
  else Some ("no captured record matched level=" +:+ level_String level +:+ " msg~=" +:+ Quote msgSubstr
             +:+ " attrs=" +:+ Sprintf_map want +:+ newline +:+ "records:" +:+ newline
             +:+ formatRecords (Records c)).

Definition warning (r : CapturedRecord) : bool := level_value LevelWarn <=? level_value (cr_Level r).

Definition AssertNoWarnings `{Diag} (c : SlogCapture) : option string :=
  match List.find warning (Records c) with
  | Some r => Some ("unexpected warn/error record: level=" +:+ level_String (cr_Level r) +:+ " msg="
                    +:+ Quote (cr_Message r) +:+ " attrs=" +:+ Sprintf_map (cr_Attrs r))
  | None => None
  end.

(** ** goleak.go *)

(** [RunWithGoleak]: the exit code and what is written to stderr, given the
    code of [m.Run()] and [goleak.Find] over the functions to ignore. *)
Definition RunWithGoleak (code : Z) (Find : list string → option error) : Z * string :=
  if negb (code =? 0) then (code, "")
  else match Find ["testing.(*M).Run"; "go.opencensus.io/stats/view.(*worker).start";
                   "net/http.(*Server).Serve"] with
       | Some e => (1, "goroutine leak detected:" +:+ newline +:+ Error e +:+ newline)
       | None => (0, "")
       end.

(** ** Lemmas *)

Lemma Logger_app c l : Logger c l = c ++ map captured l.
Proof.
  revert c. induction l as [|r l IH]; intros c; cbn [Logger foldl map]; [by rewrite app_nil_r|].
  unfold Logger in IH. cbn [Enabled]. rewrite IH. unfold Handle. by rewrite <- (base.assoc (++)).
Qed.

(** With distinct keys the map holds every attribute. *)
Lemma captured_attr r k v :
  NoDup (log_attrs r).*1 → log_attr k r = Some v → cr_Attrs (captured r) !! k = Some v.
Proof.
  unfold captured, log_attr. cbn [cr_Attrs]. generalize (log_attrs r) as l. clear r.
  assert (∀ l (m : gmap string attr), k ∉ l.*1 →
    foldl (λ m '(k, v), <[k := v]> m) m l !! k = m !! k) as Hskip.
  { induction l as [|[k' v'] l IH]; intros m Hk; [done|]. cbn in *. apply not_elem_of_cons in Hk as [Hne Hk].
    rewrite IH by done. by rewrite lookup_insert_ne. }
  intros l. generalize (∅ : gmap string attr). induction l as [|[k' v'] l IH]; intros m Hnd Ha; [done|].
  cbn in *. apply NoDup_cons in Hnd as [Hk Hnd]. destruct (String.eqb_spec k k') as [->|Hne].
  - injection Ha as ->. rewrite Hskip by done. apply lookup_insert_eq.
  - by apply IH.
Qed.

Lemma attrsMatch_spec got want :
  attrsMatch got want = true ↔
  ∀ k wv, want !! k = Some wv → ∃ gv, got !! k = Some gv ∧ Sprintf_v gv = Sprintf_v wv.
Proof.
  unfold attrsMatch. rewrite forallb_forall. split.
  - intros Hall k wv Hk%elem_of_map_to_list. apply list_elem_of_In in Hk. specialize (Hall _ Hk). cbn in Hall.
    destruct (got !! k) as [gv|]; [|done]. exists gv. split; [done|]. by apply String.eqb_eq.
  - intros Hall [k wv] Hk%list_elem_of_In%elem_of_map_to_list.
    destruct (Hall k wv Hk) as (gv & -> & E). by apply String.eqb_eq.
Qed.

(** The assertions say what they mean of the records logged. *)
Lemma AssertContains_spec `{Diag} l level sub want :
  AssertContains (Logger NewSlogCapture l) level sub want = None ↔
  ∃ r, r ∈ l ∧ log_level r = level ∧ Contains (log_msg r) sub = true ∧
    attrsMatch (cr_Attrs (captured r)) want = true.
Proof.
  unfold AssertContains, Records. rewrite Logger_app. cbn [app NewSlogCapture].
  destruct (existsb _ _) eqn:E.
  - apply existsb_exists in E as (cr & Hin & Hm). apply in_map_iff in Hin as (r & <- & Hr).
    unfold record_matches in Hm. apply andb_true_iff in Hm as [[Hl%bool_decide_eq_true Hc]%andb_true_iff Ha].
    split; [|done]. intros _. exists r. split_and!; [by apply list_elem_of_In|done..].
  - split; [done|]. intros (r & Hr & Hl & Hc & Ha). exfalso.
    assert (existsb (record_matches level sub want) (map captured l) = true) as E'; [|congruence].
    apply existsb_exists. exists (captured r). split; [by apply in_map, list_elem_of_In|].
    unfold record_matches. cbn. rewrite bool_decide_true, Hc by done. done.
Qed.

Lemma AssertNoWarnings_spec `{Diag} l :
  AssertNoWarnings (Logger NewSlogCapture l) = None ↔ Forall (λ r, log_level r = LevelInfo) l.
Proof.
  unfold AssertNoWarnings, Records. rewrite Logger_app. cbn [app NewSlogCapture].
  induction l as [|r l IH]; [by split|]. cbn [map List.find]. rewrite Forall_cons.
  unfold warning at 1. cbn [cr_Level captured]. destruct (log_level r); cbn; [|by split; [|intros []]..].
  rewrite IH. split; [done|by intros [_ ?]].
Qed.

(** ** The push handler under capture *)

Section PushCapture.
Context `{SDK} `{Diag} {S : Type}.

(** The records the push handler writes: a message that starts the same way,
    and no key twice. *)
Definition rejection_record (r : LogRecord) : Prop :=
  HasPrefix (log_msg r) "push rejected: " = true ∧ NoDup (log_attrs r).*1.

Lemma push_records (h : PushHandler S) now r s :
  (∀ c d, Forall rejection_record (run_log (Push (p_backend h) c d) s)) →
  Forall rejection_record (run_log (push_ServeHTTP h now r) s).
Proof.
  intros Hb. assert (∀ msg attrs, HasPrefix msg "push rejected: " = true → bool_decide (NoDup attrs.*1) = true →
    Forall rejection_record [MkLog LevelWarn msg attrs]) as Hone.
  { intros msg attrs Hm Hk. apply Forall_singleton. split; [done|]. by apply bool_decide_eq_true in Hk. }
  assert (∀ cs n reason msg, Forall rejection_record
    (run_log (Some <$> rejectMalformed r cs n reason msg) s)) as Hrej.
  { intros. unfold rejectMalformed. run. apply Hone; [apply HasPrefix_app|reflexivity]. }
  unfold push_ServeHTTP. destruct (String.eqb _ ""); [apply Hrej|].
  destruct (ParseCID _) as [c|e]; [|apply Hrej]. destruct (ReadAll _ _) as [d [e|]]; [apply Hrej|].
  destruct (_ <? _); [run; by apply Hone|].
  run. apply Forall_app. split.
  { unfold checkUploadToken. repeat case_match; run; first [by apply Hone|constructor]. }
  destruct (run_val _ s) as [kid w]. 
  assert (run_state (checkUploadToken h now r (Header_Get r "X-Artifact-CID") (blen d)) s = s) as ->.
  { unfold checkUploadToken. repeat case_match; by run. }
  destruct (String.eqb kid tokenRejected); [constructor|].
  unfold verify_and_persist. destruct (_ && _); [run; by apply Hone|].
  unfold persist. run. apply Forall_app. split; [apply Hb|].
  destruct (run_val (Push (p_backend h) c d) s); run; [by apply Hone|constructor].
Qed.

(** An audit record passes the assertion the tests make of it. *)
Lemma audit_asserted reason rec :
  audit reason rec → rejection_record rec →
  AssertContains (Logger NewSlogCapture [rec]) LevelWarn "push rejected"
    {["event" := AStr pushRejectedEvent; "reason" := AStr reason]} = None.
Proof.
  intros (Hl & He & Hr) [[q Hm]%HasPrefix_spec Hk]. apply AssertContains_spec.
  exists rec. split_and!; [by left|done| |].
  - rewrite Hm. apply (Contains_app "" "push rejected" (": " +:+ q)).
  - apply attrsMatch_spec. intros k wv [[<- <-]|[_ [<- <-]%lookup_singleton_Some]]%lookup_insert_Some.
    + eexists. split; [by apply captured_attr|done].
    + eexists. split; [by apply captured_attr|done].
Qed.

(** What the repository's tests assert of an upload holds of every upload, over a
    backend that logs nothing itself: either it was answered with an error and
    the capture holds exactly one record, which passes the assertion of a
    warning "push rejected" with the stable event and the reason of the refusal
    (or [backend_error] for a 500), or the capture passes the assertion of no
    warnings and no error was answered. *)
Theorem push_assertions (h : PushHandler S) now r s :
  (∀ c d, run_log (Push (p_backend h) c d) s = []) →
  let res := run_val (push_ServeHTTP h now r) s in
  let c := Logger NewSlogCapture (run_log (push_ServeHTTP h now r) s) in
  (∃ reason st msg, res = Some (writeError st msg) ∧ Len c = 1%nat ∧
     (refusal h now r reason st ∨ (reason = "backend_error" ∧ st = StatusInternalServerError)) ∧
     AssertContains c LevelWarn "push rejected"
       {["event" := AStr pushRejectedEvent; "reason" := AStr reason]} = None) ∨
  (Len c = 0%nat ∧ AssertNoWarnings c = None ∧
     (res = None ∨ ∃ resp, res = Some resp ∧ status resp = StatusOK)).
Proof.
  intros Hb res c. assert (Forall rejection_record (run_log (push_ServeHTTP h now r) s)) as Hrec
    by (apply push_records; intros; by rewrite Hb).
  assert (∀ reason rec, run_log (push_ServeHTTP h now r) s = [rec] → audit reason rec →
    Len c = 1%nat ∧ AssertContains c LevelWarn "push rejected"
      {["event" := AStr pushRejectedEvent; "reason" := AStr reason]} = None) as Hone.
  { intros reason rec E Ha. subst c. rewrite E in Hrec |- *. rewrite Forall_singleton in Hrec.
    split; [done|]. apply audit_asserted; [exact Ha|exact Hrec]. }
  subst res. destruct (push_cases h now r s)
    as [(reason & st & msg & rec & E & Ha & Hf)|[(x & d & Hp & E)|[E _]]].
  - left. exists reason, st, msg. rewrite run_eta in E. injection E as -> _ E.
    destruct (Hone reason rec E Ha). auto.
  - rewrite (run_eta (persist h r (Header_Get r "X-Artifact-CID") x d)), run_eta in E.
    injection E as -> _ E. destruct (persist_run h r (Header_Get r "X-Artifact-CID") x d s) as [_ Hv].
    rewrite Hb in Hv. destruct (run_val (Push (p_backend h) x d) s) as [e|].
    + destruct Hv as (-> & rec & El & Ha). left. eexists "backend_error", _, _.
      destruct (Hone "backend_error" rec) as [? ?]; [by rewrite E, El|done|]. split_and!; [done..|by right|done].
    + destruct Hv as [-> El]. right. subst c. rewrite E, El. split_and!; [done..|]. right. by eexists.
  - right. rewrite run_eta in E. injection E as -> _ E. subst c. rewrite E. split_and!; [done..|]. by left.
Qed.
End PushCapture.

(** ** cidvectors.go: bodies from a seeded source *)

(** math/rand's source: [rand.NewSource] and its non-negative 63-bit integers. *)
Class SeededSource := { Source : Type; NewSource : Z → Source; Int63 : Source → N * Source }.

Section Seeded.
Context `{SeededSource}.

(** [rand.Rand.Read]: seven bytes of every integer, the low one first; [val] has
    [pos] of them left. *)
Fixpoint rng_read (n : nat) (src : Source) (val : N) (pos : nat) : bytes :=
  match n with
  | O => []
  | S n =>
      let '(val, pos, src) := match pos with
                              | O => let '(v, src') := Int63 src in (v, 7%nat, src')
                              | _ => (val, pos, src)
                              end in
      byte_of_N val :: rng_read n src (N.shiftr val 8) (pred pos)
  end.

(** A negative length makes [make] panic. *)
Definition DeterministicBytes (seed n : Z) : option bytes :=
  if n <? 0 then None else Some (rng_read (Z.to_nat n) (NewSource seed) 0 0).

(** The reference: the low [n] bytes of an integer, and those of [k] integers. *)
Fixpoint low_bytes (n : nat) (v : N) : bytes :=
  match n with O => [] | S n => byte_of_N v :: low_bytes n (N.shiftr v 8) end.
Fixpoint draws (k : nat) (src : Source) : bytes :=
  match k with O => [] | S k => low_bytes 7 (Int63 src).1 ++ draws k (Int63 src).2 end.

Lemma low_bytes_length n v : length (low_bytes n v) = n.
Proof. revert v. induction n as [|n IH]; intros v; cbn; by rewrite ?IH. Qed.
Lemma draws_length k src : length (draws k src) = (7 * k)%nat.
Proof.
  revert src. induction k as [|k IH]; intros src; [done|]. cbn [draws].
  rewrite length_app, low_bytes_length, IH. lia.
Qed.

Lemma rng_read_draws n k src val pos :
  (n ≤ pos + 7 * k)%nat → rng_read n src val pos = take n (low_bytes pos val ++ draws k src).
Proof.
  revert k src val pos. induction n as [|n IH]; intros k src val pos Hn; [by rewrite take_0|].
  cbn [rng_read]. destruct pos as [|pos].
  - destruct k as [|k]; [lia|]. cbn [draws low_bytes app]. destruct (Int63 src) as [v src'].
    cbn [fst snd pred take]. f_equal. rewrite (IH k) by lia. done.
  - cbn [low_bytes app take pred]. f_equal. apply IH. lia.
Qed.

(** The bytes are the first [n] of the source's integers, seven of each; so a
    shorter body is a prefix of a longer one from the same seed. *)
Lemma DeterministicBytes_draws seed n k :
  0 ≤ n ≤ 7 * Z.of_nat k →
  DeterministicBytes seed n = Some (take (Z.to_nat n) (draws k (NewSource seed))).
Proof.
  intros Hn. unfold DeterministicBytes. destruct (Z.ltb_spec n 0); [lia|].
  by rewrite (rng_read_draws _ k) by lia.
Qed.

Lemma DeterministicBytes_length seed n :
  0 ≤ n → ∃ out, DeterministicBytes seed n = Some out ∧ blen out = n.
Proof.
  intros Hn. eexists. split; [apply (DeterministicBytes_draws seed n (Z.to_nat n)); lia|].
  unfold blen. rewrite length_take, draws_length. lia.
Qed.

Lemma DeterministicBytes_prefix seed n n' out :
  0 ≤ n ≤ n' → DeterministicBytes seed n' = Some out →
  DeterministicBytes seed n = Some (take (Z.to_nat n) out).
Proof.
  intros Hn Ho. rewrite (DeterministicBytes_draws seed n' (Z.to_nat n')) in Ho by lia. injection Ho as <-.
  rewrite (DeterministicBytes_draws seed n (Z.to_nat n')), take_take by lia. do 2 f_equal. lia.
Qed.
End Seeded.
