(* ===== verification/Server.v ===== *)
(** * api/server.go: NewMux, and the net/http routing it relies on

    [NewMux] builds the handlers from a [ServerConfig] and registers seven
    patterns; [ServeMux] cleans the path, matches method and path, binds the
    [{cid}] wildcard and answers 301, 404 and 405 itself. *)

From Stdlib Require Import Ascii.
From S2P Require Import Prelude GoStrings Json Url Storage Http Backends Token Time Api.

Open Scope Z_scope.

(** ** path.Clean and cleanPath *)

(** One element of a rooted path: empty and [.] vanish, [..] pops. *)
Definition clean_push (acc : list string) (seg : string) : list string :=
  if String.eqb seg "" || String.eqb seg "." then acc
  else if String.eqb seg ".." then match acc with [] => [] | _ :: acc => acc end
  else seg :: acc.

(** [path.Clean] of a rooted path. *)
Definition Clean (p : string) : string :=
  "/" +:+ Join "/" (reverse (foldl clean_push [] (Split p "/"))).

(** [cleanPath]: rooted, cleaned, with its trailing slash kept. *)
Definition cleanPath (p : string) : string :=
  if String.eqb p "" then "/"
  else
    let p := if HasPrefix p "/" then p else "/" +:+ p in
    let np := Clean p in
    if HasSuffix p "/" && negb (String.eqb np "/") then np +:+ "/" else np.

(** ** Patterns *)

Inductive segment := Lit (s : string) | Wildcard.
Definition pattern : Type := list segment.

(** [firstSegment] iterated: the segments of a path, unescaped where they can
    be; a trailing slash is a segment [/] of its own. *)
Definition pathUnescape (s : string) : string :=
  match PathUnescape s with Some u => u | None => s end.

Fixpoint slash_last (l : list string) : list string :=
  match l with
  | [] => []
  | [s] => [if String.eqb s "" then "/" else pathUnescape s]
  | s :: l => pathUnescape s :: slash_last l
  end.

Definition path_segments (path : string) : list string := slash_last (Split (str_drop 1 path) "/").

(** [matchPath]: the values bound to wildcards. A wildcard never takes a
    segment that is just a slash. *)
Fixpoint match_segments (p : pattern) (segs : list string) : option (list string) :=
  match p, segs with
  | [], [] => Some []
  | Lit l :: p, s :: segs => if String.eqb l s then match_segments p segs else None
  | Wildcard :: p, s :: segs =>
      if String.eqb s "/" then None else cons s <$> match_segments p segs
  | _, _ => None
  end.

(** ** The route table *)

Inductive route := RPush | RFetch | RExists | RDelete | RResolve | RPin | RHealth.

#[export] Instance route_eq_dec : EqDecision route.
Proof. solve_decision. Defined.

Definition routes : list (string * pattern * route) :=
  [ ("POST", [Lit "v1"; Lit "artifacts"], RPush);
    ("GET", [Lit "v1"; Lit "artifacts"; Wildcard], RFetch);
    ("HEAD", [Lit "v1"; Lit "artifacts"; Wildcard], RExists);
    ("DELETE", [Lit "v1"; Lit "artifacts"; Wildcard], RDelete);
    ("GET", [Lit "v1"; Lit "artifacts"; Wildcard; Lit "resolve"], RResolve);
    ("POST", [Lit "v1"; Lit "artifacts"; Wildcard; Lit "pin"], RPin);
    ("GET", [Lit "healthz"], RHealth) ].

(** The route of a method and path, with the value of [{cid}]. *)
Fixpoint find_route (table : list (string * pattern * route)) (method : string)
    (segs : list string) : option (route * string) :=
  match table with
  | [] => None
  | (m, p, rt) :: table =>
      match (if String.eqb m method then match_segments p segs else None) with
      | Some vals => Some (rt, default "" (head vals))
      | None => find_route table method segs
      end
  end.

(** A HEAD request with no HEAD pattern falls back to GET. *)
Definition match_request (method : string) (segs : list string) : option (route * string) :=
  match find_route routes method segs with
  | Some r => Some r
  | None => if String.eqb method "HEAD" then find_route routes "GET" segs else None
  end.

(** [matchingMethods], for the Allow header of a 405. *)
Definition matchingMethods (segs : list string) : list string :=
  let ms := omap (λ '(m, p, _), match match_segments p segs with Some _ => Some m | None => None end)
              routes in
  sort_strings (remove_dups (ms ++ if decide ("GET" ∈ ms) then ["HEAD"] else [])).

(** ** Serving *)

Record ServerConfig (S : Type) := MkServer {
  Backend : BackendProvider S;
  VerifyOnPush : bool;
  MaxBodySize : Z;
  DefaultExpiry : Z;
  cfg_UploadTokenVerifier : option UploadTokenVerifier;
  UploadTokenPolicy : string }.
Arguments Backend {S} _.
Arguments VerifyOnPush {S} _.
Arguments MaxBodySize {S} _.
Arguments DefaultExpiry {S} _.
Arguments cfg_UploadTokenVerifier {S} _.
Arguments UploadTokenPolicy {S} _.

(** What the server answers: a redirect to a cleaned path, or a response. *)
Inductive Outcome :=
  | Redirect (path : string)
  | Respond (resp : Response).

Definition plain_error (st : Z) (extra : list (string * string)) (msg : string) : Response :=
  MkResponse st (extra ++ [("Content-Type", "text/plain; charset=utf-8");
                           ("X-Content-Type-Options", "nosniff")]) (to_bytes (msg +:+ String "010" "")).

Definition method_not_allowed (allow : list string) : Response :=
  plain_error 405 [("Allow", Join ", " allow)] "Method Not Allowed".
Definition not_found : Response := plain_error 404 [] "404 page not found".

(** A handler that returns without writing: the server sends 200, no body. *)
Definition implicit_ok : Response := bare StatusOK.

Definition with_cid (r : Request) (cid : string) : Request :=
  MkRequest (req_Method r) (EscapedPath r) (RawQuery r) (Header r) (req_Body r) (RemoteAddr r) cid.

Section Mux.
Context `{SDK} {S : Type}.

Definition push_handler (cfg : ServerConfig S) : PushHandler S :=
  MkPush S (Backend cfg) (VerifyOnPush cfg) (MaxBodySize cfg) (cfg_UploadTokenVerifier cfg)
    (if String.eqb (UploadTokenPolicy cfg) "" then "off" else UploadTokenPolicy cfg).

Definition dispatch (cfg : ServerConfig S) (rt : route) (now : Z) (r : Request)
    : M S (option Response) :=
  match rt with
  | RPush => push_ServeHTTP (push_handler cfg) now r
  | RFetch => fetch_ServeHTTP (Backend cfg) r
  | RExists => exists_ServeHTTP (Backend cfg) r
  | RDelete => delete_ServeHTTP (Backend cfg) r
  | RResolve => resolve_ServeHTTP (Backend cfg) (DefaultExpiry cfg) now r
  | RPin => pin_ServeHTTP (Backend cfg) r
  | RHealth => health_ServeHTTP (Backend cfg) r
  end.

(** The mux: redirect to the cleaned path, dispatch, 405 or 404. *)
Definition NewMux (cfg : ServerConfig S) (now : Z) (r : Request) : M S Outcome :=
  let path := if String.eqb (req_Method r) "CONNECT" then EscapedPath r
              else cleanPath (EscapedPath r) in
  if negb (String.eqb path (EscapedPath r)) then mret (Redirect path)
  else
    let segs := path_segments path in
    match match_request (req_Method r) segs with
    | Some (rt, cid) =>
        resp ← dispatch cfg rt now (with_cid r cid);
        mret (Respond (default implicit_ok resp))
    | None =>
        match matchingMethods segs with
        | [] => mret (Respond not_found)
        | allow => mret (Respond (method_not_allowed allow))
        end
    end.
End Mux.

(** ** Addressing *)

(** The path of an artifact, as a client builds it from a CID string. *)
Definition artifact_path (cidStr suffix : string) : string :=
  "/v1/artifacts/" +:+ PathEscape cidStr +:+ suffix.

(** The texts that cannot be a path segment of their own. *)
Definition addressable (cidStr : string) : Prop :=
  cidStr ≠ "" ∧ cidStr ≠ "." ∧ cidStr ≠ ".." ∧ cidStr ≠ "/".

Lemma escaped_segment e :
  addressable e →
  PathEscape e ≠ "" ∧ PathEscape e ≠ "." ∧ PathEscape e ≠ ".." ∧ pathUnescape (PathEscape e) = e.
Proof.
  intros (H1 & H2 & H3 & _). unfold pathUnescape, PathUnescape. rewrite unescape_escape.
  split_and!; [..|done]; intros E;
    [apply H1|apply H2|apply H3]; apply (inj PathEscape); by rewrite E.
Qed.

Lemma clean_push_plain acc seg :
  seg ≠ "" → seg ≠ "." → seg ≠ ".." → clean_push acc seg = seg :: acc.
Proof.
  intros H1 H2 H3. unfold clean_push. apply String.eqb_neq in H1 as ->.
  apply String.eqb_neq in H2 as ->. by apply String.eqb_neq in H3 as ->.
Qed.

(** The two shapes of artifact paths are clean and split into their segments. *)
Lemma artifact_path_clean e suffix segs :
  addressable e → suffix = "" ∧ segs = [] ∨ suffix = "/resolve" ∧ segs = ["resolve"]
    ∨ suffix = "/pin" ∧ segs = ["pin"] →
  cleanPath (artifact_path e suffix) = artifact_path e suffix ∧
  path_segments (artifact_path e suffix) = "v1" :: "artifacts" :: e :: segs.
Proof.
  intros Ha Hsuf. destruct (escaped_segment e Ha) as (H1 & H2 & H3 & Hu).
  pose proof (url_escape_no_slash encodePathSegment e) as Hns. fold PathEscape in Hns.
  assert (Split (PathEscape e +:+ suffix) "/" = PathEscape e :: segs) as Hsplit.
  { destruct Hsuf as [[-> ->]|[[-> ->]|[-> ->]]].
    - rewrite str_app_nil_r. by apply Split_single.
    - rewrite Split_app by done. reflexivity.
    - rewrite Split_app by done. reflexivity. }
  assert (HasSuffix (artifact_path e suffix) "/" = false) as Hslash.
  { unfold artifact_path. destruct Hsuf as [[-> _]|[[-> _]|[-> _]]].
    - rewrite str_app_nil_r. by apply HasSuffix_free.
    - change "/resolve" with ("/" +:+ "resolve"). rewrite <- !str_app_assoc. by apply HasSuffix_free.
    - change "/pin" with ("/" +:+ "pin"). rewrite <- !str_app_assoc. by apply HasSuffix_free. }
  assert (Split (artifact_path e suffix) "/" = "" :: "v1" :: "artifacts" :: PathEscape e :: segs) as Hp.
  { unfold artifact_path. rewrite <- Hsplit. reflexivity. }
  assert (slash_last (PathEscape e :: segs) = e :: segs) as Hsl.
  { destruct Hsuf as [[_ ->]|[[_ ->]|[_ ->]]]; cbn [slash_last]; rewrite Hu; try done.
    by apply String.eqb_neq in H1 as ->. }
  split.
  - unfold cleanPath. change (String.eqb (artifact_path e suffix) "") with false.
    change (HasPrefix (artifact_path e suffix) "/") with true. cbv iota beta.
    rewrite Hslash. cbn [andb]. unfold Clean.
    rewrite <- (Join_Split (artifact_path e suffix) "/") at 2. rewrite Hp.
    cbn [foldl]. rewrite 3!clean_push_plain by done.
    by destruct Hsuf as [[_ ->]|[[_ ->]|[_ ->]]].
  - unfold path_segments.
    change (str_drop 1 (artifact_path e suffix)) with ("v1/artifacts/" +:+ PathEscape e +:+ suffix).
    transitivity (slash_last ("v1" :: "artifacts" :: Split (PathEscape e +:+ suffix) "/"));
      [reflexivity|].
    rewrite Hsplit. cbn [slash_last]. rewrite <- Hsl. reflexivity.
Qed.

(** The documented routes below an artifact. *)
Definition artifact_routes : list (string * string * route) :=
  [("GET", "", RFetch); ("HEAD", "", RExists); ("DELETE", "", RDelete);
   ("GET", "/resolve", RResolve); ("POST", "/pin", RPin)].

Lemma match_request_artifact e m suffix rt :
  addressable e → (m, suffix, rt) ∈ artifact_routes →
  m ≠ "CONNECT" ∧ cleanPath (artifact_path e suffix) = artifact_path e suffix ∧
  match_request m (path_segments (artifact_path e suffix)) = Some (rt, e).
Proof.
  intros Ha Hin. pose proof Ha as (_ & _ & _ & Hsl%String.eqb_neq).
  unfold artifact_routes in Hin. repeat rewrite elem_of_cons in Hin.
  destruct Hin as [[= -> -> ->]|[[= -> -> ->]|[[= -> -> ->]|[[= -> -> ->]|[[= -> -> ->]|[]%elem_of_nil]]]]];
    (edestruct (artifact_path_clean e) as [-> ->]; [done|eauto|]);
    (split; [done|]; split; [done|]); unfold match_request, routes; cbn; by rewrite Hsl.
Qed.

Lemma NewMux_artifact `{SDK} {S} (cfg : ServerConfig S) now r e suffix rt :
  addressable e → (req_Method r, suffix, rt) ∈ artifact_routes →
  EscapedPath r = artifact_path e suffix →
  NewMux cfg now r =
    (resp ← dispatch cfg rt now (with_cid r e); mret (Respond (default implicit_ok resp))).
Proof.
  intros Ha Hin Hp. destruct (match_request_artifact e _ _ _ Ha Hin) as (Hm & Hc & Hr).
  unfold NewMux. apply String.eqb_neq in Hm as ->. by rewrite Hp, Hc, String.eqb_refl, Hr.
Qed.

(** The upload route. *)
Lemma NewMux_push `{SDK} {S} (cfg : ServerConfig S) now r :
  req_Method r = "POST" → EscapedPath r = "/v1/artifacts" →
  NewMux cfg now r =
    (resp ← dispatch cfg RPush now (with_cid r ""); mret (Respond (default implicit_ok resp))).
Proof. intros Hm Hp. unfold NewMux. by rewrite Hm, Hp. Qed.

Example mux_unknown : match_request "GET" (path_segments "/v1/artifacts/") = None.
Proof. reflexivity. Qed.
Example mux_allow : matchingMethods (path_segments "/v1/artifacts/x") = ["DELETE"; "GET"; "HEAD"].
Proof. vm_compute. reflexivity. Qed.
Example mux_cid : match_request "GET" (path_segments "/v1/artifacts/sha256%3Aab/resolve")
  = Some (RResolve, "sha256:ab").
Proof. vm_compute. reflexivity. Qed.
Example clean1 : cleanPath "/v1//artifacts/./x/../y/" = "/v1/artifacts/y/".
Proof. vm_compute. reflexivity. Qed.
