(* ===== verification/Startup.v ===== *)
(** * cmd/artifact-store: start-up wiring

    token.go (operator keys from the environment or a directory, the upload-token
    verifier), and main.go (the VerifyOnPush warning, backend selection, the
    server configuration). *)

From Stdlib Require Import Ascii.
From S2P Require Import Prelude GoStrings Encoding Sha256 Json Url Storage Http Backends Reference Fakes Gcs Rustfs Token Config Api Server.

Open Scope Z_scope.

(** ** token.go *)

(** [encoding/pem]: the contents of the first PEM block of a text, if there is
    one. Nothing is assumed of it. *)
Class Pem := { pem_Decode : bytes → option bytes }.

(** [decodePubKey]. *)
Definition decodePubKey `{Pem} `{Diag} (raw0 : string) : Result bytes :=
  let raw := TrimSpace raw0 in
  if String.eqb raw "" then Err (errors_New "key value is empty")
  else if HasPrefix raw "-----BEGIN" then
    match pem_Decode (to_bytes raw) with
    | None => Err (errors_New "PEM decode failed")
    | Some b =>
        if blen b =? PublicKeySize then Ok b
        else if PublicKeySize <=? blen b then Ok (drop (Z.to_nat (blen b - PublicKeySize)) b)
        else Err (errors_New ("PEM key too short: " +:+ Itoa (blen b) +:+ " bytes"))
    end
  else
    match (if len raw =? 2 * PublicKeySize then hex_DecodeString raw else None) with
    | Some b => Ok b
    | None =>
        match DecodeString StdEncoding raw with
        | None => Err (errors_New ("neither hex nor base64: " +:+ base64_err raw))
        | Some b =>
            if negb (blen b =? PublicKeySize) then
              Err (errors_New ("base64-decoded key is " +:+ Itoa (blen b) +:+ " bytes, want "
                +:+ Itoa PublicKeySize))
            else Ok b
        end
    end.

(** A non-blank entry. *)
Definition emit_entry (s : string) (rest : list string) : list string :=
  if String.eqb s "" then rest else s :: rest.

(** The PEM-aware walk: [rest] is [spec[i:]], [current] the entry so far. *)
Fixpoint split_pem (rest current : string) (depth : Z) : list string :=
  match rest with
  | EmptyString => emit_entry (TrimSpace current) []
  | String ch more =>
      if (depth =? 0) && Ascii.eqb ch "," then emit_entry (TrimSpace current) (split_pem more "" 0)
      else
        let depth := if HasPrefix rest "-----BEGIN " then depth + 1 else depth in
        let depth := if HasPrefix rest "-----END " then depth - 1 else depth in
        split_pem more (current +:+ String ch "") depth
  end.

Definition splitInlineEntries (spec : string) : list string :=
  if negb (Contains spec "-----BEGIN") then
    filter (λ e, TrimSpace e ≠ "") (Split spec ",")
  else split_pem spec "" 0.

(** The text of an entry's error: its index, and the kid once it is known. *)
Definition entry_err `{Diag} (i : Z) (kid : string) (msg : string) : error :=
  errors_New ("entry " +:+ Itoa i +:+ " (kid=" +:+ Quote kid +:+ "): " +:+ msg).

(** The loop of [parseInlinePubKeys] from entry [i] on. *)
Fixpoint parse_entries `{Pem} `{Diag} (i : Z) (entries : list string) (out : content)
    : Result content :=
  match entries with
  | [] => Ok out
  | entry :: entries =>
      let colon := IndexByte entry ":" in
      if colon <? 0 then
        Err (errors_New ("entry " +:+ Itoa i +:+ ": missing kid:value separator (':')"))
      else
        let kid := TrimSpace (str_take (Z.to_nat colon) entry) in
        let encoded := TrimSpace (str_drop (Z.to_nat colon + 1) entry) in
        if String.eqb encoded "" then Err (entry_err i kid "empty key value")
        else match decodePubKey encoded with
             | Err e => Err (wrapf ("entry " +:+ Itoa i +:+ " (kid=" +:+ Quote kid +:+ "): ") e "")
             | Ok key =>
                 match out !! kid with
                 | Some _ => Err (entry_err i kid "duplicate kid")
                 | None => parse_entries (i + 1) entries (<[kid := key]> out)
                 end
             end
  end.

Definition parseInlinePubKeys `{Pem} `{Diag} (spec : string) : Result content :=
  parse_entries 0 (splitInlineEntries spec) ∅.

(** The file system: directory entries (name, is a directory) and file contents. *)
Record FS := MkFS {
  ReadDir : string → Result (list (string * bool));
  ReadFile : string → Result (list Byte.byte);
  filepath_Join : string → string → string }.

(** The loop of [loadPubKeysDir]. *)
Fixpoint load_files `{Pem} `{Diag} (fs : FS) (dir : string) (entries : list (string * bool))
    (out : content) : Result content :=
  match entries with
  | [] => Ok out
  | (name, isDir) :: entries =>
      if isDir then load_files fs dir entries out
      else if negb (HasSuffix name ".pem") then load_files fs dir entries out
      else
        let kid := TrimSuffix name ".pem" in
        let path := filepath_Join fs dir name in
        match ReadFile fs path with
        | Err e => Err (wrapf ("read " +:+ Quote path +:+ ": ") e "")
        | Ok raw =>
            match decodePubKey (TrimSpace (of_bytes raw)) with
            | Err e => Err (wrapf ("parse " +:+ Quote path +:+ " (kid=" +:+ Quote kid +:+ "): ") e "")
            | Ok key =>
                match out !! kid with
                | Some _ => Err (errors_New ("duplicate kid " +:+ Quote kid +:+ " in dir " +:+ Quote dir))
                | None => load_files fs dir entries (<[kid := key]> out)
                end
            end
        end
  end.

Definition loadPubKeysDir `{Pem} `{Diag} (fs : FS) (dir : string) : Result content :=
  match ReadDir fs dir with
  | Err e => Err (wrapf ("read dir " +:+ Quote dir +:+ ": ") e "")
  | Ok entries => load_files fs dir entries ∅
  end.

(** The kids for the start-up log line, in order. *)
Definition sortedKids (keys : content) : list string :=
  sort_strings ((λ kv, if String.eqb kv.1 "" then "<empty>" else kv.1) <$> map_to_list keys).

(** The keys of the configured source. *)
Definition load_keys `{Pem} `{Diag} (fs : FS) (cfg : config.Config) : Result content :=
  if negb (String.eqb (config.OperatorPubKeys cfg) "") then
    parseInlinePubKeys (config.OperatorPubKeys cfg)
  else loadPubKeysDir fs (config.OperatorPubKeysDir cfg).

(** [buildUploadTokenVerifier]: no verifier under policy off, an error, or a
    verifier over the loaded keys. *)
Definition buildUploadTokenVerifier `{Pem} `{Diag} {S} (fs : FS) (cfg : config.Config)
    : M S (Result (option ed25519UploadTokenVerifier)) :=
  let policy := config.RequireUploadToken cfg in
  if String.eqb policy "off" then
    _ ← info "upload token: disabled (relying on network segmentation)"
          [("event", AStr "artifact.config.upload_token_off")];
    mret (Ok None)
  else if negb (config.one_of policy ["optional"; "required"]) then
    mret (Err (errors_New ("config: ARTIFACT_REQUIRE_UPLOAD_TOKEN=" +:+ Quote policy
      +:+ " (want off|optional|required)")))
  else if String.eqb (config.OperatorPubKeys cfg) ""
          && String.eqb (config.OperatorPubKeysDir cfg) "" then
    mret (Err (errors_New ("config: ARTIFACT_REQUIRE_UPLOAD_TOKEN=" +:+ policy
      +:+ " requires ARTIFACT_OPERATOR_PUBKEYS or ARTIFACT_OPERATOR_PUBKEYS_DIR")))
  else if negb (String.eqb (config.OperatorPubKeys cfg) "")
          && negb (String.eqb (config.OperatorPubKeysDir cfg) "") then
    mret (Err (errors_New ("config: ARTIFACT_OPERATOR_PUBKEYS and ARTIFACT_OPERATOR_PUBKEYS_DIR are "
      +:+ "mutually exclusive; pick one")))
  else match load_keys fs cfg with
  | Err e => mret (Err (wrapf "config: operator pubkeys: " e ""))
  | Ok keys =>
      if Nat.eqb (size keys) 0 then mret (Err (errors_New "config: operator pubkeys: no keys loaded"))
      else match NewEd25519UploadTokenVerifier keys with
           | Err e => mret (Err (wrapf "config: build verifier: " e ""))
           | Ok v =>
               _ ← info "upload token: enabled"
                     [("event", AStr "artifact.config.upload_token_enabled");
                      ("policy", AStr policy); ("operator_kids", AStrs (sortedKids keys))];
               mret (Ok (Some v))
           end
  end.

(** ** main.go *)

(** [runVerifyOnPushWatchdog] up to cancellation after [ticks] ticks of the
    re-warning ticker. *)
Definition runVerifyOnPushWatchdog {S} (cfg : config.Config) (ticks : nat) : M S () :=
  if config.VerifyOnPush cfg then mret ()
  else
    let warning := warn
      "VerifyOnPush is disabled. This is a severe misconfiguration in production environments."
      [("event", AStr "artifact.config.verify_on_push_disabled"); ("env", AStr (config.Env cfg))] in
    _ ← warning;
    if negb (String.eqb (config.Env cfg) "production") then mret ()
    else Nat.iter ticks (λ m, _ ← warning; m) (mret ()).

(** A backend's own memory and the network it talks to. *)
Definition World `{SDKMemory} (N : Type) : Type := InMemoryContentStore * N.

(** A backend as part of a larger state. *)
Definition on_backend {S T} (lift : ∀ A, M S A → M T A) (B : BackendProvider S) : BackendProvider T := {|
  Push c d := lift _ (Push B c d); Fetch c := lift _ (Fetch B c); Pin c := lift _ (Pin B c);
  Exists c := lift _ (Exists B c); Delete c := lift _ (Delete B c);
  Resolve now c e := lift _ (Resolve B now c e); Healthy := lift _ (Healthy B) |}.

Section Main.
Context `{SDK} `{SDKMemory} `{Diag} {N : Type}.
Variable client : Client N.

(** The GCS and RustFS settings main.go passes: no token source, no signers. *)
Definition gcs_settings (cfg : config.Config) (isMirror : bool) : GCSConfig N :=
  MkGCS N (if isMirror then config.MirrorBucket cfg else config.Bucket cfg) (config.Prefix cfg)
    None None "".

Definition rustfs_settings (cfg : config.Config) (isMirror : bool) : RustFSConfig :=
  MkRustFS (if isMirror then config.MirrorEndpoint cfg else config.Endpoint cfg)
    (if isMirror then config.MirrorBucket cfg else config.Bucket cfg)
    (config.Region cfg) (config.Prefix cfg) (config.PathStyle cfg) None None.

Definition createBackend (name : string) (cfg : config.Config) (isMirror : bool)
    : Result (BackendProvider (World N)) :=
  if String.eqb name "memory" then Ok (on_backend (λ A, on_fst) InMemoryBackend)
  else if String.eqb name "gcs" then
    Ok (on_backend (λ A, on_snd) (GCSBackend client (gcs_settings cfg isMirror)))
  else if String.eqb name "rustfs" then
    Ok (on_backend (λ A, on_snd) (RustFSBackend client (rustfs_settings cfg isMirror)))
  else Err (errors_New ("unknown backend " +:+ Quote name)).

(** [initBackend]: the primary with a world of its own, the mirror with another. *)
Definition initBackend (cfg : config.Config) : Result (BackendProvider (World N * World N)) :=
  primary ← map_err (λ e, wrapf "primary backend: " e "") (createBackend (config.Backend cfg) cfg false);
  if negb (String.eqb (config.MirrorBackend cfg) "") then
    mirror ← map_err (λ e, wrapf "mirror backend: " e "")
               (createBackend (config.MirrorBackend cfg) cfg true);
    Ok (NewMirroredStore primary mirror (config.MirrorMode cfg)).1
  else Ok (on_backend (λ A, on_fst) primary).

(** The server configuration [main] hands to [NewMux]. *)
Definition server_config {S} (cfg : config.Config) (backend : BackendProvider S)
    (verifier : option ed25519UploadTokenVerifier) : ServerConfig S :=
  MkServer S backend (config.VerifyOnPush cfg) (config.MaxBodySize cfg)
    (config.DefaultResolveExpiry cfg) (Verify <$> verifier) (config.RequireUploadToken cfg).
End Main.

(** ** Lemmas: every loaded key has the right size *)

Section Keys.
Context `{Pem} `{Diag}.

Definition sized (keys : content) : Prop := map_Forall (λ _ k, blen k = PublicKeySize) keys.

Lemma decodePubKey_size raw k : decodePubKey raw = Ok k → blen k = PublicKeySize.
Proof.
  unfold decodePubKey. set (t := TrimSpace raw). destruct (String.eqb t ""); [done|].
  destruct (HasPrefix t "-----BEGIN").
  - destruct (pem_Decode (to_bytes t)) as [b|]; [|done].
    destruct (Z.eqb_spec (blen b) PublicKeySize) as [Hb|]; [by intros [= <-]|].
    destruct (Z.leb_spec PublicKeySize (blen b)) as [Hb|]; [|done]. intros [= <-].
    unfold blen in *. rewrite length_drop. unfold PublicKeySize in *. lia.
  - destruct (Z.eqb_spec (len t) (2 * PublicKeySize)) as [Hl|].
    + destruct (hex_DecodeString t) as [b|] eqn:Hx.
      { intros [= <-]. unfold hex_DecodeString in Hx. apply hex_decode_length in Hx.
        rewrite to_bytes_length in Hx. unfold len, blen, PublicKeySize in *. lia. }
      destruct (DecodeString StdEncoding t) as [b|]; [|done].
      destruct (Z.eqb_spec (blen b) PublicKeySize); cbn; [by intros [= <-]|done].
    + destruct (DecodeString StdEncoding t) as [b|]; [|done].
      destruct (Z.eqb_spec (blen b) PublicKeySize); cbn; [by intros [= <-]|done].
Qed.

Lemma sized_insert keys kid k : sized keys → blen k = PublicKeySize → sized (<[kid := k]> keys).
Proof. intros Hs Hk. by apply map_Forall_insert_2. Qed.

Lemma parse_entries_sized i entries out ks :
  sized out → parse_entries i entries out = Ok ks → sized ks.
Proof.
  revert i out. induction entries as [|e es IH]; intros i out Ho; cbn [parse_entries];
    [by intros [= <-]|].
  destruct (IndexByte e ":" <? 0); [done|]. set (encoded := TrimSpace (str_drop _ e)).
  destruct (String.eqb encoded ""); [done|].
  destruct (decodePubKey encoded) as [k|] eqn:Hk; [|done].
  destruct (out !! _); [done|]. apply IH, sized_insert; [done|by eapply decodePubKey_size].
Qed.

Lemma load_files_sized fs dir entries out ks :
  sized out → load_files fs dir entries out = Ok ks → sized ks.
Proof.
  revert out. induction entries as [|[name isDir] es IH]; intros out Ho; cbn [load_files];
    [by intros [= <-]|].
  destruct isDir; [by apply IH|]. destruct (negb (HasSuffix name ".pem")); [by apply IH|].
  destruct (ReadFile fs _) as [raw|]; [|done].
  destruct (decodePubKey _) as [k|] eqn:Hk; [|done].
  destruct (out !! _); [done|]. apply IH, sized_insert; [done|by eapply decodePubKey_size].
Qed.

Lemma load_keys_sized fs cfg ks : load_keys fs cfg = Ok ks → sized ks.
Proof.
  unfold load_keys, parseInlinePubKeys, loadPubKeysDir.
  assert (sized ∅) by apply map_Forall_empty.
  destruct (negb _); [by apply parse_entries_sized|].
  destruct (ReadDir fs _); [by apply load_files_sized|done].
Qed.

Lemma build_result {S} fs cfg (s : S) v :
  run_val (buildUploadTokenVerifier fs cfg) s = Ok v →
  (config.RequireUploadToken cfg = "off" ∧ v = None) ∨
  (config.RequireUploadToken cfg ∈ ["optional"; "required"] ∧
   ∃ ks, load_keys fs cfg = Ok ks ∧ v = Some (MkVerifier ks) ∧ ks ≠ ∅ ∧ sized ks ∧
     (config.OperatorPubKeys cfg = "" ↔ config.OperatorPubKeysDir cfg ≠ "")).
Proof.
  unfold buildUploadTokenVerifier.
  destruct (String.eqb_spec (config.RequireUploadToken cfg) "off") as [E|_].
  { run. intros [= <-]. by left. }
  destruct (config.one_of _ _) eqn:Hp; cbn [negb]; [apply config.one_of_spec in Hp|by run].
  destruct (String.eqb_spec (config.OperatorPubKeys cfg) "") as [Ek|Ek],
    (String.eqb_spec (config.OperatorPubKeysDir cfg) "") as [Ed|Ed]; cbn [andb negb]; try (by run);
    (destruct (load_keys fs cfg) as [ks|] eqn:Hl; [|by run]);
    (destruct (Nat.eqb_spec (size ks) 0) as [|Hne]; [by run|]);
    (destruct (NewEd25519UploadTokenVerifier ks) as [v'|] eqn:Hv; run; [|done]);
    intros [= <-]; right; (split; [done|]); exists ks; (split; [done|]);
    pose proof (load_keys_sized _ _ _ Hl) as Hs;
    (assert (ks ≠ ∅) as Hks by (intros ->; by rewrite map_size_empty in Hne));
    (rewrite (proj2 (NewVerifier_ok ks)) in Hv by done); injection Hv as <-; naive_solver.
Qed.

(** Start-up fails closed: when it succeeds, there is no verifier only if the
    policy is "off"; under "optional" and "required" there is one, over a
    non-empty set of 32-byte keys loaded from exactly one source. *)
Theorem build_fails_closed {S} fs cfg (s : S) v :
  run_val (buildUploadTokenVerifier fs cfg) s = Ok v →
  (config.RequireUploadToken cfg = "off" ∧ v = None) ∨
  (config.RequireUploadToken cfg ∈ ["optional"; "required"] ∧
   ∃ ks, load_keys fs cfg = Ok ks ∧ v = Some (MkVerifier ks) ∧ ks ≠ ∅ ∧ sized ks ∧
     (config.OperatorPubKeys cfg = "" ↔ config.OperatorPubKeysDir cfg ≠ "")).
Proof. apply build_result. Qed.

(** ** The inline key list round-trips *)

(** One entry of ARTIFACT_OPERATOR_PUBKEYS with its key in hex, and the list. *)
Definition inline_entry (kv : string * bytes) : string := kv.1 +:+ ":" +:+ hex_EncodeToString kv.2.
Definition inline_spec (ks : list (string * bytes)) : string := Join "," (inline_entry <$> ks).

(** Characters of a kid that need no quoting in the list. *)
Definition kid_char (a : ascii) : bool :=
  visible a && negb (Ascii.eqb a ",") && negb (Ascii.eqb a ":").

Definition inline_ok (kv : string * bytes) : Prop :=
  all_chars kid_char kv.1 = true ∧ blen kv.2 = PublicKeySize.

Lemma kid_char_visible s : all_chars kid_char s = true → all_chars visible s = true.
Proof.
  induction s as [|a s IH]; [done|]. cbn [all_chars]. unfold kid_char at 1.
  intros [[[-> _]%andb_true_iff _]%andb_true_iff Hs]%andb_true_iff. by apply IH.
Qed.

Lemma hex_visible l : all_chars visible (hex_EncodeToString l) = true.
Proof. apply hex_EncodeToString_chars. by apply hex_alphabet_ind. Qed.

Lemma decodePubKey_hex k : blen k = PublicKeySize → decodePubKey (hex_EncodeToString k) = Ok k.
Proof.
  intros Hk. unfold decodePubKey. rewrite TrimSpace_visible by apply hex_visible.
  assert (len (hex_EncodeToString k) = 2 * PublicKeySize) as Hl.
  { unfold len. rewrite hex_EncodeToString_length. unfold blen in Hk. lia. }
  destruct (String.eqb_spec (hex_EncodeToString k) "") as [E|_]; [by rewrite E in Hl|].
  assert (HasPrefix (hex_EncodeToString k) "-----BEGIN" = false) as ->.
  { pose proof (hex_EncodeToString_free "-" k eq_refl) as Hf.
    destruct (hex_EncodeToString k) as [|a s]; [done|]. cbn [str_has HasPrefix] in Hf |- *.
    rewrite Ascii.eqb_sym. by destruct (Ascii.eqb a "-"). }
  by rewrite Hl, Z.eqb_refl, hex_DecodeString_EncodeToString.
Qed.

Lemma parse_inline_entry i kv es out :
  inline_ok kv → out !! kv.1 = None →
  parse_entries i (inline_entry kv :: es) out = parse_entries (i + 1) es (<[kv.1 := kv.2]> out).
Proof.
  intros [Hkid Hk] Ho. cbn [parse_entries]. unfold inline_entry.
  change (kv.1 +:+ ":" +:+ hex_EncodeToString kv.2)
    with (kv.1 +:+ String ":" (hex_EncodeToString kv.2)).
  rewrite IndexByte_app by (by apply (all_chars_free kid_char)).
  destruct (Z.ltb_spec (len kv.1) 0); [unfold len in *; lia|]. unfold len. rewrite Nat2Z.id.
  rewrite str_take_app, str_drop_app_add. cbn [str_drop].
  rewrite !TrimSpace_visible by auto using kid_char_visible, hex_visible.
  rewrite decodePubKey_hex, Ho by done.
  destruct (String.eqb_spec (hex_EncodeToString kv.2) "") as [E|_]; [|done].
  apply (f_equal String.length) in E. rewrite hex_EncodeToString_length in E.
  unfold blen, PublicKeySize in Hk. cbn in E. lia.
Qed.

Lemma parse_inline_entries i ks out :
  NoDup ks.*1 → Forall inline_ok ks → (∀ kid, kid ∈ ks.*1 → out !! kid = None) →
  parse_entries i (inline_entry <$> ks) out = Ok (list_to_map ks ∪ out).
Proof.
  revert i out. induction ks as [|[kid k] ks IH]; intros i out Hnd Hok Hout.
  { cbn. by rewrite (left_id_L ∅ (∪)). }
  cbn [fmap list_fmap] in *. inversion Hnd as [|? ? Hn Hnd']; subst.
  inversion Hok as [|? ? Hkv Hok']; subst.
  rewrite parse_inline_entry; [|done|apply Hout; by left].
  rewrite IH; [|done|done|].
  - f_equal. cbn [fst snd list_to_map foldr]. rewrite <- insert_union_r, insert_union_l; [done|].
    by apply not_elem_of_list_to_map_1.
  - intros kid' Hin. cbn [fst snd]. rewrite lookup_insert_ne by (intros ->; done).
    apply Hout. by right.
Qed.

Lemma inline_entry_plain kv :
  inline_ok kv → str_has "," (inline_entry kv) = false ∧ TrimSpace (inline_entry kv) ≠ "".
Proof.
  intros [Hkid Hk]. unfold inline_entry. split.
  - rewrite !str_has_app, hex_EncodeToString_free by done.
    by rewrite (all_chars_free kid_char "," kv.1).
  - rewrite TrimSpace_visible; [by destruct kv.1|].
    by rewrite !all_chars_app, hex_visible, kid_char_visible.
Qed.

(** Operator keys written inline as [kid:hex] entries are read back as exactly
    that kid-to-key map, for any list of distinct kids without blanks, commas
    or colons (and no PEM marker), the empty kid included. *)
Theorem inline_round_trip ks :
  ks ≠ [] → NoDup ks.*1 → Forall inline_ok ks → Contains (inline_spec ks) "-----BEGIN" = false →
  parseInlinePubKeys (inline_spec ks) = Ok (list_to_map ks).
Proof.
  intros Hne Hnd Hok Hpem. unfold parseInlinePubKeys, splitInlineEntries. rewrite Hpem. cbn [negb].
  unfold inline_spec. rewrite Split_Join.
  - rewrite filter_all.
    + rewrite parse_inline_entries by (done || set_solver). by rewrite (right_id_L ∅ (∪)).
    + apply Forall_fmap. eapply Forall_impl; [exact Hok|]. intros kv Hkv. by apply inline_entry_plain.
  - by destruct ks.
  - apply Forall_fmap. eapply Forall_impl; [exact Hok|]. intros kv Hkv. by apply inline_entry_plain.
Qed.
End Keys.

(** A warning repeated. *)
Lemma run_log_repeat {S} msg attrs n (s : S) :
  run_log (Nat.iter n (λ m, _ ← warn msg attrs; m) (mret ())) s =
    replicate n (MkLog LevelWarn msg attrs).
Proof. induction n as [|n IH]; [done|]. rewrite Nat.iter_succ. run. by rewrite IH. Qed.

(** ** Theorems: the wired service *)

Section Wired.
Context `{SDK} `{SDKMemory} `{Diag} `{Pem}.

(** A server configured with the verifier that was built under policy required
    lets only signed pushes through. *)
Lemma startup_required {S T} fs cfg (t : T) v (backend : BackendProvider S) now r s :
  config.RequireUploadToken cfg = "required" →
  run_val (buildUploadTokenVerifier fs cfg) t = Ok v →
  let h := push_handler (server_config cfg backend v) in
  run_state (push_ServeHTTP h now r) s ≠ s ∨
    (∃ resp, run_val (push_ServeHTTP h now r) s = Some resp ∧ status resp = StatusOK) →
  ∃ ks p d, load_keys fs cfg = Ok ks ∧ ks ≠ ∅ ∧ read_body h r = (d, None) ∧
    signed (MkVerifier ks) (Header_Get r "X-Upload-Token") p ∧
    claims_ok p (Header_Get r "X-Artifact-CID") (blen d) now.
Proof.
  intros Hpol Hb h Heff.
  destruct (build_result fs cfg t v Hb) as [[Hoff _]|(_ & ks & Hl & -> & Hne & _)]; [congruence|].
  destruct (required_authorizes h (MkVerifier ks) now r s) as (p & d & ? & ? & ?); [|done|done|].
  - unfold h, push_handler, server_config. cbn. by rewrite Hpol.
  - by exists ks, p, d.
Qed.

(** The warning policy of the VerifyOnPush watchdog: silence when verification
    is on; when it is off, one start-up warning outside production, and in
    production one more at every tick until shutdown. *)
Theorem watchdog_policy {S} cfg ticks (s : S) :
  run_log (runVerifyOnPushWatchdog cfg ticks) s =
    replicate (if config.VerifyOnPush cfg then 0
               else if String.eqb (config.Env cfg) "production" then 1 + ticks else 1)
      (MkLog LevelWarn
        "VerifyOnPush is disabled. This is a severe misconfiguration in production environments."
        [("event", AStr "artifact.config.verify_on_push_disabled"); ("env", AStr (config.Env cfg))]).
Proof.
  unfold runVerifyOnPushWatchdog. destruct (config.VerifyOnPush cfg); [by run|]. run.
  destruct (String.eqb (config.Env cfg) "production"); cbn [negb]; [|by run].
  by rewrite run_log_repeat.
Qed.

(** The object-store backends that [main] creates have no URL signer: every
    resolve of an artifact that exists is answered 500. *)
Theorem resolve_unwired {N} (client : Client N) name cfg isMirror B dflt now r c s :
  createBackend client name cfg isMirror = Ok B → name ≠ "memory" →
  parseCIDFromPath r = Ok c → run_val (Exists B c) s = Ok true →
  ∃ resp, run_val (resolve_ServeHTTP B dflt now r) s = Some resp ∧
    status resp = StatusInternalServerError.
Proof.
  intros HB Hn Hc He. unfold resolve_ServeHTTP. rewrite Hc. run. rewrite He. run.
  assert (∃ msg, run_val (Resolve B now c (resolve_expiry dflt r)) (run_state (Exists B c) s)
    = Err (errors_New msg)) as [msg ->]; [|by eauto].
  destruct (run_state (Exists B c) s) as [mem net].
  unfold createBackend in HB. apply String.eqb_neq in Hn. rewrite Hn in HB.
  destruct (String.eqb name "gcs"); [|destruct (String.eqb name "rustfs"); [|done]];
    injection HB as <-; cbn [Resolve on_backend GCSBackend RustFSBackend]; run; eexists; reflexivity.
Qed.
End Wired.
