(* ===== verification/System.v ===== *)
(** * The service as a whole

    Theorems about [NewMux] over any backend: what can be stored and served,
    the abstract map the API implements over a fault-free backend, and the
    end-to-end upload/download round trip.  Backends enter only through the
    contracts [Sound] and [Refines]. *)

From Stdlib Require Import Ascii.
From S2P Require Import Prelude GoStrings Encoding Json Url Storage Http Backends Reference Token Time Api Server.

Open Scope Z_scope.

(** ** Integrity under arbitrary backend faults *)

Section Integrity.
Context `{SDKLaws} {S : Type}.
Variable cfg : ServerConfig S.
Context `{!Sound (Backend cfg)}.

(** A key with bytes that hash to it. *)
Definition verified (k : string) (x : bytes) : Prop :=
  ∃ c, parsed c ∧ k = CID_String c ∧ CID_Verify c x = true.

(** Everything a fetch might return verifies. *)
Definition integrity (s : S) : Prop := ∀ k x, may s k x → verified k x.

(** States the server can reach from an empty store by serving requests. *)
Inductive reachable : S → Prop :=
  | reach_empty s : (∀ k x, ¬ may s k x) → reachable s
  | reach_serve s now r : reachable s → reachable (run_state (NewMux cfg now r) s).

Lemma push_may now r s k x :
  may (run_state (push_ServeHTTP (push_handler cfg) now r) s) k x →
  may s k x ∨ ∃ cid, pushable (push_handler cfg) now r cid x ∧ k = CID_String cid.
Proof.
  destruct (push_cases (push_handler cfg) now r s)
    as [(reason & st & msg & rec & E & _)|[(cid & data & Hp & E)|[E _]]].
  - unfold run_state. rewrite E. by left.
  - unfold run_state. rewrite E. fold (run_state (persist (push_handler cfg) r
      (Header_Get r "X-Artifact-CID") cid data) s).
    rewrite (proj1 (persist_run _ _ _ _ _ _)). cbn [p_backend push_handler].
    intros [?|[-> ->]]%may_push; eauto.
  - unfold run_state. rewrite E. by left.
Qed.

Lemma dispatch_may rt now r s k x :
  may (run_state (dispatch cfg rt now r) s) k x →
  may s k x ∨ (rt = RPush ∧ ∃ cid, pushable (push_handler cfg) now r cid x ∧ k = CID_String cid).
Proof.
  destruct rt; cbn [dispatch].
  - intros [?|?]%push_may; eauto.
  - unfold fetch_ServeHTTP. destruct (parseCIDFromPath r); run; eauto using may_fetch.
  - unfold exists_ServeHTTP. destruct (parseCIDFromPath r); run; eauto using may_exists.
  - unfold delete_ServeHTTP. destruct (parseCIDFromPath r); run; eauto using may_delete.
  - unfold resolve_ServeHTTP. destruct (parseCIDFromPath r) as [c|]; run; [|eauto].
    destruct (run_val (Exists (Backend cfg) c) s) as [[]|]; run;
      eauto using may_exists, may_resolve.
  - unfold pin_ServeHTTP. destruct (parseCIDFromPath r); run; eauto using may_pin.
  - unfold health_ServeHTTP. run. eauto using may_healthy.
Qed.

Lemma NewMux_may now r s k x :
  may (run_state (NewMux cfg now r) s) k x →
  may s k x ∨ ∃ cid r', pushable (push_handler cfg) now r' cid x ∧ k = CID_String cid.
Proof.
  unfold NewMux. set (path := if String.eqb _ _ then _ else _).
  destruct (negb _); [run; eauto|].
  destruct (match_request _ _) as [[rt cid]|].
  - run. intros [?|(_ & c & ? & ?)]%dispatch_may; eauto.
  - destruct (matchingMethods _); run; eauto.
Qed.

Lemma NewMux_integrity now r s :
  VerifyOnPush cfg = true → integrity s → integrity (run_state (NewMux cfg now r) s).
Proof.
  intros Hv Hi k x [?|(c & r' & Hp & ->)]%NewMux_may; [by apply Hi|].
  destruct Hp. exists c. split; [by eexists|]. split; [done|]. by apply pushable_digest.
Qed.

Lemma reachable_integrity s : VerifyOnPush cfg = true → reachable s → integrity s.
Proof.
  intros Hv. induction 1 as [s Hs|s now r _ IH]; [by intros k x ?%Hs|].
  by apply NewMux_integrity.
Qed.
End Integrity.

(** ** The abstract service: a map behind HTTP *)

Section Abstract.
Context `{SDK} {S : Type}.
Variable cfg : ServerConfig S.

(** What a fetch serves. *)
Definition fetched (d : bytes) : Response :=
  MkResponse StatusOK
    [("Content-Type", "application/octet-stream"); ("Cache-Control", "public, immutable");
     ("Content-Length", intToStr (blen d))] d.

Definition stored (c : CID) (d : bytes) : Response :=
  json_response StatusOK (JObj [("cid", JStr (CID_String c)); ("size", JNum (Itoa (blen d)))]).

(** One request against the map [m]: the route's answer and the map after it. *)
Inductive api_step (m : content) (now : Z) (r : Request) : route → option Response → content → Prop :=
  | api_push_refused reason st msg :
      refusal (push_handler cfg) now r reason st →
      api_step m now r RPush (Some (writeError st msg)) m
  | api_push_stored c d :
      pushable (push_handler cfg) now r c d →
      api_step m now r RPush (Some (stored c d)) (<[CID_String c := d]> m)
  | api_push_silent :
      sentinel_kid r → api_step m now r RPush None m
  | api_bad_cid rt e resp :
      rt ≠ RPush → rt ≠ RHealth → parseCIDFromPath r = Err e →
      status resp = StatusBadRequest → api_step m now r rt (Some resp) m
  | api_fetch_hit c d :
      parseCIDFromPath r = Ok c → m !! CID_String c = Some d →
      api_step m now r RFetch (Some (fetched d)) m
  | api_fetch_miss c :
      parseCIDFromPath r = Ok c → m !! CID_String c = None →
      api_step m now r RFetch (Some (writeError StatusNotFound "not found")) m
  | api_exists c :
      parseCIDFromPath r = Ok c →
      api_step m now r RExists
        (Some (bare (if decide (is_Some (m !! CID_String c)) then StatusOK else StatusNotFound))) m
  | api_delete c resp :
      parseCIDFromPath r = Ok c →
      status resp = StatusOK ∨ (m !! CID_String c = None ∧ status resp = StatusInternalServerError) →
      api_step m now r RDelete (Some resp) (delete (CID_String c) m)
  | api_pin c resp :
      parseCIDFromPath r = Ok c →
      status resp = StatusOK ∨ (m !! CID_String c = None ∧ status resp = StatusNotFound) →
      api_step m now r RPin (Some resp) m
  | api_resolve_miss c :
      parseCIDFromPath r = Ok c → m !! CID_String c = None →
      api_step m now r RResolve (Some (writeError StatusNotFound "not found")) m
  | api_resolve_hit c resp :
      parseCIDFromPath r = Ok c → is_Some (m !! CID_String c) →
      status resp ∈ [StatusOK; StatusNotFound; StatusInternalServerError] →
      api_step m now r RResolve (Some resp) m
  | api_health :
      api_step m now r RHealth
        (Some (json_response StatusOK (JObj [("status", JStr "healthy")]))) m.

Variable R : S → content → Prop.
Context `{!Refines (Backend cfg) R}.

Lemma push_refines now r s m :
  R s m → ∃ m', api_step m now r RPush (run_val (dispatch cfg RPush now r) s) m' ∧
    R (run_state (dispatch cfg RPush now r) s) m'.
Proof.
  intros HR. cbn [dispatch]. unfold run_val, run_state.
  destruct (push_cases (push_handler cfg) now r s)
    as [(reason & st & msg & rec & -> & _ & Hf)|[(c & d & Hp & E)|[-> Hk]]].
  - exists m. split; [by eapply api_push_refused|done].
  - rewrite E. set (p := persist _ _ _ _ _). fold (run_val p s) (run_state p s). subst p.
    destruct (persist_run (push_handler cfg) r (Header_Get r "X-Artifact-CID") c d s) as [-> Hv].
    destruct (ref_push c d s m HR) as [Hn HR']. cbn [p_backend push_handler] in *.
    rewrite Hn in Hv. destruct Hv as [-> _].
    eexists. split; [|exact HR']. by apply api_push_stored.
  - exists m. split; [by apply api_push_silent|done].
Qed.

Lemma fetch_refines now r s m :
  R s m → ∃ m', api_step m now r RFetch (run_val (dispatch cfg RFetch now r) s) m' ∧
    R (run_state (dispatch cfg RFetch now r) s) m'.
Proof.
  intros HR. cbn [dispatch]. unfold fetch_ServeHTTP.
  destruct (parseCIDFromPath r) as [c|e] eqn:Hc; run;
    [|exists m; split; [by eapply api_bad_cid|done]].
  destruct (ref_fetch c s m HR) as [[Hp Ha] HR']. exists m. split; [|done].
  destruct (m !! CID_String c) as [d|] eqn:E.
  - rewrite (Hp d) by done. by eapply api_fetch_hit.
  - destruct Ha as (e & -> & ->); [done|]. by eapply api_fetch_miss.
Qed.

Lemma exists_refines now r s m :
  R s m → ∃ m', api_step m now r RExists (run_val (dispatch cfg RExists now r) s) m' ∧
    R (run_state (dispatch cfg RExists now r) s) m'.
Proof.
  intros HR. cbn [dispatch]. unfold exists_ServeHTTP.
  destruct (parseCIDFromPath r) as [c|e] eqn:Hc; run;
    [|exists m; split; [by eapply api_bad_cid|done]].
  destruct (ref_exists c s m HR) as [-> HR']. exists m. split; [|done].
  pose proof (api_exists m now r c Hc) as Hs.
  destruct (decide _) as [Hd|Hd]; [rewrite bool_decide_true by done|rewrite bool_decide_false by done];
    exact Hs.
Qed.

Lemma delete_refines now r s m :
  R s m → ∃ m', api_step m now r RDelete (run_val (dispatch cfg RDelete now r) s) m' ∧
    R (run_state (dispatch cfg RDelete now r) s) m'.
Proof.
  intros HR. cbn [dispatch]. unfold delete_ServeHTTP.
  destruct (parseCIDFromPath r) as [c|e] eqn:Hc; run;
    [|exists m; split; [by eapply api_bad_cid|done]].
  destruct (ref_delete c s m HR) as [Hv HR']. eexists. split; [|exact HR'].
  apply api_delete; [done|]. destruct (run_val (Delete (Backend cfg) c) s) as [e|]; [|by left].
  destruct Hv as (Hm & _ & ->). by right.
Qed.

Lemma pin_refines now r s m :
  R s m → ∃ m', api_step m now r RPin (run_val (dispatch cfg RPin now r) s) m' ∧
    R (run_state (dispatch cfg RPin now r) s) m'.
Proof.
  intros HR. cbn [dispatch]. unfold pin_ServeHTTP.
  destruct (parseCIDFromPath r) as [c|e] eqn:Hc; run;
    [|exists m; split; [by eapply api_bad_cid|done]].
  destruct (ref_pin c s m HR) as [Hv HR']. exists m. split; [|done].
  eapply api_pin; [done|]. destruct (run_val (Pin (Backend cfg) c) s) as [e|]; [|by left].
  destruct Hv as (Hm & -> & _). by right.
Qed.

Lemma resolve_refines now r s m :
  R s m → ∃ m', api_step m now r RResolve (run_val (dispatch cfg RResolve now r) s) m' ∧
    R (run_state (dispatch cfg RResolve now r) s) m'.
Proof.
  intros HR. cbn [dispatch]. unfold resolve_ServeHTTP.
  destruct (parseCIDFromPath r) as [c|e] eqn:Hc; run;
    [|exists m; split; [by eapply api_bad_cid|done]].
  destruct (ref_exists c s m HR) as [-> HR']. exists m.
  destruct (bool_decide_reflect (is_Some (m !! CID_String c))) as [Hs|Hs]; run.
  - split; [|by apply ref_resolve]. eapply api_resolve_hit; [done|done|].
    repeat case_match; set_solver.
  - split; [|done]. eapply api_resolve_miss; [done|]. by apply eq_None_not_Some.
Qed.

Lemma health_refines now r s m :
  R s m → ∃ m', api_step m now r RHealth (run_val (dispatch cfg RHealth now r) s) m' ∧
    R (run_state (dispatch cfg RHealth now r) s) m'.
Proof.
  intros HR. cbn [dispatch]. unfold health_ServeHTTP. run.
  destruct (ref_healthy s m HR) as [-> HR']. exists m. split; [apply api_health|done].
Qed.

Lemma dispatch_refines rt now r s m :
  R s m → ∃ m', api_step m now r rt (run_val (dispatch cfg rt now r) s) m' ∧
    R (run_state (dispatch cfg rt now r) s) m'.
Proof.
  destruct rt; eauto using push_refines, fetch_refines, exists_refines, delete_refines,
    resolve_refines, pin_refines, health_refines.
Qed.
End Abstract.

(** ** Whole runs *)

Section Runs.
Context `{SDK} {S : Type}.
Variable cfg : ServerConfig S.

(** The server on a sequence of requests, each with its arrival time. *)
Fixpoint serve (reqs : list (Z * Request)) : M S (list Outcome) :=
  match reqs with
  | [] => mret []
  | (now, r) :: reqs =>
      o ← NewMux cfg now r;
      os ← serve reqs;
      mret (o :: os)
  end.

(** Whether a request reaches a handler, which one, and with which [{cid}]. *)
Definition routed (r : Request) : option (route * string) :=
  let path := if String.eqb (req_Method r) "CONNECT" then EscapedPath r
              else cleanPath (EscapedPath r) in
  if String.eqb path (EscapedPath r) then match_request (req_Method r) (path_segments path) else None.

(** One request against the abstract service. *)
Inductive mux_step (m : content) (now : Z) (r : Request) : Outcome → content → Prop :=
  | mux_routed rt cid resp m' :
      routed r = Some (rt, cid) → api_step cfg m now (with_cid r cid) rt resp m' →
      mux_step m now r (Respond (default implicit_ok resp)) m'
  | mux_unrouted o : routed r = None → mux_step m now r o m.

Inductive mux_trace : content → list (Z * Request) → list Outcome → content → Prop :=
  | trace_nil m : mux_trace m [] [] m
  | trace_cons m now r o m1 reqs os m2 :
      mux_step m now r o m1 → mux_trace m1 reqs os m2 →
      mux_trace m ((now, r) :: reqs) (o :: os) m2.

Lemma NewMux_routed now r s rt cid :
  routed r = Some (rt, cid) →
  run_val (NewMux cfg now r) s =
    Respond (default implicit_ok (run_val (dispatch cfg rt now (with_cid r cid)) s)) ∧
  run_state (NewMux cfg now r) s = run_state (dispatch cfg rt now (with_cid r cid)) s.
Proof.
  unfold routed, NewMux. destruct (String.eqb _ (EscapedPath r)); [|done]. cbn [negb].
  intros ->. by run.
Qed.

Lemma NewMux_unrouted now r s : routed r = None → run_state (NewMux cfg now r) s = s.
Proof.
  unfold routed, NewMux. destruct (String.eqb _ (EscapedPath r)); cbn [negb]; [|by run].
  intros ->. destruct (matchingMethods _); by run.
Qed.

Lemma routed_artifact r e suffix rt :
  addressable e → (req_Method r, suffix, rt) ∈ artifact_routes →
  EscapedPath r = artifact_path e suffix → routed r = Some (rt, e).
Proof.
  intros Ha Hin Hp. destruct (match_request_artifact e _ _ _ Ha Hin) as (Hm & Hc & Hr).
  unfold routed. apply String.eqb_neq in Hm as ->. by rewrite Hp, Hc, String.eqb_refl, Hr.
Qed.

Lemma routed_push r :
  req_Method r = "POST" → EscapedPath r = "/v1/artifacts" → routed r = Some (RPush, "").
Proof. intros Hm Hp. unfold routed. by rewrite Hm, Hp. Qed.

Section Simulation.
Variable R : S → content → Prop.
Context `{!Refines (Backend cfg) R}.

Lemma NewMux_refines now r s m :
  R s m → ∃ m', mux_step m now r (run_val (NewMux cfg now r) s) m' ∧
    R (run_state (NewMux cfg now r) s) m'.
Proof.
  intros HR. destruct (routed r) as [[rt cid]|] eqn:Hr.
  - destruct (NewMux_routed now r s rt cid Hr) as [-> ->].
    destruct (dispatch_refines cfg R rt now (with_cid r cid) s m HR) as (m' & Hs & HR').
    exists m'. split; [by eapply mux_routed|done].
  - exists m. rewrite NewMux_unrouted by done. split; [by apply mux_unrouted|done].
Qed.

Lemma serve_simulation reqs s m :
  R s m → ∃ m', mux_trace m reqs (run_val (serve reqs) s) m' ∧ R (run_state (serve reqs) s) m'.
Proof.
  revert s m. induction reqs as [|[now r] reqs IH]; intros s m HR; cbn [serve]; run.
  - exists m. split; [constructor|done].
  - destruct (NewMux_refines now r s m HR) as (m1 & Hs & HR1).
    destruct (IH _ _ HR1) as (m2 & Ht & HR2). exists m2. split; [by econstructor|done].
Qed.
End Simulation.

(** What one request can do to one key: only an accepted push of that CID
    writes it, only a delete of it removes it. *)
Definition deletes (r : Request) (k : string) : Prop :=
  ∃ cid c, routed r = Some (RDelete, cid) ∧ ParseCID cid = Ok c ∧ CID_String c = k.

Lemma mux_step_keeps m now r o m' k d :
  mux_step m now r o m' → m !! k = Some d → ¬ deletes r k →
  ∃ d', m' !! k = Some d' ∧
    (d' = d ∨ ∃ c, pushable (push_handler cfg) now r c d' ∧ k = CID_String c).
Proof.
  intros Hs Hk Hd. destruct Hs as [rt cid resp m' Hr Hs|o Hr]; [|eauto].
  destruct Hs as [| c d0 Hp | | | | | | c resp Hc _ | | | |]; eauto.
  - destruct (decide (CID_String c = k)) as [<-|Hne].
    + exists d0. rewrite lookup_insert_eq. split; [done|]. right. exists c. split; [|done].
      by destruct Hp; split.
    + exists d. rewrite lookup_insert_ne by done. auto.
  - exists d. rewrite lookup_delete_ne; [auto|]. intros E. apply Hd.
    unfold parseCIDFromPath in Hc. cbn in Hc. case_match; [done|]. by exists cid, c.
Qed.
End Runs.

(** ** Theorems: integrity and accounting *)

(** Integrity: with [VerifyOnPush] on, over any backend that returns only
    what was pushed to it (however it fails otherwise), whatever requests were
    served since the store was empty, every successful download is the content
    its CID names: the body hashes, under the CID's own algorithm, to the CID. *)
Theorem served_bytes_verify `{SDKLaws} {S} (cfg : ServerConfig S) `{!Sound (Backend cfg)}
    s now r cid resp :
  VerifyOnPush cfg = true → reachable cfg s → routed r = Some (RFetch, cid) →
  run_val (NewMux cfg now r) s = Respond resp → status resp = StatusOK →
  ∃ c, ParseCID cid = Ok c ∧ CID_Verify c (resp_body resp) = true ∧
    ComputeWith (resp_body resp) (Algorithm c) = c.
Proof.
  intros Hv Hs Hr Hval Hst. destruct (NewMux_routed cfg now r s _ _ Hr) as [E _].
  rewrite E in Hval. injection Hval as <-. cbn [dispatch] in *. unfold fetch_ServeHTTP in *.
  destruct (parseCIDFromPath (with_cid r cid)) as [c|e] eqn:Hc; run in Hst; [|done].
  autorewrite with run. cbn [default].
  destruct (run_val (Fetch (Backend cfg) c) s) as [d|e] eqn:Hf; [|by destruct (errors_Is _ _)].
  exists c. unfold parseCIDFromPath in Hc. cbn in Hc. case_match; [done|].
  assert (parsed c) as Hpc by (by eexists). cbn [resp_body default id].
  apply fetch_may, reachable_integrity in Hf as (c' & Hp & Hk & Hd); [|done..].
  rewrite (CID_String_inj c c') by done. split; [|split; [done|by apply CID_Verify_spec]].
  by rewrite <- (CID_String_inj c c').
Qed.

(** C5. Every push is accounted for. A refused push leaves the store untouched,
    is answered with the refusal's status and a JSON error, and writes exactly
    one audit record with the stable event and the refusal's reason; a push
    that reaches the backend satisfied every check, and a backend failure is
    answered 500 with a [backend_error] record; the one remaining case is a
    verified token whose kid is the handler's own sentinel text. *)
Theorem push_accounted `{SDK} {S} (h : PushHandler S) now r s :
  (∃ reason st msg rec, refusal h now r reason st ∧ audit reason rec ∧
     push_ServeHTTP h now r s = (Some (writeError st msg), s, [rec])) ∨
  (∃ c d, pushable h now r c d ∧
     run_state (push_ServeHTTP h now r) s = run_state (Push (p_backend h) c d) s ∧
     match run_val (Push (p_backend h) c d) s with
     | None => run_val (push_ServeHTTP h now r) s = Some (stored c d) ∧
         run_log (push_ServeHTTP h now r) s = run_log (Push (p_backend h) c d) s
     | Some e =>
         run_val (push_ServeHTTP h now r) s = Some (writeError StatusInternalServerError (Error e)) ∧
         ∃ rec, audit "backend_error" rec ∧
           run_log (push_ServeHTTP h now r) s = run_log (Push (p_backend h) c d) s ++ [rec]
     end) ∨
  (push_ServeHTTP h now r s = (None, s, []) ∧ sentinel_kid r).
Proof.
  destruct (push_cases h now r s)
    as [(reason & st & msg & rec & E & Ha & Hf)|[(c & d & Hp & E)|?]]; [left| |by auto].
  - by exists reason, st, msg, rec.
  - right; left. exists c, d. split; [done|].
    rewrite (run_eta (persist h r (Header_Get r "X-Artifact-CID") c d)), run_eta in E.
    injection E as -> -> ->.
    destruct (persist_run h r (Header_Get r "X-Artifact-CID") c d s) as [-> Hv]. split; [done|].
    destruct (run_val (Push (p_backend h) c d) s); [|done].
    destruct Hv as (Hv & rec & Hl & Ha). split; [done|]. by exists rec.
Qed.

(** ** Theorems: the API is a map *)

(** C2. Refinement: over a backend that implements a map, any sequence of
    requests is answered as the abstract service over that map answers it, and
    the backend still implements the map the abstract service ends with. *)
Theorem serve_refines `{SDK} {S} (cfg : ServerConfig S) R `{!Refines (Backend cfg) R} reqs s m :
  R s m → ∃ m', mux_trace cfg m reqs (run_val (serve cfg reqs) s) m' ∧
    R (run_state (serve cfg reqs) s) m'.
Proof. by apply (serve_simulation cfg R). Qed.

(** A GET for a CID string, whatever else the request carries. *)
Definition is_get (r : Request) (cidStr : string) : Prop :=
  req_Method r = "GET" ∧ EscapedPath r = artifact_path cidStr "".
Definition is_delete (r : Request) (cidStr : string) : Prop :=
  req_Method r = "DELETE" ∧ EscapedPath r = artifact_path cidStr "".
Definition is_upload (r : Request) : Prop :=
  req_Method r = "POST" ∧ EscapedPath r = "/v1/artifacts".

Lemma is_get_routed r cs : is_get r cs → addressable cs → routed r = Some (RFetch, cs).
Proof.
  intros [Hm Hp] Ha. eapply routed_artifact; [done| |exact Hp]. rewrite Hm. set_solver.
Qed.

Lemma is_delete_routed r cs : is_delete r cs → addressable cs → routed r = Some (RDelete, cs).
Proof.
  intros [Hm Hp] Ha. eapply routed_artifact; [done| |exact Hp]. rewrite Hm. set_solver.
Qed.

(** A GET against a backend that implements [m]. *)
Lemma get_value `{SDK} {S} (cfg : ServerConfig S) R `{!Refines (Backend cfg) R} now r s m cs c :
  R s m → is_get r cs → addressable cs → ParseCID cs = Ok c →
  run_val (NewMux cfg now r) s =
    Respond match m !! CID_String c with
            | Some d => fetched d
            | None => writeError StatusNotFound "not found"
            end.
Proof.
  intros HR Hg Ha Hc. destruct (NewMux_routed cfg now r s _ _ (is_get_routed r cs Hg Ha)) as [-> _].
  cbn [dispatch]. unfold fetch_ServeHTTP, parseCIDFromPath. cbn [PathValue with_cid].
  destruct Ha as (Hne%String.eqb_neq & _). rewrite Hne, Hc. run. cbn [default].
  destruct (ref_fetch c s m HR) as [[Hp Hab] _]. destruct (m !! CID_String c) as [d|] eqn:E.
  - by rewrite (Hp d).
  - by destruct Hab as (e & -> & ->).
Qed.

(** C7. Round trip: an upload that is answered with the stored response can be
    downloaded at the CID string it was uploaded under, and the download is the
    uploaded body, byte for byte, with its length in the headers. *)
Theorem upload_then_download `{SDK} {S} (cfg : ServerConfig S) R `{!Refines (Backend cfg) R}
    s m now r now' r' resp :
  0 ≤ MaxBodySize cfg < max_int64 → R s m → is_upload r →
  run_val (NewMux cfg now r) s = Respond resp → status resp = StatusOK → ¬ sentinel_kid r →
  addressable (Header_Get r "X-Artifact-CID") → is_get r' (Header_Get r "X-Artifact-CID") →
  run_val (NewMux cfg now' r') (run_state (NewMux cfg now r) s)
    = Respond (fetched (body_data (req_Body r))).
Proof.
  intros Hmax HR [Hm Hp] Hval Hst Hk Ha Hg.
  destruct (NewMux_refines cfg R now r s m HR) as (m' & Hs & HR').
  rewrite Hval in Hs. pose proof (routed_push r Hm Hp) as Hr.
  inversion Hs as [rt cid resp0 m1 Hr' Hs' Heq|o Hr']; subst; [|congruence].
  rewrite Hr in Hr'. injection Hr' as <- <-.
  inversion Hs' as [reason st msg Hf| c d Hpu | Hsk | rt e resp0' Hrt | | | | | | | |]; subst.
  - by destruct Hf.
  - destruct Hpu as [Hc Hrd Hsz _ _]. rewrite (get_value cfg R _ _ _ _ _ c HR' Hg Ha Hc).
    rewrite lookup_insert_eq. f_equal. f_equal.
    pose proof (ReadAll_limit (MaxBodySize cfg) (req_Body r) Hmax) as Hlim.
    unfold read_body in Hrd. cbn in Hrd, Hsz. rewrite Hrd in Hlim.
    destruct Hlim as [(_ & -> & _)|(Hl & _)]; [done|lia].
  - done.
  - done.
Qed.

(** Deletion: over a backend that implements a map, after a DELETE for a CID
    (stored or not) a GET for it is answered 404. *)
Theorem delete_then_download `{SDK} {S} (cfg : ServerConfig S) R `{!Refines (Backend cfg) R}
    s m now r now' r' cs c :
  R s m → addressable cs → ParseCID cs = Ok c → is_delete r cs → is_get r' cs →
  run_val (NewMux cfg now' r') (run_state (NewMux cfg now r) s)
    = Respond (writeError StatusNotFound "not found").
Proof.
  intros HR Ha Hc Hd Hg.
  destruct (NewMux_routed cfg now r s _ _ (is_delete_routed r cs Hd Ha)) as [_ ->].
  cbn [dispatch]. unfold delete_ServeHTTP, parseCIDFromPath. cbn [PathValue with_cid].
  pose proof Ha as (Hne%String.eqb_neq & _). rewrite Hne, Hc. run.
  destruct (ref_delete c s m HR) as [_ HR'].
  by rewrite (get_value cfg R _ _ _ _ _ c HR' Hg Ha Hc), lookup_delete_eq.
Qed.

(** The abstract trace keeps a key that no request deletes. *)
Lemma mux_trace_keeps `{SDKLaws} {S} (cfg : ServerConfig S) m reqs os m' c d :
  VerifyOnPush cfg = true → parsed c → mux_trace cfg m reqs os m' →
  m !! CID_String c = Some d → CID_Verify c d = true →
  (∀ now r, (now, r) ∈ reqs → ¬ deletes r (CID_String c)) →
  ∃ d', m' !! CID_String c = Some d' ∧ CID_Verify c d' = true.
Proof.
  intros Hv Hpc Ht. revert d. induction Ht as [m|m now r o m1 reqs os m2 Hs _ IH]; intros d Hm Hd Hn.
  { by exists d. }
  destruct (mux_step_keeps cfg _ _ _ _ _ _ _ Hs Hm) as (d1 & Hm1 & Hd1).
  { eapply Hn. by left. }
  eapply IH; [exact Hm1| |intros; eapply Hn; by right].
  destruct Hd1 as [->|(c' & Hp & E)]; [done|]. destruct Hp as [Hpar _ _ _ Hver].
  rewrite (CID_String_inj c c'); [by apply Hver|done|by eexists|done].
Qed.

(** C8. Durability, with [VerifyOnPush] on and over a backend that implements the map:
    once stored with bytes that hash to its CID, an artifact stays downloadable
    through any sequence of requests that contains no DELETE for it (whatever
    pushes, of it or of others, and errors it contains), and what comes back
    still hashes to the CID.  (With [VerifyOnPush] off a push of other bytes
    under the CID overwrites it.) *)
Theorem stored_stays `{SDKLaws} {S} (cfg : ServerConfig S) R `{!Refines (Backend cfg) R}
    s m cs c d reqs now r :
  VerifyOnPush cfg = true → R s m → addressable cs → ParseCID cs = Ok c →
  m !! CID_String c = Some d → CID_Verify c d = true →
  (∀ now r, (now, r) ∈ reqs → ¬ deletes r (CID_String c)) → is_get r cs →
  ∃ d', run_val (NewMux cfg now r) (run_state (serve cfg reqs) s) = Respond (fetched d') ∧
    CID_Verify c d' = true.
Proof.
  intros Hv HR Ha Hc Hm Hd Hn Hg. destruct (serve_simulation cfg R reqs s m HR) as (m' & Ht & HR').
  assert (parsed c) as Hpc by (by eexists).
  destruct (mux_trace_keeps cfg _ _ _ _ c d Hv Hpc Ht Hm Hd Hn) as (d' & Hm' & Hd').
  exists d'. split; [|done]. by rewrite (get_value cfg R _ _ _ _ _ c HR' Hg Ha Hc), Hm'.
Qed.

(** C15. A token whose kid is the text the push handler uses internally for "already
    rejected": an upload that satisfies the token policy in every respect is
    neither stored nor logged, and the client sees an empty 200. *)
Theorem sentinel_kid_dropped `{SDK} `{Diag} {S} (cfg : ServerConfig S) v now r s c d p :
  is_upload r → UploadTokenPolicy cfg = "required" →
  cfg_UploadTokenVerifier cfg = Some (Verify v) →
  Header_Get r "X-Artifact-CID" ≠ "" → ParseCID (Header_Get r "X-Artifact-CID") = Ok c →
  read_body (push_handler cfg) r = (d, None) → blen d ≤ MaxBodySize cfg →
  Header_Get r "X-Upload-Token" ≠ "" → signed v (Header_Get r "X-Upload-Token") p →
  claims_ok p (Header_Get r "X-Artifact-CID") (blen d) now → p_Kid p = tokenRejected →
  NewMux cfg now r s = (Respond (bare StatusOK), s, []).
Proof.
  intros [Hm Hp] Hpol Hver Hne Hc Hr Hs Ht Hsig Hcl Hkid. rewrite NewMux_push by done.
  cbn [dispatch]. unfold push_ServeHTTP. apply String.eqb_neq in Hne as Hne'.
  change (Header_Get (with_cid r "") "X-Artifact-CID") with (Header_Get r "X-Artifact-CID").
  rewrite Hne', Hc. unfold read_body in Hr.
  change (req_Body (with_cid r "")) with (req_Body r). rewrite Hr.
  cbn [p_maxBody push_handler]. destruct (Z.ltb_spec (MaxBodySize cfg) (blen d)); [lia|].
  rewrite !M_bind_eq. unfold checkUploadToken. cbn [p_tokenVerifier p_tokenPolicy push_handler].
  rewrite Hver, Hpol. cbn [String.eqb Ascii.eqb Bool.eqb].
  change (Header_Get (with_cid r "") "X-Upload-Token") with (Header_Get r "X-Upload-Token").
  apply String.eqb_neq in Ht as ->.
  assert (Verify v (Header_Get r "X-Upload-Token") (Header_Get r "X-Artifact-CID") (blen d) now = None)
    as -> by (apply Verify_accepts; eauto).
  by rewrite (signed_extractKid v _ p), Hkid by done.
Qed.

(** ** Theorems: addressing and resolve *)

(** Addressing: the path a client builds by escaping any CID string (other than
    the empty one, ".", ".." and "/") is already clean, is routed to the
    documented handler, and binds [{cid}] to exactly that string. *)
Theorem artifact_addressing r e suffix rt :
  addressable e → (req_Method r, suffix, rt) ∈ artifact_routes →
  EscapedPath r = artifact_path e suffix → routed r = Some (rt, e).
Proof. apply routed_artifact. Qed.

(** The resolve response as the struct decodes it. *)
Definition wire_fields : list (string * (json → resolveResponseV1 → option resolveResponseV1)) :=
  [ ("method", λ j w, v ← store_string j (w_Method w); Some (MkWire v (w_URL w) (w_Expiry w)));
    ("url", λ j w, v ← store_string j (w_URL w); Some (MkWire (w_Method w) v (w_Expiry w)));
    ("expiry", λ j w, v ← store_string j (w_Expiry w); Some (MkWire (w_Method w) (w_URL w) v)) ].

(** The expiry of a credential in whole seconds. *)
Definition truncate_expiry (c : RetrievalCredential) : RetrievalCredential :=
  MkCred (Method c) (URL c) ((λ t, Unix t * Second) <$> Expiry c).

Lemma wire_json_wf w : json_wf (wire_json w) ∧ (json_depth (wire_json w) ≤ max_depth)%N.
Proof. unfold wire_json. by destruct (String.eqb (w_Expiry w) ""). Qed.

Lemma Unmarshal_wire w :
  to_valid_utf8 (w_Method w) = w_Method w → to_valid_utf8 (w_URL w) = w_URL w →
  to_valid_utf8 (w_Expiry w) = w_Expiry w →
  Unmarshal wire_fields (MkWire "" "" "") (resp_body (json_response StatusOK (wire_json w))) = Some w.
Proof.
  intros Hm Hu He. unfold Unmarshal, json_response. cbn [resp_body]. rewrite of_to_bytes.
  destruct (wire_json_wf w) as [Hw Hd]. rewrite parse_Encode by done. cbn [mbind option_bind].
  destruct w as [me ur ex]. unfold wire_json. cbn in *.
  destruct (String.eqb_spec ex "") as [->|_]; cbn; by rewrite Hm, Hu, ?He.
Qed.

Lemma digit_ascii n : 0 ≤ n < 10 → (code (digit n) <? 128)%N = true.
Proof.
  intros Hn. assert (n = 0 ∨ n = 1 ∨ n = 2 ∨ n = 3 ∨ n = 4 ∨ n = 5 ∨ n = 6 ∨ n = 7 ∨ n = 8 ∨ n = 9)
    as Hc by lia. repeat destruct Hc as [->|Hc]; try reflexivity. by subst.
Qed.

Lemma pad2_ascii n : 0 ≤ n < 100 → is_ascii (pad2 n) = true.
Proof.
  intros Hn. unfold pad2. cbn [is_ascii].
  pose proof (Z.div_mod n 10). pose proof (Z.mod_pos_bound n 10).
  rewrite !digit_ascii by lia. done.
Qed.

Lemma FormatRFC3339_ascii t :
  0 ≤ utc_year t ≤ 9999 → is_ascii (FormatRFC3339 t) = true ∧ FormatRFC3339 t ≠ "".
Proof.
  unfold utc_year, FormatRFC3339. pose proof (civil_round_trip (Unix t / 86400)) as Hc.
  destruct (civil_from_days (Unix t / 86400)) as [[y m] d]. cbn [fst]. intros Hy.
  destruct Hc as (_ & Hm & Hd).
  assert (daysIn m y ≤ 31) by (unfold daysIn; repeat case_match; lia).
  pose proof (Z.mod_pos_bound (Unix t) 86400 ltac:(lia)) as Hs. set (sod := Unix t mod 86400) in *.
  assert (0 ≤ sod / 3600 < 24) by (split; [apply Z.div_pos; lia|apply Z.div_lt_upper_bound; lia]).
  pose proof (Z.mod_pos_bound sod 3600 ltac:(lia)).
  assert (0 ≤ sod mod 3600 / 60 < 60)
    by (split; [apply Z.div_pos; lia|apply Z.div_lt_upper_bound; lia]).
  pose proof (Z.mod_pos_bound sod 60 ltac:(lia)).
  assert (0 ≤ y / 100 < 100) by (split; [apply Z.div_pos; lia|apply Z.div_lt_upper_bound; lia]).
  pose proof (Z.mod_pos_bound y 100 ltac:(lia)).
  assert (year_str y = pad2 (y / 100) +:+ pad2 (y mod 100)) as ->.
  { unfold year_str, pad4. destruct (Z.ltb_spec y 0); [lia|]. destruct (Z.ltb_spec y 10000); [done|lia]. }
  split; [|done]. rewrite !is_ascii_app, !pad2_ascii by lia. done.
Qed.

(** The wire form of a credential: the JSON body of a resolve response decodes
    back to the credential, with its expiry (if any) to the second; a credential
    without expiry comes back without one. *)
Theorem wire_round_trip c :
  to_valid_utf8 (Method c) = Method c → to_valid_utf8 (URL c) = URL c →
  (∀ t, Expiry c = Some t → 0 ≤ utc_year t ≤ 9999) →
  ∃ w, Unmarshal wire_fields (MkWire "" "" "")
         (resp_body (json_response StatusOK (wire_json (retrievalCredentialToWire c)))) = Some w ∧
    retrievalCredentialFromWire w = truncate_expiry c.
Proof.
  intros Hm Hu He. exists (retrievalCredentialToWire c).
  destruct c as [me ur [t|]]; cbn [Method URL Expiry] in *.
  - destruct (FormatRFC3339_ascii t) as [Ha Hne]; [by apply He|]. split.
    + apply Unmarshal_wire; [done..|]. by apply to_valid_utf8_ascii.
    + unfold retrievalCredentialFromWire, truncate_expiry, retrievalCredentialToWire.
      cbn [w_Expiry w_Method w_URL Method URL Expiry fmap option_fmap option_map].
      apply String.eqb_neq in Hne as ->. by rewrite ParseRFC3339_Format by (by apply He).
  - split; [by apply Unmarshal_wire|done].
Qed.
