(* ===== verification/Witnesses.v ===== *)
(** * The service theorems on a concrete deployment

    The reference SDK instance, an in-memory backend, one registered operator
    key and a five-byte artifact: each theorem of System.v is applied to it. *)

From Stdlib Require Import Ascii.
From S2P Require Import Prelude GoStrings Encoding Sha256 Json Url Storage Http Backends Reference Fakes Gcs Rustfs Token Time Config Api Server Startup System.

Open Scope Z_scope.

Definition hello : bytes := to_bytes "hello".
Definition hello_cid : CID := Compute hello.
Definition hello_cs : string :=
  "sha256:2cf24dba5fb0a30e26e83b2ac5b9e29e1b161e5c1fa7425e73043362938b9824".

Definition op_key : bytes := replicate 32 x2a.
Definition op_verifier : ed25519UploadTokenVerifier :=
  MkVerifier (<["<rejected>" := op_key]> {["op" := op_key]}).
Definition op_payload (kid : string) : UploadTokenPayload := MkPayload hello_cs 5 2000000000 0 kid.
Definition op_token (kid : string) : string := mint (hmac_sha256 op_key) (op_payload kid).

Definition ex_now : Z := 1700000000 * Second.

(** The deployment: digest verification on, tokens required. *)
Definition ex_cfg : ServerConfig content :=
  MkServer _ InMemoryBackend true 1024 (3600 * Second) (Some (Verify op_verifier)) "required".

Definition ex_post (kid : string) : Request :=
  MkRequest "POST" "/v1/artifacts" ""
    [("X-Artifact-Cid", hello_cs); ("X-Upload-Token", op_token kid)]
    (MkBody hello None) "10.0.0.1:4000" "".
Definition ex_request (method : string) : Request :=
  MkRequest method (artifact_path hello_cs "") "" [] (MkBody [] None) "10.0.0.1:4000" "".

Definition ex_empty : content := ∅.
Definition ex_stored : content := run_state (NewMux ex_cfg ex_now (ex_post "op")) ex_empty.

Lemma hello_addressable : addressable hello_cs.
Proof. repeat split; discriminate. Qed.

Lemma ex_post_stored :
  run_val (NewMux ex_cfg ex_now (ex_post "op")) ex_empty = Respond (stored hello_cid hello).
Proof. vm_compute. reflexivity. Qed.

#[export] Instance ex_sound : Sound (Backend ex_cfg) := InMemoryBackend_sound.
(** The in-memory store is its own map. *)
Definition ex_R (s m : content) : Prop := s = m.
#[export] Instance ex_refines : Refines (Backend ex_cfg) ex_R :=
  InMemoryBackend_refines.

Lemma ex_stored_reachable : reachable ex_cfg ex_stored.
Proof. apply reach_serve, reach_empty. intros k x. vm_compute. discriminate. Qed.

Lemma served_bytes_verify_witness :
  ∃ c, ParseCID hello_cs = Ok c ∧ CID_Verify c hello = true ∧
    ComputeWith hello (Algorithm c) = c.
Proof.
  apply (served_bytes_verify ex_cfg ex_stored 0 (ex_request "GET") hello_cs (fetched hello)).
  - reflexivity.
  - apply ex_stored_reachable.
  - vm_compute. reflexivity.
  - vm_compute. reflexivity.
  - reflexivity.
Defined.

Lemma op_payload_wf kid : to_valid_utf8 kid = kid → payload_wf (op_payload kid).
Proof. intros E. unfold payload_wf. split; [reflexivity|]. split; [exact E|]. by vm_compute. Qed.

Lemma op_token_signed kid :
  to_valid_utf8 kid = kid → keys op_verifier !! kid = Some op_key →
  signed op_verifier (op_token kid) (op_payload kid).
Proof.
  intros Hu Hk. apply (mint_signed op_verifier (hmac_sha256 op_key) (op_payload kid) op_key).
  - apply op_payload_wf. exact Hu.
  - exact Hk.
  - intros E. apply (f_equal length) in E. by rewrite hmac_sha256_length in E.
  - cbn [VerifyEd25519 RefSDK]. rewrite bool_decide_true by reflexivity. reflexivity.
Qed.

Lemma required_policy_authorizes_witness :
  ∃ p d, read_body (push_handler ex_cfg) (ex_post "op") = (d, None) ∧
    signed op_verifier (Header_Get (ex_post "op") "X-Upload-Token") p ∧
    claims_ok p (Header_Get (ex_post "op") "X-Artifact-CID") (blen d) ex_now.
Proof.
  apply (required_policy_authorizes (push_handler ex_cfg) op_verifier ex_now (ex_post "op") ex_empty).
  - reflexivity.
  - reflexivity.
  - right. exists (stored hello_cid hello). split; [vm_compute; reflexivity|reflexivity].
Defined.

Lemma serve_refines_witness :
  ∃ m', mux_trace ex_cfg ∅ [(ex_now, ex_post "op"); (ex_now, ex_request "GET")]
          (run_val (serve ex_cfg [(ex_now, ex_post "op"); (ex_now, ex_request "GET")]) ex_empty) m' ∧
    ex_R (run_state (serve ex_cfg [(ex_now, ex_post "op"); (ex_now, ex_request "GET")]) ex_empty) m'.
Proof.
  apply (serve_refines ex_cfg ex_R). reflexivity.
Defined.

Lemma upload_then_download_witness :
  run_val (NewMux ex_cfg ex_now (ex_request "GET")) ex_stored = Respond (fetched hello).
Proof.
  apply (upload_then_download ex_cfg ex_R ex_empty ∅ ex_now (ex_post "op")
    ex_now (ex_request "GET") (stored hello_cid hello)).
  - by split.
  - reflexivity.
  - by split.
  - vm_compute. reflexivity.
  - reflexivity.
  - intros E. vm_compute in E. discriminate.
  - vm_compute. repeat split; discriminate.
  - by split.
Defined.

Lemma delete_then_download_witness :
  run_val (NewMux ex_cfg 0 (ex_request "GET"))
    (run_state (NewMux ex_cfg 0 (ex_request "DELETE")) ex_stored)
  = Respond (writeError StatusNotFound "not found").
Proof.
  apply (delete_then_download ex_cfg ex_R ex_stored
    ex_stored 0 (ex_request "DELETE") 0 (ex_request "GET") hello_cs hello_cid).
  - reflexivity.
  - apply hello_addressable.
  - vm_compute. reflexivity.
  - by split.
  - by split.
Defined.

Lemma stored_stays_witness :
  ∃ d', run_val (NewMux ex_cfg 0 (ex_request "GET"))
          (run_state (serve ex_cfg [(0, ex_request "HEAD"); (ex_now, ex_post "op")]) ex_stored)
        = Respond (fetched d') ∧ CID_Verify hello_cid d' = true.
Proof.
  apply (stored_stays ex_cfg ex_R ex_stored ex_stored
    hello_cs hello_cid hello).
  - reflexivity.
  - reflexivity.
  - apply hello_addressable.
  - vm_compute. reflexivity.
  - vm_compute. reflexivity.
  - vm_compute. reflexivity.
  - intros now r Hin (cid & c & Hr & _).
    repeat (apply elem_of_cons in Hin as [[= -> ->]|Hin]; [by vm_compute in Hr|]).
    by apply elem_of_nil in Hin.
  - by split.
Defined.

Definition ex_mem : BackendProvider content := InMemoryBackend.

(** A backend that only records what is pushed to it. *)
Definition Recorder : BackendProvider (list (CID * list Byte.byte)) := {|
  Push c d := λ l, (None, l ++ [(c, d)], []);
  Fetch c := mret (Err (errors_New "not stored")); Pin c := mret None; Exists c := mret (Ok false);
  Delete c := mret None; Resolve now c e := mret (Err (errors_New "not stored")); Healthy := mret None |}.
Definition ex_recording : PushHandler (list (CID * list Byte.byte)) :=
  MkPush _ Recorder true 5 None "off".

Lemma push_size_limit_witness :
  (run_state (push_ServeHTTP ex_recording ex_now (ex_post "op")) [] = [] ∨
   ∃ c, ParseCID hello_cs = Ok c ∧ body_err (req_Body (ex_post "op")) = None ∧ blen hello ≤ 5 ∧
     run_state (push_ServeHTTP ex_recording ex_now (ex_post "op")) [] = run_state (Push Recorder c hello) []) ∧
  run_state (push_ServeHTTP ex_recording ex_now (ex_post "op")) [] = [(hello_cid, hello)].
Proof.
  split; [|vm_compute; reflexivity].
  apply (push_size_limit ex_recording ex_now (ex_post "op") []). by split.
Defined.

(** The body limit at the top of its range, no tokens and no digest check: a
    five-byte upload is stored as the empty string and acknowledged. *)
Definition ex_max : PushHandler content := MkPush _ InMemoryBackend false max_int64 None "off".

Lemma push_limit_overflow_witness :
  run_val (push_ServeHTTP ex_max ex_now (ex_post "op")) ex_empty = Some (stored hello_cid []) ∧
  run_state (push_ServeHTTP ex_max ex_now (ex_post "op")) ex_empty =
    run_state (Push ex_mem hello_cid []) ex_empty.
Proof.
  apply (push_limit_overflow ex_max ex_now (ex_post "op") ex_empty eq_refl).
  - vm_compute. discriminate.
  - vm_compute. reflexivity.
  - reflexivity.
  - reflexivity.
  - vm_compute. reflexivity.
Defined.

Lemma sentinel_kid_dropped_witness :
  NewMux ex_cfg ex_now (ex_post "<rejected>") ex_empty = (Respond (bare StatusOK), ex_empty, []).
Proof.
  apply (sentinel_kid_dropped ex_cfg op_verifier ex_now (ex_post "<rejected>") ex_empty hello_cid
    hello (op_payload "<rejected>")).
  - by split.
  - reflexivity.
  - reflexivity.
  - vm_compute. discriminate.
  - vm_compute. reflexivity.
  - vm_compute. reflexivity.
  - vm_compute. discriminate.
  - vm_compute. discriminate.
  - apply op_token_signed; reflexivity.
  - vm_compute. repeat split; discriminate.
  - reflexivity.
Defined.

Lemma artifact_addressing_witness :
  routed (ex_request "GET") = Some (RFetch, hello_cs).
Proof.
  apply (artifact_addressing (ex_request "GET") hello_cs "" RFetch).
  - apply hello_addressable.
  - left.
  - reflexivity.
Defined.

Lemma resolve_expiry_range_witness :
  let r n := MkRequest "GET" "/" ("expiry=" +:+ Itoa n) [] (MkBody [] None) "" "" in
  resolve_expiry 0 (r 9223372036) = 9223372036 * Second ∧ resolve_expiry 0 (r 9223372037) < 0 ∧
  resolve_expiry 0 (r 18446744074) = 290448384.
Proof.
  cbv zeta. split_and!.
  - apply (resolve_expiry_range 0 _ 9223372036); [by split|reflexivity|done].
  - apply (resolve_expiry_range 0 _ 9223372037); [by split|reflexivity|by split].
  - apply (resolve_expiry_range 0 _ 18446744074); [by split|reflexivity|done].
Defined.

Lemma wire_round_trip_witness :
  let c := MkCred "signed_url" "https://example.test/o?X=1" (Some (1700000000123456789)) in
  ∃ w, Unmarshal wire_fields (MkWire "" "" "")
         (resp_body (json_response StatusOK (wire_json (retrievalCredentialToWire c)))) = Some w ∧
    retrievalCredentialFromWire w = truncate_expiry c.
Proof.
  apply wire_round_trip.
  - reflexivity.
  - reflexivity.
  - intros t [= <-]. vm_compute. by split.
Defined.

(** ** Start-up *)

#[export] Instance ex_pem : Pem := {| pem_Decode _ := None |}.
Definition ex_fs : FS := MkFS (λ _, Ok []) (λ _, Ok []) (λ d n, d +:+ "/" +:+ n).

Definition ex_keys : list (string * bytes) := [("op", op_key); ("", replicate 32 x02)].
Definition ex_environ (k : string) : string :=
  if String.eqb k "ARTIFACT_KEYSERVICE" then "memory"
  else if String.eqb k "ARTIFACT_BACKEND" then "gcs"
  else if String.eqb k "ARTIFACT_REQUIRE_UPLOAD_TOKEN" then "required"
  else if String.eqb k "ARTIFACT_OPERATOR_PUBKEYS" then inline_spec ex_keys
  else "".
Definition ex_config : config.Config := config.read_env ex_environ.

Lemma inline_round_trip_witness : parseInlinePubKeys (inline_spec ex_keys) = Ok (list_to_map ex_keys).
Proof.
  apply (inline_round_trip ex_keys).
  - discriminate.
  - cbn. repeat constructor; set_solver.
  - repeat constructor.
  - vm_compute. reflexivity.
Defined.

Lemma build_fails_closed_witness :
  (config.RequireUploadToken ex_config = "off" ∧ Some (MkVerifier (list_to_map ex_keys)) = None) ∨
  (config.RequireUploadToken ex_config ∈ ["optional"; "required"] ∧
   ∃ ks, load_keys ex_fs ex_config = Ok ks ∧
     Some (MkVerifier (list_to_map ex_keys)) = Some (MkVerifier ks) ∧ ks ≠ ∅ ∧ sized ks ∧
     (config.OperatorPubKeys ex_config = "" ↔ config.OperatorPubKeysDir ex_config ≠ "")).
Proof. apply (build_fails_closed ex_fs ex_config ()). vm_compute. reflexivity. Defined.

(** A GCS-backed deployment over the fake, holding one artifact. *)
Definition ex_world : content * Fake :=
  (∅, Put "ortholog-artifacts" hello_cs hello new_fake).

Lemma resolve_unwired_witness :
  ∃ B, createBackend (gcs_fake "https://storage.googleapis.com") "gcs" ex_config false = Ok B ∧
    ∃ resp, run_val (resolve_ServeHTTP B 0 0 (with_cid (ex_request "GET") hello_cs)) ex_world
      = Some resp ∧ status resp = StatusInternalServerError.
Proof.
  eexists. split; [reflexivity|].
  eapply (resolve_unwired (gcs_fake "https://storage.googleapis.com") "gcs" ex_config false).
  - reflexivity.
  - discriminate.
  - vm_compute. reflexivity.
  - vm_compute. reflexivity.
Defined.
