(* ===== verification/Concurrent.v ===== *)
(** * Concurrent requests

    net/http serves every request in a goroutine of its own, and the handlers
    share nothing but the backend and the logger.  A request in progress is
    the list of answers the backend has given it so far: which operation it
    asks for next, or what it writes, is read off the handler itself by running
    it against a scripted backend.  A pool of such processes steps one backend
    operation at a time, in any order. *)

From stdpp Require Import relations.
From S2P Require Import Prelude GoStrings Json Storage Http Backends Reference Token Time Api Server System Witnesses.

Open Scope Z_scope.

(** ** The operations of a backend as data *)

(** One call of backends.BackendProvider. *)
Inductive Op :=
  | OPush (c : CID) (d : list Byte.byte)
  | OFetch (c : CID)
  | OPin (c : CID)
  | OExists (c : CID)
  | ODelete (c : CID)
  | OResolve (now : Z) (c : CID) (expiry : Z)
  | OHealthy.

(** What a call returns. *)
Inductive Answer :=
  | AErr (r : option error)
  | ABytes (r : Result (list Byte.byte))
  | AFound (r : Result bool)
  | ACred (r : Result RetrievalCredential).

#[export] Instance Op_eq_dec : EqDecision Op.
Proof. solve_decision. Defined.

(** The call itself. *)
Definition exec {S} (B : BackendProvider S) (o : Op) : M S Answer :=
  match o with
  | OPush c d => AErr <$> Push B c d
  | OFetch c => ABytes <$> Fetch B c
  | OPin c => AErr <$> Pin B c
  | OExists c => AFound <$> Exists B c
  | ODelete c => AErr <$> Delete B c
  | OResolve now c e => ACred <$> Resolve B now c e
  | OHealthy => AErr <$> Healthy B
  end.

(** ** The scripted backend *)

(** The answers still to give, and the first operation there was none for. *)
Record Script := MkScript { answers : list Answer; asked : option Op }.

Definition ask (o : Op) : M Script (option Answer) := λ sc,
  match answers sc with
  | a :: l => (Some a, MkScript l (asked sc), [])
  | [] => (None, MkScript [] (Some (default o (asked sc))), [])
  end.

(** What a caller is given when the script has no answer of the right kind; by
    then the operation has been noted and the rest of the run is discarded. *)
Definition no_answer : error := errors_New "no answer".

Definition answered_err (a : option Answer) : option error :=
  match a with Some (AErr r) => r | _ => Some no_answer end.
Definition answered_bytes (a : option Answer) : Result bytes :=
  match a with Some (ABytes r) => r | _ => Err no_answer end.
Definition answered_found (a : option Answer) : Result bool :=
  match a with Some (AFound r) => r | _ => Err no_answer end.
Definition answered_cred (a : option Answer) : Result RetrievalCredential :=
  match a with Some (ACred r) => r | _ => Err no_answer end.

Definition Scripted : BackendProvider Script := {|
  Push c d := answered_err <$> ask (OPush c d);
  Fetch c := answered_bytes <$> ask (OFetch c);
  Pin c := answered_err <$> ask (OPin c);
  Exists c := answered_found <$> ask (OExists c);
  Delete c := answered_err <$> ask (ODelete c);
  Resolve now c e := answered_cred <$> ask (OResolve now c e);
  Healthy := answered_err <$> ask OHealthy |}.

(** What a computation over the scripted backend does after these answers:
    it returns, or it asks for one more. *)
Definition replay {A} (m : M Script A) (ans : list Answer) : (A * list LogRecord) + Op :=
  let '(a, sc, l) := m (MkScript ans None) in
  match asked sc with Some o => inr o | None => inl (a, l) end.

(** ** Runs *)

(** A run from one state to another, with every state it goes through. *)
Inductive visits {X} (step : X → X → Prop) : X → list X → X → Prop :=
  | visits_end x : visits step x [x] x
  | visits_step x y h z : step x y → visits step y h z → visits step x (x :: h) z.

Lemma visits_steps {X} (step : X → X → Prop) x h z : visits step x h z → rtc step x z.
Proof. induction 1; [apply rtc_refl|by eapply rtc_l]. Qed.

(** Every run has such a history. *)
Lemma steps_visit {X} (step : X → X → Prop) x z : rtc step x z → ∃ h, visits step x h z.
Proof. induction 1 as [x|x y z Hs _ [h IH]]; eexists; by econstructor. Qed.

Lemma visits_through {X} (step : X → X → Prop) x y z :
  rtc step x y → rtc step y z → ∃ h, visits step x h z ∧ y ∈ h.
Proof.
  intros Hxy Hyz. induction Hxy as [y|x x1 y Hs _ IH].
  - destruct (steps_visit step y z Hyz) as [h Hh]. exists h. split; [done|].
    destruct Hh; by left.
  - destruct (IH Hyz) as (h & Hh & Hin). exists (x :: h). split; [by econstructor|by right].
Qed.

(** ** Pools of processes *)

Section Pool.
Context {P A Q R St : Type}.
(** What a process does next, given the answers so far, and what an operation
    does to the shared state. *)
Variables (next : P → list A → (R * list LogRecord) + Q) (act : Q → M St A).

Inductive Thread :=
  | Waiting (p : P)
  | Running (p : P) (ans : list A)
  | Done (p : P) (r : R).

(** No process started, and every one answered. *)
Definition arrived (ps : list P) : list Thread := Waiting <$> ps.
Definition answered (ps : list P) (rs : list R) : list Thread := zip_with Done ps rs.

(** The process alone, from the answers [ans] on, for at most [n] operations. *)
Fixpoint drive (n : nat) (p : P) (ans : list A) : M St (option R) := λ s,
  match next p ans with
  | inl (r, l) => (Some r, s, l)
  | inr o =>
      match n with
      | O => (None, s, [])
      | S n => (a ← act o; drive n p (ans ++ [a])) s
      end
  end.

Lemma drive_ret n p ans r l s :
  next p ans = inl (r, l) → run_val (drive n p ans) s = Some r ∧ run_state (drive n p ans) s = s.
Proof. intros E. unfold run_val, run_state. destruct n; cbn [drive]; by rewrite E. Qed.

Lemma drive_call n p ans o s :
  next p ans = inr o →
  let st := (run_val (drive n p (ans ++ [run_val (act o) s])) (run_state (act o) s),
             run_state (drive n p (ans ++ [run_val (act o) s])) (run_state (act o) s)) in
  run_val (drive (Datatypes.S n) p ans) s = st.1 ∧ run_state (drive (Datatypes.S n) p ans) s = st.2.
Proof.
  intros E st. unfold run_val at 1, run_state at 1. cbn [drive]. rewrite E, M_bind_eq.
  rewrite (run_eta (act o)). subst st. unfold run_val, run_state. cbn [fst snd].
  by destruct (drive n p _ _) as [[]].
Qed.

(** More operations change nothing once the process has returned. *)
Lemma drive_more n p ans s r :
  run_val (drive n p ans) s = Some r →
  run_val (drive (Datatypes.S n) p ans) s = Some r ∧
  run_state (drive (Datatypes.S n) p ans) s = run_state (drive n p ans) s.
Proof.
  revert ans s. induction n as [|n IH]; intros ans s Hr.
  - destruct (next p ans) as [[r' l]|o] eqn:E.
    + destruct (drive_ret 0 p ans r' l s E) as [Hv Hs], (drive_ret 1 p ans r' l s E) as [-> ->].
      by rewrite Hs, <- Hv, Hr.
    + unfold run_val in Hr. cbn [drive] in Hr. by rewrite E in Hr.
  - destruct (next p ans) as [[r' l]|o] eqn:E.
    + destruct (drive_ret (Datatypes.S n) p ans r' l s E) as [Hv Hs],
        (drive_ret (Datatypes.S (Datatypes.S n)) p ans r' l s E) as [-> ->].
      by rewrite Hs, <- Hv, Hr.
    + destruct (drive_call n p ans o s E) as [Hv ->],
        (drive_call (Datatypes.S n) p ans o s E) as [-> ->]. cbn [fst snd] in *.
      rewrite Hv in Hr. by apply IH.
Qed.

(** One step of the pool: a process starts, performs its next operation, or
    writes its log records and is done. *)
Inductive pstep : St * list Thread → St * list Thread → Prop :=
  | step_start s ps i p :
      ps !! i = Some (Waiting p) → pstep (s, ps) (s, <[i := Running p []]> ps)
  | step_act s ps i p ans o :
      ps !! i = Some (Running p ans) → next p ans = inr o →
      pstep (s, ps) (run_state (act o) s, <[i := Running p (ans ++ [run_val (act o) s])]> ps)
  | step_finish s ps i p ans r l :
      ps !! i = Some (Running p ans) → next p ans = inl (r, l) →
      pstep (s, ps) (s, <[i := Done p r]> ps).

(** The step of the process at [i], and a run that follows a schedule. *)
Definition pstep_at (c : St * list Thread) (i : nat) : St * list Thread :=
  match c.2 !! i with
  | Some (Waiting p) => (c.1, <[i := Running p []]> c.2)
  | Some (Running p ans) =>
      match next p ans with
      | inl (r, _) => (c.1, <[i := Done p r]> c.2)
      | inr o => (run_state (act o) c.1, <[i := Running p (ans ++ [run_val (act o) c.1])]> c.2)
      end
  | _ => c
  end.
Definition schedule (c : St * list Thread) (js : list nat) : St * list Thread := foldl pstep_at c js.

Lemma schedule_steps c js ps' : (schedule c js).2 = ps' → rtc pstep c ((schedule c js).1, ps').
Proof.
  intros <-. rewrite <- surjective_pairing. revert c. induction js as [|i js IH]; intros c; [apply rtc_refl|].
  cbn [schedule foldl]. etransitivity; [|apply IH]. destruct c as [s ps]. unfold pstep_at. cbn [fst snd].
  destruct (ps !! i) as [[p|p ans|p r]|] eqn:Hi; try apply rtc_refl.
  - apply rtc_once. by apply step_start.
  - destruct (next p ans) as [[r l]|o] eqn:E; apply rtc_once; [by eapply step_finish|by apply step_act].
Qed.

Definition proc_of (q : Thread) : P :=
  match q with Waiting p | Running p _ | Done p _ => p end.

Lemma arrived_procs ps : proc_of <$> arrived ps = ps.
Proof. unfold arrived. rewrite <- list_fmap_compose. apply list_fmap_id. Qed.

(** Invariants of a pool, by induction over its steps. *)
Lemma psteps_invariant (I : St * list Thread → Prop) c c' :
  (∀ c1 c2, I c1 → pstep c1 c2 → I c2) → rtc pstep c c' → I c → I c'.
Proof. intros Hstep Hs. induction Hs; eauto. Qed.

Lemma pstep_procs c c' : pstep c c' → proc_of <$> c'.2 = proc_of <$> c.2.
Proof.
  destruct 1 as [s ps i p Hi|s ps i p ans o Hi|s ps i p ans r l Hi]; cbn [snd];
    rewrite list_fmap_insert; apply list_insert_id; by rewrite list_lookup_fmap, Hi.
Qed.

Lemma psteps_procs c c' : rtc pstep c c' → proc_of <$> c'.2 = proc_of <$> c.2.
Proof. induction 1 as [|c c1 c2 Hs _ IH]; [done|]. by rewrite IH, (pstep_procs _ _ Hs). Qed.

Lemma psteps_length c c' : rtc pstep c c' → length c'.2 = length c.2.
Proof.
  intros Hs. apply psteps_procs, (f_equal length) in Hs. by rewrite !length_fmap in Hs.
Qed.

(** The results a process can still come to. *)
Inductive may_return (p : P) : list A → R → Prop :=
  | return_now ans r l : next p ans = inl (r, l) → may_return p ans r
  | return_later ans o a r : next p ans = inr o → may_return p (ans ++ [a]) r → may_return p ans r.

Definition may_result (q : Thread) : R → Prop :=
  match q with
  | Waiting p => may_return p []
  | Running p ans => may_return p ans
  | Done _ r => eq r
  end.
End Pool.
Arguments Thread : clear implicits.

(** ** Requests as processes *)

(** The same settings over another backend. *)
Definition with_backend {S T} (B : BackendProvider T) (cfg : ServerConfig S) : ServerConfig T :=
  MkServer T B (VerifyOnPush cfg) (MaxBodySize cfg) (DefaultExpiry cfg)
    (cfg_UploadTokenVerifier cfg) (UploadTokenPolicy cfg).

Definition scripted_cfg {S} (cfg : ServerConfig S) : ServerConfig Script := with_backend Scripted cfg.

Section Requests.
Context `{SDK} {S : Type}.
Variable cfg : ServerConfig S.
Let B := Backend cfg.

(** A request, with the time the clock shows while it is handled. *)
Definition request_next (p : Z * Request) (ans : list Answer) : (Outcome * list LogRecord) + Op :=
  replay (NewMux (scripted_cfg cfg) p.1 p.2) ans.

(** The server with requests in progress. *)
Definition Pool : Type := S * list (Thread (Z * Request) Answer Outcome).
Definition server_step : Pool → Pool → Prop := pstep request_next (exec B).

(** A computation that makes no call, or exactly one. *)
Inductive one_call {A} (m : M Script A) (m' : M S A) : Prop :=
  | no_call a l : (∀ ans, replay m ans = inl (a, l)) → (∀ s, m' s = (a, s, l)) → one_call m m'
  | a_call o : replay m [] = inr o → (∀ a ans, ∃ x, replay m (a :: ans) = inl x) →
      (∀ s, ∃ a l, replay m [run_val (exec B o) s] = inl (a, l) ∧
         m' s = (a, run_state (exec B o) s, run_log (exec B o) s ++ l)) → one_call m m'.

(** Code that touches only its own variables and the log. *)
Definition local {A} (m : M Script A) (m' : M S A) (a : A) (l : list LogRecord) : Prop :=
  (∀ sc, m sc = (a, sc, l)) ∧ (∀ s, m' s = (a, s, l)).

Lemma one_call_local {A} (m : M Script A) (m' : M S A) a l : local m m' a l → one_call m m'.
Proof.
  intros [Hm Hm']. apply (no_call _ _ a l); [|done]. intros ans. unfold replay. by rewrite Hm.
Qed.

Lemma one_call_prefix {A X} (m : M Script X) (m' : M S X) x (k : X → M Script A) (k' : X → M S A) :
  local m m' x [] → one_call (k x) (k' x) → one_call (m ≫= k) (m' ≫= k').
Proof.
  intros [Hm Hm'] Hk.
  assert (∀ sc, (m ≫= k) sc = k x sc) as E.
  { intros sc. rewrite M_bind_eq, Hm. by destruct (k x sc) as [[]]. }
  assert (∀ s, (m' ≫= k') s = k' x s) as E'.
  { intros s. rewrite M_bind_eq, Hm'. by destruct (k' x s) as [[]]. }
  assert (∀ ans, replay (m ≫= k) ans = replay (k x) ans) as Eo.
  { intros ans. unfold replay. by rewrite E. }
  destruct Hk as [a l Ho Hs|o Ho He Hs].
  - apply (no_call _ _ a l); intros; [by rewrite Eo|by rewrite E'].
  - apply (a_call _ _ o); [by rewrite Eo|intros; rewrite Eo; apply He|].
    intros s. rewrite E', Eo. apply Hs.
Qed.

(** One call, then local code. *)
Lemma one_call_op {A X} (m : M Script X) (m' : M S X) (o : Op) (unwrap : option Answer → X)
    (wrap : X → Answer) (k : X → M Script A) (k' : X → M S A) :
  m = unwrap <$> ask o → exec B o = wrap <$> m' → (∀ x, unwrap (Some (wrap x)) = x) →
  (∀ x, ∃ a l, local (k x) (k' x) a l) → one_call (m ≫= k) (m' ≫= k').
Proof.
  intros -> He Hu Hk. apply (a_call _ _ o).
  { unfold replay. rewrite M_bind_eq. unfold fmap, M_fmap, ask. cbn [answers].
    destruct (Hk (unwrap None)) as (a & l & E & _). by rewrite E. }
  { intros a ans. unfold replay. rewrite M_bind_eq. unfold fmap, M_fmap, ask. cbn [answers].
    destruct (Hk (unwrap (Some a))) as (x & l & E & _). rewrite E. by eexists. }
  intros s. rewrite He. run. destruct (Hk (run_val m' s)) as (a & l & E & E'). exists a, l. split.
  - unfold replay. rewrite M_bind_eq. unfold fmap, M_fmap, ask. cbn [answers]. by rewrite Hu, E.
  - rewrite M_bind_eq, (run_eta m'). by rewrite E'.
Qed.

Ltac local_code := eexists _, _; split; intros; reflexivity.
Ltac one_call_of w :=
  eapply one_call_op with (wrap := w); [reflexivity|reflexivity|reflexivity|].

(** ** The push handler makes at most one call *)

Lemma checkUploadToken_local now r cs n :
  let h := push_handler (scripted_cfg cfg) in
  ∃ v l, local (checkUploadToken h now r cs n) (checkUploadToken (push_handler cfg) now r cs n) v l ∧
    (l = [] ∨ v.1 = tokenRejected).
Proof.
  cbv zeta. unfold checkUploadToken. cbn [p_tokenVerifier p_tokenPolicy push_handler scripted_cfg with_backend
    cfg_UploadTokenVerifier UploadTokenPolicy].
  destruct (cfg_UploadTokenVerifier cfg) as [verify|]; [|by eexists _, _; split; [split; intros; reflexivity|left]].
  repeat case_match; by eexists _, _; split; [split; intros; reflexivity|auto].
Qed.

Lemma persist_one_call r cs c d :
  one_call (persist (push_handler (scripted_cfg cfg)) r cs c d) (persist (push_handler cfg) r cs c d).
Proof. unfold persist. one_call_of AErr. intros [e|]; local_code. Qed.

Lemma push_one_call now r :
  one_call (push_ServeHTTP (push_handler (scripted_cfg cfg)) now r) (push_ServeHTTP (push_handler cfg) now r).
Proof.
  assert (∀ r cs n reason msg, one_call (Some <$> rejectMalformed r cs n reason msg)
    (Some <$> rejectMalformed r cs n reason msg)) as Hrej.
  { intros. eapply one_call_local. split; intros; reflexivity. }
  unfold push_ServeHTTP. cbn [p_maxBody push_handler scripted_cfg with_backend MaxBodySize].
  destruct (String.eqb _ ""); [apply Hrej|]. destruct (ParseCID _) as [c|e]; [|apply Hrej].
  destruct (ReadAll _ _) as [d [e|]]; [apply Hrej|].
  destruct (_ <? _); [eapply one_call_local; split; intros; reflexivity|].
  destruct (checkUploadToken_local now r (Header_Get r "X-Artifact-CID") (blen d))
    as ([kid w] & l & Hl & Hc).
  destruct (String.eqb_spec kid tokenRejected) as [->|Hk].
  - destruct Hl as [Hl Hl']. apply (one_call_local _ _ w l).
    split; intros; rewrite M_bind_eq; [rewrite Hl|rewrite Hl']; cbn [fst]; rewrite String.eqb_refl;
      unfold mret, M_ret; by rewrite app_nil_r.
  - destruct Hc as [->|?]; [|done]. eapply one_call_prefix; [exact Hl|]. cbn beta iota.
    apply String.eqb_neq in Hk as ->. unfold verify_and_persist. cbn [p_verify push_handler scripted_cfg with_backend VerifyOnPush].
    destruct (_ && _); [eapply one_call_local; split; intros; reflexivity|]. apply persist_one_call.
Qed.

Lemma dispatch_one_call rt now r :
  rt ≠ RResolve → one_call (dispatch (scripted_cfg cfg) rt now r) (dispatch cfg rt now r).
Proof.
  intros Hrt. destruct rt; [..|done| |]; cbn [dispatch].
  - apply push_one_call.
  - unfold fetch_ServeHTTP. destruct (parseCIDFromPath r); [one_call_of ABytes; intros; local_code|].
    eapply one_call_local. split; intros; reflexivity.
  - unfold exists_ServeHTTP. destruct (parseCIDFromPath r); [one_call_of AFound; intros; local_code|].
    eapply one_call_local. split; intros; reflexivity.
  - unfold delete_ServeHTTP. destruct (parseCIDFromPath r); [one_call_of AErr; intros; local_code|].
    eapply one_call_local. split; intros; reflexivity.
  - unfold pin_ServeHTTP. destruct (parseCIDFromPath r); [one_call_of AErr; intros; local_code|].
    eapply one_call_local. split; intros; reflexivity.
  - unfold health_ServeHTTP. one_call_of AErr. intros. local_code.
Qed.

(** ** Resolve makes two: Exists, then Resolve *)

Definition resolve_answer (a : Answer) : Response :=
  match answered_cred (Some a) with
  | Err e => if errors_Is e ErrContentNotFound then writeError StatusNotFound "not found"
             else writeError StatusInternalServerError (Error e)
  | Ok c => json_response StatusOK (wire_json (retrievalCredentialToWire c))
  end.

(** What a process does that asks Exists and, on a hit, Resolve. *)
Record resolve_calls {A} (m : M Script A) (now : Z) (c : CID) (e : Z) (f : Response → A) : Prop := {
  calls_exists : replay m [] = inr (OExists c);
  calls_failed err : replay m [AFound (Err err)] = inl (f (writeError StatusInternalServerError (Error err)), []);
  calls_miss : replay m [AFound (Ok false)] = inl (f (writeError StatusNotFound "not found"), []);
  calls_hit : replay m [AFound (Ok true)] = inr (OResolve now c e);
  calls_resolved a : replay m [AFound (Ok true); a] = inl (f (resolve_answer a), []);
  calls_end a b ans : ∃ x, replay m (a :: b :: ans) = inl x }.

Lemma dispatch_resolve_calls now r c :
  parseCIDFromPath r = Ok c → resolve_calls (dispatch (scripted_cfg cfg) RResolve now r) now c
    (resolve_expiry (DefaultExpiry cfg) r) Some.
Proof.
  intros Hc. cbn [dispatch]. unfold resolve_ServeHTTP. rewrite Hc.
  split; [done..|]. intros a b ans. unfold replay. rewrite M_bind_eq.
  destruct a as [|?|[[]|?]|]; by eexists.
Qed.

(** ** The mux around the handlers *)

Lemma NewMux_routed_eq {T} (c : ServerConfig T) now r rt cid :
  routed r = Some (rt, cid) →
  NewMux c now r = (resp ← dispatch c rt now (with_cid r cid); mret (Respond (default implicit_ok resp))).
Proof.
  unfold routed, NewMux. destruct (String.eqb _ (EscapedPath r)); [|done]. cbn [negb]. by intros ->.
Qed.

Lemma NewMux_unrouted_eq r : routed r = None →
  ∃ o, ∀ T (c : ServerConfig T) now, NewMux c now r = mret o.
Proof.
  unfold routed, NewMux. destruct (String.eqb _ (EscapedPath r)); cbn [negb]; [|by eexists].
  intros ->. destruct (matchingMethods _); by eexists.
Qed.

Lemma replay_map {A A'} (m : M Script A) (f : A → A') ans :
  replay (x ← m; mret (f x)) ans =
    match replay m ans with inl (a, l) => inl (f a, l) | inr o => inr o end.
Proof.
  unfold replay. rewrite M_bind_eq. destruct (m _) as [[a sc] l]. unfold mret, M_ret.
  rewrite app_nil_r. by destruct (asked sc).
Qed.

Lemma one_call_map {A A'} (m : M Script A) (m' : M S A) (f : A → A') :
  one_call m m' → one_call (x ← m; mret (f x)) (x ← m'; mret (f x)).
Proof.
  intros [a l Ho Hs|o Ho He Hs].
  - apply (no_call _ _ (f a) l); intros; [by rewrite replay_map, Ho|].
    rewrite M_bind_eq, Hs. unfold mret, M_ret. by rewrite app_nil_r.
  - apply (a_call _ _ o); [by rewrite replay_map, Ho| |].
    { intros a ans. destruct (He a ans) as [[x l] E]. rewrite replay_map, E. by eexists. }
    intros s.
    destruct (Hs s) as (a & l & Ha & Hm). exists (f a), l.
    rewrite replay_map, Ha, M_bind_eq, Hm. split; [done|]. unfold mret, M_ret.
    by rewrite app_nil_r.
Qed.

(** A request is one atomic operation, or the two of a resolve. *)
Lemma request_shape now r :
  one_call (NewMux (scripted_cfg cfg) now r) (NewMux cfg now r) ∨
  ∃ cid c, routed r = Some (RResolve, cid) ∧ parseCIDFromPath (with_cid r cid) = Ok c ∧
    resolve_calls (NewMux (scripted_cfg cfg) now r) now c
      (resolve_expiry (DefaultExpiry cfg) (with_cid r cid)) (λ resp, Respond resp).
Proof.
  destruct (routed r) as [[rt cid]|] eqn:Hr.
  - rewrite !(NewMux_routed_eq _ _ _ _ _ Hr). destruct (decide (rt = RResolve)) as [->|Hne].
    + destruct (parseCIDFromPath (with_cid r cid)) as [c|e] eqn:Hc.
      * right. exists cid, c. split; [done|]. split; [done|].
        destruct (dispatch_resolve_calls now (with_cid r cid) c Hc) as [H1 H2 H3 H4 H5 H6].
        split; intros; rewrite replay_map, ?H1, ?H2, ?H3, ?H4, ?H5; try done.
        destruct (H6 a b ans) as [[x l] ->]. by eexists.
      * left. apply one_call_map. cbn [dispatch]. unfold resolve_ServeHTTP. rewrite Hc.
        eapply one_call_local. split; intros; reflexivity.
    + left. by apply one_call_map, dispatch_one_call.
  - left. destruct (NewMux_unrouted_eq r Hr) as [o Ho]. rewrite !Ho.
    eapply one_call_local. split; intros; reflexivity.
Qed.

(** Alone, a process is the handler: two operations are always enough. *)
Lemma request_alone now r s :
  drive request_next (exec B) 2 (now, r) [] s = (Some <$> NewMux cfg now r) s.
Proof.
  unfold fmap, M_fmap. destruct (request_shape now r) as [[o l Ho Hs|o Ho _ Hs]|(cid & c & Hr & Hc & Hk)].
  - cbn [drive]. unfold request_next at 1. cbn [fst snd]. by rewrite Ho, Hs.
  - cbn [drive]. unfold request_next at 1. cbn [fst snd]. rewrite Ho, M_bind_eq.
    destruct (Hs s) as (a & l & Ha & Hm). rewrite (run_eta (exec B o)). unfold request_next.
    cbn [fst snd app]. by rewrite Ha, Hm.
  - rewrite (NewMux_routed_eq cfg _ _ _ _ Hr), M_bind_eq. cbn [dispatch]. unfold resolve_ServeHTTP.
    rewrite Hc, M_bind_eq. cbn [drive]. unfold request_next at 1. cbn [fst snd].
    destruct Hk as [H1 H2 H3 H4 H5 _]. rewrite H1, M_bind_eq. cbn [exec].
    unfold fmap at 1, M_fmap at 1. fold B.
    destruct (Exists B c s) as [[[[]|e'] s1] l1]; cbn [app]; unfold request_next at 1; cbn [fst snd].
    + rewrite H4, !M_bind_eq. cbn [exec]. unfold fmap at 1, M_fmap at 1.
      destruct (Resolve B now c _ s1) as [[cred s2] l2]. unfold request_next. cbn [app fst snd].
      rewrite H5. unfold mret, M_ret. by rewrite !app_nil_r.
    + rewrite H3. unfold mret, M_ret. by rewrite !app_nil_r.
    + rewrite H2. unfold mret, M_ret. by rewrite !app_nil_r.
Qed.

(** ** Linearizability *)

(** The entries of [l] at the places [js]. *)
Definition at_places {X} (l : list X) (js : list nat) : list X := omap (λ i, l !! i) js.

Section Linear.
Variable R : S → content → Prop.
Context `{!Refines B R}.

(** Resolve does not touch the map, so a process waiting for its answer has
    already taken effect. *)
Definition settled (p : Z * Request) (ans : list Answer) : Prop :=
  ∀ o, request_next p ans = inr o →
    ∃ c e, o = OResolve p.1 c e ∧ ∀ a o', request_next p (ans ++ [a]) ≠ inr o'.

(** The first operation of a request is where it takes effect: whatever the
    process answers from then on is the abstract service's answer there. *)
Lemma request_takes_effect now r o s m :
  R s m → request_next (now, r) [] = inr o →
  let a := run_val (exec B o) s in
  settled (now, r) [a] ∧
  ∃ m', R (run_state (exec B o) s) m' ∧
    ∀ out, may_return request_next (now, r) [a] out → mux_step cfg m now r out m'.
Proof.
  intros HR Ho a. destruct (request_shape now r) as [[o' l Hn _|o' Hn _ Hs]|(cid & c & Hr & Hc & Hk)].
  - unfold request_next in Ho. cbn in Ho. by rewrite Hn in Ho.
  - unfold request_next in Ho. cbn [fst snd] in Ho. rewrite Hn in Ho. injection Ho as ->.
    destruct (Hs s) as (out & l & Ha & Hm). fold a in Ha.
    assert (request_next (now, r) [a] = inl (out, l)) as Ha' by done.
    split; [intros o2 Ho2; congruence|].
    destruct (NewMux_refines cfg R now r s m HR) as (m' & Hst & HR').
    unfold run_val, run_state in Hst, HR'. rewrite Hm in Hst, HR'. cbn [fst snd] in Hst, HR'.
    exists m'. split; [done|]. intros out' Hret.
    inversion Hret as [? ? ? E|? ? ? ? E]; rewrite Ha' in E; [|done]. by injection E as <- <-.
  - destruct Hk as [H1 H2 H3 H4 H5 _].
    assert (o = OExists c) as ->.
    { unfold request_next in Ho. cbn [fst snd] in Ho. rewrite H1 in Ho. by injection Ho as <-. }
    subst a. cbn [exec]. run. destruct (ref_exists c s m HR) as [-> HR'].
    destruct (bool_decide_reflect (is_Some (m !! CID_String c))) as [Hin|Hin].
    + split.
      * intros o2 Ho2. unfold request_next in Ho2. cbn [fst snd] in Ho2. rewrite H4 in Ho2.
        injection Ho2 as <-. eexists c, _. split; [done|]. intros a o3. unfold request_next.
        cbn [fst snd app]. by rewrite H5.
      * exists m. split; [done|]. intros out Hret.
        assert (∃ a, out = Respond (resolve_answer a)) as [a ->].
        { inversion Hret as [? ? ? E|? ? a ? _ Hret']; subst.
          { unfold request_next in E. cbn [fst snd] in E. by rewrite H4 in E. }
          exists a. unfold request_next in Hret'. cbn [app] in Hret'.
          inversion Hret' as [? ? ? E|? ? ? ? E]; subst; cbn [fst snd] in E; rewrite H5 in E; [|done].
          by injection E as <- <-. }
        eapply (mux_routed cfg m now r _ _ (Some _)); [done|]. eapply api_resolve_hit; [done|done|].
        unfold resolve_answer. repeat case_match; set_solver.
    + split.
      * intros o2 Ho2. unfold request_next in Ho2. cbn [fst snd] in Ho2. by rewrite H3 in Ho2.
      * exists m. split; [done|]. intros out Hret.
        inversion Hret as [? ? ? E|? ? ? ? E]; unfold request_next in E; cbn [fst snd] in E;
          rewrite H3 in E; [|done]. injection E as <- <-.
        eapply (mux_routed cfg m now r _ _ (Some _)); [done|]. eapply api_resolve_miss; [done|].
        by apply eq_None_not_Some.
Qed.

(** A request that makes no call takes effect when it is answered. *)
Lemma request_no_effect now r out l s m :
  R s m → request_next (now, r) [] = inl (out, l) → ∃ m', R s m' ∧ mux_step cfg m now r out m'.
Proof.
  intros HR Ho. unfold request_next in Ho. cbn [fst snd] in Ho.
  destruct (request_shape now r) as [[o' l' Hn Hs|o' Hn _ _]|(cid & c & _ & _ & [H1 _ _ _ _ _])];
    [|congruence..].
  rewrite Hn in Ho. injection Ho as -> ->.
  destruct (NewMux_refines cfg R now r s m HR) as (m' & Hst & HR').
  unfold run_val, run_state in Hst, HR'. rewrite Hs in Hst, HR'. by exists m'.
Qed.

(** The abstract service at the places [lin] of the pool: each process may
    still return only what the service answers at its place. *)
Inductive lin_trace (ps : list (Thread (Z * Request) Answer Outcome)) : content → list nat → content → Prop :=
  | lin_nil m : lin_trace ps m [] m
  | lin_snoc m lin m1 i q m2 :
      lin_trace ps m lin m1 → ps !! i = Some q →
      (∀ out, may_result request_next q out → mux_step cfg m1 (proc_of q).1 (proc_of q).2 out m2) →
      lin_trace ps m (lin ++ [i]) m2.

(** What it means for a process to have its place in the order or not yet. *)
Definition fits (placed : bool) (q : Thread (Z * Request) Answer Outcome) : Prop :=
  match q with
  | Waiting _ => placed = false
  | Running p ans => if placed then settled p ans else ans = []
  | Done _ _ => placed = true
  end.

(** What the linearization order [lin] means for the pool [ps] over [s]. *)
Record linearized (m0 : content) (lin : list nat) (s : S)
    (ps : list (Thread (Z * Request) Answer Outcome)) : Prop := {
  lin_nodup : NoDup lin;
  lin_map : ∃ m, R s m ∧ lin_trace ps m0 lin m;
  lin_fits i q : ps !! i = Some q → fits (bool_decide (i ∈ lin)) q }.

(** Going on only narrows what a process can return. *)
Lemma lin_trace_narrow ps m lin m' i q q' :
  lin_trace ps m lin m' → ps !! i = Some q → proc_of q' = proc_of q →
  (∀ out, may_result request_next q' out → may_result request_next q out) →
  lin_trace (<[i := q']> ps) m lin m'.
Proof.
  intros Ht Hi Hp Hq. induction Ht as [m|m lin m1 j q0 m2 _ IH Hj Hs]; [constructor|].
  destruct (decide (i = j)) as [<-|Hne].
  - econstructor; [exact IH|apply list_lookup_insert_eq; by eapply lookup_lt_Some|].
    rewrite Hj in Hi. injection Hi as ->. rewrite Hp. eauto.
  - econstructor; [exact IH|rewrite list_lookup_insert_ne by done; exact Hj|exact Hs].
Qed.

(** A step of a process that has its place, and of one that takes it now. *)
Lemma linearized_keep m0 lin s s' ps i q q' :
  linearized m0 lin s ps → ps !! i = Some q → proc_of q' = proc_of q →
  (∀ out, may_result request_next q' out → may_result request_next q out) →
  (∀ m, R s m → R s' m) → fits (bool_decide (i ∈ lin)) q' →
  linearized m0 lin s' (<[i := q']> ps).
Proof.
  intros [Hnd (m & HR & Ht) Hf] Hi Hp Hq HRs Hfit. split; [done| |].
  - exists m. split; [by apply HRs|]. by eapply lin_trace_narrow.
  - intros j q0 [(-> & -> & _)|[_ Hj]]%list_lookup_insert_Some; [done|by apply Hf].
Qed.

Lemma linearized_extend m0 lin s s' ps i q q' :
  linearized m0 lin s ps → ps !! i = Some q → proc_of q' = proc_of q →
  (∀ out, may_result request_next q' out → may_result request_next q out) →
  (∀ m, R s m → ∃ m', R s' m' ∧
     ∀ out, may_result request_next q' out → mux_step cfg m (proc_of q).1 (proc_of q).2 out m') →
  i ∉ lin → fits true q' →
  linearized m0 (lin ++ [i]) s' (<[i := q']> ps).
Proof.
  intros [Hnd (m & HR & Ht) Hf] Hi Hp Hq HRs Hin Hfit. split.
  - apply NoDup_app. split; [done|]. split; [set_solver|apply NoDup_singleton].
  - destruct (HRs m HR) as (m' & HR' & Hs). exists m'. split; [done|].
    eapply (lin_snoc _ _ _ _ _ q'); [by eapply lin_trace_narrow| |by rewrite Hp].
    apply list_lookup_insert_eq. by eapply lookup_lt_Some.
  - intros j q0 [(-> & -> & _)|[Hne Hj]]%list_lookup_insert_Some.
    + by rewrite bool_decide_true by set_solver.
    + rewrite (bool_decide_ext _ (j ∈ lin)) by set_solver. by apply Hf.
Qed.

(** Every step of the pool keeps the order or adds the stepping process to it. *)
Lemma linearized_step m0 lin c c' :
  linearized m0 lin c.1 c.2 → server_step c c' → ∃ ext, linearized m0 (lin ++ ext) c'.1 c'.2.
Proof.
  intros Hl Hs.
  destruct Hs as [s ps i p Hi|s ps i p ans o Hi Ho|s ps i p ans out l Hi Ho]; cbn [fst snd] in *;
    pose proof (lin_fits _ _ _ _ Hl _ _ Hi) as Hfit; cbn [fits] in Hfit.
  - exists []. rewrite app_nil_r. eapply linearized_keep; [done|done|done|done|done|].
    cbn [fits]. by rewrite Hfit.
  - assert (∀ out, may_return request_next p (ans ++ [run_val (exec B o) s]) out →
      may_return request_next p ans out) as Hn by (intros; by eapply return_later).
    destruct (bool_decide_reflect (i ∈ lin)) as [Hin|Hin].
    + destruct (Hfit o Ho) as (c & e & -> & Hend). exists []. rewrite app_nil_r.
      eapply linearized_keep; [done|done|done|done| |].
      * intros m HR. cbn [exec]. run. by apply ref_resolve.
      * rewrite bool_decide_true by done. intros o' Ho'. by apply Hend in Ho'.
    + subst ans. exists [i]. destruct p as [now r]. eapply linearized_extend; [done|done|done|done| |done|].
      * intros m HR. by apply (request_takes_effect now r o s m HR Ho).
      * destruct (lin_map _ _ _ _ Hl) as (m & HR & _).
        by apply (request_takes_effect now r o s m HR Ho).
  - assert (∀ out', out = out' → may_return request_next p ans out') as Hn
      by (intros ? <-; by eapply return_now).
    destruct (bool_decide_reflect (i ∈ lin)) as [Hin|Hin].
    + exists []. rewrite app_nil_r. eapply linearized_keep; [done|done|done|done|done|].
      by apply bool_decide_true.
    + subst ans. exists [i]. destruct p as [now r]. eapply linearized_extend; [done|done|done|done| |done|done].
      intros m HR. destruct (request_no_effect now r out l s m HR Ho) as (m' & HR' & Hs).
      exists m'. split; [done|]. by intros ? <-.
Qed.

(** Along a run the order only grows, and what it has become at the end starts
    with what it was at every state on the way. *)
Lemma linearized_visits m0 lin c h c' :
  linearized m0 lin c.1 c.2 → visits server_step c h c' →
  ∃ ext, linearized m0 (lin ++ ext) c'.1 c'.2 ∧
    ∀ x, x ∈ h → ∃ e1 e2, ext = e1 ++ e2 ∧ linearized m0 (lin ++ e1) x.1 x.2.
Proof.
  intros Hl Hv. revert lin Hl. induction Hv as [c|c c1 h c2 H1 _ IH]; intros lin Hl.
  { exists []. rewrite app_nil_r. split; [done|]. intros x ->%list_elem_of_singleton.
    exists [], []. split; [done|by rewrite app_nil_r]. }
  destruct (linearized_step _ _ _ _ Hl H1) as [e1 Hl1]. destruct (IH _ Hl1) as (e2 & Hl2 & Hh).
  exists (e1 ++ e2). rewrite (base.assoc (++)). split; [done|].
  intros x [->|Hx]%elem_of_cons; [exists [], (e1 ++ e2); split; [done|by rewrite app_nil_r]|].
  destruct (Hh x Hx) as (e3 & e4 & -> & H3). exists (e1 ++ e3), e4.
  by rewrite !(base.assoc (++)).
Qed.

Lemma linearized_start m s reqs : R s m → linearized m [] s (arrived reqs).
Proof.
  intros HR. split; [constructor|exists m; split; [done|constructor]|].
  intros i q. unfold arrived. rewrite list_lookup_fmap. destruct (reqs !! i); [|done]. by intros [= <-].
Qed.

(** When every process is done the order is a run of the abstract service. *)
Lemma mux_trace_snoc m reqs os m1 now r o m2 :
  mux_trace cfg m reqs os m1 → mux_step cfg m1 now r o m2 →
  mux_trace cfg m (reqs ++ [(now, r)]) (os ++ [o]) m2.
Proof. induction 1; intros Hs; cbn; econstructor; eauto using trace_nil. Qed.

Lemma lin_trace_done reqs outs m lin m' :
  lin_trace (answered reqs outs) m lin m' →
  mux_trace cfg m (at_places reqs lin) (at_places outs lin) m'.
Proof.
  remember (answered reqs outs) as ps eqn:E.
  induction 1 as [m|m lin m1 i q m2 _ IH Hi Hs]; [constructor|]. subst ps.
  apply lookup_zip_with_Some in Hi as ([now r] & out & -> & Hr & Ho).
  unfold at_places. rewrite !omap_app. cbn [omap list_omap]. rewrite Hr, Ho.
  eapply mux_trace_snoc; [by apply IH|]. by apply Hs.
Qed.

Lemma linearized_complete m lin s reqs outs :
  (length reqs ≤ length outs)%nat → linearized m lin s (answered reqs outs) →
  lin ≡ₚ seq 0 (length reqs).
Proof.
  intros Hlen [Hnd (m' & _ & Ht) Hf]. apply NoDup_Permutation; [done|apply NoDup_seq|].
  intros i. rewrite elem_of_seq. split.
  - intros Hi. clear Hnd Hf. induction Ht as [|m lin m1 j q m2 _ IH Hj _]; [by apply elem_of_nil in Hi|].
    apply elem_of_app in Hi as [Hi|Hi%list_elem_of_singleton]; [by apply IH|]. subst j.
    apply lookup_lt_Some in Hj. unfold answered in Hj. rewrite length_zip_with in Hj. lia.
  - intros Hi. destruct (lookup_lt_is_Some_2 (answered (A:=Answer) reqs outs) i) as [q Hq];
      [unfold answered; rewrite length_zip_with; lia|].
    specialize (Hf i q Hq). apply lookup_zip_with_Some in Hq as (p & out & -> & _).
    by apply bool_decide_eq_true in Hf.
Qed.
End Linear.

End Requests.

(** ** What a request asks of the backend *)

Section Asks.
Context `{SDK} {S : Type}.
Variable cfg : ServerConfig S.

(** A push is asked for only by a request that passed every check. *)
Lemma replay_push now r ans c d :
  replay (push_ServeHTTP (push_handler (scripted_cfg cfg)) now r) ans = inr (OPush c d) →
  pushable (push_handler cfg) now r c d.
Proof.
  unfold replay. destruct (push_cases (push_handler (scripted_cfg cfg)) now r (MkScript ans None))
    as [(reason & st & msg & rec & -> & _)|[(c' & d' & Hp & ->)|[-> _]]]; [done| |done].
  unfold persist. rewrite M_bind_eq. cbn [p_backend push_handler scripted_cfg with_backend Backend Scripted Push].
  unfold fmap, M_fmap, ask. destruct ans as [|a ans]; cbn [answers].
  - cbn. intros [= <- <-]. by destruct Hp; split.
  - by destruct (answered_err (Some a)).
Qed.

Lemma request_asks_push p ans c d :
  request_next cfg p ans = inr (OPush c d) →
  ∃ r', pushable (push_handler cfg) p.1 r' c d.
Proof.
  destruct p as [now r]. unfold request_next. cbn [fst snd].
  destruct (routed r) as [[rt cid]|] eqn:Hr.
  2:{ destruct (NewMux_unrouted_eq r Hr) as [o Ho]. by rewrite Ho. }
  rewrite (NewMux_routed_eq _ _ _ _ _ Hr), replay_map.
  destruct (replay _ ans) as [[a l]|o] eqn:E; [done|]. intros [= ->].
  destruct rt; cbn [dispatch] in E; [exists (with_cid r cid); by eapply replay_push|exfalso..];
    revert E; unfold replay, fetch_ServeHTTP, exists_ServeHTTP, delete_ServeHTTP,
      resolve_ServeHTTP, pin_ServeHTTP, health_ServeHTTP;
    try (destruct (parseCIDFromPath (with_cid r cid)) as [c'|e]; [|done]);
    rewrite M_bind_eq; (destruct ans as [|a ans]; [done|]); try done.
  destruct a as [|?|[[]|?]|]; try done. by destruct ans.
Qed.

(** A fetch asks for its own CID, and answers what it is told. *)
Definition fetch_answer (a : Answer) : Response :=
  match answered_bytes (Some a) with
  | Err e => if errors_Is e ErrContentNotFound then writeError StatusNotFound "not found"
             else writeError StatusInternalServerError (Error e)
  | Ok data => fetched data
  end.

Lemma request_asks_fetch now r cid ans :
  routed r = Some (RFetch, cid) →
  request_next cfg (now, r) ans =
    match parseCIDFromPath (with_cid r cid), ans with
    | Err e, _ => inl (Respond (writeError StatusBadRequest (Error e)), [])
    | Ok c, [] => inr (OFetch c)
    | Ok c, a :: _ => inl (Respond (fetch_answer a), [])
    end.
Proof.
  intros Hr. unfold request_next. cbn [fst snd]. rewrite (NewMux_routed_eq _ _ _ _ _ Hr), replay_map.
  cbn [dispatch]. unfold fetch_ServeHTTP. destruct (parseCIDFromPath (with_cid r cid)) as [c|e]; [|done].
  by destruct ans as [|a ans].
Qed.
End Asks.

(** ** Integrity in every interleaving *)

Section Integrity.
Context `{SDKLaws} {S : Type}.
Variable cfg : ServerConfig S.
Context `{!Sound (Backend cfg)}.
Hypothesis verify_on : VerifyOnPush cfg = true.

(** An operation some request asks for keeps what may be fetched verified. *)
Lemma exec_integrity p ans o s :
  request_next cfg p ans = inr o → integrity cfg s → integrity cfg (run_state (exec (Backend cfg) o) s).
Proof.
  intros Ho Hi k x. destruct o as [c d|c|c|c|c|now c e|]; cbn [exec]; run; intros Hm;
    [|eapply Hi; eauto using may_fetch, may_pin, may_exists, may_delete, may_resolve, may_healthy..].
  apply may_push in Hm as [Hm|[-> ->]]; [by apply Hi|].
  destruct (request_asks_push cfg p ans c d Ho) as [r' Hp]. exists c. split; [|split; [done|]].
  - by eexists; apply (pushable_cid _ _ _ _ _ Hp).
  - by apply (pushable_digest _ _ _ _ _ Hp).
Qed.

(** A download that is what its CID names. *)
Definition good (cid : string) (x : bytes) : Prop :=
  ∃ c, ParseCID cid = Ok c ∧ CID_Verify c x = true ∧ ComputeWith x (Algorithm c) = c.

Definition good_outcome (r : Request) (out : Outcome) : Prop :=
  ∀ cid resp, routed r = Some (RFetch, cid) → out = Respond resp → status resp = StatusOK →
    good cid (resp_body resp).

Definition good_proc (q : Thread (Z * Request) Answer Outcome) : Prop :=
  match q with
  | Waiting _ => True
  | Running p ans => ans = [] ∨ ∀ out, may_return (request_next cfg) p ans out → good_outcome p.2 out
  | Done p out => good_outcome p.2 out
  end.

Definition sound_pool (c : Pool) : Prop := integrity cfg c.1 ∧ Forall good_proc c.2.

(** The answer to the first call of a request, given by a state with integrity. *)
Lemma first_answer_good p o s :
  integrity cfg s → request_next cfg p [] = inr o →
  ∀ out, may_return (request_next cfg) p [run_val (exec (Backend cfg) o) s] out → good_outcome p.2 out.
Proof.
  intros Hi Ho out Hret cid resp Hr -> Hst. destruct p as [now r]. cbn [snd] in Hr.
  rewrite (request_asks_fetch cfg now r cid [] Hr) in Ho.
  destruct (parseCIDFromPath (with_cid r cid)) as [c|e] eqn:Hc; [|done]. injection Ho as <-.
  assert (ParseCID cid = Ok c) as Hpc.
  { unfold parseCIDFromPath in Hc. cbn in Hc. by case_match. }
  inversion Hret as [? ? ? E|? ? ? ? E]; subst;
    rewrite (request_asks_fetch cfg now r cid _ Hr), Hc in E; [|done]. injection E as <- <-.
  cbn [exec] in *. unfold fetch_answer in *. rewrite run_val_fmap in *. cbn [answered_bytes] in *.
  destruct (run_val (Fetch (Backend cfg) c) s) as [x|e] eqn:Hf; [|by destruct (errors_Is _ _)].
  cbn [fetched resp_body]. apply fetch_may, Hi in Hf as (c' & Hp & Hk & Hv).
  assert (parsed c) as Hpar by (by eexists). rewrite <- (CID_String_inj c c' Hpar Hp Hk) in Hv.
  exists c. split; [done|]. split; [done|]. by apply CID_Verify_spec.
Qed.

(** A request answered without a call is not a successful download. *)
Lemma no_call_good p out l : request_next cfg p [] = inl (out, l) → good_outcome p.2 out.
Proof.
  intros Ho cid resp Hr -> Hst. destruct p as [now r].
  rewrite (request_asks_fetch cfg now r cid [] Hr) in Ho.
  destruct (parseCIDFromPath (with_cid r cid)); [done|]. by injection Ho as <- <-.
Qed.

Lemma sound_pool_step c c' : sound_pool c → server_step cfg c c' → sound_pool c'.
Proof.
  intros [Hi Hf] Hs.
  destruct Hs as [s ps i p Hl|s ps i p ans o Hl Ho|s ps i p ans out l Hl Ho]; cbn [fst snd] in *;
    pose proof (Forall_lookup_1 _ _ _ _ Hf Hl) as Hq; cbn [good_proc] in Hq;
    (split; cbn [fst snd]; [|apply Forall_insert; [done|]]).
  - done.
  - by left.
  - by eapply exec_integrity.
  - right. destruct Hq as [->|Hq]; [by apply first_answer_good|].
    intros out Hret. eapply Hq. by eapply return_later.
  - done.
  - cbn [good_proc]. destruct Hq as [->|Hq]; [by eapply no_call_good|].
    eapply Hq. by eapply return_now.
Qed.
End Integrity.

(** ** Linearizable runs *)

(** [i] comes before [j]. *)
Definition precedes (i j : nat) (l : list nat) : Prop := ∃ l1 l2, l = l1 ++ l2 ∧ i ∈ l1 ∧ j ∈ l2.

(** The answers of a run with the history [h] that ends in the backend state [s]
    are those of the abstract service over the map, one request at a time, in
    one order of the requests; and whenever, in some state of the history, one
    request was answered and another had not started, the first comes before
    the second in that order. *)
Definition linearizes `{SDK} {S} (cfg : ServerConfig S) (R : S → content → Prop) (m : content)
    (reqs : list (Z * Request)) (h : list (@Pool S)) (s : S) (outs : list Outcome) : Prop :=
  ∃ lin m', lin ≡ₚ seq 0 (length reqs) ∧ R s m' ∧
    mux_trace cfg m (at_places reqs lin) (at_places outs lin) m' ∧
    ∀ x i j p q out, x ∈ h → x.2 !! i = Some (Done p out) → x.2 !! j = Some (Waiting q) →
      precedes i j lin.

Lemma visits_length `{SDK} {S} (cfg : ServerConfig S) c h c' x :
  visits (server_step cfg) c h c' → x ∈ h → length x.2 = length c.2.
Proof.
  induction 1 as [c|c c1 h c2 H1 _ IH]; [by intros ->%list_elem_of_singleton|].
  intros [->|Hx]%elem_of_cons; [done|]. rewrite (IH Hx). by eapply psteps_length, rtc_once.
Qed.

Lemma run_linearizes `{SDK} {S} (cfg : ServerConfig S) R `{!Refines (Backend cfg) R} s m reqs h s' outs :
  R s m → visits (server_step cfg) (s, arrived reqs) h (s', answered reqs outs) →
  linearizes cfg R m reqs h s' outs.
Proof.
  intros HR Hv. pose proof (psteps_length _ _ _ _ (visits_steps _ _ _ _ Hv)) as Hlen.
  pose proof (λ x, visits_length cfg _ _ _ x Hv) as Hl.
  unfold arrived, answered in Hlen, Hl. cbn [snd] in Hlen, Hl. rewrite length_zip_with, length_fmap in Hlen.
  destruct (linearized_visits cfg R m [] (s, arrived reqs) _ _ (linearized_start cfg R m s reqs HR) Hv) as (lin & L & Hh).
  cbn [app fst snd] in L, Hh.
  assert (lin ≡ₚ seq 0 (length reqs)) as Hperm by (eapply linearized_complete; [|exact L]; lia).
  destruct (lin_map _ _ _ _ _ _ L) as (m' & HR' & Ht). exists lin, m'.
  split_and!; [done|done|by apply lin_trace_done|]. intros x i j p q out Hx Hi Hj.
  destruct (Hh x Hx) as (e1 & e2 & -> & Lx). exists e1, e2. split; [done|].
  pose proof (lin_fits _ _ _ _ _ _ Lx _ _ Hi) as Hfi. apply bool_decide_eq_true in Hfi.
  pose proof (lin_fits _ _ _ _ _ _ Lx _ _ Hj) as Hfj. apply bool_decide_eq_false in Hfj.
  split; [done|]. assert (j ∈ e1 ++ e2) as Hin; [|set_solver].
  rewrite Hperm, elem_of_seq. apply lookup_lt_Some in Hj. rewrite (Hl x Hx), length_fmap in Hj. lia.
Qed.

(** ** Theorems: concurrent requests *)

(** C3. Linearizability: over a backend whose operations are atomic and implement a
    map, in every run, however the goroutines of any number of requests
    interleave, when all are answered there is one order of the requests in
    which the abstract service over the map gives each of them the answer it
    got and ends with the map the backend ends with; and this one order respects
    real time throughout: whenever, in any state the run went through, one
    request had been answered and another had not started, the first precedes
    the second. *)
Theorem requests_linearizable `{SDK} {S} (cfg : ServerConfig S) R `{!Refines (Backend cfg) R}
    s m reqs h s' outs :
  R s m → visits (server_step cfg) (s, arrived reqs) h (s', answered reqs outs) →
  ∃ lin m', lin ≡ₚ seq 0 (length reqs) ∧ R s' m' ∧
    mux_trace cfg m (at_places reqs lin) (at_places outs lin) m' ∧
    ∀ x i j p q out, x ∈ h → x.2 !! i = Some (Done p out) → x.2 !! j = Some (Waiting q) →
      precedes i j lin.
Proof. apply (run_linearizes cfg R). Qed.

(** C1. Integrity without serialization: with [VerifyOnPush] on, over any backend that
    returns only what was pushed to it (however it fails otherwise), started
    empty, in every state any interleaving of any requests can reach, every
    download that was answered 200 is the content its CID names. *)
Theorem concurrent_integrity `{SDKLaws} {S} (cfg : ServerConfig S) `{!Sound (Backend cfg)}
    s reqs s' ps' i now r cid resp :
  VerifyOnPush cfg = true → (∀ k x, ¬ may s k x) →
  rtc (server_step cfg) (s, arrived reqs) (s', ps') →
  ps' !! i = Some (Done (now, r) (Respond resp)) → routed r = Some (RFetch, cid) →
  status resp = StatusOK →
  ∃ c, ParseCID cid = Ok c ∧ CID_Verify c (resp_body resp) = true ∧
    ComputeWith (resp_body resp) (Algorithm c) = c.
Proof.
  intros Hv He Hs Hi Hr Hst. assert (sound_pool cfg (s', ps')) as [_ Hf].
  { eapply psteps_invariant; [intros c1 c2; by apply sound_pool_step|exact Hs|].
    split; [by intros k x ?%He|]. apply Forall_fmap, Forall_true. done. }
  by apply (Forall_lookup_1 _ _ _ _ Hf Hi cid resp).
Qed.


(** ** Witnesses: an upload and a download of the same CID *)

Definition ex_reqs : list (Z * Request) := [(ex_now, ex_post "op"); (0, ex_request "GET")].
Definition ex_outs : list Outcome := [Respond (stored hello_cid hello); Respond (fetched hello)].
Definition ex_schedule : Pool → list nat → Pool := schedule (request_next ex_cfg) (exec (Backend ex_cfg)).

(** The upload's push is done before the download starts. *)
Definition ex_arrived : Pool := (ex_empty, arrived ex_reqs).
Definition ex_mid : Pool := ex_schedule ex_arrived [0; 0; 0]%nat.
Definition ex_end : Pool := ex_schedule (ex_mid.1, ex_mid.2) [1; 0; 1; 1]%nat.

Lemma ex_upload : rtc (server_step ex_cfg) ex_arrived (ex_mid.1, ex_mid.2).
Proof. exact (schedule_steps _ _ ex_arrived [0; 0; 0]%nat _ eq_refl). Qed.
Lemma ex_rest : rtc (server_step ex_cfg) (ex_mid.1, ex_mid.2) (ex_end.1, answered ex_reqs ex_outs).
Proof. unfold ex_end, ex_schedule. apply schedule_steps. vm_compute. reflexivity. Qed.

Lemma requests_linearizable_witness : ∃ h : list (@Pool content), (ex_mid.1, ex_mid.2) ∈ h ∧
  ∃ lin m', lin ≡ₚ seq 0 (length ex_reqs) ∧ ex_R ex_end.1 m' ∧
    mux_trace ex_cfg ex_empty (at_places ex_reqs lin) (at_places ex_outs lin) m' ∧
    ∀ x i j p q out, x ∈ h → x.2 !! i = Some (Done p out) → x.2 !! j = Some (Waiting q) →
      precedes i j lin.
Proof.
  destruct (visits_through _ _ _ _ ex_upload ex_rest) as (h & Hv & Hin). exists h. split; [exact Hin|].
  apply (requests_linearizable ex_cfg ex_R ex_empty ex_empty ex_reqs h ex_end.1 ex_outs).
  - reflexivity.
  - exact Hv.
Defined.

Lemma concurrent_integrity_witness :
  ∃ c, ParseCID hello_cs = Ok c ∧ CID_Verify c hello = true ∧ ComputeWith hello (Algorithm c) = c.
Proof.
  apply (concurrent_integrity ex_cfg ex_empty ex_reqs ex_end.1 (answered ex_reqs ex_outs)
    1 0 (ex_request "GET") hello_cs (fetched hello)).
  - reflexivity.
  - intros k x. vm_compute. discriminate.
  - etransitivity; [exact ex_upload|exact ex_rest].
  - reflexivity.
  - vm_compute. reflexivity.
  - reflexivity.
Defined.
