(* ===== verification/ConcurrentMirror.v ===== *)
(** * Concurrent operations on a mirrored store

    An operation of backends.MirroredStore is not atomic: it calls the primary,
    then the mirror, and other requests run in between.  Each operation is a
    process over the two sides, read off [MirroredStore] itself over two
    scripted backends.  Pushes that agree on their bytes keep the sides equal in
    every interleaving; a push and a delete of one CID need not. *)

From stdpp Require Import relations.
From S2P Require Import Prelude GoStrings Json Storage Http Backends Reference Token Time Api Server System Witnesses Concurrent.

Open Scope Z_scope.

(** ** Mirrored operations as processes *)

Inductive Side := Primary | Mirror.

#[export] Instance Side_eq_dec : EqDecision Side.
Proof. solve_decision. Defined.

Definition answers_of (sd : Side) (ans : list (Side * Answer)) : list Answer :=
  omap (λ '(sd', a), if decide (sd = sd') then Some a else None) ans.

Section MirrorOps.
Context `{SDK} {S T : Type}.
Variables (primary : BackendProvider S) (mirror : BackendProvider T).

(** What a computation over two scripted backends does after these answers: the
    side it asks first, where it asks both, is the primary. *)
Definition replay_sides {A} (m : M (Script * Script) A) (ans : list (Side * Answer))
    : (A * list LogRecord) + (Side * Op) :=
  let '(a, (p, m), l) := m (MkScript (answers_of Primary ans) None, MkScript (answers_of Mirror ans) None) in
  match asked p, asked m with
  | Some q, _ => inr (Primary, q)
  | None, Some q => inr (Mirror, q)
  | None, None => inl (a, l)
  end.

(** What an operation of the mirrored store does next. *)
Definition mirror_next (o : Op) : list (Side * Answer) → (Answer * list LogRecord) + (Side * Op) :=
  replay_sides (exec (MirroredStore Scripted Scripted) o).

Definition mirror_act (q : Side * Op) : M (S * T) (Side * Answer) :=
  match q.1 with
  | Primary => pair Primary <$> on_fst (exec primary q.2)
  | Mirror => pair Mirror <$> on_snd (exec mirror q.2)
  end.

Definition mirror_step := pstep mirror_next mirror_act.

Lemma mirror_act_primary_val o s t :
  run_val (mirror_act (Primary, o)) (s, t) = (Primary, run_val (exec primary o) s).
Proof. unfold mirror_act. cbn [fst snd]. by run. Qed.
Lemma mirror_act_mirror_val o s t :
  run_val (mirror_act (Mirror, o)) (s, t) = (Mirror, run_val (exec mirror o) t).
Proof. unfold mirror_act. cbn [fst snd]. by run. Qed.
Lemma mirror_act_primary_state o s t :
  run_state (mirror_act (Primary, o)) (s, t) = (run_state (exec primary o) s, t).
Proof. unfold mirror_act. cbn [fst snd]. by run. Qed.
Lemma mirror_act_mirror_state o s t :
  run_state (mirror_act (Mirror, o)) (s, t) = (s, run_state (exec mirror o) t).
Proof. unfold mirror_act. cbn [fst snd]. by run. Qed.

(** The process by cases: the primary, then the mirror or nothing. *)
Ltac drive_step :=
  first
    [ match goal with |- context[drive mirror_next mirror_act ?k ?o ?ans] =>
        edestruct (drive_ret mirror_next mirror_act k o ans) as [-> ->]; [reflexivity|] end
    | match goal with |- context[drive mirror_next mirror_act (Datatypes.S ?k) ?o ?ans] =>
        first [ edestruct (drive_call mirror_next mirror_act k o ans (Primary, o)) as [-> ->];
                [reflexivity|]
              | edestruct (drive_call mirror_next mirror_act k o ans (Mirror, o)) as [-> ->];
                [reflexivity|] ];
        cbn [fst snd app] end ];
  rewrite ?mirror_act_primary_val, ?mirror_act_mirror_val, ?mirror_act_primary_state,
    ?mirror_act_mirror_state; cbn [exec]; run.

(** Alone, such a process is the operation of the mirrored store. *)
Lemma mirror_alone o st :
  run_val (drive mirror_next mirror_act 2 o []) st = Some (run_val (exec (MirroredStore primary mirror) o) st) ∧
  run_state (drive mirror_next mirror_act 2 o []) st = run_state (exec (MirroredStore primary mirror) o) st.
Proof.
  destruct st as [s t]. 
  destruct o as [c d|c|c|c|c|now c e|];
    cbn [exec Push Fetch Pin Exists Delete Resolve Healthy MirroredStore]; run; drive_step.
  - rewrite m_Push_val, m_Push_state. destruct (run_val (Push primary c d) s); [by drive_step|].
    drive_step. destruct (run_val (Push mirror c d) t); by drive_step.
  - rewrite m_Fetch_val, m_Fetch_state. destruct (run_val (Fetch primary c) s); [by drive_step|].
    drive_step. by drive_step.
  - destruct (m_Pin_run primary mirror c s t) as [-> ->]. drive_step. destruct (run_val (Pin mirror c) t); by drive_step.
  - rewrite m_Exists_val, m_Exists_state. destruct (run_val (Exists primary c) s) as [[]|]; [by drive_step|..];
    drive_step; by drive_step.
  - destruct (m_Delete_run primary mirror c s t) as [-> ->]. drive_step. destruct (run_val (Delete mirror c) t); by drive_step.
  - unfold m_Resolve. run. by drive_step.
  - destruct (m_Healthy_run primary mirror s t) as [-> ->]. 
    destruct (run_val (Healthy primary) s); [by drive_step|]. drive_step. by drive_step.
Qed.

(** Each side is asked only for the operation itself. *)
Lemma mirror_next_forwards o ans sd q : mirror_next o ans = inr (sd, q) → q = o.
Proof.
  unfold mirror_next, replay_sides. generalize (answers_of Primary ans) as l1, (answers_of Mirror ans) as l2.
  intros l1 l2. destruct o; destruct l1 as [|[[]|[]|[[]|]|[]] l1], l2 as [|[[]|[]|[[]|]|[]] l2];
    vm_compute; congruence.
Qed.

(** ** Pushes that agree *)

Section Converge.
Variables (R1 : S → content → Prop) (R2 : T → content → Prop).
Context `{!Refines primary R1} `{!Refines mirror R2}.
Variables (ops : list Op) (m : content).

(** No delete among the operations, and one body per CID. *)
Definition agreeing : Prop :=
  (∀ c, ODelete c ∉ ops) ∧
  ∀ c d c' d', OPush c d ∈ ops → OPush c' d' ∈ ops → CID_String c = CID_String c' → d = d'.

(** A side's map: the initial one with some of the pushes. *)
Definition partly_pushed (m' : content) : Prop :=
  ∀ k, m' !! k = m !! k ∨ ∃ c d, OPush c d ∈ ops ∧ CID_String c = k ∧ m' !! k = Some d.

(** How far each push has come: the primary written, then the mirror. *)
Definition progress (mp mm : content) (q : Thread Op (Side * Answer) Answer) : Prop :=
  match q with
  | Running (OPush c d) ans =>
      ans = [] ∨
      (ans = [(Primary, AErr None)] ∧ mp !! CID_String c = Some d) ∨
      (ans = [(Primary, AErr None); (Mirror, AErr None)] ∧
       mp !! CID_String c = Some d ∧ mm !! CID_String c = Some d)
  | Done (OPush c d) r =>
      r = AErr None ∧ mp !! CID_String c = Some d ∧ mm !! CID_String c = Some d
  | _ => True
  end.

Definition converging (c : (S * T) * list (Thread Op (Side * Answer) Answer)) : Prop :=
  proc_of <$> c.2 = ops ∧
  ∃ mp mm, R1 c.1.1 mp ∧ R2 c.1.2 mm ∧ partly_pushed mp ∧ partly_pushed mm ∧
    Forall (progress mp mm) c.2.

Lemma partly_pushed_insert m' c d :
  partly_pushed m' → OPush c d ∈ ops → partly_pushed (<[CID_String c := d]> m').
Proof.
  intros Hp Hin k. destruct (decide (CID_String c = k)) as [<-|Hne].
  - right. exists c, d. by rewrite lookup_insert_eq.
  - rewrite lookup_insert_ne by done. apply Hp.
Qed.

(** Writing an agreed body loses nothing. *)
Lemma progress_insert mp mm c d q :
  agreeing → OPush c d ∈ ops → proc_of q ∈ ops → progress mp mm q →
  progress (<[CID_String c := d]> mp) mm q ∧ progress mp (<[CID_String c := d]> mm) q.
Proof.
  intros [_ Hag] Hin Hq.
  assert (∀ c' d' (m' : content), OPush c' d' ∈ ops → m' !! CID_String c' = Some d' →
    <[CID_String c := d]> m' !! CID_String c' = Some d') as Hkeep.
  { intros c' d' m' Hin' Hm'. destruct (decide (CID_String c = CID_String c')) as [E|Hne].
    - rewrite E, lookup_insert_eq. f_equal. by eapply (Hag c d c' d').
    - by rewrite lookup_insert_ne. }
  destruct q as [p|p ans|p r]; [done|..]; destruct p as [c' d'| | | | | |]; try done;
    cbn [progress proc_of] in *.
  - intros [?|[[? ?]|(? & ? & ?)]]; split; auto 6.
  - intros (? & ? & ?). split; auto.
Qed.

(** Everything but a push or a delete leaves the map alone. *)
Lemma exec_keeps {X} (B : BackendProvider X) R `{!Refines B R} o x m' :
  (∀ c d, o ≠ OPush c d) → (∀ c, o ≠ ODelete c) → R x m' → R (run_state (exec B o) x) m'.
Proof.
  intros Hp Hd HR. destruct o; cbn [exec]; run;
    [by destruct (Hp c d)|apply (ref_fetch c x m' HR)|apply (ref_pin c x m' HR)
    |apply (ref_exists c x m' HR)|by destruct (Hd c)|by apply ref_resolve|apply (ref_healthy x m' HR)].
Qed.

(** The pool after one of its processes has moved. *)
Lemma converging_update s' t' ps i q q' mp mm mp' mm' :
  proc_of <$> ps = ops → ps !! i = Some q → proc_of q' = proc_of q →
  Forall (progress mp mm) ps → R1 s' mp' → R2 t' mm' → partly_pushed mp' → partly_pushed mm' →
  (∀ q0, proc_of q0 ∈ ops → progress mp mm q0 → progress mp' mm' q0) → progress mp' mm' q' →
  converging ((s', t'), <[i := q']> ps).
Proof.
  intros Hps Hi Hpq Hf HR1 HR2 Hp1 Hp2 Hmono Hq'. split; cbn [fst snd].
  - rewrite list_fmap_insert, Hpq, <- Hps. apply list_insert_id. by rewrite list_lookup_fmap, Hi.
  - exists mp', mm'. split_and!; [done..|]. apply Forall_insert; [|done].
    rewrite Forall_forall in Hf |- *. intros q0 Hq0. apply Hmono; [|by apply Hf].
    rewrite <- Hps. by apply list_elem_of_fmap_2.
Qed.

Lemma decide_push o : (∃ c d, o = OPush c d) ∨ (∀ c d, o ≠ OPush c d).
Proof. destruct o; [left; eauto|right; done..]. Qed.

Lemma converging_push s t ps i c d ans sd :
  agreeing → converging ((s, t), ps) → ps !! i = Some (Running (OPush c d) ans) →
  mirror_next (OPush c d) ans = inr (sd, OPush c d) →
  converging (run_state (mirror_act (sd, OPush c d)) (s, t),
    <[i := Running (OPush c d) (ans ++ [run_val (mirror_act (sd, OPush c d)) (s, t)])]> ps).
Proof.
  intros Hag (Hps & mp & mm & HR1 & HR2 & Hp1 & Hp2 & Hf) Hi Ho. cbn [fst snd] in *.
  assert (OPush c d ∈ ops) as Hin.
  { rewrite <- Hps. by apply (list_elem_of_fmap_2 proc_of ps _ (list_elem_of_lookup_2 _ _ _ Hi)). }
  destruct (Forall_lookup_1 _ _ _ _ Hf Hi) as [->|[[-> Hmp]|[-> _]]]; vm_compute in Ho; [..|done];
    injection Ho as <-.
  - destruct (ref_push c d s mp HR1) as [Hv HR']. rewrite mirror_act_primary_val, mirror_act_primary_state.
    cbn [exec]. run. rewrite Hv.
    eapply converging_update; eauto using partly_pushed_insert.
    + intros q0 Hq0 Hq. by apply progress_insert.
    + right; left. by rewrite lookup_insert_eq.
  - destruct (ref_push c d t mm HR2) as [Hv HR']. rewrite mirror_act_mirror_val, mirror_act_mirror_state.
    cbn [exec]. run. rewrite Hv.
    eapply converging_update; eauto using partly_pushed_insert.
    + intros q0 Hq0 Hq. by apply progress_insert.
    + right; right. by rewrite lookup_insert_eq.
Qed.

Lemma converging_step c c' : agreeing → converging c → mirror_step c c' → converging c'.
Proof.
  intros Hag Hcv Hs. pose proof Hcv as (Hps & mp & mm & HR1 & HR2 & Hp1 & Hp2 & Hf).
  destruct Hs as [[s t] ps i o Hi|[s t] ps i o ans [sd q] Hi Ho|[s t] ps i o ans r l Hi Ho];
    cbn [fst snd] in *; pose proof (Forall_lookup_1 _ _ _ _ Hf Hi) as Hpr.
  - eapply converging_update; eauto. destruct o; by auto || by left.
  - pose proof (mirror_next_forwards _ _ _ _ Ho) as ->.
    destruct (decide_push o) as [(c & d & ->)|Hnp]; [by apply converging_push|].
    assert (∀ c, o ≠ ODelete c) as Hnd.
    { intros c ->. apply (proj1 Hag c). rewrite <- Hps.
      by apply (list_elem_of_fmap_2 proc_of ps _ (list_elem_of_lookup_2 _ _ _ Hi)). }
    assert (∀ ans', progress mp mm (Running o ans')) as Hpr'
      by (intros; destruct o as [c d| | | | | |]; [by destruct (Hnp c d)|done..]).
    destruct sd; [rewrite mirror_act_primary_state|rewrite mirror_act_mirror_state];
      eapply (converging_update _ _ _ _ _ _ mp mm mp mm Hps Hi); auto; by apply exec_keeps.
  - eapply converging_update; eauto. destruct o; [|done..]. cbn [progress] in *.
    destruct Hpr as [->|[[-> Hmp]|[-> [? ?]]]]; vm_compute in Ho; try done. by injection Ho as <- <-.
Qed.
End Converge.
End MirrorOps.

(** ** One interleaving, step by step *)

Section Schedule.
Context `{SDK} {S T : Type} (primary : BackendProvider S) (mirror : BackendProvider T).
Context (R1 : S → content → Prop) (R2 : T → content → Prop)
  `{!Refines primary R1} `{!Refines mirror R2}.

(** Pushes succeed; deletes of a stored object do. *)
Lemma exec_push {X} (B : BackendProvider X) R `{!Refines B R} x m c d :
  R x m → run_val (exec B (OPush c d)) x = AErr None ∧
    R (run_state (exec B (OPush c d)) x) (<[CID_String c := d]> m).
Proof. intros HR. cbn [exec]. run. destruct (ref_push c d x m HR) as [-> ?]. done. Qed.

Lemma exec_delete {X} (B : BackendProvider X) R `{!Refines B R} x m c :
  R x m → is_Some (m !! CID_String c) → run_val (exec B (ODelete c)) x = AErr None ∧
    R (run_state (exec B (ODelete c)) x) (delete (CID_String c) m).
Proof.
  intros HR [d Hd]. cbn [exec]. run. destruct (ref_delete c x m HR) as [Hv ?]. split; [|done].
  destruct (run_val (Delete B c) x); [|done]. destruct Hv as [Hn _]. congruence.
Qed.
(** A push and a delete of [c] in progress, with the answers they have. *)
Variables (c : CID) (d : list Byte.byte).
Definition two (p q : list (Side * Answer)) : list (Thread Op (Side * Answer) Answer) :=
  [Running (OPush c d) p; Running (ODelete c) q].
Definition on_primary : list (Side * Answer) := [(Primary, AErr None)].
Definition on_both : list (Side * Answer) := [(Primary, AErr None); (Mirror, AErr None)].

(** One call by one of the two that succeeds on one side. *)
Lemma two_primary s t ps i o m m' :
  ps !! i = Some (Running o []) → mirror_next o [] = inr (Primary, o) → R1 s m →
  run_val (exec primary o) s = AErr None ∧ R1 (run_state (exec primary o) s) m' →
  ∃ s', R1 s' m' ∧ mirror_step primary mirror ((s, t), ps) ((s', t), <[i := Running o on_primary]> ps).
Proof.
  intros Hi Hn HR [Hv HR']. eexists. split; [exact HR'|]. unfold on_primary. rewrite <- Hv.
  rewrite <- (mirror_act_primary_val primary mirror o s t).
  rewrite <- (mirror_act_primary_state primary mirror o s t). by apply (step_act _ _ _ _ _ _ []).
Qed.

Lemma two_mirror s t ps i o m m' :
  ps !! i = Some (Running o on_primary) → mirror_next o on_primary = inr (Mirror, o) → R2 t m →
  run_val (exec mirror o) t = AErr None ∧ R2 (run_state (exec mirror o) t) m' →
  ∃ t', R2 t' m' ∧ mirror_step primary mirror ((s, t), ps) ((s, t'), <[i := Running o on_both]> ps).
Proof.
  intros Hi Hn HR [Hv HR']. eexists. split; [exact HR'|].
  change on_both with (on_primary ++ [(Mirror, AErr None)]). rewrite <- Hv.
  rewrite <- (mirror_act_mirror_val primary mirror o s t).
  rewrite <- (mirror_act_mirror_state primary mirror o s t). by apply step_act.
Qed.

Lemma push_primary s t q m : R1 s m → ∃ s', R1 s' (<[CID_String c := d]> m) ∧
  mirror_step primary mirror ((s, t), two [] q) ((s', t), two on_primary q).
Proof.
  intros HR. apply (two_primary s t (two [] q) 0 (OPush c d) m); [done..|by apply exec_push].
Qed.

Lemma delete_primary s t p m : R1 s m → is_Some (m !! CID_String c) →
  ∃ s', R1 s' (delete (CID_String c) m) ∧
    mirror_step primary mirror ((s, t), two p []) ((s', t), two p on_primary).
Proof.
  intros HR Hin. apply (two_primary s t (two p []) 1 (ODelete c) m); [done..|by apply exec_delete].
Qed.

Lemma push_mirror s t q m : R2 t m → ∃ t', R2 t' (<[CID_String c := d]> m) ∧
  mirror_step primary mirror ((s, t), two on_primary q) ((s, t'), two on_both q).
Proof.
  intros HR. apply (two_mirror s t (two on_primary q) 0 (OPush c d) m); [done..|by apply exec_push].
Qed.

Lemma delete_mirror s t p m : R2 t m → is_Some (m !! CID_String c) →
  ∃ t', R2 t' (delete (CID_String c) m) ∧
    mirror_step primary mirror ((s, t), two p on_primary) ((s, t'), two p on_both).
Proof.
  intros HR Hin. apply (two_mirror s t (two p on_primary) 1 (ODelete c) m); [done..|by apply exec_delete].
Qed.

(** Both start before the first call, and both are answered after the last. *)
Lemma two_run s t s' t' :
  rtc (mirror_step primary mirror) ((s, t), two [] []) ((s', t'), two on_both on_both) →
  rtc (mirror_step primary mirror) ((s, t), arrived [OPush c d; ODelete c])
    ((s', t'), answered [OPush c d; ODelete c] [AErr None; AErr None]).
Proof.
  intros Hs.
  eapply rtc_l; [by apply (step_start _ _ _ _ 0)|]. eapply rtc_l; [by apply (step_start _ _ _ _ 1)|].
  etransitivity; [exact Hs|].
  eapply rtc_l; [by eapply (step_finish _ _ _ _ 0)|]. eapply rtc_l; [by eapply (step_finish _ _ _ _ 1)|].
  apply rtc_refl.
Qed.
End Schedule.

(** ** Theorems: concurrent mirrored operations *)

(** C20. Concurrent double writes converge: when the operations in progress on a
    mirrored store hold no delete and push one body per CID, then however their
    calls on the two sides interleave, once all are answered every push has
    succeeded and both sides hold the same map: the initial one with every
    pushed body. *)
Theorem mirror_pushes_converge `{SDK} {S T} (primary : BackendProvider S) (mirror : BackendProvider T)
    R1 R2 `{!Refines primary R1} `{!Refines mirror R2} s t m ops rs s' t' :
  R1 s m → R2 t m → agreeing ops → length rs = length ops →
  rtc (mirror_step primary mirror) ((s, t), arrived ops) ((s', t'), answered ops rs) →
  ∃ m', R1 s' m' ∧ R2 t' m' ∧
    (∀ i c d, ops !! i = Some (OPush c d) → rs !! i = Some (AErr None) ∧ m' !! CID_String c = Some d) ∧
    (∀ k, (∀ c d, OPush c d ∈ ops → CID_String c ≠ k) → m' !! k = m !! k).
Proof.
  intros HR1 HR2 Hag Hlen Hs.
  assert (converging R1 R2 ops m ((s', t'), answered ops rs)) as (_ & mp & mm & H1 & H2 & Hp1 & Hp2 & Hf).
  { eapply psteps_invariant; [intros c1 c2; by apply (converging_step primary mirror R1 R2)|exact Hs|].
    split; [apply arrived_procs|]. exists m, m. split_and!; [done..|by left|by left|].
    apply Forall_fmap, Forall_true. done. }
  assert (∀ i c d, ops !! i = Some (OPush c d) →
    rs !! i = Some (AErr None) ∧ mp !! CID_String c = Some d ∧ mm !! CID_String c = Some d) as Hdone.
  { intros i c d Hi. destruct (lookup_lt_is_Some_2 rs i) as [r Hr].
    { rewrite Hlen. by eapply lookup_lt_Some. }
    assert (answered (A:=Side * Answer) ops rs !! i = Some (Done (OPush c d) r)) as Hd
      by (unfold answered; by rewrite lookup_zip_with, Hi, Hr).
    destruct (Forall_lookup_1 _ _ _ _ Hf Hd) as (-> & ? & ?). done. }
  assert (mp = mm) as <-.
  { apply map_eq. intros k.
    assert (∀ c d, OPush c d ∈ ops → CID_String c = k → mp !! k = mm !! k) as Heq.
    { intros c d [i Hi]%list_elem_of_lookup_1 <-. destruct (Hdone i c d Hi) as (_ & -> & ->). done. }
    destruct (Hp1 k) as [E1|(c & d & Hin & Hk & _)]; [|by eapply Heq].
    destruct (Hp2 k) as [E2|(c & d & Hin & Hk & _)]; [congruence|by eapply Heq]. }
  exists mp. split_and!; [done|done| |].
  - intros i c d Hi. by destruct (Hdone i c d Hi) as (? & ? & _).
  - intros k Hk. destruct (Hp1 k) as [E|(c & d & Hin & E & _)]; [done|]. by destruct (Hk c d Hin).
Qed.

(** Operations one after the other. *)
Definition in_sequence `{SDK} {S T} (primary : BackendProvider S) (mirror : BackendProvider T)
    (ops : list Op) (st : S * T) : S * T :=
  foldl (λ st o, run_state (exec (MirroredStore primary mirror) o) st) st ops.

(** They keep the two sides equal, pushes and deletes among them. *)
Lemma in_sequence_agrees `{SDK} {S T} (primary : BackendProvider S) (mirror : BackendProvider T)
    R1 R2 `{!Refines primary R1} `{!Refines mirror R2} ops st :
  (∃ m, R1 st.1 m ∧ R2 st.2 m) →
  (∀ o, o ∈ ops → (∃ c d, o = OPush c d) ∨ (∃ c, o = ODelete c)) →
  ∃ m', R1 (in_sequence primary mirror ops st).1 m' ∧ R2 (in_sequence primary mirror ops st).2 m'.
Proof.
  revert st. induction ops as [|o ops IH]; intros [s t] [m [H1 H2]] Ho; [by exists m|].
  cbn [in_sequence foldl]. apply IH; [|intros; apply Ho; by right].
  pose proof (MirroredStore_refines primary mirror R1 R2) as HM.
  destruct (Ho o (list_elem_of_here _ _)) as [(c & d & ->)|[c ->]]; cbn [exec]; run.
  - destruct (ref_push (B := MirroredStore primary mirror) c d (s, t) m (conj H1 H2)) as [_ HR].
    eexists. by destruct (run_state _ _).
  - destruct (ref_delete (B := MirroredStore primary mirror) c (s, t) m (conj H1 H2)) as [_ HR].
    eexists. by destruct (run_state _ _).
Qed.

(** C21. A race the store does not exclude: a push and a delete of one stored CID, both
    answered with success, can leave the bytes on the mirror only, or on the
    primary only; one after the other, in either order, they leave the two
    sides equal. *)
Theorem mirror_race `{SDK} {S T} (primary : BackendProvider S) (mirror : BackendProvider T)
    R1 R2 `{!Refines primary R1} `{!Refines mirror R2} s t m c d :
  R1 s m → R2 t m → is_Some (m !! CID_String c) →
  let ops := [OPush c d; ODelete c] in
  let ends s' t' := rtc (mirror_step primary mirror) ((s, t), arrived ops)
        ((s', t'), answered ops [AErr None; AErr None]) in
  (∃ s' t', ends s' t' ∧ R1 s' (delete (CID_String c) m) ∧ R2 t' (<[CID_String c := d]> m)) ∧
  (∃ s' t', ends s' t' ∧ R1 s' (<[CID_String c := d]> m) ∧ R2 t' (delete (CID_String c) m)) ∧
  (∀ ops', ops' ≡ₚ ops → let st' := in_sequence primary mirror ops' (s, t) in
     ∃ m', R1 st'.1 m' ∧ R2 st'.2 m').
Proof.
  intros HR1 HR2 Hin ops ends.
  assert (is_Some (<[CID_String c := d]> m !! CID_String c)) as Hin'
    by (rewrite lookup_insert_eq; by eexists).
  split; [|split].
  - destruct (push_primary primary mirror R1 c d s t [] m HR1) as (s1 & Hs1 & St1).
    destruct (delete_primary primary mirror R1 c d s1 t on_primary _ Hs1 Hin') as (s2 & Hs2 & St2).
    destruct (delete_mirror primary mirror R2 c d s2 t on_primary m HR2 Hin) as (t1 & Ht1 & St3).
    destruct (push_mirror primary mirror R2 c d s2 t1 on_both _ Ht1) as (t2 & Ht2 & St4).
    exists s2, t2. rewrite delete_insert_eq in Hs2. rewrite insert_delete_eq in Ht2.
    split; [|done]. apply two_run. eauto using rtc_l, rtc_refl.
  - destruct (delete_primary primary mirror R1 c d s t [] m HR1 Hin) as (s1 & Hs1 & St1).
    destruct (push_primary primary mirror R1 c d s1 t on_primary _ Hs1) as (s2 & Hs2 & St2).
    destruct (push_mirror primary mirror R2 c d s2 t on_primary m HR2) as (t1 & Ht1 & St3).
    destruct (delete_mirror primary mirror R2 c d s2 t1 on_both _ Ht1 Hin') as (t2 & Ht2 & St4).
    exists s2, t2. rewrite insert_delete_eq in Hs2. rewrite delete_insert_eq in Ht2.
    split; [|done]. apply two_run. eauto using rtc_l, rtc_refl.
  - intros ops' Hp. apply (in_sequence_agrees primary mirror R1 R2); [by exists m|].
    intros o. rewrite Hp. unfold ops. set_solver.
Qed.

(** ** Witnesses: two in-memory stores *)

Definition ex_mem : BackendProvider content := InMemoryBackend.
#[local] Instance mem_refines : Refines ex_mem ex_R := InMemoryBackend_refines.

Definition ex_ops : list Op := [OPush hello_cid hello; OPush hello_cid hello; OFetch hello_cid].
Definition ex_results : list Answer := [AErr None; AErr None; ABytes (Ok hello)].
Definition ex_pushed : (content * content) * list (Thread Op (Side * Answer) Answer) :=
  schedule mirror_next (mirror_act ex_mem ex_mem) ((ex_empty, ex_empty), arrived ex_ops)
    [0; 1; 2; 0; 1; 1; 2; 0; 0; 1; 2; 2]%nat.

Lemma ex_pushes : rtc (mirror_step ex_mem ex_mem) ((ex_empty, ex_empty), arrived ex_ops)
  ((ex_pushed.1.1, ex_pushed.1.2), answered ex_ops ex_results).
Proof.
  rewrite <- (surjective_pairing ex_pushed.1). unfold ex_pushed. apply schedule_steps.
  vm_compute. reflexivity.
Qed.

Lemma mirror_pushes_converge_witness :
  ∃ m', ex_R ex_pushed.1.1 m' ∧ ex_R ex_pushed.1.2 m' ∧
    (∀ i c d, ex_ops !! i = Some (OPush c d) →
       ex_results !! i = Some (AErr None) ∧ m' !! CID_String c = Some d) ∧
    (∀ k, (∀ c d, OPush c d ∈ ex_ops → CID_String c ≠ k) → m' !! k = ex_empty !! k).
Proof.
  apply (mirror_pushes_converge ex_mem ex_mem ex_R ex_R ex_empty ex_empty ex_empty
    ex_ops ex_results).
  - reflexivity.
  - reflexivity.
  - split.
    + intros c. unfold ex_ops. rewrite !elem_of_cons, elem_of_nil. by intros [[=]|[[=]|[[=]|[]]]].
    + intros c d c' d'. unfold ex_ops. rewrite !elem_of_cons, !elem_of_nil.
      intros [[= -> ->]|[[= -> ->]|[[=]|[]]]] [[= -> ->]|[[= -> ->]|[[=]|[]]]] _; reflexivity.
  - reflexivity.
  - exact ex_pushes.
Defined.

Definition ex_holds : content := <[CID_String hello_cid := hello]> ∅.

Lemma mirror_race_witness :
  let ops := [OPush hello_cid hello; ODelete hello_cid] in
  let ends s' t' := rtc (mirror_step ex_mem ex_mem) ((ex_holds, ex_holds), arrived ops)
        ((s', t'), answered ops [AErr None; AErr None]) in
  (∃ s' t', ends s' t' ∧ ex_R s' (delete (CID_String hello_cid) ex_holds) ∧
     ex_R t' (<[CID_String hello_cid := hello]> ex_holds)) ∧
  (∃ s' t', ends s' t' ∧ ex_R s' (<[CID_String hello_cid := hello]> ex_holds) ∧
     ex_R t' (delete (CID_String hello_cid) ex_holds)) ∧
  (∀ ops', ops' ≡ₚ ops → let st' := in_sequence ex_mem ex_mem ops' (ex_holds, ex_holds) in
     ∃ m', ex_R st'.1 m' ∧ ex_R st'.2 m').
Proof.
  apply (mirror_race ex_mem ex_mem ex_R ex_R ex_holds ex_holds ex_holds hello_cid hello).
  - reflexivity.
  - reflexivity.
  - exists hello. unfold ex_holds. apply lookup_insert_eq.
Defined.
