(* ===== verification/MirroredRequests.v ===== *)
(** * Requests over a mirrored store

    The service as it is deployed with a mirror: a request is a process that
    calls the primary and the mirror one after the other, and other requests
    run between the two calls of one operation.  The process is read off
    [NewMux] over [MirroredStore] itself, with the two sides scripted. *)

From stdpp Require Import relations.
From S2P Require Import Prelude GoStrings Json Storage Http Backends Reference Token Time Api Server System Witnesses Concurrent ConcurrentMirror.

Open Scope Z_scope.

Section Mirrored.
Context `{SDK} {S T X : Type}.
Variables (primary : BackendProvider S) (mirror : BackendProvider T) (cfg : ServerConfig X).

(** The server over the mirrored store, and over a mirror of scripts. *)
Definition mirrored_cfg : ServerConfig (S * T) := with_backend (MirroredStore primary mirror) cfg.
Definition scripted_mirror : ServerConfig (Script * Script) :=
  with_backend (MirroredStore Scripted Scripted) cfg.

Definition mirrored_next (p : Z * Request) : list (Side * Answer) → (Outcome * list LogRecord) + (Side * Op) :=
  replay_sides (NewMux scripted_mirror p.1 p.2).

Definition mirrored_step := pstep mirrored_next (mirror_act primary mirror).

Lemma scripted_same : scripted_cfg scripted_mirror = scripted_cfg cfg.
Proof. reflexivity. Qed.

(** ** The request's process and the operation's *)

(** A request that makes one call does what that mirrored operation does, and
    then answers as the handler does on its result. *)
Lemma mirrored_one_call now r o :
  request_next cfg (now, r) [] = inr o → (∀ cid, routed r ≠ Some (RResolve, cid)) →
  ∀ ans, mirrored_next (now, r) ans =
    match mirror_next o ans with
    | inr q => inr q
    | inl (a, l) => match request_next cfg (now, r) [a] with
                    | inl (out, l') => inl (out, l ++ l')
                    | inr q => inr (Primary, q)
                    end
    end.
Proof.
  intros Ho Hr ans. unfold mirrored_next, mirror_next, replay_sides. cbn [fst snd].
  set (st := (MkScript (answers_of Primary ans) None, MkScript (answers_of Mirror ans) None)).
  pose proof (request_shape scripted_mirror now r) as Hsh. rewrite scripted_same in Hsh.
  destruct Hsh as [[out l Hn _|o' Hn _ Hs]|(cid & c & E & _)];
    [|..|by destruct (Hr cid)].
  { unfold request_next in Ho. cbn [fst snd] in Ho. by rewrite Hn in Ho. }
  assert (o' = o) as ->.
  { unfold request_next in Ho. cbn [fst snd] in Ho. rewrite Hn in Ho. by injection Ho. }
  destruct (Hs st) as (out & l & Ha & Hm). rewrite Hm.
  cbn [Backend scripted_mirror with_backend] in *. rewrite (run_eta (exec _ o)).
  destruct (run_state (exec (MirroredStore Scripted Scripted) o) st) as [p m].
  destruct (asked p); [done|]. destruct (asked m); [done|].
  unfold request_next. cbn [fst snd].
  by rewrite Ha.
Qed.

(** A request without calls answers at once. *)
Lemma mirrored_no_call now r out l :
  request_next cfg (now, r) [] = inl (out, l) → ∀ ans, mirrored_next (now, r) ans = inl (out, l).
Proof.
  intros Ho ans. unfold mirrored_next, replay_sides. cbn [fst snd].
  pose proof (request_shape scripted_mirror now r) as Hsh. rewrite scripted_same in Hsh.
  destruct Hsh as [[out' l' Hn Hs|o' Hn _ _]|(cid & c & _ & _ & Hk)].
  - unfold request_next in Ho. cbn [fst snd] in Ho. rewrite Hn in Ho. injection Ho as <- <-. by rewrite Hs.
  - unfold request_next in Ho. cbn [fst snd] in Ho. by rewrite Hn in Ho.
  - unfold request_next in Ho. cbn [fst snd] in Ho. by rewrite (calls_exists _ _ _ _ _ Hk) in Ho.
Qed.

(** ** Resolve: two operations, three calls *)

Lemma replay_sides_map {A A'} (m : M (Script * Script) A) (f : A → A') ans :
  replay_sides (x ← m; mret (f x)) ans =
    match replay_sides m ans with inl (a, l) => inl (f a, l) | inr q => inr q end.
Proof.
  unfold replay_sides. rewrite M_bind_eq. destruct (m _) as [[a [p q]] l]. unfold mret, M_ret.
  rewrite app_nil_r. by destruct (asked p), (asked q).
Qed.

Section Resolve.
Variables (now : Z) (r : Request) (cid : string) (c : CID).
Hypotheses (Hroute : routed r = Some (RResolve, cid)) (Hcid : parseCIDFromPath (with_cid r cid) = Ok c).
Let e := resolve_expiry (DefaultExpiry cfg) (with_cid r cid).

Lemma mirrored_resolve_eq ans :
  mirrored_next (now, r) ans =
    match replay_sides (dispatch scripted_mirror RResolve now (with_cid r cid)) ans with
    | inl (resp, l) => inl (Respond (default implicit_ok resp), l)
    | inr q => inr q
    end.
Proof.
  unfold mirrored_next. cbn [fst snd]. rewrite (NewMux_routed_eq _ _ _ _ _ Hroute).
  apply replay_sides_map.
Qed.

(** The process by the answers it has. *)
Ltac resolve_table :=
  rewrite mirrored_resolve_eq; cbn [dispatch]; unfold resolve_ServeHTTP; rewrite Hcid; reflexivity.

Lemma mirrored_resolve_first : mirrored_next (now, r) [] = inr (Primary, OExists c).
Proof. resolve_table. Qed.
Lemma mirrored_resolve_hit : mirrored_next (now, r) [(Primary, AFound (Ok true))] = inr (Primary, OResolve now c e).
Proof. resolve_table. Qed.
Lemma mirrored_resolve_done a :
  mirrored_next (now, r) [(Primary, AFound (Ok true)); (Primary, a)] = inl (Respond (resolve_answer a), []).
Proof. resolve_table. Qed.
Lemma mirrored_resolve_second x : x ≠ Ok true →
  mirrored_next (now, r) [(Primary, AFound x)] = inr (Mirror, OExists c).
Proof. intros Hx. destruct x as [[]|]; [done|resolve_table..]. Qed.
Lemma mirrored_resolve_failed x err : x ≠ Ok true →
  mirrored_next (now, r) [(Primary, AFound x); (Mirror, AFound (Err err))]
    = inl (Respond (writeError StatusInternalServerError (Error err)), []).
Proof. intros Hx. destruct x as [[]|]; [done|resolve_table..]. Qed.
Lemma mirrored_resolve_miss x : x ≠ Ok true →
  mirrored_next (now, r) [(Primary, AFound x); (Mirror, AFound (Ok false))]
    = inl (Respond (writeError StatusNotFound "not found"), []).
Proof. intros Hx. destruct x as [[]|]; [done|resolve_table..]. Qed.
Lemma mirrored_resolve_hit2 x : x ≠ Ok true →
  mirrored_next (now, r) [(Primary, AFound x); (Mirror, AFound (Ok true))] = inr (Primary, OResolve now c e).
Proof. intros Hx. destruct x as [[]|]; [done|resolve_table..]. Qed.
Lemma mirrored_resolve_done2 x a : x ≠ Ok true →
  mirrored_next (now, r) [(Primary, AFound x); (Mirror, AFound (Ok true)); (Primary, a)]
    = inl (Respond (resolve_answer a), []).
Proof. intros Hx. destruct x as [[]|]; [done|resolve_table..]. Qed.

(** Whatever the answers, it asks for nothing but the two operations. *)
Lemma mirrored_resolve_asks ans sd q :
  mirrored_next (now, r) ans = inr (sd, q) → q = OExists c ∨ q = OResolve now c e.
Proof.
  rewrite mirrored_resolve_eq. cbn [dispatch]. unfold resolve_ServeHTTP. rewrite Hcid.
  unfold replay_sides. generalize (answers_of Primary ans) as l1, (answers_of Mirror ans) as l2.
  intros l1 l2. change (DefaultExpiry scripted_mirror) with (DefaultExpiry cfg). fold e.
  destruct l1 as [|[?|?|[[]|?]|?] [|a l1]], l2 as [|[?|?|[[]|?]|?] l2]; cbn;
    (discriminate || (intros E; injection E; intros; subst; auto)).
Qed.
End Resolve.

(** ** Alone, the process is the handler over the mirrored store *)

(** A process that does what another does and then post-processes its result. *)
Lemma drive_then {P1 P2 A Q R1 R2 St} (next1 : P1 → list A → (R1 * list LogRecord) + Q)
    (next2 : P2 → list A → (R2 * list LogRecord) + Q) (act : Q → M St A) (f : R2 → R1) p1 p2 :
  (∀ ans, match next2 p2 ans with
          | inr q => next1 p1 ans = inr q
          | inl (a, _) => ∃ l, next1 p1 ans = inl (f a, l)
          end) →
  ∀ n ans st, run_val (drive next1 act n p1 ans) st = f <$> run_val (drive next2 act n p2 ans) st ∧
    run_state (drive next1 act n p1 ans) st = run_state (drive next2 act n p2 ans) st.
Proof.
  intros Hn n. induction n as [|n IH]; intros ans st; specialize (Hn ans);
    destruct (next2 p2 ans) as [[a l]|q] eqn:E2.
  1, 3: destruct Hn as [l' Hn]; by (edestruct (drive_ret next1 act) as [-> ->]; [exact Hn|]);
        (edestruct (drive_ret next2 act) as [-> ->]; [exact E2|]).
  - unfold run_val, run_state. cbn [drive]. by rewrite Hn, E2.
  - destruct (drive_call next1 act n p1 ans q st Hn) as [-> ->],
      (drive_call next2 act n p2 ans q st E2) as [-> ->]. cbn [fst snd]. apply IH.
Qed.

Ltac resolve_call E :=
  edestruct (drive_call mirrored_next (mirror_act primary mirror)) as [-> ->]; [exact E|];
  cbn [fst snd app];
  rewrite ?mirror_act_primary_val, ?mirror_act_mirror_val, ?mirror_act_primary_state,
    ?mirror_act_mirror_state; cbn [exec]; run.
Ltac resolve_ret E := edestruct (drive_ret mirrored_next (mirror_act primary mirror)) as [-> ->]; [apply E|].

Lemma mirrored_resolve_alone now r cid c st :
  routed r = Some (RResolve, cid) → parseCIDFromPath (with_cid r cid) = Ok c →
  run_val (drive mirrored_next (mirror_act primary mirror) 3 (now, r) []) st
    = Some (run_val (NewMux mirrored_cfg now r) st) ∧
  run_state (drive mirrored_next (mirror_act primary mirror) 3 (now, r) []) st
    = run_state (NewMux mirrored_cfg now r) st.
Proof.
  intros Hr Hc. destruct st as [s t].
  rewrite (NewMux_routed_eq mirrored_cfg _ _ _ _ Hr). cbn [dispatch]. unfold resolve_ServeHTTP.
  rewrite Hc. cbn [Backend mirrored_cfg with_backend MirroredStore Exists Resolve DefaultExpiry]. run.
  rewrite m_Exists_val, m_Exists_state. unfold m_Resolve. resolve_call (mirrored_resolve_first now r cid c Hr Hc).
  destruct (decide (run_val (Exists primary c) s = Ok true)) as [E|E].
  - rewrite E. resolve_call (mirrored_resolve_hit now r cid c Hr Hc).
    resolve_ret (mirrored_resolve_done now r cid c Hr Hc). by run.
  - resolve_call (mirrored_resolve_second now r cid c Hr Hc _ E).
    assert (∀ {A} (x y : A), match run_val (Exists primary c) s with Ok true => x | _ => y end = y) as Hm
      by (intros; by destruct (run_val (Exists primary c) s) as [[]|]).
    rewrite !Hm. destruct (run_val (Exists mirror c) t) as [[]|err].
    + resolve_call (mirrored_resolve_hit2 now r cid c Hr Hc _ E).
      resolve_ret (λ a, mirrored_resolve_done2 now r cid c Hr Hc _ a E). by run.
    + resolve_ret (mirrored_resolve_miss now r cid c Hr Hc _ E). by run.
    + resolve_ret (mirrored_resolve_failed now r cid c Hr Hc _ err E). by run.
Qed.

(** Three calls are always enough. *)
Lemma mirrored_alone now r st :
  run_val (drive mirrored_next (mirror_act primary mirror) 3 (now, r) []) st
    = Some (run_val (NewMux mirrored_cfg now r) st) ∧
  run_state (drive mirrored_next (mirror_act primary mirror) 3 (now, r) []) st
    = run_state (NewMux mirrored_cfg now r) st.
Proof.
  pose proof (request_shape mirrored_cfg now r) as Hsh.
  change (scripted_cfg mirrored_cfg) with (scripted_cfg cfg) in Hsh.
  destruct Hsh as [[out l Hn Hs|o Hn He Hs]|(cid & c & Hr & Hc & _)];
    [..|by apply (mirrored_resolve_alone now r cid c)].
  - edestruct (drive_ret mirrored_next (mirror_act primary mirror)) as [-> ->];
      [apply mirrored_no_call, Hn|]. unfold run_val, run_state. by rewrite Hs.
  - set (f := λ a, match request_next cfg (now, r) [a] with inl (out, _) => out | inr _ => Redirect "" end).
    assert (∀ cid, routed r ≠ Some (RResolve, cid)) as Hnr.
    { intros cid Hr. destruct (parseCIDFromPath (with_cid r cid)) as [c|e] eqn:Hc.
      - destruct (dispatch_resolve_calls cfg now (with_cid r cid) c Hc) as [H1 _ _ H4 _ _].
        destruct (He (AFound (Ok true)) []) as [x Hx].
        rewrite (NewMux_routed_eq _ _ _ _ _ Hr), replay_map, H4 in Hx. done.
      - rewrite (NewMux_routed_eq _ _ _ _ _ Hr), replay_map in Hn. cbn [dispatch] in Hn.
        unfold resolve_ServeHTTP in Hn. by rewrite Hc in Hn. }
    destruct (drive_then mirrored_next mirror_next (mirror_act primary mirror) f (now, r) o) with (n := 3%nat)
      (ans := @nil (Side * Answer)) (st := st) as [-> ->].
    { intros ans. rewrite (mirrored_one_call now r o Hn Hnr).
      destruct (mirror_next o ans) as [[a l]|q]; [|done]. subst f. cbn beta. unfold request_next.
      cbn [fst snd]. destruct (He a []) as [[out l'] ->]. by eexists. }
    destruct (mirror_alone primary mirror o st) as [Hv Hst].
    destruct (drive_more mirror_next (mirror_act primary mirror) 2 o [] st _ Hv) as [-> ->].
    rewrite Hst. destruct (Hs st) as (out & l & Ha & Hm). unfold run_val at 2, run_state at 2.
    rewrite Hm. cbn [fmap option_fmap option_map fst snd Backend mirrored_cfg with_backend] in *.
    subst f. cbn beta. unfold request_next. cbn [fst snd]. by rewrite Ha.
Qed.
End Mirrored.

(** ** Integrity across the two sides *)

Section Integrity.
Context `{SDKLaws} {S T X : Type}.
Variables (primary : BackendProvider S) (mirror : BackendProvider T) (cfg : ServerConfig X).
Context `{!Sound primary} `{!Sound mirror}.
Hypothesis verify_on : VerifyOnPush cfg = true.

Lemma resolve_routed r :
  (∃ cid, routed r = Some (RResolve, cid)) ∨ (∀ cid, routed r ≠ Some (RResolve, cid)).
Proof. destruct (routed r) as [[[] cid]|]; eauto. Qed.

(** What the request asks of either side is what the handler asks of a backend. *)
Lemma mirrored_asks p ans sd q :
  mirrored_next cfg p ans = inr (sd, q) →
  (∃ ans', request_next cfg p ans' = inr q) ∨ (∀ c d, q ≠ OPush c d).
Proof.
  destruct p as [now r]. intros Hq. destruct (request_next cfg (now, r) []) as [[out l]|o] eqn:Ho.
  { by rewrite (mirrored_no_call cfg now r out l Ho) in Hq. }
  destruct (resolve_routed r) as [[cid Hr]|Hr].
  - right. intros c d ->. destruct (parseCIDFromPath (with_cid r cid)) as [c'|e] eqn:Hc.
    + by destruct (mirrored_resolve_asks cfg now r cid c' Hr Hc ans sd _ Hq).
    + unfold request_next in Ho. cbn [fst snd] in Ho. rewrite (NewMux_routed_eq _ _ _ _ _ Hr), replay_map in Ho.
      cbn [dispatch] in Ho. unfold resolve_ServeHTTP in Ho. by rewrite Hc in Ho.
  - left. rewrite (mirrored_one_call cfg now r o Ho Hr) in Hq.
    destruct (mirror_next o ans) as [[a l]|q'] eqn:Hm.
    + destruct (request_next cfg (now, r) [a]) as [[out l']|q'] eqn:E; [done|].
      injection Hq as _ <-. eauto.
    + injection Hq as ->. apply mirror_next_forwards in Hm as ->. eauto.
Qed.

Lemma mirror_act_integrity p ans sd q st :
  mirrored_next cfg p ans = inr (sd, q) → integrity (mirrored_cfg primary mirror cfg) st →
  integrity (mirrored_cfg primary mirror cfg) (run_state (mirror_act primary mirror (sd, q)) st).
Proof.
  intros Hq Hi. destruct st as [s t].
  assert (∀ c d, q = OPush c d → verified (CID_String c) d) as Hpush.
  { intros c d ->. destruct (mirrored_asks p ans sd _ Hq) as [[ans' Ha]|Hn]; [|by destruct (Hn c d)].
    destruct (request_asks_push cfg p ans' c d Ha) as [r' Hp]. exists c. split; [|split; [done|]].
    - eexists. apply (pushable_cid _ _ _ _ _ Hp).
    - by apply (pushable_digest _ _ _ _ _ Hp). }
  assert (∀ {Y} (B : BackendProvider Y) `{!Sound B} y k x,
    may (run_state (exec B q) y) k x → may y k x ∨ verified k x) as Hexec.
  { intros Y B HB y k x. destruct q as [c d|c|c|c|c|now c e|]; cbn [exec]; run; intros Hm;
      [|left; eauto using may_fetch, may_pin, may_exists, may_delete, may_resolve, may_healthy..].
    apply may_push in Hm as [?|[-> ->]]; eauto. }
  intros k x. specialize (Hi k x). cbn in Hi.
  destruct sd; [rewrite mirror_act_primary_state|rewrite mirror_act_mirror_state];
    intros [Hm|Hm]; cbn [fst snd] in Hm; try (apply Hexec in Hm as [Hm|?]; [|done]); auto.
Qed.

(** What a fetch over the mirror returns was an answer of one of the sides. *)
Lemma mirror_fetch_answer c ans a l :
  mirror_next (OFetch c) ans = inl (a, l) →
  ∀ x, a = ABytes (Ok x) → ∃ sd, (sd, ABytes (Ok x)) ∈ ans.
Proof.
  assert (∀ sd b, b ∈ answers_of sd ans → (sd, b) ∈ ans) as Hin.
  { intros sd b ([sd' b'] & Hb & E)%list_elem_of_omap. case_decide; [|done]. by injection E as ->; subst. }
  unfold mirror_next, replay_sides. intros Hn x ->. revert Hn.
  destruct (answers_of Primary ans) as [|a1 l1] eqn:E1; [by destruct (answers_of Mirror ans)|].
  destruct a1 as [?|[y|?]|?|?]; cbn;
    [|intros [= <- _]; exists Primary; apply Hin; rewrite E1; by left|..];
    destruct (answers_of Mirror ans) as [|b1 l2] eqn:E2; try done; cbn; intros [= Hb _];
    (destruct b1 as [?|?|?|?]; try done); cbn in Hb; subst; exists Mirror; apply Hin; rewrite E2; by left.
Qed.

(** The process of a download: its own CID asked of either side, then an answer
    of one of them. *)
Lemma mirrored_fetch now r cid ans :
  routed r = Some (RFetch, cid) →
  match mirrored_next cfg (now, r) ans with
  | inr (_, q) => ∃ c, ParseCID cid = Ok c ∧ q = OFetch c
  | inl (out, _) => ∀ resp, out = Respond resp → status resp = StatusOK →
      ∃ sd, (sd, ABytes (Ok (resp_body resp))) ∈ ans
  end.
Proof.
  intros Hr. pose proof (λ l, request_asks_fetch cfg now r cid l Hr) as Hf.
  assert (∀ cid', routed r ≠ Some (RResolve, cid')) as Hnr by (intros; congruence).
  destruct (parseCIDFromPath (with_cid r cid)) as [c|e] eqn:Hc.
  - rewrite (mirrored_one_call cfg now r (OFetch c) (Hf []) Hnr).
    destruct (mirror_next (OFetch c) ans) as [[a l]|[sd q]] eqn:Hm.
    + rewrite Hf. intros resp [= <-]. unfold fetch_answer.
      destruct a as [?|[x|?]|?|?]; cbn; try (by destruct (errors_Is _ _)); try done.
      intros _. by eapply mirror_fetch_answer.
    + exists c. split; [|by eapply mirror_next_forwards].
      unfold parseCIDFromPath in Hc. cbn in Hc. by case_match.
  - rewrite (mirrored_no_call cfg now r _ _ (Hf [])). by intros resp [= <-].
Qed.

Definition good_thread (q : Thread (Z * Request) (Side * Answer) Outcome) : Prop :=
  match q with
  | Waiting _ => True
  | Running p ans => ∀ cid sd x, routed p.2 = Some (RFetch, cid) → (sd, ABytes (Ok x)) ∈ ans → good cid x
  | Done p out => good_outcome p.2 out
  end.

Definition sound_mirror_pool (c : (S * T) * list (Thread (Z * Request) (Side * Answer) Outcome)) : Prop :=
  integrity (mirrored_cfg primary mirror cfg) c.1 ∧ Forall good_thread c.2.

(** Bytes a side answers to a fetch, in a state with integrity. *)
Lemma side_answer_good st sd sd' c x cid :
  integrity (mirrored_cfg primary mirror cfg) st → ParseCID cid = Ok c →
  run_val (mirror_act primary mirror (sd, OFetch c)) st = (sd', ABytes (Ok x)) → good cid x.
Proof.
  intros Hi Hc Hv. destruct st as [s t].
  assert (verified (CID_String c) x) as (c' & Hp & Hk & Hd).
  { destruct sd; [rewrite mirror_act_primary_val in Hv|rewrite mirror_act_mirror_val in Hv];
      cbn [exec] in Hv; rewrite run_val_fmap in Hv; injection Hv as _ Hv;
      apply (Hi (CID_String c) x); [left|right]; by apply fetch_may. }
  assert (parsed c) as Hpc by (by eexists). rewrite <- (CID_String_inj c c' Hpc Hp Hk) in Hd.
  exists c. split; [done|]. split; [done|]. by apply CID_Verify_spec.
Qed.

Lemma sound_mirror_step c c' :
  sound_mirror_pool c → mirrored_step primary mirror cfg c c' → sound_mirror_pool c'.
Proof.
  intros [Hi Hf] Hs.
  destruct Hs as [st ps i p Hl|st ps i p ans [sd q] Hl Ho|st ps i p ans out l Hl Ho]; cbn [fst snd] in *;
    pose proof (Forall_lookup_1 _ _ _ _ Hf Hl) as Hq; cbn [good_thread] in Hq;
    (split; cbn [fst snd]; [|apply Forall_insert; [done|]]); cbn [good_thread].
  - done.
  - by intros cid sd x _ ?%elem_of_nil.
  - by eapply mirror_act_integrity.
  - intros cid sd' x Hr [Hin|Hin%list_elem_of_singleton]%elem_of_app; [by eapply Hq|].
    destruct p as [now r]. pose proof (mirrored_fetch now r cid ans Hr) as Hm. rewrite Ho in Hm.
    destruct Hm as (c & Hc & ->). by eapply side_answer_good.
  - done.
  - intros cid resp Hr -> Hst. destruct p as [now r].
    pose proof (mirrored_fetch now r cid ans Hr) as Hm. rewrite Ho in Hm.
    destruct (Hm resp eq_refl Hst) as [sd Hin]. by eapply Hq.
Qed.
End Integrity.

(** ** Theorem *)

(** C19. Integrity of a mirrored deployment: with [VerifyOnPush] on, over any two backends
    that return only what was pushed to them (however either fails otherwise),
    both started empty, in every state that any interleaving of any requests
    reaches, where other requests run also between the primary's and the
    mirror's half of one operation, every download answered 200 is the content
    its CID names. *)
Theorem mirrored_integrity `{SDKLaws} {S T X} (primary : BackendProvider S) (mirror : BackendProvider T)
    `{!Sound primary} `{!Sound mirror} (cfg : ServerConfig X) s t reqs st' ps' i now r cid resp :
  VerifyOnPush cfg = true → (∀ k x, ¬ may s k x) → (∀ k x, ¬ may t k x) →
  rtc (mirrored_step primary mirror cfg) ((s, t), arrived reqs) (st', ps') →
  ps' !! i = Some (Done (now, r) (Respond resp)) → routed r = Some (RFetch, cid) →
  status resp = StatusOK →
  ∃ c, ParseCID cid = Ok c ∧ CID_Verify c (resp_body resp) = true ∧
    ComputeWith (resp_body resp) (Algorithm c) = c.
Proof.
  intros Hv Hs0 Ht0 Hs Hi Hr Hst. assert (sound_mirror_pool primary mirror cfg (st', ps')) as [_ Hf].
  { eapply psteps_invariant; [intros c1 c2; by apply sound_mirror_step|exact Hs|].
    split; [by intros k x [?%Hs0|?%Ht0]|]. apply Forall_fmap, Forall_true. done. }
  by apply (Forall_lookup_1 _ _ _ _ Hf Hi cid resp).
Qed.

(** ** Witness: a download between the two halves of an upload *)

#[local] Instance ex_mem_sound : Sound ex_mem := InMemoryBackend_sound.

Definition ex_between : (content * content) * list (Thread (Z * Request) (Side * Answer) Outcome) :=
  schedule (mirrored_next ex_cfg) (mirror_act ex_mem ex_mem) ((ex_empty, ex_empty), arrived ex_reqs)
    [0; 0; 1; 1; 1; 0; 0]%nat.

Lemma ex_between_steps : rtc (mirrored_step ex_mem ex_mem ex_cfg) ((ex_empty, ex_empty), arrived ex_reqs)
  (ex_between.1, answered ex_reqs ex_outs).
Proof. unfold ex_between. apply schedule_steps. vm_compute. reflexivity. Qed.

Lemma mirrored_integrity_witness :
  ∃ c, ParseCID hello_cs = Ok c ∧ CID_Verify c hello = true ∧ ComputeWith hello (Algorithm c) = c.
Proof.
  apply (mirrored_integrity ex_mem ex_mem ex_cfg ex_empty ex_empty ex_reqs ex_between.1
    (answered ex_reqs ex_outs) 1 0 (ex_request "GET") hello_cs (fetched hello)).
  - reflexivity.
  - intros k x. vm_compute. discriminate.
  - intros k x. vm_compute. discriminate.
  - exact ex_between_steps.
  - reflexivity.
  - vm_compute. reflexivity.
  - reflexivity.
Defined.
