(* ===== verification/KeyConcurrent.v ===== *)
(** * Concurrent operations of one key service

    keyservice/pkcs11.go guards [GenerateAndEncrypt], [WrapForRecipient],
    [Decrypt] and [Delete] with one mutex, so each is a critical section;
    [Rotate], in all three services, holds no lock of its own and is three such
    sections.  (The mutex of the other two guards only their in-process cache:
    what whole sections can do there, their finer interleavings can do too.)
    An operation in progress is a process over the sections, read off
    [rotate_with] itself over a scripted service; the plaintext [Rotate] holds
    between its sections is in a buffer of its own. *)

From stdpp Require Import relations.
From S2P Require Import Prelude GoStrings Encoding Sha256 Json Url Storage Http Time Backends Reference AesGcm KeyService KeyRest Fakes GcpKms Vault Pkcs11 KeyServices KeyWitnesses.
From S2P Require Import Concurrent.

Open Scope Z_scope.

(** ** Critical sections *)

Inductive Critical :=
  | SGenerate (pt : list Byte.byte)
  | SWrap (c : CID) (pub : list Byte.byte)
  | SDecrypt (c : CID) (ct : list Byte.byte)
  | SDelete (c : CID).

Inductive Reply :=
  | RPair (r : Result (CID * list Byte.byte))
  | RBytes (r : Result (list Byte.byte))
  | RErr (r : option error).

Definition enter {W} (ks : ArtifactKeyService (W * Proc)) (q : Critical) : M (W * Proc) Reply :=
  match q with
  | SGenerate pt => RPair <$> GenerateAndEncrypt ks pt
  | SWrap c pub => RBytes <$> WrapForRecipient ks c pub
  | SDecrypt c ct => RBytes <$> Decrypt ks c ct
  | SDelete c => RErr <$> ks_Delete ks c
  end.

(** ** The scripted service *)

Record KeyScript := MkKeyScript { replies : list Reply; wanted : option Critical }.

Definition want (q : Critical) : M KeyScript (option Reply) := λ sc,
  match replies sc with
  | a :: l => (Some a, MkKeyScript l (wanted sc), [])
  | [] => (None, MkKeyScript [] (Some (default q (wanted sc))), [])
  end.

Definition reply_pair (a : option Reply) : Result (CID * bytes) :=
  match a with Some (RPair r) => r | _ => Err no_answer end.
Definition reply_bytes (a : option Reply) : Result bytes :=
  match a with Some (RBytes r) => r | _ => Err no_answer end.
Definition reply_err (a : option Reply) : option error :=
  match a with Some (RErr r) => r | _ => Some no_answer end.

(** ** Operations as processes *)

(** One section, or a rotation. *)
Inductive KeyOp := KLocked (q : Critical) | KRotate (c : CID) (ct : list Byte.byte).

Inductive KeyResult := KReply (a : Reply) | KRotated (r : CID * list Byte.byte * option error).

Section Processes.
Context `{SDK} {W : Type}.
Variables (ks : ArtifactKeyService (W * Proc)) (tag : string).

(** [Rotate] over the script. *)
Definition scripted_rotate (c : CID) (ct : bytes) : M (KeyScript * Proc) (CID * bytes * option error) :=
  rotate_with tag (λ c ct, reply_bytes <$> remote (want (SDecrypt c ct)))
    (λ pt, reply_pair <$> remote (want (SGenerate pt)))
    (λ c, reply_err <$> remote (want (SDelete c))) c ct.

Definition key_next (o : KeyOp) (ans : list Reply) : (KeyResult * list LogRecord) + Critical :=
  match o with
  | KLocked q => match ans with [] => inr q | a :: _ => inl (KReply a, []) end
  | KRotate c ct =>
      let '(r, (sc, _), l) := scripted_rotate c ct (MkKeyScript ans None, new_proc) in
      match wanted sc with Some q => inr q | None => inl (KRotated r, l) end
  end.

Definition key_step := pstep key_next (enter ks).

(** A rotation by the replies it has. *)
Lemma rotate_first c ct : key_next (KRotate c ct) [] = inr (SDecrypt c ct).
Proof. reflexivity. Qed.
Lemma rotate_second c ct pt : key_next (KRotate c ct) [RBytes (Ok pt)] = inr (SGenerate pt).
Proof. reflexivity. Qed.
Lemma rotate_third c ct pt new :
  key_next (KRotate c ct) [RBytes (Ok pt); RPair (Ok new)] = inr (SDelete c).
Proof. reflexivity. Qed.
Lemma rotate_last c ct pt new :
  key_next (KRotate c ct) [RBytes (Ok pt); RPair (Ok new); RErr None] = inl (KRotated (new, None), []).
Proof. reflexivity. Qed.
Lemma rotate_refused c ct e :
  key_next (KRotate c ct) [RBytes (Err e)] = inl (KRotated (no_artifact, Some e), []).
Proof. reflexivity. Qed.
End Processes.

(** ** Under the contract *)

Section Contract.
Context `{SDK} `{ArtifactSDK W} (ks : ArtifactKeyService (W * Proc)) (R : W → keyring → Prop).
Context (draw : W → bytes * bytes) `{!KeyContract ks R draw}.
Variable tag : string.

(** What the sections of a rotation reply. *)
Lemma enter_decrypt c ct s m key nonce pt :
  R s.1 m → m !! key_id c = Some (key, nonce) → aesGCMSeal key nonce pt = Ok ct →
  run_val (enter ks (SDecrypt c ct)) s = RBytes (Ok pt) ∧ R (run_state (enter ks (SDecrypt c ct)) s).1 m.
Proof.
  intros HR Hm Hs. cbn [enter]. run. rewrite (decrypt_present ks R draw c ct s m _ _ _ HR Hm Hs).
  split; [done|]. apply (con_decrypt (ks:=ks) (draw:=draw) c ct s m HR).
Qed.

Lemma enter_generate pt s m key nonce ct :
  R s.1 m → draw s.1 = (key, nonce) → aesGCMSeal key nonce pt = Ok ct → m !! key_id (Compute ct) = None →
  run_val (enter ks (SGenerate pt)) s = RPair (Ok (Compute ct, ct)) ∧
  R (run_state (enter ks (SGenerate pt)) s).1 (<[key_id (Compute ct) := (key, nonce)]> m).
Proof.
  intros HR Hd Hs Hf. cbn [enter]. run.
  destruct (con_generate (ks:=ks) pt s m _ _ HR Hd) as (ct' & Hs' & Hg).
  assert (ct' = ct) as -> by congruence. destruct (Hg Hf) as [-> ?]. done.
Qed.

Lemma enter_delete c s m :
  R s.1 m → run_val (enter ks (SDelete c)) s = RErr None ∧
    R (run_state (enter ks (SDelete c)) s).1 (delete (key_id c) m).
Proof.
  intros HR. cbn [enter]. run. destruct (con_delete (ks:=ks) (draw:=draw) c s m HR) as [-> ?]. done.
Qed.

(** Alone, the process returns what [Rotate] returns. *)
Lemma rotate_alone c ct s m key nonce pt key' nonce' ct' :
  R s.1 m → m !! key_id c = Some (key, nonce) → aesGCMSeal key nonce pt = Ok ct →
  draw (run_state (Decrypt ks c ct) s).1 = (key', nonce') → aesGCMSeal key' nonce' pt = Ok ct' →
  m !! key_id (Compute ct') = None →
  run_val (drive (key_next tag) (enter ks) 3 (KRotate c ct) []) s
    = Some (KRotated (run_val (Rotate ks c ct) s)).
Proof.
  intros HR Hm Hs Hd Hs' Hf.
  destruct (rotate_run ks R draw c ct s m _ _ _ _ _ HR Hm Hs Hd) as (ct2 & Hs2 & Hg).
  assert (ct2 = ct') as -> by congruence. destruct (Hg Hf) as [-> _].
  destruct (enter_decrypt c ct s m _ _ _ HR Hm Hs) as [Hv1 HR1].
  edestruct (drive_call (key_next tag) (enter ks)) as [-> _]; [apply rotate_first|]. rewrite Hv1.
  assert (run_state (enter ks (SDecrypt c ct)) s = run_state (Decrypt ks c ct) s) as E by (cbn [enter]; by run).
  rewrite <- E in Hd. destruct (enter_generate pt _ m _ _ ct' HR1 Hd Hs' Hf) as [Hv2 HR2].
  edestruct (drive_call (key_next tag) (enter ks)) as [-> _]; [apply rotate_second|]. rewrite Hv2.
  destruct (enter_delete c _ _ HR2) as [Hv3 _].
  edestruct (drive_call (key_next tag) (enter ks)) as [-> _]; [apply rotate_third|]. rewrite Hv3.
  edestruct (drive_ret (key_next tag) (enter ks)) as [-> _]; [apply rotate_last|]. done.
Qed.
End Contract.

(** ** Two rotations of one artifact *)

Section Race.
Context `{SDK} `{ArtifactSDK W} (ks : ArtifactKeyService (W * Proc)) (R : W → keyring → Prop).
Context (draw : W → bytes * bytes) `{!KeyContract ks R draw}.
Variables (tag : string) (c : CID) (ct : bytes).

Definition both_at (p q : list Reply) : list (Thread KeyOp Reply KeyResult) :=
  [Running (KRotate c ct) p; Running (KRotate c ct) q].

(** A section entered by the first, and by the second. *)
Lemma first_enters p q o s :
  key_next tag (KRotate c ct) p = inr o →
  key_step ks tag (s, both_at p q)
    (run_state (enter ks o) s, both_at (p ++ [run_val (enter ks o) s]) q).
Proof. intros E. by apply (step_act _ _ s (both_at p q) 0). Qed.

Lemma second_enters p q o s :
  key_next tag (KRotate c ct) q = inr o →
  key_step ks tag (s, both_at p q)
    (run_state (enter ks o) s, both_at p (q ++ [run_val (enter ks o) s])).
Proof. intros E. by apply (step_act _ _ s (both_at p q) 1). Qed.

(** Both start before the first section, and both return after the last. *)
Lemma both_run s s' pt new1 new2 :
  let full new := [RBytes (Ok pt); RPair (Ok new); RErr None] in
  rtc (key_step ks tag) (s, both_at [] []) (s', both_at (full new1) (full new2)) →
  rtc (key_step ks tag) (s, arrived [KRotate c ct; KRotate c ct])
    (s', answered [KRotate c ct; KRotate c ct] [KRotated (new1, None); KRotated (new2, None)]).
Proof.
  intros full Hs.
  eapply rtc_l; [by apply (step_start _ _ _ _ 0)|]. eapply rtc_l; [by apply (step_start _ _ _ _ 1)|].
  etransitivity; [exact Hs|].
  eapply rtc_l; [by eapply (step_finish _ _ _ _ 0)|]. eapply rtc_l; [by eapply (step_finish _ _ _ _ 1)|].
  apply rtc_refl.
Qed.

(** A rotation of an artifact that has no key is refused. *)
Lemma rotate_absent s m :
  R s.1 m → m !! key_id c = None →
  ∃ e, run_val (Rotate ks c ct) s = (no_artifact, Some e) ∧ errors_Is e ErrKeyNotFound = true.
Proof.
  intros HR Hm. destruct (con_rotate (ks:=ks) (R:=R) (draw:=draw)) as [tag' ->].
  destruct (decrypt_absent ks R draw c ct s m HR Hm) as (e & Hd & He).
  exists e. split; [by apply rotate_with_down|done].
Qed.

(** C27. The mutex of a key service does not make [Rotate] atomic.  Over a keyring that
    holds a key for the artifact, two rotations of it can interleave so that
    both succeed: both have decrypted before either deletes, and the keyring
    ends with two live keys, each with a ciphertext of the same plaintext,
    while the old CID is erased.  One after the other this is impossible: once
    the keyring holds no key for the CID, [Rotate] returns ErrKeyNotFound. *)
Theorem rotate_race s m key nonce pt key1 nonce1 ct1 key2 nonce2 ct2 :
  R s.1 m → m !! key_id c = Some (key, nonce) → aesGCMSeal key nonce pt = Ok ct →
  let s2 := run_state (enter ks (SDecrypt c ct)) (run_state (enter ks (SDecrypt c ct)) s) in
  let s3 := run_state (enter ks (SGenerate pt)) s2 in
  draw s2.1 = (key1, nonce1) → aesGCMSeal key1 nonce1 pt = Ok ct1 →
  draw s3.1 = (key2, nonce2) → aesGCMSeal key2 nonce2 pt = Ok ct2 →
  m !! key_id (Compute ct1) = None → m !! key_id (Compute ct2) = None →
  key_id (Compute ct1) ≠ key_id (Compute ct2) →
  let ops := [KRotate c ct; KRotate c ct] in
  (∃ s', rtc (key_step ks tag) (s, arrived ops)
           (s', answered ops [KRotated (Compute ct1, ct1, None); KRotated (Compute ct2, ct2, None)]) ∧
     run_val (Decrypt ks (Compute ct1) ct1) s' = Ok pt ∧
     run_val (Decrypt ks (Compute ct2) ct2) s' = Ok pt ∧
     ∃ e, run_val (Decrypt ks c ct) s' = Err e ∧ errors_Is e ErrKeyNotFound = true) ∧
  (∀ s0 m0, R s0.1 m0 → m0 !! key_id c = None →
     ∃ e, run_val (Rotate ks c ct) s0 = (no_artifact, Some e) ∧ errors_Is e ErrKeyNotFound = true).
Proof.
  intros HR Hm Hs s2 s3 Hd1 Hs1 Hd2 Hs2 Hf1 Hf2 Hne ops. split; [|apply rotate_absent].
  destruct (enter_decrypt ks R draw c ct s m _ _ _ HR Hm Hs) as [V1 R1].
  destruct (enter_decrypt ks R draw c ct _ m _ _ _ R1 Hm Hs) as [V2 R2]. fold s2 in R2.
  destruct (enter_generate ks R draw pt s2 m _ _ ct1 R2 Hd1 Hs1 Hf1) as [V3 R3]. fold s3 in R3.
  destruct (enter_generate ks R draw pt s3 _ _ _ ct2 R3 Hd2 Hs2) as [V4 R4].
  { by rewrite lookup_insert_ne. }
  destruct (enter_delete ks R draw c _ _ R4) as [V5 R5].
  destruct (enter_delete ks R draw c _ _ R5) as [V6 R6]. rewrite delete_delete_eq in R6.
  eexists. split.
  { apply (both_run s _ pt (Compute ct1, ct1) (Compute ct2, ct2)).
    eapply rtc_l; [apply first_enters, rotate_first|]. rewrite V1.
    eapply rtc_l; [apply second_enters, rotate_first|]. rewrite V2. fold s2.
    eapply rtc_l; [apply first_enters, rotate_second|]. rewrite V3. fold s3.
    eapply rtc_l; [apply second_enters, rotate_second|]. rewrite V4.
    eapply rtc_l; [apply first_enters, rotate_third|]. rewrite V5.
    eapply rtc_l; [apply second_enters, rotate_third|]. rewrite V6. apply rtc_refl. }
  assert (key_id c ≠ key_id (Compute ct1) ∧ key_id c ≠ key_id (Compute ct2)) as [Hc1 Hc2]
    by (split; congruence).
  split_and!.
  - eapply (decrypt_present ks R draw); [exact R6| |exact Hs1].
    rewrite lookup_delete_ne, lookup_insert_ne by done. apply lookup_insert_eq.
  - eapply (decrypt_present ks R draw); [exact R6| |exact Hs2].
    rewrite lookup_delete_ne by done. apply lookup_insert_eq.
  - eapply (decrypt_absent ks R draw); [exact R6|]. apply lookup_delete_eq.
Qed.
End Race.

(** ** Witness: the GCP fakes *)

#[local] Abbreviation ex_decrypted :=
  (run_state (enter ex_gcp_service (SDecrypt (Compute ex_ct) ex_ct))
    (run_state (enter ex_gcp_service (SDecrypt (Compute ex_ct) ex_ct)) ex_gcp_state1)).
#[local] Abbreviation ex_generated :=
  (run_state (enter ex_gcp_service (SGenerate ex_secret)) ex_decrypted).

(** The ciphertext of the key a state draws. *)
Definition sealed_at (s : (N * GCPFake) * Proc) : bytes :=
  let '(key, nonce) := rand_draw s.1 in
  match aesGCMSeal key nonce ex_secret with Ok ct => ct | Err _ => [] end.
Definition ex_ct1 : bytes := Eval vm_compute in sealed_at ex_decrypted.
Definition ex_ct2 : bytes := Eval vm_compute in sealed_at ex_generated.

Lemma rotate_race_witness :
  let ops := [KRotate (Compute ex_ct) ex_ct; KRotate (Compute ex_ct) ex_ct] in
  ∃ s', rtc (key_step ex_gcp_service "gcpkms") (ex_gcp_state1, arrived ops)
          (s', answered ops [KRotated (Compute ex_ct1, ex_ct1, None); KRotated (Compute ex_ct2, ex_ct2, None)]) ∧
    run_val (Decrypt ex_gcp_service (Compute ex_ct1) ex_ct1) s' = Ok ex_secret ∧
    run_val (Decrypt ex_gcp_service (Compute ex_ct2) ex_ct2) s' = Ok ex_secret.
Proof.
  destruct (con_generate (KeyContract:=ex_contract) ex_secret ex_gcp_state ∅ _ _ ex_gcp_holds eq_refl)
    as (ct & Hs & Hg).
  assert (ct = ex_ct) as -> by (vm_compute in Hs; by injection Hs as <-).
  destruct (Hg (lookup_empty _)) as [_ HR].
  destruct (rotate_race ex_gcp_service (gcp_holds ex_gcp) rand_draw (KeyContract0:=ex_contract) "gcpkms"
    (Compute ex_ct) ex_ct ex_gcp_state1 _ _ _ ex_secret
    (rand_draw ex_decrypted.1).1 (rand_draw ex_decrypted.1).2 ex_ct1
    (rand_draw ex_generated.1).1 (rand_draw ex_generated.1).2 ex_ct2
    HR (lookup_insert_eq _ _ _) Hs) as [(s' & H1 & H2 & H3 & _) _].
  - exact (surjective_pairing (rand_draw ex_decrypted.1)).
  - vm_compute. reflexivity.
  - exact (surjective_pairing (rand_draw ex_generated.1)).
  - vm_compute. reflexivity.
  - rewrite lookup_insert_ne; [apply lookup_empty|]. by vm_compute.
  - rewrite lookup_insert_ne; [apply lookup_empty|]. by vm_compute.
  - by vm_compute.
  - exists s'. split; [exact H1|]. split; [exact H2|exact H3].
Defined.
