(* ===== verification/Main.v ===== *)
(** * cmd/artifact-store/main.go: the start-up sequence

    [main] up to the call of [ListenAndServe]: configuration, watchdog, upload
    token verifier, backend, key service and the server configuration, in that
    order, each failure logged and fatal; and the server it configures, under
    concurrent requests. *)

From stdpp Require Import relations.
From S2P Require Import KeyService GcpKms Vault Pkcs11 KeyServices.
From S2P Require Import Prelude GoStrings Encoding Sha256 Json Url Storage Http Backends Reference Fakes Gcs Rustfs Token Time Config Api Server Startup System Witnesses.
From S2P Require Import Concurrent.

Open Scope Z_scope.

(** [logger.Error(msg, "error", err)] and [os.Exit(1)]. *)
Definition fatal {S A} (msg : string) (e : error) : M S (Result A) :=
  _ ← log (MkLog LevelError msg [("error", AStr (Error e))]); mret (Err e).

(** The record of a process that starts serving. *)
Definition starting (cfg : config.Config) : list (string * attr) :=
  [("addr", AStr (config.ListenAddr cfg)); ("backend", AStr (config.Backend cfg));
   ("keyservice", AStr (config.KeyService cfg)); ("env", AStr (config.Env cfg));
   ("verify_on_push", ABool (config.VerifyOnPush cfg));
   ("upload_token_policy", AStr (config.RequireUploadToken cfg));
   ("max_body_size", AInt (config.MaxBodySize cfg))].

Section Main.
Context `{SDK} `{SDKMemory} `{Diag} `{Pem} {N W T : Type}.
Variables (client : Client N) (fs : FS) (adc : Result (Client W)) (load : string → option (Ctx T)).

(** [main] under the environment [env], up to serving.  The watchdog's ticker
    has not fired yet.  The key service is selected and not used. *)
Definition start (env : string → string) : M T (Result (ServerConfig (World N * World N))) :=
  match config.Load env with
  | Err e => fatal "config load failed" e
  | Ok cfg =>
      _ ← runVerifyOnPushWatchdog cfg 0;
      v ← buildUploadTokenVerifier fs cfg;
      match v with
      | Err e => fatal "upload token verifier init failed" e
      | Ok verifier =>
          match initBackend client cfg with
          | Err e => fatal "backend init failed" e
          | Ok backend =>
              ks ← initKeyService adc load cfg;
              match ks with
              | Err e => fatal "keyservice init failed" e
              | Ok _ =>
                  _ ← info "artifact store starting" (starting cfg);
                  mret (Ok (server_config cfg backend verifier))
              end
          end
      end
  end.

(** What a process that serves has been through. *)
Lemma start_Ok env t sc : run_val (start env) t = Ok sc →
  ∃ cfg v backend ks t1, config.Load env = Ok cfg ∧
    run_val (buildUploadTokenVerifier fs cfg) t1 = Ok v ∧
    initBackend client cfg = Ok backend ∧
    run_val (initKeyService adc load cfg) (run_state (buildUploadTokenVerifier fs cfg) t1) = Ok ks ∧
    sc = server_config cfg backend v.
Proof.
  unfold start, fatal. destruct (config.Load env) as [cfg|e]; [|by run]. run.
  destruct (run_val (buildUploadTokenVerifier fs cfg) _) as [v|e] eqn:Hv; [|by run].
  destruct (initBackend client cfg) as [backend|e] eqn:Hb; [|by run]. run.
  destruct (run_val (initKeyService adc load cfg) _) as [ks|e] eqn:Hk; [|by run]. run.
  intros [= <-]. by eexists _, v, backend, ks, _.
Qed.

(** The start-up never meets a backend it does not know: what [config.Load]
    accepts, [initBackend] constructs. *)
Lemma loaded_backend env cfg : config.Load env = Ok cfg → ∃ backend, initBackend client cfg = Ok backend.
Proof.
  intros [[Hb Hm _ _ _] ->]%config.validate_Ok. unfold config.with_body_limit, initBackend.
  assert (∀ c name mirror, name ∈ ["gcs"; "rustfs"; "memory"] →
    ∃ B, createBackend client name c mirror = Ok B) as Hc.
  { intros c name mirror Hn. unfold createBackend.
    repeat (apply elem_of_cons in Hn as [->|Hn]; [by eexists|]). by apply elem_of_nil in Hn. }
  set (cfg := if _ <=? 0 then _ else _).
  assert (config.Backend cfg ∈ ["gcs"; "rustfs"; "memory"]) as Hb' by (unfold cfg; by destruct (_ <=? 0)).
  assert (config.MirrorBackend cfg ∈ [""; "gcs"; "rustfs"]) as Hm' by (unfold cfg; by destruct (_ <=? 0)).
  destruct (Hc cfg _ false Hb') as [B ->]. cbn [map_err mbind Result_bind].
  destruct (String.eqb_spec (config.MirrorBackend cfg) "") as [_|Hne]; cbn [negb]; [by eexists|].
  destruct (Hc cfg (config.MirrorBackend cfg) true) as [B' ->]; [set_solver|]. by eexists.
Qed.

(** C35. Policy "required" in the environment is enforced by the running service: when
    [main] gets as far as serving, every push to the server it configured has
    an effect or is answered 200 only with an unexpired token for its CID and
    size, signed by one of the operator keys loaded from the environment under
    that key's kid. *)
Theorem start_enforces_required env t sc now r s :
  run_val (start env) t = Ok sc → env "ARTIFACT_REQUIRE_UPLOAD_TOKEN" = "required" →
  let h := push_handler sc in
  run_state (push_ServeHTTP h now r) s ≠ s ∨
    (∃ resp, run_val (push_ServeHTTP h now r) s = Some resp ∧ status resp = StatusOK) →
  ∃ cfg ks p d, config.Load env = Ok cfg ∧ load_keys fs cfg = Ok ks ∧ ks ≠ ∅ ∧
    read_body h r = (d, None) ∧ signed (MkVerifier ks) (Header_Get r "X-Upload-Token") p ∧
    claims_ok p (Header_Get r "X-Artifact-CID") (blen d) now.
Proof.
  intros (cfg & v & backend & ks & t1 & Hl & Hv & _ & _ & ->)%start_Ok Henv h Heff.
  assert (config.RequireUploadToken cfg = "required") as Hpol.
  { apply config.validate_Ok in Hl as [_ ->]. rewrite config.with_body_limit_policy. cbn.
    unfold config.envOrDefault. by rewrite Henv. }
  destruct (startup_required fs cfg t1 v backend now r s Hpol Hv Heff) as (ks' & p & d & Hk & Hne & ?).
  by exists cfg, ks', p, d.
Qed.

(** A backend in a part of the state implements the same map. *)
Lemma on_fst_refines {S U} (B : BackendProvider S) R `{!Refines B R} :
  Refines (on_backend (T:=S * U) (λ A, on_fst) B) (λ st m, R st.1 m).
Proof.
  split; intros; match goal with st : S * U |- _ => destruct st end;
    cbn [on_backend Push Fetch Pin Exists Delete Resolve Healthy fst] in *; run;
    [by apply ref_push|by apply ref_fetch|by apply ref_exists|by apply ref_pin|by apply ref_delete
    |by apply ref_resolve|by apply ref_healthy].
Qed.

(** C4. From the environment to the answers: when [main] gets as far as serving with
    no mirror configured, and the backend it selected implements the map, then
    however the goroutines of any number of requests to the server it
    configured interleave, their answers are those of the abstract service, one
    request at a time, in one order that respects real time in every state the
    run went through. *)
Theorem started_linearizable env t sc cfg primary R `{!Refines primary R} s m reqs h s' outs :
  run_val (start env) t = Ok sc → config.Load env = Ok cfg → config.MirrorBackend cfg = "" →
  createBackend client (config.Backend cfg) cfg false = Ok primary → R s.1 m →
  visits (server_step sc) (s, arrived reqs) h (s', answered reqs outs) →
  linearizes sc (λ st, R st.1) m reqs h s' outs.
Proof.
  intros (cfg' & v & backend & ks & t1 & Hl & _ & Hb & _ & ->)%start_Ok Hl' Hm Hp HR.
  assert (cfg' = cfg) as -> by congruence.
  unfold initBackend in Hb. rewrite Hp, Hm in Hb. injection Hb as <-.
  apply (run_linearizes (server_config cfg (on_backend (λ A, on_fst) primary) v));
    [apply (on_fst_refines primary R)|exact HR].
Qed.
End Main.

(** ** Witness: the deployment of Witnesses.v, started from its environment *)

#[local] Abbreviation ex_start :=
  (start (W:=()) (T:=()) (gcs_fake "https://storage.googleapis.com") ex_fs
     (Err (errors_New "no credentials")) (λ _, None) ex_environ).

(** The default environment does not start: the Vault token is missing. *)
Example start_default :
  let m := start (W:=()) (T:=()) (gcs_fake "https://storage.googleapis.com") ex_fs
             (Err (errors_New "no credentials")) (λ _, None) (λ _, "") in
  is_Ok (run_val m ()) = false ∧ log_msg <$> run_log m () = ["config load failed"].
Proof. vm_compute. done. Qed.

Definition ex_world2 : World Fake * World Fake := ((∅, new_fake), (∅, new_fake)).
Definition ex_server : ServerConfig (World Fake * World Fake) :=
  match run_val ex_start () with
  | Ok sc => sc
  | Err _ => server_config ex_config (on_backend (λ A, on_fst) (on_backend (λ A, on_fst) InMemoryBackend)) None
  end.

Lemma ex_started : run_val ex_start () = Ok ex_server.
Proof.
  assert (is_Ok (run_val ex_start ()) = true) as Hok by (vm_compute; reflexivity).
  unfold ex_server. destruct (run_val ex_start ()); [reflexivity|discriminate Hok].
Qed.

Lemma start_enforces_required_witness :
  ∃ cfg ks p d, config.Load ex_environ = Ok cfg ∧ load_keys ex_fs cfg = Ok ks ∧ ks ≠ ∅ ∧
    read_body (push_handler ex_server) (ex_post "op") = (d, None) ∧
    signed (MkVerifier ks) (Header_Get (ex_post "op") "X-Upload-Token") p ∧
    claims_ok p (Header_Get (ex_post "op") "X-Artifact-CID") (blen d) ex_now.
Proof.
  apply (start_enforces_required (W:=()) (gcs_fake "https://storage.googleapis.com") ex_fs
    (Err (errors_New "no credentials")) (λ _, None) ex_environ () ex_server ex_now (ex_post "op") ex_world2).
  - exact ex_started.
  - reflexivity.
  - right. exists (stored hello_cid hello). split; [vm_compute; reflexivity|reflexivity].
Defined.

(** The same environment with the in-memory backend, serving an upload and a
    download of the same CID. *)
Definition mem_environ (k : string) : string :=
  if String.eqb k "ARTIFACT_BACKEND" then "memory" else ex_environ k.
#[local] Abbreviation mem_client := (gcs_fake "https://storage.googleapis.com").
#[local] Abbreviation mem_start :=
  (start (W:=()) (T:=()) mem_client ex_fs (Err (errors_New "no credentials")) (λ _, None) mem_environ).
Definition mem_config : config.Config := config.with_body_limit (config.read_env mem_environ).
Definition mem_primary : BackendProvider (World Fake) := on_backend (λ A, on_fst) InMemoryBackend.
Definition mem_server : ServerConfig (World Fake * World Fake) :=
  match run_val mem_start () with
  | Ok sc => sc
  | Err _ => server_config mem_config (on_backend (λ A, on_fst) mem_primary) None
  end.

Lemma mem_started : run_val mem_start () = Ok mem_server.
Proof.
  assert (is_Ok (run_val mem_start ()) = true) as Hok by (vm_compute; reflexivity).
  unfold mem_server. destruct (run_val mem_start ()); [reflexivity|discriminate Hok].
Qed.

#[local] Instance mem_primary_refines : Refines mem_primary (λ w m, ex_R w.1 m).
Proof. apply on_fst_refines, _. Qed.

Definition mem_schedule := schedule (request_next mem_server) (exec (Backend mem_server)).
Definition mem_mid := mem_schedule (ex_world2, arrived ex_reqs) [0; 0; 0]%nat.
Definition mem_end := mem_schedule (mem_mid.1, mem_mid.2) [1; 0; 1; 1]%nat.

Lemma mem_upload : rtc (server_step mem_server) (ex_world2, arrived ex_reqs) (mem_mid.1, mem_mid.2).
Proof. unfold mem_mid, mem_schedule. apply schedule_steps. reflexivity. Qed.
Lemma mem_rest : rtc (server_step mem_server) (mem_mid.1, mem_mid.2) (mem_end.1, answered ex_reqs ex_outs).
Proof. unfold mem_end, mem_schedule. apply schedule_steps. vm_compute. reflexivity. Qed.

Lemma started_linearizable_witness : ∃ h, (mem_mid.1, mem_mid.2) ∈ h ∧
  linearizes mem_server (λ st, ex_R st.1.1) ∅ ex_reqs h mem_end.1 ex_outs.
Proof.
  destruct (visits_through _ _ _ _ mem_upload mem_rest) as (h & Hv & Hin). exists h. split; [exact Hin|].
  apply (started_linearizable (W:=()) mem_client ex_fs (Err (errors_New "no credentials")) (λ _, None)
    mem_environ () mem_server mem_config mem_primary (λ w m, ex_R w.1 m) ex_world2 ∅ ex_reqs
    h mem_end.1 ex_outs).
  - exact mem_started.
  - vm_compute. reflexivity.
  - reflexivity.
  - reflexivity.
  - reflexivity.
  - exact Hv.
Defined.
