(* ===== verification/Lifecycle.v ===== *)
(** * cmd/artifact-store/main.go: serving, signals and shutdown

    The second half of [main]: the goroutine that waits for SIGINT or SIGTERM
    and calls [srv.Shutdown], the call of [ListenAndServe] and what follows it,
    and the watchdog goroutine, as one transition system.  Of net/http it takes
    what the documentation of [Server.Shutdown] says: when it is called,
    [ListenAndServe] immediately returns [ErrServerClosed]; it closes the
    listeners, then waits for the requests in flight, up to the deadline of its
    context.  Of the language: when [main] returns or calls [os.Exit] the
    process ends, and no other goroutine is waited for; deferred calls run when
    [main] returns and not on [os.Exit]; and before [signal.Notify] has run a
    SIGINT or SIGTERM kills the process.  Once serving, writing a record, calling
    a function and ending the process are separate steps, and the other
    goroutines and the handlers of requests in flight step in between. *)

From stdpp Require Import relations.
From S2P Require Import KeyService GcpKms Vault Pkcs11 KeyServices.
From S2P Require Import Prelude GoStrings Encoding Sha256 Json Url Storage Http Backends Reference Fakes Gcs Rustfs Token Time Config Api Server Startup System Witnesses Main.

Open Scope nat_scope.

(** ** State *)

(** syscall.SIGINT and syscall.SIGTERM, with their [String()]. *)
Inductive signal := SIGINT | SIGTERM.
Definition signal_String (s : signal) : string :=
  match s with SIGINT => "interrupt" | SIGTERM => "terminated" end.

#[export] Instance signal_eq_dec : EqDecision signal.
Proof. solve_decision. Defined.

(** Where [main] is: before the start-up record, in [ListenAndServe], after it
    failed, after the record of that (before [os.Exit]), after it returned
    [ErrServerClosed], after the record of that, after the deferred [cancel()],
    or ended with an exit code or by a signal. *)
Inductive main_pc := MStarting | MListening | MFailed (e : error) | MFatal | MClosed | MStopped
  | MCancelled | MExited (code : nat) | MKilled (s : signal).

(** Where the signal goroutine is: before [signal.Notify], waiting on the channel,
    before its record, before the call of [Shutdown], in it, after it, and after
    [cancel()]. *)
Inductive sig_pc := SSpawned | SWaiting | SReceived (s : signal) | SLogged | SShutdown | SReturned | SDone.

#[export] Instance main_pc_eq_dec : EqDecision main_pc.
Proof. solve_decision. Defined.
#[export] Instance sig_pc_eq_dec : EqDecision sig_pc.
Proof. solve_decision. Defined.

(** The process; a request is known by the number of its arrival, and one in
    flight by the records its handler has still to write. *)
Record Process := MkProcess {
  at_main : main_pc;
  at_sig : sig_pc;
  inShutdown : bool;    (* http.Server.inShutdown: Shutdown has been called *)
  ctxDone : bool;       (* cancel() has been called *)
  watchdog : bool;      (* the re-warning goroutine runs *)
  accepted : nat;       (* how many requests were taken off the listener *)
  inflight : gmap nat (list LogRecord);
  responded : gset nat; (* requests answered *)
  dropped : gset nat;   (* requests in flight when the process ended *)
  output : list LogRecord }.

(** ** Transitions *)

Inductive event :=
  | EListen                       (* main logs and calls ListenAndServe *)
  | EAccept (l : list LogRecord)  (* a request arrives whose handler will write l *)
  | EHandlerLog (i : nat)         (* the handler of request i writes a record *)
  | ERespond (i : nat)            (* request i is answered *)
  | EListenErr (e : error)        (* ListenAndServe fails *)
  | ELogFailed | EOsExit          (* main logs the failure, calls os.Exit(1) *)
  | EServerClosed                 (* ListenAndServe returns ErrServerClosed *)
  | ELogStopped | EMainCancel     (* main logs, its deferred cancel() runs *)
  | EReturn                       (* main has returned: the process ends *)
  | ENotify                       (* signal.Notify *)
  | ESignal (s : signal)          (* a signal is delivered *)
  | ELogSignal | ECallShutdown    (* the goroutine logs, calls Shutdown *)
  | EShutdownDone | EDeadline     (* Shutdown returns: all answered, or 10 s passed *)
  | ECancel                       (* the goroutine cancels ctx *)
  | ETick | EWatchdogEnd.         (* the watchdog's select: ticker.C, ctx.Done() *)

Definition shutting_down (s : signal) : LogRecord :=
  MkLog LevelInfo "shutting down" [("signal", AStr (signal_String s))].
Definition server_failed (e : error) : LogRecord :=
  MkLog LevelError "server failed" [("error", AStr (Error e))].
Definition stopped_record : LogRecord := MkLog LevelInfo "artifact store stopped" [].

Definition set_main (m : main_pc) (ctx : bool) (l : list LogRecord) (p : Process) : Process :=
  MkProcess m (at_sig p) (inShutdown p) ctx (watchdog p) (accepted p) (inflight p) (responded p)
    (dropped p) (output p ++ l).
Definition set_sig (s : sig_pc) (shut ctx : bool) (l : list LogRecord) (p : Process) : Process :=
  MkProcess (at_main p) s shut ctx (watchdog p) (accepted p) (inflight p) (responded p) (dropped p)
    (output p ++ l).
Definition set_requests (acc : nat) (fl : gmap nat (list LogRecord)) (resp : gset nat)
    (l : list LogRecord) (p : Process) : Process :=
  MkProcess (at_main p) (at_sig p) (inShutdown p) (ctxDone p) (watchdog p) acc fl resp (dropped p)
    (output p ++ l).

(** The end of the process: whatever is in flight is cut off. *)
Definition exit (m : main_pc) (p : Process) : Process :=
  MkProcess m (at_sig p) (inShutdown p) (ctxDone p) (watchdog p) (accepted p) ∅ (responded p)
    (dropped p ∪ dom (inflight p)) (output p).

Definition exited (p : Process) : bool :=
  match at_main p with MExited _ | MKilled _ => true | _ => false end.

Section Lifecycle.
Variable cfg : config.Config.

(** Whether [runVerifyOnPushWatchdog] starts its goroutine. *)
Definition watched : bool := negb (config.VerifyOnPush cfg) && String.eqb (config.Env cfg) "production".

(** The process once [main] has built the server and started the goroutines. *)
Definition launched : Process := MkProcess MStarting SSpawned false false watched 0 ∅ ∅ ∅ [].

(** What the process does on an event, where the event can happen.  A signal
    that comes after the first is left in the channel. *)
Definition lstep (ev : event) (p : Process) : option Process :=
  if exited p then None
  else match ev with
  | EListen =>
      if decide (at_main p = MStarting)
      then Some (set_main MListening (ctxDone p) [MkLog LevelInfo "artifact store starting" (starting cfg)] p)
      else None
  | EAccept l =>
      if decide (at_main p = MListening ∧ inShutdown p = false)
      then Some (set_requests (Datatypes.S (accepted p)) (<[accepted p := l]> (inflight p)) (responded p) [] p)
      else None
  | EHandlerLog i =>
      match inflight p !! i with
      | Some (rec :: l) => Some (set_requests (accepted p) (<[i := l]> (inflight p)) (responded p) [rec] p)
      | _ => None
      end
  | ERespond i =>
      if decide (inflight p !! i = Some [])
      then Some (set_requests (accepted p) (delete i (inflight p)) ({[i]} ∪ responded p) [] p) else None
  | EListenErr e =>
      if decide (at_main p = MListening ∧ inShutdown p = false)
      then Some (set_main (MFailed e) (ctxDone p) [] p) else None
  | ELogFailed =>
      match at_main p with
      | MFailed e => Some (set_main MFatal (ctxDone p) [server_failed e] p)
      | _ => None
      end
  | EOsExit => if decide (at_main p = MFatal) then Some (exit (MExited 1) p) else None
  | EServerClosed =>
      if decide (at_main p = MListening ∧ inShutdown p = true)
      then Some (set_main MClosed (ctxDone p) [] p) else None
  | ELogStopped =>
      if decide (at_main p = MClosed) then Some (set_main MStopped (ctxDone p) [stopped_record] p) else None
  | EMainCancel => if decide (at_main p = MStopped) then Some (set_main MCancelled true [] p) else None
  | EReturn => if decide (at_main p = MCancelled) then Some (exit (MExited 0) p) else None
  | ENotify =>
      if decide (at_sig p = SSpawned) then Some (set_sig SWaiting (inShutdown p) (ctxDone p) [] p) else None
  | ESignal s =>
      match at_sig p with
      | SSpawned => Some (exit (MKilled s) p)
      | SWaiting => Some (set_sig (SReceived s) (inShutdown p) (ctxDone p) [] p)
      | _ => None
      end
  | ELogSignal =>
      match at_sig p with
      | SReceived s => Some (set_sig SLogged (inShutdown p) (ctxDone p) [shutting_down s] p)
      | _ => None
      end
  | ECallShutdown =>
      if decide (at_sig p = SLogged) then Some (set_sig SShutdown true (ctxDone p) [] p) else None
  | EShutdownDone =>
      if decide (at_sig p = SShutdown ∧ inflight p = ∅)
      then Some (set_sig SReturned (inShutdown p) (ctxDone p) [] p) else None
  | EDeadline =>
      if decide (at_sig p = SShutdown) then Some (set_sig SReturned (inShutdown p) (ctxDone p) [] p) else None
  | ECancel =>
      if decide (at_sig p = SReturned) then Some (set_sig SDone (inShutdown p) true [] p) else None
  | ETick =>
      if watchdog p
      then Some (set_main (at_main p) (ctxDone p) (take 1 (run_log (runVerifyOnPushWatchdog cfg 0) ())) p)
      else None
  | EWatchdogEnd =>
      if watchdog p && ctxDone p
      then Some (MkProcess (at_main p) (at_sig p) (inShutdown p) (ctxDone p) false
                   (accepted p) (inflight p) (responded p) (dropped p) (output p)) else None
  end.

Definition lifecycle (p p' : Process) : Prop := ∃ ev, lstep ev p = Some p'.

(** A run that follows a list of events. *)
Fixpoint run_events (evs : list event) (p : Process) : option Process :=
  match evs with
  | [] => Some p
  | ev :: evs => lstep ev p ≫= run_events evs
  end.

Lemma run_events_steps evs p p' : run_events evs p = Some p' → rtc lifecycle p p'.
Proof.
  revert p. induction evs as [|ev evs IH]; intros p; cbn [run_events].
  - intros [= ->]. apply rtc_refl.
  - intros (p1 & H1 & H2)%bind_Some. eapply rtc_l; [by exists ev|by apply IH].
Qed.

(** ** The requests *)

(** Every request that was accepted is in exactly one place. *)
Record accounted (p : Process) : Prop := {
  acc_all : responded p ∪ dom (inflight p) ∪ dropped p = set_seq 0 (accepted p);
  acc_flying : responded p ## dom (inflight p);
  acc_dropped : responded p ∪ dom (inflight p) ## dropped p }.

Lemma accept_accounted n (fl : gmap nat (list LogRecord)) (rs ds : gset nat) l :
  rs ∪ dom fl ∪ ds = set_seq 0 n → rs ## dom fl → rs ∪ dom fl ## ds →
  rs ∪ dom (<[n := l]> fl) ∪ ds = set_seq 0 (Datatypes.S n) ∧ rs ## dom (<[n := l]> fl) ∧
  rs ∪ dom (<[n := l]> fl) ## ds.
Proof.
  intros Ha Hd1 Hd2. rewrite dom_insert_L, set_seq_S_end_union_L, <- Ha. cbn [Nat.add].
  assert (n ∉ rs ∪ dom fl ∪ ds) as Hn by (rewrite Ha, elem_of_set_seq; lia).
  split_and!; set_solver.
Qed.

Lemma exit_accounted m p : accounted p → accounted (exit m p).
Proof.
  intros [Ha H1 H2]. split; cbn; rewrite ?dom_empty_L; [|set_solver|set_solver].
  rewrite <- Ha. set_solver.
Qed.

Lemma respond_accounted (fl : gmap nat (list LogRecord)) (rs ds : gset nat) i l :
  fl !! i = Some l → rs ## dom fl → rs ∪ dom fl ## ds →
  {[i]} ∪ rs ∪ dom (delete i fl) ∪ ds = rs ∪ dom fl ∪ ds ∧ {[i]} ∪ rs ## dom (delete i fl) ∧
  {[i]} ∪ rs ∪ dom (delete i fl) ## ds.
Proof.
  intros Hi%elem_of_dom_2 H1 H2. rewrite dom_delete_L.
  assert (dom fl = {[i]} ∪ dom fl ∖ {[i]}) as E by (apply union_difference_singleton_L; done).
  split_and!; [rewrite E at 2| |]; set_solver.
Qed.

Lemma lstep_accounted ev p p' : lstep ev p = Some p' → accounted p → accounted p'.
Proof.
  unfold lstep. destruct (exited p); [done|]. intros Hs Hacc. pose proof Hacc as [Ha H1 H2].
  destruct ev; repeat case_decide; try done; repeat case_match; try done; injection Hs as <-;
    try (apply exit_accounted, Hacc); try (split; assumption).
  - destruct (accept_accounted _ _ _ _ l Ha H1 H2) as (? & ? & ?). by split.
  - match goal with E : inflight p !! i = _ |- _ => apply elem_of_dom_2 in E as Hi end.
    split; cbn; rewrite dom_insert_L, (subseteq_union_1_L {[i]} (dom (inflight p)))
      by (by apply singleton_subseteq_l); done.
  - match goal with E : inflight p !! i = _ |- _ =>
      destruct (respond_accounted _ _ _ i _ E H1 H2) as (E1 & ? & ?) end.
    split; [cbn; by rewrite E1|done|done].
Qed.

(** ** The end *)

Definition shutdown_called (s : sig_pc) : bool :=
  match s with SShutdown | SReturned | SDone => true | _ => false end.

(** What holds of every process: [Shutdown] is called by the goroutine alone and
    after its record; requests are dropped only at the end; and each way [main]
    ends has come through its own steps. *)
Record well_run (p : Process) : Prop := {
  called : inShutdown p = shutdown_called (at_sig p);
  logged : match at_sig p with
    | SSpawned | SWaiting | SReceived _ => True
    | _ => ∃ s, shutting_down s ∈ output p
    end;
  kept : exited p = false → dropped p = ∅;
  ending : match at_main p with
    | MExited 0 => inShutdown p = true ∧ inflight p = ∅ ∧ ctxDone p = true ∧
        ∃ s, [shutting_down s; stopped_record] `sublist_of` output p
    | MExited 1 => inflight p = ∅ ∧ ∃ e, server_failed e ∈ output p
    | MExited _ => False
    | MKilled _ => at_sig p = SSpawned ∧ inflight p = ∅
    | MClosed => inShutdown p = true
    | MStopped => inShutdown p = true ∧ ∃ s, [shutting_down s; stopped_record] `sublist_of` output p
    | MCancelled => inShutdown p = true ∧ ctxDone p = true ∧
        ∃ s, [shutting_down s; stopped_record] `sublist_of` output p
    | MFatal => ∃ e, server_failed e ∈ output p
    | _ => True
    end }.

Lemma more_output {A} (P : A → LogRecord) (out l : list LogRecord) :
  (∃ x, P x ∈ out) → ∃ x, P x ∈ out ++ l.
Proof. intros [x Hx]. exists x. apply elem_of_app. by left. Qed.
Lemma new_output {A} (P : A → LogRecord) (out : list LogRecord) x : ∃ y, P y ∈ out ++ [P x].
Proof. exists x. apply elem_of_app. right. by left. Qed.
Lemma more_sublist (P : signal → list LogRecord) (out l : list LogRecord) :
  (∃ s, P s `sublist_of` out) → ∃ s, P s `sublist_of` out ++ l.
Proof. intros [s Hs]. exists s. by apply sublist_inserts_r. Qed.
Lemma stopped_last (out : list LogRecord) :
  (∃ s, shutting_down s ∈ out) → ∃ s, [shutting_down s; stopped_record] `sublist_of` out ++ [stopped_record].
Proof.
  intros [s Hs]. exists s. change [shutting_down s; stopped_record] with ([shutting_down s] ++ [stopped_record]).
  apply sublist_app; [|done]. by apply singleton_sublist_l.
Qed.
#[local] Hint Resolve more_output new_output more_sublist stopped_last : core.

Lemma lstep_well_run ev p p' : lstep ev p = Some p' → well_run p → well_run p'.
Proof.
  unfold lstep. destruct (exited p) eqn:Hex; [done|]. intros Hs [Hc Hl Hk He].
  specialize (Hk Hex). unfold exited in *.
  destruct p as [mn sg shut ctx wd acc fl rs ds out]. cbn in *.
  destruct ev; repeat case_decide; try done; repeat case_match; try done; injection Hs as <-;
    destruct_and?; subst; split; cbn in *; rewrite ?app_nil_r; try done; eauto;
    repeat case_match; try done; destruct_and?; split_and?; eauto.
Qed.

Lemma steps_invariant p p' :
  rtc lifecycle p p' → well_run p → accounted p → well_run p' ∧ accounted p'.
Proof. induction 1 as [|p0 p1 p2 [ev H1] _ IH]; eauto using lstep_well_run, lstep_accounted. Qed.

Lemma launched_well_run : well_run launched.
Proof. by split. Qed.
Lemma launched_accounted : accounted launched.
Proof. split; cbn; set_solver. Qed.

Lemma reached p : rtc lifecycle launched p → well_run p ∧ accounted p.
Proof. intros Hs. apply (steps_invariant _ _ Hs); [apply launched_well_run|apply launched_accounted]. Qed.

(** ** Progress towards the end *)

(** Every step but a tick of the watchdog. *)
Definition quiet (p p' : Process) : Prop := ∃ ev, ev ≠ ETick ∧ lstep ev p = Some p'.

(** The work left in the requests in flight: their records and their answers. *)
Definition work (fl : gmap nat (list LogRecord)) : nat :=
  map_fold (λ _ l n, Datatypes.S (length l) + n) 0 fl.

Lemma work_delete fl i l : fl !! i = Some l → work fl = Datatypes.S (length l) + work (delete i fl).
Proof. intros Hi. unfold work. apply (map_fold_delete_L (λ _ l n, Datatypes.S (length l) + n)); [intros; lia|done]. Qed.

Lemma work_insert fl i l l' : fl !! i = Some l → work (<[i := l']> fl) + length l = work fl + length l'.
Proof.
  intros Hi. rewrite (work_delete fl i l Hi), (work_delete _ i l') by apply lookup_insert_eq.
  rewrite delete_insert_eq. lia.
Qed.

(** How many of the other steps a process can still take once [Shutdown] is called. *)
Definition remaining (p : Process) : nat :=
  match at_main p with
  | MStarting => 6 | MListening => 5 | MClosed => 4 | MStopped => 3 | MCancelled => 2
  | MFailed _ => 3 | MFatal => 2 | MExited _ | MKilled _ => 0
  end +
  match at_sig p with SShutdown => 2 | SReturned => 1 | _ => 0 end +
  work (inflight p) + (if watchdog p then 1 else 0).

Lemma shutting_sig p :
  well_run p → inShutdown p = true → at_sig p = SShutdown ∨ at_sig p = SReturned ∨ at_sig p = SDone.
Proof. intros [Hc _ _ _] Hin. rewrite Hin in Hc. destruct (at_sig p); auto; done. Qed.

Lemma quiet_remaining p p' :
  quiet p p' → well_run p → inShutdown p = true → inShutdown p' = true ∧ remaining p' < remaining p.
Proof.
  intros (ev & Hne & Hs) Hw Hin. apply shutting_sig in Hw as Hsh; [|done]. clear Hw.
  unfold lstep in Hs. destruct (exited p) eqn:Hx; [done|]. unfold exited in Hx.
  destruct p as [mn sg shut ctx wd acc fl rs ds out]. cbn in *. subst shut.
  destruct ev; repeat case_decide; try done.
  all: try (injection Hs as <-; destruct_and?; subst; split; [done|]; unfold remaining, work; cbn;
    rewrite ?map_fold_empty; try (destruct mn, sg); try done; lia).
  - destruct (fl !! i) as [[|rec l]|] eqn:E; try done. injection Hs as <-. split; [done|].
    pose proof (work_insert fl i _ l E) as Hw. unfold remaining. cbn in *. lia.
  - injection Hs as <-. split; [done|]. unfold remaining. cbn.
    match goal with E : fl !! i = _ |- _ => rewrite (work_delete fl i [] E) end. cbn. lia.
  - destruct mn; try done. injection Hs as <-. split; [done|]. unfold remaining. cbn. lia.
  - destruct Hsh as [->|[->| ->]]; done.
  - destruct Hsh as [->|[->| ->]]; done.
  - destruct Hsh as [->|[->| ->]]; done.
  - destruct Hsh as [->|[->| ->]]; done.
  - destruct wd, ctx; cbn in Hs; try done. injection Hs as <-. split; [done|]. unfold remaining. cbn. lia.
Qed.

Lemma quiet_sn p : well_run p → inShutdown p = true → sn quiet p.
Proof.
  remember (remaining p) as n eqn:E. revert p E.
  induction n as [n IH] using (well_founded_induction lt_wf). intros p -> Hw Hin. constructor.
  intros p' Hq. destruct (quiet_remaining _ _ Hq Hw Hin) as [Hin' Hlt].
  destruct Hq as (ev & _ & Hs). eapply IH; eauto using lstep_well_run.
Qed.

(** Whether [ListenAndServe] failed on its own. *)
Definition fails (m : main_pc) : bool :=
  match m with MFailed _ | MFatal | MExited (Datatypes.S _) => true | _ => false end.

(** Once [Shutdown] is called [ListenAndServe] no longer fails on its own. *)
Lemma quiet_fails p p' :
  quiet p p' → well_run p → inShutdown p = true → fails (at_main p') = fails (at_main p).
Proof.
  intros (ev & Hne & Hs) Hw Hin. apply shutting_sig in Hw as Hsh; [|done]. clear Hw.
  unfold lstep in Hs. destruct (exited p) eqn:Hx; [done|]. unfold exited in Hx.
  destruct p as [mn sg shut ctx wd acc fl rs ds out]. cbn in *. subst shut.
  destruct ev; repeat case_decide; try done; repeat case_match; try done; injection Hs as <-;
    destruct_and?; destruct_or?; by simplify_eq.
Qed.

Lemma quiet_steps p p' :
  rtc quiet p p' → well_run p → inShutdown p = true →
  well_run p' ∧ inShutdown p' = true ∧ fails (at_main p') = fails (at_main p).
Proof.
  induction 1 as [|p0 p1 p2 H1 _ IH]; [done|]. intros Hw Hin.
  destruct (quiet_remaining _ _ H1 Hw Hin) as [Hin1 _]. rewrite <- (quiet_fails _ _ H1 Hw Hin).
  destruct H1 as (ev & _ & H1). eauto using lstep_well_run.
Qed.

(** The step of [main] that is enabled wherever it has not ended. *)
Definition next_step (p : Process) : event :=
  match at_main p with
  | MStarting => EListen | MListening => EServerClosed | MFailed _ => ELogFailed | MFatal => EOsExit
  | MClosed => ELogStopped | MStopped => EMainCancel | _ => EReturn
  end.

Lemma next_step_enabled p :
  exited p = false → inShutdown p = true → next_step p ≠ ETick ∧ ∃ p', lstep (next_step p) p = Some p'.
Proof.
  intros Hx Hin. split; [unfold next_step; by case_match|].
  unfold lstep. rewrite Hx. unfold exited, next_step in *.
  destruct (at_main p) eqn:Hm; try done; rewrite ?Hin, ?decide_True by done; eauto.
Qed.

(** A process that can only tick has ended, with the code of the way it went. *)
Lemma quiet_nf p :
  nf quiet p → well_run p → inShutdown p = true →
  at_main p = MExited (if fails (at_main p) then 1 else 0).
Proof.
  intros Hnf [Hc _ _ He] Hin. destruct (exited p) eqn:Hx.
  - unfold exited in Hx. destruct (at_main p) as [| | | | | | |[|[|code]]|s]; try done.
    destruct He as [Hg _]. rewrite Hg in Hc. cbn in Hc. congruence.
  - destruct (next_step_enabled p Hx Hin) as (Hne & p' & Hs). destruct Hnf. by exists p', (next_step p).
Qed.
End Lifecycle.

(** ** Theorems *)

(** C18. Accounting: in every state the process can reach, each accepted request is in
    exactly one of three places: answered, in flight, or dropped, and none is
    dropped while the process runs.  The process ends in one of three ways: with
    code 0, only after the signal goroutine has logged the signal and then called
    [Shutdown], and after [main] logged "artifact store stopped" and its deferred
    [cancel()] ran; with code 1, only after [main] logged "server failed"; or
    killed by a signal that came before [signal.Notify].  In each nothing is in
    flight any more. *)
Theorem exits_accounted cfg p :
  rtc (lifecycle cfg) (launched cfg) p →
  responded p ∪ dom (inflight p) ∪ dropped p = set_seq 0 (accepted p) ∧
  responded p ## dom (inflight p) ∧ responded p ∪ dom (inflight p) ## dropped p ∧
  match at_main p with
  | MExited 0 => inflight p = ∅ ∧ inShutdown p = true ∧ ctxDone p = true ∧
      ∃ s, [shutting_down s; stopped_record] `sublist_of` output p
  | MExited code => inflight p = ∅ ∧ code = 1 ∧ ∃ e, server_failed e ∈ output p
  | MKilled _ => inflight p = ∅ ∧ at_sig p = SSpawned ∧ inShutdown p = false
  | _ => dropped p = ∅
  end.
Proof.
  intros Hs. destruct (reached cfg p Hs) as [[Hc _ Hk He] [Ha H1 H2]]. split_and!; [done..|].
  unfold exited in Hk.
  destruct (at_main p) as [| | | | | | |[|[|code]]|s]; try (by apply Hk); try done.
  - destruct He as (? & ? & ? & ?). done.
  - destruct He as [? ?]. done.
  - destruct He as [Hg ?]. rewrite Hg in Hc. done.
Qed.

(** C17. Termination: once [Shutdown] has been called, only ticks of the watchdog can
    go on for ever: every run of the other steps is finite, and a process that
    has none of them left has exited, with code 1 if [ListenAndServe] had failed
    on its own before the call and with code 0 otherwise. *)
Theorem shutdown_terminates cfg p :
  rtc (lifecycle cfg) (launched cfg) p → inShutdown p = true →
  sn (quiet cfg) p ∧
  ∀ p', rtc (quiet cfg) p p' → nf (quiet cfg) p' →
    at_main p' = MExited (if fails (at_main p) then 1 else 0).
Proof.
  intros Hs Hin. destruct (reached cfg p Hs) as [Hw _].
  split; [by apply quiet_sn|]. intros p' Hq Hnf.
  destruct (quiet_steps cfg _ _ Hq Hw Hin) as (Hw' & Hin' & <-). by eapply quiet_nf.
Qed.

(** C16. Shutdown does not wait: on a signal, whatever is in flight, [main] can log
    "artifact store stopped" and exit with code 0 while the goroutine is still
    inside [Shutdown], before any of those requests is answered; all of them are
    dropped, and the ten-second grace period plays no part. *)
Theorem shutdown_drops_inflight cfg p s :
  rtc (lifecycle cfg) (launched cfg) p → at_main p = MListening → at_sig p = SWaiting →
  ∃ p', run_events cfg [ESignal s; ELogSignal; ECallShutdown; EServerClosed; ELogStopped; EMainCancel;
                        EReturn] p = Some p' ∧
    at_main p' = MExited 0 ∧ at_sig p' = SShutdown ∧ responded p' = responded p ∧
    dropped p' = dom (inflight p) ∧ output p' = output p ++ [shutting_down s; stopped_record].
Proof.
  intros Hs Hm Hg. destruct (reached cfg p Hs) as [[_ _ Hk _] _]. unfold exited in Hk.
  rewrite Hm in Hk. specialize (Hk eq_refl).
  destruct p as [mn sg shut ctx wd acc fl rs ds out]. cbn in Hm, Hg, Hk. subst.
  eexists. split; [reflexivity|]. cbn. split_and!; [done..|by rewrite (left_id_L ∅ (∪))|].
  by rewrite !app_nil_r, <- (base.assoc (++)).
Qed.

(** ** Witnesses: one request in flight when the signal comes *)

Definition ex_audit : LogRecord := MkLog LevelInfo "fetch" [].
Definition ex_serving : list event :=
  [ENotify; EListen; EAccept [ex_audit]; EAccept [ex_audit]; EHandlerLog 0; ERespond 0].
Definition ex_process : Process :=
  default (launched ex_config) (run_events ex_config ex_serving (launched ex_config)).
Definition ex_closing : Process :=
  default (launched ex_config)
    (run_events ex_config [ESignal SIGTERM; ELogSignal; ECallShutdown] ex_process).

Lemma ex_process_reached : rtc (lifecycle ex_config) (launched ex_config) ex_process.
Proof. apply run_events_steps with (evs := ex_serving). vm_compute. reflexivity. Qed.
Lemma ex_closing_reached : rtc (lifecycle ex_config) (launched ex_config) ex_closing.
Proof.
  etransitivity; [exact ex_process_reached|].
  apply run_events_steps with (evs := [ESignal SIGTERM; ELogSignal; ECallShutdown]).
  vm_compute. reflexivity.
Qed.

Lemma exits_accounted_witness :
  responded ex_process ∪ dom (inflight ex_process) ∪ dropped ex_process = set_seq 0 (accepted ex_process) ∧
  responded ex_process ## dom (inflight ex_process) ∧
  responded ex_process ∪ dom (inflight ex_process) ## dropped ex_process ∧
  dropped ex_process = ∅.
Proof. exact (exits_accounted ex_config ex_process ex_process_reached). Defined.

Lemma shutdown_terminates_witness :
  sn (quiet ex_config) ex_closing ∧
  ∀ p', rtc (quiet ex_config) ex_closing p' → nf (quiet ex_config) p' → at_main p' = MExited 0.
Proof.
  apply (shutdown_terminates ex_config ex_closing).
  - exact ex_closing_reached.
  - vm_compute. reflexivity.
Defined.

Lemma shutdown_drops_inflight_witness :
  ∃ p', run_events ex_config [ESignal SIGTERM; ELogSignal; ECallShutdown; EServerClosed; ELogStopped;
                              EMainCancel; EReturn] ex_process = Some p' ∧
    at_main p' = MExited 0 ∧ at_sig p' = SShutdown ∧ responded p' = responded ex_process ∧
    dropped p' = dom (inflight ex_process) ∧
    output p' = output ex_process ++ [shutting_down SIGTERM; stopped_record].
Proof.
  apply (shutdown_drops_inflight ex_config ex_process SIGTERM).
  - exact ex_process_reached.
  - vm_compute. reflexivity.
  - vm_compute. reflexivity.
Defined.
